(** * HoopiPi: a shallow embedding of the audio engine core

    The development follows the C++ sources of the repository:
    - [DCBlocker.cpp]      first-order DC blocking filter
    - [AudioRecorder.h]    lock-free SPSC ring buffer feeding the WAV writer
    - [WAVWriter.h]        PCM-16 RIFF/WAVE writer
    - [BackingTrack.cpp]   backing-track transport and [fillBuffer]
    - [ModelLoader.cpp]    background model loader with fades
    - [Engine.cpp]         the processing graph and its parameter cells

    Conventions.  C++ [float] is IEEE-754 binary32 and [double] is binary64,
    both taken from the standard library's executable [SpecFloat] operations
    (round to nearest, ties to even).  Fixed-width integers are [Z] with the
    wrap-around written out.  Buffers passed by pointer are lists indexed from
    0; a read past the end of a buffer is undefined in the source, so the
    theorems that read a buffer assume the block fits in it. *)

From Stdlib Require Import ZArith Lia Bool String Strings.Byte SpecFloat.
From stdpp Require Import base list functions.

Local Open Scope Z_scope.

(** ** Counted loops *)

(** [for (size_t i = i0; i < i0 + count; ++i) body] as state passing. *)
Fixpoint for_loop {St : Type} (i count : nat) (body : nat -> St -> St) (s : St) : St :=
  match count with
  | O => s
  | S c => for_loop (S i) c body (body i s)
  end.

(** ** IEEE-754 arithmetic *)

Module F32.
Definition prec : Z := 24.
Definition emax : Z := 128.

Abbreviation t := spec_float (only parsing).

Definition add : t -> t -> t := SFadd prec emax.
Definition sub : t -> t -> t := SFsub prec emax.
Definition mul : t -> t -> t := SFmul prec emax.
Definition div : t -> t -> t := SFdiv prec emax.
Definition ltb : t -> t -> bool := SFltb.
Definition leb : t -> t -> bool := SFleb.
Definition eqb : t -> t -> bool := SFeqb.
(** C++ [a != b]: true also when either side is a NaN. *)
Definition neqb (a b : t) : bool := negb (SFeqb a b).

(** [static_cast<float>(n)] for an integer [n]. *)
Definition of_Z (n : Z) : t := binary_normalize prec emax n 0 false.

Definition zero : t := S754_zero false.
Definition one : t := S754_finite false 8388608 (-23).
Definition neg_one : t := S754_finite true 8388608 (-23).
Definition two : t := S754_finite false 8388608 (-22).
Definition half : t := S754_finite false 8388608 (-24).

(** [std::min(a, b)] is [(b < a) ? b : a]; [std::max(a, b)] is
    [(a < b) ? b : a]. *)
Definition min (a b : t) : t := if ltb b a then b else a.
Definition max (a b : t) : t := if ltb a b then b else a.

(** Truncation toward zero of a finite value, as in a float-to-integer
    conversion. NaN and the infinities have no integer value; they give 0
    here and are never converted by the code modelled below. *)
Definition trunc (x : t) : Z :=
  match x with
  | S754_finite s m e =>
      let a := match e with
               | Zneg p => Z.shiftr (Zpos m) (Zpos p)
               | _ => Z.shiftl (Zpos m) e
               end in
      if s then - a else a
  | _ => 0
  end.

Definition is_nan (x : t) : bool :=
  match x with S754_nan => true | _ => false end.

Definition is_finite (x : t) : bool :=
  match x with S754_zero _ | S754_finite _ _ _ => true | _ => false end.
End F32.

Module F64.
Definition prec : Z := 53.
Definition emax : Z := 1024.

Abbreviation t := spec_float (only parsing).

Definition sub : t -> t -> t := SFsub prec emax.
Definition mul : t -> t -> t := SFmul prec emax.
Definition div : t -> t -> t := SFdiv prec emax.

(** Widening [float -> double] is exact; the mantissa is re-aligned to 53
    bits. *)
Definition of_f32 (x : F32.t) : t :=
  match x with
  | S754_finite s m e => binary_normalize prec emax (cond_Zopp s (Zpos m)) e s
  | _ => x
  end.

(** Narrowing [double -> float] rounds to nearest even. *)
Definition to_f32 (x : t) : F32.t :=
  match x with
  | S754_finite s m e =>
      binary_normalize F32.prec F32.emax (cond_Zopp s (Zpos m)) e s
  | _ => x
  end.

(** [M_PI = 3.14159265358979323846], i.e. the double 0x400921FB54442D18. *)
Definition M_PI : t := S754_finite false 7074237752028440 (-51).
End F64.

#[global] Instance spec_float_inhabited : Inhabited spec_float :=
populate F32.zero.

(** ** DCBlocker.cpp *)

Module DCBlocker.

Record t := mk {
  m_x1 : F32.t;           (* previous input *)
  m_y1 : F32.t;           (* previous output *)
  m_coefficient : F32.t
}.

(** [static constexpr float DC_BLOCK_FREQ = 10.0f] *)
Definition DC_BLOCK_FREQ : F32.t := S754_finite false 10485760 (-20).

Definition reset (d : t) : t :=
  {| m_x1 := F32.zero; m_y1 := F32.zero; m_coefficient := m_coefficient d |}.

(** [1.0f - (2.0f * M_PI * fc / fs)]: [M_PI] is a double, so the whole
    expression is evaluated in double and narrowed by the assignment. *)
Definition coefficient (sampleRate : Z) : F32.t :=
  let fc := DC_BLOCK_FREQ in
  let fs := F32.of_Z sampleRate in
  F64.to_f32
    (F64.sub (F64.of_f32 F32.one)
       (F64.div
          (F64.mul (F64.mul (F64.of_f32 F32.two) F64.M_PI) (F64.of_f32 fc))
          (F64.of_f32 fs))).

Definition make (sampleRate : Z) : t :=
  reset {| m_x1 := F32.zero; m_y1 := F32.zero;
           m_coefficient := coefficient sampleRate |}.

(** One iteration of the loop body of [process]. *)
Definition process_sample (i : nat) (st : t * list F32.t) : t * list F32.t :=
  let '(d, buffer) := st in
  let input := buffer !!! i in
  let output :=
    F32.add (F32.sub input (m_x1 d)) (F32.mul (m_coefficient d) (m_y1 d)) in
  ({| m_x1 := input; m_y1 := output; m_coefficient := m_coefficient d |},
   <[i := output]> buffer).

Definition process (d : t) (buffer : list F32.t) (numSamples : nat)
  : t * list F32.t :=
  for_loop 0 numSamples process_sample (d, buffer).

(** The difference equation of the filter, by sample index over a whole
    input stream [x], with [x[-1] = y[-1] = 0]. *)
Fixpoint y (R : F32.t) (x : list F32.t) (n : nat) : F32.t :=
  match n with
  | O => F32.add (F32.sub (x !!! O) F32.zero) (F32.mul R F32.zero)
  | S k => F32.add (F32.sub (x !!! n) (x !!! k)) (F32.mul R (y R x k))
  end.

(** The filter run over a list of samples, sample by sample: the new state
    and the outputs. *)
Fixpoint run (d : t) (xs : list F32.t) : t * list F32.t :=
  match xs with
  | [] => (d, [])
  | input :: rest =>
      let output :=
        F32.add (F32.sub input (m_x1 d)) (F32.mul (m_coefficient d) (m_y1 d)) in
      let '(d', ys) :=
        run {| m_x1 := input; m_y1 := output;
               m_coefficient := m_coefficient d |} rest in
      (d', output :: ys)
  end.

(** The state that has consumed the stream [s] under coefficient [R]. *)
Definition after (R : F32.t) (s : list F32.t) : t :=
  match length s with
  | O => {| m_x1 := F32.zero; m_y1 := F32.zero; m_coefficient := R |}
  | S k => {| m_x1 := s !!! k; m_y1 := y R s k; m_coefficient := R |}
  end.

(** A sequence of calls [process(buffer, numSamples)] on one filter. *)
Fixpoint process_calls (d : t) (calls : list (list F32.t * nat))
  : t * list (list F32.t) :=
  match calls with
  | [] => (d, [])
  | (buffer, n) :: rest =>
      let '(d1, out) := process d buffer n in
      let '(d2, outs) := process_calls d1 rest in
      (d2, out :: outs)
  end.

(** The samples a sequence of calls feeds to the filter, in order. *)
Definition stream (calls : list (list F32.t * nat)) : list F32.t :=
  concat (map (fun c => take (snd c) (fst c)) calls).

Definition calls_fit (calls : list (list F32.t * nat)) : Prop :=
  Forall (fun c => (snd c <= length (fst c))%nat) calls.

End DCBlocker.


(** ** Fixed-width integers and bytes *)

Definition wrap (bits : Z) (n : Z) : Z := n mod 2 ^ bits.

Definition byte_of_Z (n : Z) : byte :=
  match Byte.of_N (Z.to_N (n mod 256)) with
  | Some b => b
  | None => Byte.x00
  end.

Definition Z_of_byte (b : byte) : Z := Z.of_N (Byte.to_N b).

(** The object representation of a [width]-byte integer on the little-endian
    targets the program is built for (what
    [write(reinterpret_cast<const char*>(&v), width)] emits). *)
Fixpoint le_bytes (width : nat) (n : Z) : list byte :=
  match width with
  | O => []
  | S w => byte_of_Z n :: le_bytes w (n / 256)
  end.

Fixpoint le_decode (bs : list byte) : Z :=
  match bs with
  | [] => 0
  | b :: rest => Z_of_byte b + 256 * le_decode rest
  end.

(** The value of a 16-bit two's-complement pattern. *)
Definition int16_of_bits (n : Z) : Z :=
  let u := n mod 65536 in if u <? 32768 then u else u - 65536.

(** ** std::ofstream, as far as WAVWriter uses it *)

Module OFStream.

Record t := mk {
  is_open : bool;
  content : list byte;    (* bytes of the file on disk *)
  pos : nat               (* put position *)
}.

Definition closed : t := {| is_open := false; content := []; pos := O |}.

(** [open(path, std::ios::binary)]: an output stream truncates the file;
    [ok] says whether the operating system could open it. *)
Definition open (ok : bool) (f : t) : t :=
  if ok then {| is_open := true; content := []; pos := O |} else f.

(** [write(p, n)] stores the bytes at the put position, overwriting what is
    there and extending the file at its end. *)
Definition write (f : t) (bs : list byte) : t :=
  if is_open f then
    {| is_open := true;
       content := take (pos f) (content f) ++ bs
                  ++ drop (pos f + length bs)%nat (content f);
       pos := (pos f + length bs)%nat |}
  else f.

Definition seekp (f : t) (p : nat) : t :=
  {| is_open := is_open f; content := content f; pos := p |}.

Definition close (f : t) : t :=
  {| is_open := false; content := content f; pos := pos f |}.

End OFStream.

(** ** WAVWriter.h *)

Module WAVWriter.

Record t := mk {
  m_file : OFStream.t;
  m_sampleRate : Z;     (* uint32_t *)
  m_numChannels : Z;    (* uint16_t *)
  m_dataSize : Z        (* uint32_t *)
}.

Definition init : t :=
  {| m_file := OFStream.closed; m_sampleRate := 0; m_numChannels := 0;
     m_dataSize := 0 |}.

Definition set_file (w : t) (f : OFStream.t) : t :=
  {| m_file := f; m_sampleRate := m_sampleRate w;
     m_numChannels := m_numChannels w; m_dataSize := m_dataSize w |}.

Definition header_bytes (w : t) : list byte :=
  let bitsPerSample := 16 in
  let blockAlign := wrap 16 (m_numChannels w * (bitsPerSample / 8)) in
  let byteRate := wrap 32 (m_sampleRate w * blockAlign) in
  let chunkSize := wrap 32 (36 + m_dataSize w) in
  let fmtSize := 16 in
  let audioFormat := 1 in
  list_byte_of_string "RIFF" ++ le_bytes 4 chunkSize
  ++ list_byte_of_string "WAVE"
  ++ list_byte_of_string "fmt " ++ le_bytes 4 fmtSize
  ++ le_bytes 2 audioFormat ++ le_bytes 2 (m_numChannels w)
  ++ le_bytes 4 (m_sampleRate w) ++ le_bytes 4 byteRate
  ++ le_bytes 2 blockAlign ++ le_bytes 2 bitsPerSample
  ++ list_byte_of_string "data" ++ le_bytes 4 (m_dataSize w).

(** [writeHeader] issues thirteen consecutive [m_file.write] calls. *)
Definition writeHeader (w : t) : t :=
  let bitsPerSample := 16 in
  let blockAlign := wrap 16 (m_numChannels w * (bitsPerSample / 8)) in
  let byteRate := wrap 32 (m_sampleRate w * blockAlign) in
  let chunkSize := wrap 32 (36 + m_dataSize w) in
  let f := m_file w in
  let f := OFStream.write f (list_byte_of_string "RIFF") in
  let f := OFStream.write f (le_bytes 4 chunkSize) in
  let f := OFStream.write f (list_byte_of_string "WAVE") in
  let f := OFStream.write f (list_byte_of_string "fmt ") in
  let fmtSize := 16 in
  let f := OFStream.write f (le_bytes 4 fmtSize) in
  let audioFormat := 1 in
  let f := OFStream.write f (le_bytes 2 audioFormat) in
  let f := OFStream.write f (le_bytes 2 (m_numChannels w)) in
  let f := OFStream.write f (le_bytes 4 (m_sampleRate w)) in
  let f := OFStream.write f (le_bytes 4 byteRate) in
  let f := OFStream.write f (le_bytes 2 blockAlign) in
  let f := OFStream.write f (le_bytes 2 bitsPerSample) in
  let f := OFStream.write f (list_byte_of_string "data") in
  let f := OFStream.write f (le_bytes 4 (m_dataSize w)) in
  set_file w f.

Definition close (w : t) : t :=
  if negb (OFStream.is_open (m_file w)) then w
  else
    let w := set_file w (OFStream.seekp (m_file w) O) in
    let w := writeHeader w in
    {| m_file := OFStream.close (m_file w); m_sampleRate := m_sampleRate w;
       m_numChannels := m_numChannels w; m_dataSize := 0 |}.

Definition open (ok : bool) (w : t) (sampleRate numChannels : Z) : bool * t :=
  let w := if OFStream.is_open (m_file w) then close w else w in
  let w := set_file w (OFStream.open ok (m_file w)) in
  if negb (OFStream.is_open (m_file w)) then (false, w)
  else
    let w := {| m_file := m_file w; m_sampleRate := sampleRate;
                m_numChannels := numChannels; m_dataSize := 0 |} in
    (true, writeHeader w).

(** [32767.0f] *)
Definition PCM_SCALE : F32.t := S754_finite false 16776704 (-9).

(** [std::max(-1.0f, std::min(1.0f, x))] *)
Definition clamp_sample (x : F32.t) : F32.t :=
  F32.max F32.neg_one (F32.min F32.one x).

(** [static_cast<int16_t>(sample * 32767.0f)]: the conversion truncates toward
    zero.  A value outside the range of [int16_t] has no defined conversion;
    the 16-bit pattern is kept here, and [WAVWriter_pcm_in_range] shows
    that the question does not arise: the product is always within
    [-32767, 32767]. *)
Definition pcm_of_sample (x : F32.t) : Z :=
  int16_of_bits (F32.trunc (F32.mul (clamp_sample x) PCM_SCALE)).

Definition pcm_bytes (x : F32.t) : list byte := le_bytes 2 (pcm_of_sample x).

Definition write_sample (data : list F32.t) (i : nat) (f : OFStream.t)
  : OFStream.t :=
  let sample := clamp_sample (data !!! i) in
  let pcm := int16_of_bits (F32.trunc (F32.mul sample PCM_SCALE)) in
  OFStream.write f (le_bytes 2 pcm).

Definition write (w : t) (data : list F32.t) (numFrames : Z) : t :=
  if negb (OFStream.is_open (m_file w)) then w
  else
    let totalSamples := wrap 64 (numFrames * m_numChannels w) in
    let f := for_loop 0 (Z.to_nat totalSamples) (write_sample data) (m_file w) in
    {| m_file := f; m_sampleRate := m_sampleRate w;
       m_numChannels := m_numChannels w;
       m_dataSize := wrap 32 (m_dataSize w + wrap 64 (totalSamples * 2)) |}.

Definition getDataSize (w : t) : Z := m_dataSize w.

(** A recording session of the writer: [open], then [write] calls, then
    [close]. *)
Definition write_all (w : t) (calls : list (list F32.t * Z)) : t :=
  fold_left (fun w c => write w (fst c) (snd c)) calls w.

Definition session (ok : bool) (sampleRate numChannels : Z)
    (calls : list (list F32.t * Z)) : t :=
  close (write_all (snd (open ok init sampleRate numChannels)) calls).

(** The samples a [write] call converts, in order. *)
Definition written_samples (numChannels : Z) (c : list F32.t * Z) : list F32.t :=
  take (Z.to_nat (wrap 64 (snd c * numChannels))) (fst c).

Definition call_fits (numChannels : Z) (c : list F32.t * Z) : Prop :=
  (Z.to_nat (wrap 64 (snd c * numChannels)) <= length (fst c))%nat.

End WAVWriter.

(** ** AudioRecorder.h *)

Module AudioRecorder.

(** [static constexpr size_t RING_BUFFER_SIZE = 960000]: ten seconds of
    stereo audio at 48 kHz. *)
Definition RING_BUFFER_SIZE : Z := 960000.

(** [constexpr size_t BATCH_SIZE = 32768] of the writer thread. *)
Definition BATCH_SIZE : Z := 32768.

Record t := mk {
  m_recordingsDir : string;
  m_currentFilePath : string;
  m_sampleRate : Z;                 (* int *)
  m_ringBuffer : Z -> F32.t;        (* float[RING_BUFFER_SIZE], by index *)
  m_writePos : Z;                   (* atomic<size_t>, written by the RT thread *)
  m_readPos : Z;                    (* atomic<size_t>, written by the writer *)
  m_recording : bool;               (* atomic<bool> *)
  m_droppedFrames : Z;              (* atomic<uint64_t> *)
  m_writerThread : option nat;      (* unique_ptr<std::thread>: thread id *)
  m_recordingStartTime : Z          (* steady_clock time point *)
}.

Definition make (recordingsDir : string) (ring : Z -> F32.t) : t :=
  {| m_recordingsDir := recordingsDir; m_currentFilePath := EmptyString;
     m_sampleRate := 48000; m_ringBuffer := ring; m_writePos := 0;
     m_readPos := 0; m_recording := false; m_droppedFrames := 0;
     m_writerThread := None; m_recordingStartTime := 0 |}.

(** [s.length() < 4 || s.substr(s.length() - 4) != ".wav"] *)
Definition lacks_wav_extension (s : string) : bool :=
  (String.length s <? 4)%nat
  || negb (String.eqb (substring (String.length s - 4) 4 s) ".wav").

(** What [startRecording] reads from its environment: the name that
    [strftime] produces from the wall clock, the steady clock, and the
    identity of the thread it spawns. *)
Record start_env := mk_env {
  env_autoName : string;
  env_now : Z;
  env_thread : nat
}.

(** Whether a call of [startRecording] returns.  On an idle recorder the
    call ends with [m_writerThread = std::make_unique<std::thread>(...)],
    which destroys the thread object the pointer holds.  The pointer never
    holds a joined thread ([stopRecording] resets it right after the join),
    so a thread it holds is joinable and its destructor calls
    [std::terminate].  This is the state a writer thread leaves behind when
    it cannot open its file: it clears the recording flag itself, and
    [stopRecording] then returns before the join. *)
Definition startRecording_returns (r : t) : bool :=
  m_recording r
  || match m_writerThread r with
     | None => true
     | Some _ => false
     end.

(** [startRecording], for the calls that return (see
    [startRecording_returns]). *)
Definition startRecording (env : start_env) (r : t) (filename : string)
    (sampleRate : Z) : string * t :=
  if m_recording r then (EmptyString, r)
  else
    let actualFilename :=
      if String.eqb filename EmptyString then env_autoName env
      else if lacks_wav_extension filename then String.append filename ".wav"
           else filename in
    let path :=
      String.append (m_recordingsDir r) (String.append "/" actualFilename) in
    (path,
     {| m_recordingsDir := m_recordingsDir r;
        m_currentFilePath := path;
        m_sampleRate := sampleRate;
        m_ringBuffer := m_ringBuffer r;
        m_writePos := 0;
        m_readPos := 0;
        m_recording := true;
        m_droppedFrames := 0;
        m_writerThread := Some (env_thread env);
        m_recordingStartTime := env_now env |}).

(** [stopRecording]: the join waits for the writer thread, whose own steps
    are [writer_step] and [writer_flush] below. *)
Definition stopRecording (r : t) : t :=
  if negb (m_recording r) then r
  else
    {| m_recordingsDir := m_recordingsDir r;
       m_currentFilePath := EmptyString;
       m_sampleRate := m_sampleRate r;
       m_ringBuffer := m_ringBuffer r;
       m_writePos := m_writePos r;
       m_readPos := m_readPos r;
       m_recording := false;
       m_droppedFrames := m_droppedFrames r;
       m_writerThread := None;
       m_recordingStartTime := m_recordingStartTime r |}.

Definition isRecording (r : t) : bool := m_recording r.
Definition getCurrentFilePath (r : t) : string := m_currentFilePath r.
Definition getDroppedFrames (r : t) : Z := m_droppedFrames r.

(** The free space the producer computes from the two positions. *)
Definition available_space (writePos readPos : Z) : Z :=
  if readPos <=? writePos
  then wrap 64 (RING_BUFFER_SIZE - writePos + readPos - 1)
  else wrap 64 (readPos - writePos - 1).

Definition store (ring : Z -> F32.t) (i : Z) (v : F32.t) : Z -> F32.t :=
  fun j => if j =? i then v else ring j.

(** One iteration of the interleaving loop of [pushAudioFrame]. *)
Definition push_sample (left right : list F32.t) (i : nat)
    (st : (Z -> F32.t) * Z) : (Z -> F32.t) * Z :=
  let '(ring, writePos) := st in
  let ring := store ring writePos (left !!! i) in
  let writePos := (writePos + 1) mod RING_BUFFER_SIZE in
  let ring := store ring writePos (right !!! i) in
  let writePos := (writePos + 1) mod RING_BUFFER_SIZE in
  (ring, writePos).

Definition set_ring (r : t) (ring : Z -> F32.t) (writePos : Z) : t :=
  {| m_recordingsDir := m_recordingsDir r;
     m_currentFilePath := m_currentFilePath r;
     m_sampleRate := m_sampleRate r;
     m_ringBuffer := ring;
     m_writePos := writePos;
     m_readPos := m_readPos r;
     m_recording := m_recording r;
     m_droppedFrames := m_droppedFrames r;
     m_writerThread := m_writerThread r;
     m_recordingStartTime := m_recordingStartTime r |}.

Definition set_dropped (r : t) (d : Z) : t :=
  {| m_recordingsDir := m_recordingsDir r;
     m_currentFilePath := m_currentFilePath r;
     m_sampleRate := m_sampleRate r;
     m_ringBuffer := m_ringBuffer r;
     m_writePos := m_writePos r;
     m_readPos := m_readPos r;
     m_recording := m_recording r;
     m_droppedFrames := d;
     m_writerThread := m_writerThread r;
     m_recordingStartTime := m_recordingStartTime r |}.

Definition set_readPos (r : t) (readPos : Z) : t :=
  {| m_recordingsDir := m_recordingsDir r;
     m_currentFilePath := m_currentFilePath r;
     m_sampleRate := m_sampleRate r;
     m_ringBuffer := m_ringBuffer r;
     m_writePos := m_writePos r;
     m_readPos := readPos;
     m_recording := m_recording r;
     m_droppedFrames := m_droppedFrames r;
     m_writerThread := m_writerThread r;
     m_recordingStartTime := m_recordingStartTime r |}.

Definition set_recording (r : t) (b : bool) : t :=
  {| m_recordingsDir := m_recordingsDir r;
     m_currentFilePath := m_currentFilePath r;
     m_sampleRate := m_sampleRate r;
     m_ringBuffer := m_ringBuffer r;
     m_writePos := m_writePos r;
     m_readPos := m_readPos r;
     m_recording := b;
     m_droppedFrames := m_droppedFrames r;
     m_writerThread := m_writerThread r;
     m_recordingStartTime := m_recordingStartTime r |}.

(** [pushAudioFrame(left, right, numSamples)], with [numSamples] a [size_t]. *)
Definition pushAudioFrame (r : t) (left right : list F32.t) (numSamples : Z)
    : t :=
  if negb (m_recording r) then r
  else
    let writePos := m_writePos r in
    let readPos := m_readPos r in
    let required := wrap 64 (numSamples * 2) in
    let available := available_space writePos readPos in
    if available <? required then
      set_dropped r (wrap 64 (m_droppedFrames r + numSamples))
    else
      let '(ring, writePos) :=
        for_loop 0 (Z.to_nat numSamples) (push_sample left right)
          (m_ringBuffer r, writePos) in
      set_ring r ring writePos.

(** The number of samples the consumer finds between the two positions. *)
Definition available_data (readPos writePos : Z) : Z :=
  if writePos >=? readPos
  then wrap 64 (writePos - readPos)
  else wrap 64 (RING_BUFFER_SIZE - readPos + writePos).

Definition read_sample (ring : Z -> F32.t) (i : nat)
    (st : list F32.t * Z) : list F32.t * Z :=
  let '(batch, readPos) := st in
  (batch ++ [ring readPos], (readPos + 1) mod RING_BUFFER_SIZE).

(** One iteration of the [while (m_recording)] loop of [writerThreadFunc]:
    either the ring is empty (the thread sleeps) or a batch is taken out,
    the read position is published and the batch goes to the WAV writer. *)
Definition writer_step (r : t) (w : WAVWriter.t) : t * WAVWriter.t :=
  let readPos := m_readPos r in
  let writePos := m_writePos r in
  let available := available_data readPos writePos in
  if available =? 0 then (r, w)
  else
    let toRead := Z.min available BATCH_SIZE in
    let '(batch, readPos) :=
      for_loop 0 (Z.to_nat toRead) (read_sample (m_ringBuffer r)) ([], readPos) in
    (set_readPos r readPos, WAVWriter.write w batch (toRead / 2)).

(** After the loop: what is left in the ring is written out and the file is
    closed.  The source copies the remainder into a local array of
    [BATCH_SIZE] floats without a bound check: this is the flush for a
    remainder of at most [BATCH_SIZE] samples; a longer one overruns the
    array. *)
Definition writer_flush (r : t) (w : WAVWriter.t) : WAVWriter.t :=
  let readPos := m_readPos r in
  let writePos := m_writePos r in
  let remaining := available_data readPos writePos in
  let w :=
    if 0 <? remaining then
      let '(batch, _) :=
        for_loop 0 (Z.to_nat remaining) (read_sample (m_ringBuffer r))
          ([], readPos) in
      WAVWriter.write w batch (remaining / 2)
    else w in
  WAVWriter.close w.

(** Samples held in the ring: the distance from the read position to the
    write position, going forward. *)
Definition used (r : t) : Z := (m_writePos r - m_readPos r) mod RING_BUFFER_SIZE.

(** [Full state: (write + 1) mod C == read. Empty: write == read.] *)
Definition is_empty (r : t) : bool := m_writePos r =? m_readPos r.
Definition is_full (r : t) : bool :=
  (m_writePos r + 1) mod RING_BUFFER_SIZE =? m_readPos r.

Definition positions_ok (r : t) : Prop :=
  0 <= m_writePos r < RING_BUFFER_SIZE /\ 0 <= m_readPos r < RING_BUFFER_SIZE.

(** The steps of the two threads that touch the ring while recording. *)
Inductive ring_step : t -> t -> Prop :=
| step_push r left right numSamples :
    0 <= numSamples -> numSamples * 2 < 2 ^ 64 ->
    ring_step r (pushAudioFrame r left right numSamples)
| step_drain r w :
    ring_step r (fst (writer_step r w)).

Inductive ring_steps : t -> t -> Prop :=
| steps_refl r : ring_steps r r
| steps_cons r1 r2 r3 : ring_steps r1 r2 -> ring_step r2 r3 -> ring_steps r1 r3.

End AudioRecorder.

(** ** BackingTrack.cpp *)

(** [std::memset(&out[from], 0, count * sizeof(float))] *)
Definition memset_zero (out : list F32.t) (from count : nat) : list F32.t :=
  for_loop from count (fun i out => <[i := F32.zero]> out) out.

Module BackingTrack.

Record t := mk {
  audioDataL_ : list F32.t;
  audioDataR_ : list F32.t;
  totalFrames_ : Z;         (* size_t *)
  channels_ : Z;
  sampleRate_ : Z;
  playbackPosition_ : Z;    (* atomic<size_t> *)
  isPlaying_ : bool;
  loopEnabled_ : bool;
  volume_ : F32.t;
  startFrame_ : Z;          (* atomic<size_t> *)
  stopFrame_ : Z;           (* atomic<size_t>, 0 = end of file *)
  filename_ : string
}.

(** [0.7f] *)
Definition DEFAULT_VOLUME : F32.t := S754_finite false 11744051 (-24).

Definition make : t :=
  {| audioDataL_ := []; audioDataR_ := []; totalFrames_ := 0; channels_ := 0;
     sampleRate_ := 0; playbackPosition_ := 0; isPlaying_ := false;
     loopEnabled_ := true; volume_ := DEFAULT_VOLUME; startFrame_ := 0;
     stopFrame_ := 0; filename_ := EmptyString |}.

Definition isLoaded (b : t) : bool := 0 <? totalFrames_ b.
Definition isPlaying (b : t) : bool := isPlaying_ b.

Definition set_transport (b : t) (playing : bool) (position : Z) : t :=
  {| audioDataL_ := audioDataL_ b; audioDataR_ := audioDataR_ b;
     totalFrames_ := totalFrames_ b; channels_ := channels_ b;
     sampleRate_ := sampleRate_ b; playbackPosition_ := position;
     isPlaying_ := playing; loopEnabled_ := loopEnabled_ b;
     volume_ := volume_ b; startFrame_ := startFrame_ b;
     stopFrame_ := stopFrame_ b; filename_ := filename_ b |}.

Definition play (b : t) : t :=
  if negb (isLoaded b) then b else set_transport b true (startFrame_ b).

Definition stop (b : t) : t := set_transport b false (startFrame_ b).

Definition pause (b : t) : t := set_transport b false (playbackPosition_ b).

Definition setLoop (b : t) (enabled : bool) : t :=
  {| audioDataL_ := audioDataL_ b; audioDataR_ := audioDataR_ b;
     totalFrames_ := totalFrames_ b; channels_ := channels_ b;
     sampleRate_ := sampleRate_ b; playbackPosition_ := playbackPosition_ b;
     isPlaying_ := isPlaying_ b; loopEnabled_ := enabled;
     volume_ := volume_ b; startFrame_ := startFrame_ b;
     stopFrame_ := stopFrame_ b; filename_ := filename_ b |}.

Definition setVolume (b : t) (volume : F32.t) : t :=
  {| audioDataL_ := audioDataL_ b; audioDataR_ := audioDataR_ b;
     totalFrames_ := totalFrames_ b; channels_ := channels_ b;
     sampleRate_ := sampleRate_ b; playbackPosition_ := playbackPosition_ b;
     isPlaying_ := isPlaying_ b; loopEnabled_ := loopEnabled_ b;
     volume_ := F32.max F32.zero (F32.min F32.one volume);
     startFrame_ := startFrame_ b;
     stopFrame_ := stopFrame_ b; filename_ := filename_ b |}.

Definition set_range (b : t) (startFrame stopFrame : Z) : t :=
  {| audioDataL_ := audioDataL_ b; audioDataR_ := audioDataR_ b;
     totalFrames_ := totalFrames_ b; channels_ := channels_ b;
     sampleRate_ := sampleRate_ b; playbackPosition_ := playbackPosition_ b;
     isPlaying_ := isPlaying_ b; loopEnabled_ := loopEnabled_ b;
     volume_ := volume_ b; startFrame_ := startFrame;
     stopFrame_ := stopFrame; filename_ := filename_ b |}.

(** [setStartPosition(seconds)], after its conversion
    [frame = static_cast<size_t>(seconds * sampleRate_)]. *)
Definition setStartFrame (b : t) (frame : Z) : t :=
  if sampleRate_ b <=? 0 then b
  else
    let frame :=
      if frame >=? totalFrames_ b
      then (if 0 <? totalFrames_ b then totalFrames_ b - 1 else 0)
      else frame in
    set_range b frame (stopFrame_ b).

(** [setStopPosition(seconds)]: [positive] is the test [seconds > 0.0f] and
    [frame] the converted value. *)
Definition setStopFrame (b : t) (positive : bool) (frame : Z) : t :=
  if sampleRate_ b <=? 0 then b
  else
    let frame :=
      if positive
      then (if totalFrames_ b <? frame then totalFrames_ b else frame)
      else 0 in
    set_range b (startFrame_ b) frame.

Definition unload (b : t) : t :=
  let b := stop b in
  {| audioDataL_ := []; audioDataR_ := []; totalFrames_ := 0; channels_ := 0;
     sampleRate_ := 0; playbackPosition_ := 0; isPlaying_ := isPlaying_ b;
     loopEnabled_ := loopEnabled_ b; volume_ := volume_ b; startFrame_ := 0;
     stopFrame_ := 0; filename_ := EmptyString |}.

(** The successful tail of [loadWavFile]/[loadMp3File]: the decoded,
    resampled channels are installed and the transport cells reset. *)
Definition install (b : t) (dataL dataR : list F32.t) (channels sampleRate : Z)
    (filepath : string) : t :=
  let b := unload b in
  {| audioDataL_ := dataL; audioDataR_ := dataR;
     totalFrames_ := Z.of_nat (length dataL); channels_ := channels;
     sampleRate_ := sampleRate; playbackPosition_ := 0;
     isPlaying_ := isPlaying_ b; loopEnabled_ := loopEnabled_ b;
     volume_ := volume_ b; startFrame_ := 0; stopFrame_ := 0;
     filename_ := filepath |}.

(** [(stopFrame > 0 && stopFrame < totalFrames_) ? stopFrame : totalFrames_] *)
Definition endFrame (b : t) : Z :=
  if (0 <? stopFrame_ b) && (stopFrame_ b <? totalFrames_ b)
  then stopFrame_ b else totalFrames_ b.

(** The [for] loop of [fillBuffer], from index [i] with [count] iterations
    left; [vol], [loop], [startFrame] and [endFrame] are the values read
    before the loop. *)
Fixpoint fill_loop (b : t) (vol : F32.t) (loop : bool) (startFrame endFrame : Z)
    (i count : nat) (pos : Z) (outL outR : list F32.t)
    : t * list F32.t * list F32.t :=
  match count with
  | O => (set_transport b (isPlaying_ b) pos, outL, outR)
  | S c =>
      if (pos >=? endFrame) && negb loop then
        (set_transport b false startFrame,
         memset_zero outL i (S c), memset_zero outR i (S c))
      else
        let pos := if pos >=? endFrame then startFrame else pos in
        let outL := <[i := F32.mul (audioDataL_ b !!! Z.to_nat pos) vol]> outL in
        let outR := <[i := F32.mul (audioDataR_ b !!! Z.to_nat pos) vol]> outR in
        fill_loop b vol loop startFrame endFrame (S i) c (wrap 64 (pos + 1))
          outL outR
  end.

Definition fillBuffer (b : t) (outL outR : list F32.t) (numFrames : nat)
    : t * list F32.t * list F32.t :=
  if negb (isPlaying_ b) || (totalFrames_ b =? 0) then
    (b, memset_zero outL 0 numFrames, memset_zero outR 0 numFrames)
  else
    fill_loop b (volume_ b) (loopEnabled_ b) (startFrame_ b) (endFrame b)
      0 numFrames (playbackPosition_ b) outL outR.

(** A well-formed player: both channels hold [totalFrames_] frames and the
    start frame lies inside a loaded track.  Construction, successful loads,
    [unload], the transport calls, the setters and [fillBuffer] keep a
    player well formed; a load that fails between its two [resampleAudio]
    calls does not. *)
Definition wf (b : t) : Prop :=
  length (audioDataL_ b) = Z.to_nat (totalFrames_ b)
  /\ length (audioDataR_ b) = Z.to_nat (totalFrames_ b)
  /\ 0 <= totalFrames_ b < 2 ^ 64
  /\ 0 <= playbackPosition_ b < 2 ^ 64
  /\ 0 <= startFrame_ b < 2 ^ 64
  /\ (0 < totalFrames_ b -> startFrame_ b < totalFrames_ b).

(** The frame the cursor points at when output sample [k] is produced, with
    looping: a cursor that has reached the end frame is first moved to the
    start frame. *)
Definition wrap_cursor (b : t) (pos : Z) : Z :=
  if pos >=? endFrame b then startFrame_ b else pos.

Fixpoint cursor_from (b : t) (pos : Z) (k : nat) : Z :=
  match k with
  | O => wrap_cursor b pos
  | S j => wrap_cursor b (cursor_from b pos j + 1)
  end.

Definition cursor (b : t) (k : nat) : Z :=
  cursor_from b (playbackPosition_ b) k.

(** The cursor after [count] output samples, with looping. *)
Definition cursor_after (b : t) (count : nat) : Z :=
  match count with
  | O => playbackPosition_ b
  | S j => cursor b j + 1
  end.

(** Frames left before the end frame. *)
Definition frames_left (b : t) : nat :=
  Z.to_nat (endFrame b - playbackPosition_ b).

End BackingTrack.

(** ** Buffers *)

(** [std::memcpy(dst, src, n * sizeof(float))] *)
Definition memcpy (dst src : list F32.t) (n : nat) : list F32.t :=
  take n src ++ drop n dst.

(** [for (i < n) buf[i] *= gain] *)
Definition scale_buffer (buf : list F32.t) (gain : F32.t) (n : nat)
    : list F32.t :=
  for_loop 0 n (fun i buf => <[i := F32.mul (buf !!! i) gain]> buf) buf.

(** ** The external collaborators *)

(** The neural inference library ([NeuralAudio::NeuralModel]) and the math
    library, neither of which is part of the repository.  [CreateFromFile]
    is [None] when the library returns null or throws. *)
Class NeuralAudio := {
  Model : Type;
  CreateFromFile : string -> option Model;
  SetMaxAudioBufferSize : Model -> Z -> Model;
  GetSampleRate : Model -> F32.t;
  GetRecommendedOutputDBAdjustment : Model -> F32.t;
  Process : Model -> list F32.t -> Model * list F32.t;
  powf : F32.t -> F32.t -> F32.t;
  log10f : F32.t -> F32.t
}.

(** ** ModelLoader.cpp *)

Module ModelLoader.

Inductive FadeState := Idle | FadingOut | FadingIn.

(** [static constexpr int FADE_SAMPLES = 256] *)
Definition FADE_SAMPLES : Z := 256.

(** [constexpr size_t PREWARM_SAMPLES = 256] *)
Definition PREWARM_SAMPLES : nat := 256.

Section WithLibrary.
Context {NA : NeuralAudio}.

Record t := mk {
  m_sampleRate : Z;
  m_maxBufferSize : Z;
  m_model : option Model;            (* unique_ptr<NeuralModel> *)
  m_modelPath : string;
  m_ready : bool;
  m_doRampDown : bool;
  m_doRampUp : bool;
  m_modelSampleRate : Z;
  m_fadeGain : F32.t;
  m_fadeSamplesRemaining : Z;
  m_fadeState : FadeState;
  m_normalizationGain : F32.t;
  m_workerRunning : bool;
  m_loadRequested : bool;
  m_pendingModelPath : string
}.

Definition make (sampleRate maxBufferSize : Z) : t :=
  {| m_sampleRate := sampleRate; m_maxBufferSize := maxBufferSize;
     m_model := None; m_modelPath := EmptyString; m_ready := false;
     m_doRampDown := false; m_doRampUp := false; m_modelSampleRate := 0;
     m_fadeGain := F32.zero; m_fadeSamplesRemaining := 0;
     m_fadeState := Idle; m_normalizationGain := F32.one;
     m_workerRunning := true; m_loadRequested := false;
     m_pendingModelPath := EmptyString |}.

Definition isReady (l : t) : bool := m_ready l.
Definition getModelPath (l : t) : string := m_modelPath l.

Definition set_request (l : t) (requested : bool) (path : string) : t :=
  {| m_sampleRate := m_sampleRate l; m_maxBufferSize := m_maxBufferSize l;
     m_model := m_model l; m_modelPath := m_modelPath l;
     m_ready := m_ready l; m_doRampDown := m_doRampDown l;
     m_doRampUp := m_doRampUp l; m_modelSampleRate := m_modelSampleRate l;
     m_fadeGain := m_fadeGain l;
     m_fadeSamplesRemaining := m_fadeSamplesRemaining l;
     m_fadeState := m_fadeState l;
     m_normalizationGain := m_normalizationGain l;
     m_workerRunning := m_workerRunning l; m_loadRequested := requested;
     m_pendingModelPath := path |}.

Definition set_fade (l : t) (rampDown rampUp : bool) (state : FadeState)
    (remaining : Z) (gain : F32.t) : t :=
  {| m_sampleRate := m_sampleRate l; m_maxBufferSize := m_maxBufferSize l;
     m_model := m_model l; m_modelPath := m_modelPath l;
     m_ready := m_ready l; m_doRampDown := rampDown;
     m_doRampUp := rampUp; m_modelSampleRate := m_modelSampleRate l;
     m_fadeGain := gain;
     m_fadeSamplesRemaining := remaining;
     m_fadeState := state;
     m_normalizationGain := m_normalizationGain l;
     m_workerRunning := m_workerRunning l;
     m_loadRequested := m_loadRequested l;
     m_pendingModelPath := m_pendingModelPath l |}.

Definition set_model (l : t) (model : option Model) (path : string)
    (ready : bool) : t :=
  {| m_sampleRate := m_sampleRate l; m_maxBufferSize := m_maxBufferSize l;
     m_model := model; m_modelPath := path;
     m_ready := ready; m_doRampDown := m_doRampDown l;
     m_doRampUp := m_doRampUp l; m_modelSampleRate := m_modelSampleRate l;
     m_fadeGain := m_fadeGain l;
     m_fadeSamplesRemaining := m_fadeSamplesRemaining l;
     m_fadeState := m_fadeState l;
     m_normalizationGain := m_normalizationGain l;
     m_workerRunning := m_workerRunning l;
     m_loadRequested := m_loadRequested l;
     m_pendingModelPath := m_pendingModelPath l |}.

Definition set_model_info (l : t) (modelSR : Z) (normGain : F32.t) : t :=
  {| m_sampleRate := m_sampleRate l; m_maxBufferSize := m_maxBufferSize l;
     m_model := m_model l; m_modelPath := m_modelPath l;
     m_ready := m_ready l; m_doRampDown := m_doRampDown l;
     m_doRampUp := m_doRampUp l; m_modelSampleRate := modelSR;
     m_fadeGain := m_fadeGain l;
     m_fadeSamplesRemaining := m_fadeSamplesRemaining l;
     m_fadeState := m_fadeState l;
     m_normalizationGain := normGain;
     m_workerRunning := m_workerRunning l;
     m_loadRequested := m_loadRequested l;
     m_pendingModelPath := m_pendingModelPath l |}.

Definition set_ready (l : t) (ready : bool) : t :=
  set_model l (m_model l) (m_modelPath l) ready.

Definition loadModelAsync (l : t) (modelPath : string) : t :=
  set_request l true modelPath.

Definition startFadeOut (l : t) : t :=
  set_fade l true (m_doRampUp l) FadingOut FADE_SAMPLES F32.one.

Definition startFadeIn (l : t) : t :=
  set_fade l (m_doRampDown l) true FadingIn FADE_SAMPLES F32.zero.

(** One iteration of the loop of [applyFade]. *)
Definition fade_sample (i : nat) (st : t * list F32.t) : t * list F32.t :=
  let '(l, buffer) := st in
  if 0 <? m_fadeSamplesRemaining l then
    let ratio :=
      F32.div (F32.of_Z (m_fadeSamplesRemaining l)) (F32.of_Z FADE_SAMPLES) in
    let gain :=
      match m_fadeState l with
      | FadingOut => ratio
      | FadingIn => F32.sub F32.one ratio
      | Idle => m_fadeGain l
      end in
    let buffer := <[i := F32.mul (buffer !!! i) gain]> buffer in
    let remaining := m_fadeSamplesRemaining l - 1 in
    if remaining =? 0 then
      match m_fadeState l with
      | FadingOut =>
          (set_fade l false (m_doRampUp l) Idle remaining F32.zero, buffer)
      | FadingIn =>
          (set_fade l (m_doRampDown l) false Idle remaining F32.one, buffer)
      | Idle =>
          (set_fade l (m_doRampDown l) (m_doRampUp l) Idle remaining gain,
           buffer)
      end
    else
      (set_fade l (m_doRampDown l) (m_doRampUp l) (m_fadeState l) remaining
         gain, buffer)
  else (l, buffer).

Definition applyFade (l : t) (buffer : list F32.t) (numSamples : nat)
    : t * list F32.t :=
  match m_fadeState l with
  | Idle => (l, buffer)
  | _ => for_loop 0 numSamples fade_sample (l, buffer)
  end.

(** [process(input, output, numSamples, applyNormalization)] *)
Definition process (l : t) (input output : list F32.t) (numSamples : nat)
    (applyNormalization : bool) : t * list F32.t :=
  if negb (m_ready l) then (l, memcpy output input numSamples)
  else
    match m_model l with
    | None => (l, memcpy output input numSamples)
    | Some model =>
        let '(model, samples) := Process model (take numSamples input) in
        let output := memcpy output samples numSamples in
        let l := set_model l (Some model) (m_modelPath l) (m_ready l) in
        let output :=
          if applyNormalization then
            let normGain := m_normalizationGain l in
            if F32.neqb normGain F32.one
            then scale_buffer output normGain numSamples
            else output
          else output in
        applyFade l output numSamples
    end.

(** The bounded wait for the fade-out: while the worker waits, the audio
    thread runs the fade over the [rt_samples] samples it processes through
    this slot. *)
Definition await_fade (l : t) (rt_samples : nat) : t :=
  fst (applyFade l (replicate rt_samples F32.zero) rt_samples).

(** [-6.0f] and [20.0f] and [10.0f] *)
Definition NEG_SIX : F32.t := S754_finite true 12582912 (-21).
Definition TWENTY : F32.t := S754_finite false 10485760 (-19).
Definition TEN : F32.t := S754_finite false 10485760 (-20).

Definition doLoadModel (l : t) (path : string) (rt_samples : nat) : t :=
  let l := if m_ready l then await_fade (startFadeOut l) rt_samples else l in
  let l := set_ready l false in
  match CreateFromFile path with
  | Some newModel =>
      let newModel := SetMaxAudioBufferSize newModel (m_maxBufferSize l) in
      let modelSR := F32.trunc (GetSampleRate newModel) in
      let loudness := GetRecommendedOutputDBAdjustment newModel in
      let normGain := powf TEN (F32.div (F32.add NEG_SIX loudness) TWENTY) in
      let l := set_model_info l modelSR normGain in
      let '(newModel, _) :=
        Process newModel (replicate PREWARM_SAMPLES F32.zero) in
      let l := set_model l (Some newModel) path (m_ready l) in
      let l := startFadeIn l in
      set_ready l true
  | None =>
      set_model l (m_model l) EmptyString false
  end.

(** One wake-up of [workerThread] with a request pending. *)
Definition worker_step (l : t) (rt_samples : nat) : t :=
  if m_workerRunning l && m_loadRequested l then
    let pathToLoad := m_pendingModelPath l in
    let l := set_request l false (m_pendingModelPath l) in
    doLoadModel l pathToLoad rt_samples
  else l.

Definition unloadModel (l : t) (rt_samples : nat) : t :=
  let l := await_fade (startFadeOut l) rt_samples in
  set_model l None EmptyString false.

End WithLibrary.

Arguments t {NA}.

End ModelLoader.

(** The DSP blocks the graph is composed of, other than the DC blocker:
    [NoiseGate], [ThreeBandEQ] and [Reverb], through the calls the engine
    makes on them. *)
Class DspBlocks := {
  NoiseGate : Type;
  NoiseGate_make : Z -> NoiseGate;
  NoiseGate_process : NoiseGate -> list F32.t -> nat -> NoiseGate * list F32.t;
  NoiseGate_setThreshold : NoiseGate -> F32.t -> NoiseGate;
  ThreeBandEQ : Type;
  ThreeBandEQ_make : Z -> ThreeBandEQ;
  ThreeBandEQ_process :
    ThreeBandEQ -> list F32.t -> nat -> ThreeBandEQ * list F32.t;
  ThreeBandEQ_setEnabled : ThreeBandEQ -> bool -> ThreeBandEQ;
  ThreeBandEQ_setBass : ThreeBandEQ -> F32.t -> ThreeBandEQ;
  ThreeBandEQ_setMid : ThreeBandEQ -> F32.t -> ThreeBandEQ;
  ThreeBandEQ_setTreble : ThreeBandEQ -> F32.t -> ThreeBandEQ;
  Reverb : Type;
  Reverb_make : Z -> Z -> Reverb;
  Reverb_getEnabled : Reverb -> bool;
  Reverb_process :
    Reverb -> list F32.t -> list F32.t -> nat
    -> Reverb * list F32.t * list F32.t;
  Reverb_setEnabled : Reverb -> bool -> Reverb;
  Reverb_setRoomSize : Reverb -> F32.t -> Reverb;
  Reverb_setDecayTime : Reverb -> F32.t -> Reverb;
  Reverb_setMix : Reverb -> F32.t -> F32.t -> Reverb;
  Reverb_clearBuffers : Reverb -> Reverb
}.

(** ** Engine.h, Engine.cpp *)

Module Engine.

Inductive StereoMode :=
  LeftMono2Stereo | Stereo2Stereo | RightMono2Stereo | Stereo2Mono.

(** The members of [class Engine] that come in a legacy, a left and a right
    copy are indexed by the copy. *)
Inductive Chan := Legacy | ChL | ChR.

(** The [std::atomic<bool>] members. *)
Inductive Flag :=
  | m_bypass | m_bypassModel | m_bypassModelL | m_bypassModelR | m_normalize
  | m_noiseGateEnabled | m_noiseGateEnabledL | m_noiseGateEnabledR
  | m_dcBlockerEnabled | m_includeBackingTrackInRecording.

(** The [std::atomic<float>] members. *)
Inductive Level :=
  | m_stereo2MonoMixL | m_stereo2MonoMixR
  | m_inputGainLinear | m_inputGainLinearL | m_inputGainLinearR
  | m_outputGainLinear | m_outputGainLinearL | m_outputGainLinearR.

(** The audio-thread-private smoothed gains. *)
Inductive Smoothed :=
  | m_currentInputGain | m_currentInputGainL | m_currentInputGainR
  | m_currentOutputGain | m_currentOutputGainL | m_currentOutputGainR.

(** The [std::atomic<int>] members. *)
Inductive SlotCell := m_activeSlot | m_activeSlotL | m_activeSlotR.

#[global] Instance StereoMode_eq_dec : EqDecision StereoMode.
Proof. solve_decision. Defined.
#[global] Instance Chan_eq_dec : EqDecision Chan.
Proof. solve_decision. Defined.
#[global] Instance Flag_eq_dec : EqDecision Flag.
Proof. solve_decision. Defined.
#[global] Instance Level_eq_dec : EqDecision Level.
Proof. solve_decision. Defined.
#[global] Instance Smoothed_eq_dec : EqDecision Smoothed.
Proof. solve_decision. Defined.
#[global] Instance SlotCell_eq_dec : EqDecision SlotCell.
Proof. solve_decision. Defined.

(** [0.999f], [-100.0f] *)
Definition GAIN_SMOOTH_COEFF : F32.t := S754_finite false 16760439 (-24).
Definition NEG_HUNDRED : F32.t := S754_finite true 13107200 (-17).

Section WithCollaborators.
Context {NA : NeuralAudio} {DSP : DspBlocks}.

Record t := mk {
  m_sampleRate : Z;                         (* int *)
  m_bufferSize : Z;                         (* int *)
  m_stereoMode : StereoMode;
  flags : Flag -> bool;
  levels : Level -> F32.t;
  activeSlots : SlotCell -> Z;
  smoothed : Smoothed -> F32.t;
  m_modelSlots : Z -> ModelLoader.t;        (* unique_ptr<ModelLoader>[2] *)
  m_modelPaths : Z -> string;               (* std::string[2] *)
  m_noiseGates : Chan -> NoiseGate;
  m_dcBlockers : Chan -> DCBlocker.t;
  m_eqs : Chan -> ThreeBandEQ;
  m_reverb : Reverb;
  m_recorder : AudioRecorder.t;
  m_backingTrack : option BackingTrack.t;   (* BackingTrack*, may be null *)
  m_xrunCount : Z;                          (* atomic<uint32_t> *)
  m_processBuffers : Chan -> list F32.t
}.

Definition default_flags (f : Flag) : bool :=
  match f with
  | m_bypassModelR | m_normalize => true
  | _ => false
  end.

Definition default_levels (l : Level) : F32.t :=
  match l with
  | m_stereo2MonoMixL | m_stereo2MonoMixR => F32.half
  | _ => F32.one
  end.

(** The constructor; [ring] is the (uninitialised) content of the recorder's
    ring array. *)
Definition make (sampleRate bufferSize : Z) (ring : Z -> F32.t) : t :=
  {| m_sampleRate := sampleRate;
     m_bufferSize := bufferSize;
     m_stereoMode := LeftMono2Stereo;
     flags := default_flags;
     levels := default_levels;
     activeSlots := fun _ => 0;
     smoothed := fun _ => F32.one;
     m_modelSlots := fun _ => ModelLoader.make sampleRate bufferSize;
     m_modelPaths := fun _ => EmptyString;
     m_noiseGates := fun _ => NoiseGate_make sampleRate;
     m_dcBlockers := fun _ => DCBlocker.make sampleRate;
     m_eqs := fun _ => ThreeBandEQ_make sampleRate;
     m_reverb := Reverb_make sampleRate bufferSize;
     m_recorder := AudioRecorder.make "./recordings" ring;
     m_backingTrack := None;
     m_xrunCount := 0;
     m_processBuffers := fun _ => replicate (Z.to_nat bufferSize) F32.zero |}.

Definition set_stereoMode (e : t) (mode : StereoMode) : t :=
  {| m_sampleRate := m_sampleRate e; m_bufferSize := m_bufferSize e;
     m_stereoMode := mode; flags := flags e; levels := levels e;
     activeSlots := activeSlots e; smoothed := smoothed e;
     m_modelSlots := m_modelSlots e; m_modelPaths := m_modelPaths e;
     m_noiseGates := m_noiseGates e; m_dcBlockers := m_dcBlockers e;
     m_eqs := m_eqs e; m_reverb := m_reverb e; m_recorder := m_recorder e;
     m_backingTrack := m_backingTrack e; m_xrunCount := m_xrunCount e;
     m_processBuffers := m_processBuffers e |}.

Definition set_flags (e : t) (fl : Flag -> bool) : t :=
  {| m_sampleRate := m_sampleRate e; m_bufferSize := m_bufferSize e;
     m_stereoMode := m_stereoMode e; flags := fl; levels := levels e;
     activeSlots := activeSlots e; smoothed := smoothed e;
     m_modelSlots := m_modelSlots e; m_modelPaths := m_modelPaths e;
     m_noiseGates := m_noiseGates e; m_dcBlockers := m_dcBlockers e;
     m_eqs := m_eqs e; m_reverb := m_reverb e; m_recorder := m_recorder e;
     m_backingTrack := m_backingTrack e; m_xrunCount := m_xrunCount e;
     m_processBuffers := m_processBuffers e |}.

Definition set_levels (e : t) (lv : Level -> F32.t) : t :=
  {| m_sampleRate := m_sampleRate e; m_bufferSize := m_bufferSize e;
     m_stereoMode := m_stereoMode e; flags := flags e; levels := lv;
     activeSlots := activeSlots e; smoothed := smoothed e;
     m_modelSlots := m_modelSlots e; m_modelPaths := m_modelPaths e;
     m_noiseGates := m_noiseGates e; m_dcBlockers := m_dcBlockers e;
     m_eqs := m_eqs e; m_reverb := m_reverb e; m_recorder := m_recorder e;
     m_backingTrack := m_backingTrack e; m_xrunCount := m_xrunCount e;
     m_processBuffers := m_processBuffers e |}.

Definition set_activeSlots (e : t) (a : SlotCell -> Z) : t :=
  {| m_sampleRate := m_sampleRate e; m_bufferSize := m_bufferSize e;
     m_stereoMode := m_stereoMode e; flags := flags e; levels := levels e;
     activeSlots := a; smoothed := smoothed e;
     m_modelSlots := m_modelSlots e; m_modelPaths := m_modelPaths e;
     m_noiseGates := m_noiseGates e; m_dcBlockers := m_dcBlockers e;
     m_eqs := m_eqs e; m_reverb := m_reverb e; m_recorder := m_recorder e;
     m_backingTrack := m_backingTrack e; m_xrunCount := m_xrunCount e;
     m_processBuffers := m_processBuffers e |}.

Definition set_smoothed (e : t) (s : Smoothed -> F32.t) : t :=
  {| m_sampleRate := m_sampleRate e; m_bufferSize := m_bufferSize e;
     m_stereoMode := m_stereoMode e; flags := flags e; levels := levels e;
     activeSlots := activeSlots e; smoothed := s;
     m_modelSlots := m_modelSlots e; m_modelPaths := m_modelPaths e;
     m_noiseGates := m_noiseGates e; m_dcBlockers := m_dcBlockers e;
     m_eqs := m_eqs e; m_reverb := m_reverb e; m_recorder := m_recorder e;
     m_backingTrack := m_backingTrack e; m_xrunCount := m_xrunCount e;
     m_processBuffers := m_processBuffers e |}.

Definition set_models (e : t) (slots : Z -> ModelLoader.t)
    (paths : Z -> string) : t :=
  {| m_sampleRate := m_sampleRate e; m_bufferSize := m_bufferSize e;
     m_stereoMode := m_stereoMode e; flags := flags e; levels := levels e;
     activeSlots := activeSlots e; smoothed := smoothed e;
     m_modelSlots := slots; m_modelPaths := paths;
     m_noiseGates := m_noiseGates e; m_dcBlockers := m_dcBlockers e;
     m_eqs := m_eqs e; m_reverb := m_reverb e; m_recorder := m_recorder e;
     m_backingTrack := m_backingTrack e; m_xrunCount := m_xrunCount e;
     m_processBuffers := m_processBuffers e |}.

Definition set_blocks (e : t) (gates : Chan -> NoiseGate)
    (dcs : Chan -> DCBlocker.t) (eqs : Chan -> ThreeBandEQ) (rv : Reverb) : t :=
  {| m_sampleRate := m_sampleRate e; m_bufferSize := m_bufferSize e;
     m_stereoMode := m_stereoMode e; flags := flags e; levels := levels e;
     activeSlots := activeSlots e; smoothed := smoothed e;
     m_modelSlots := m_modelSlots e; m_modelPaths := m_modelPaths e;
     m_noiseGates := gates; m_dcBlockers := dcs;
     m_eqs := eqs; m_reverb := rv; m_recorder := m_recorder e;
     m_backingTrack := m_backingTrack e; m_xrunCount := m_xrunCount e;
     m_processBuffers := m_processBuffers e |}.

Definition set_recorder (e : t) (r : AudioRecorder.t) : t :=
  {| m_sampleRate := m_sampleRate e; m_bufferSize := m_bufferSize e;
     m_stereoMode := m_stereoMode e; flags := flags e; levels := levels e;
     activeSlots := activeSlots e; smoothed := smoothed e;
     m_modelSlots := m_modelSlots e; m_modelPaths := m_modelPaths e;
     m_noiseGates := m_noiseGates e; m_dcBlockers := m_dcBlockers e;
     m_eqs := m_eqs e; m_reverb := m_reverb e; m_recorder := r;
     m_backingTrack := m_backingTrack e; m_xrunCount := m_xrunCount e;
     m_processBuffers := m_processBuffers e |}.

Definition set_backingTrack (e : t) (b : option BackingTrack.t) : t :=
  {| m_sampleRate := m_sampleRate e; m_bufferSize := m_bufferSize e;
     m_stereoMode := m_stereoMode e; flags := flags e; levels := levels e;
     activeSlots := activeSlots e; smoothed := smoothed e;
     m_modelSlots := m_modelSlots e; m_modelPaths := m_modelPaths e;
     m_noiseGates := m_noiseGates e; m_dcBlockers := m_dcBlockers e;
     m_eqs := m_eqs e; m_reverb := m_reverb e; m_recorder := m_recorder e;
     m_backingTrack := b; m_xrunCount := m_xrunCount e;
     m_processBuffers := m_processBuffers e |}.

Definition set_xrunCount (e : t) (n : Z) : t :=
  {| m_sampleRate := m_sampleRate e; m_bufferSize := m_bufferSize e;
     m_stereoMode := m_stereoMode e; flags := flags e; levels := levels e;
     activeSlots := activeSlots e; smoothed := smoothed e;
     m_modelSlots := m_modelSlots e; m_modelPaths := m_modelPaths e;
     m_noiseGates := m_noiseGates e; m_dcBlockers := m_dcBlockers e;
     m_eqs := m_eqs e; m_reverb := m_reverb e; m_recorder := m_recorder e;
     m_backingTrack := m_backingTrack e; m_xrunCount := n;
     m_processBuffers := m_processBuffers e |}.

Definition set_processBuffers (e : t) (bufs : Chan -> list F32.t) : t :=
  {| m_sampleRate := m_sampleRate e; m_bufferSize := m_bufferSize e;
     m_stereoMode := m_stereoMode e; flags := flags e; levels := levels e;
     activeSlots := activeSlots e; smoothed := smoothed e;
     m_modelSlots := m_modelSlots e; m_modelPaths := m_modelPaths e;
     m_noiseGates := m_noiseGates e; m_dcBlockers := m_dcBlockers e;
     m_eqs := m_eqs e; m_reverb := m_reverb e; m_recorder := m_recorder e;
     m_backingTrack := m_backingTrack e; m_xrunCount := m_xrunCount e;
     m_processBuffers := bufs |}.

Definition set_flag (e : t) (f : Flag) (v : bool) : t :=
  set_flags e (<[f := v]> (flags e)).

Definition set_level (e : t) (l : Level) (v : F32.t) : t :=
  set_levels e (<[l := v]> (levels e)).

Definition set_activeSlot (e : t) (c : SlotCell) (v : Z) : t :=
  set_activeSlots e (<[c := v]> (activeSlots e)).

Definition dbToLinear (db : F32.t) : F32.t :=
  powf ModelLoader.TEN (F32.div db ModelLoader.TWENTY).

Definition linearToDb (linear : F32.t) : F32.t :=
  if F32.leb linear F32.zero then NEG_HUNDRED
  else F32.mul ModelLoader.TWENTY (log10f linear).

(** *** Lifecycle *)

Definition init (e : t) : bool * t :=
  let e := set_xrunCount e 0 in
  let s := smoothed e in
  let s := <[m_currentInputGain := levels e m_inputGainLinear]> s in
  let s := <[m_currentOutputGain := levels e m_outputGainLinear]> s in
  let s := <[m_currentInputGainL := levels e m_inputGainLinearL]> s in
  let s := <[m_currentOutputGainL := levels e m_outputGainLinearL]> s in
  let s := <[m_currentInputGainR := levels e m_inputGainLinearR]> s in
  let s := <[m_currentOutputGainR := levels e m_outputGainLinearR]> s in
  (true, set_smoothed e s).

(** *** Model management *)

Definition loadModelAsync (e : t) (slot : Z) (modelPath : string) : t :=
  if (slot <? 0) || (slot >=? 2) then e
  else
    let slots :=
      <[slot := ModelLoader.loadModelAsync (m_modelSlots e slot) modelPath]>
        (m_modelSlots e) in
    let e := set_models e slots (m_modelPaths e) in
    set_models e (m_modelSlots e) (<[slot := modelPath]> (m_modelPaths e)).

Definition isModelReady (e : t) (slot : Z) : bool :=
  if (slot <? 0) || (slot >=? 2) then false
  else ModelLoader.isReady (m_modelSlots e slot).

Definition getModelPath (e : t) (slot : Z) : string :=
  if (slot <? 0) || (slot >=? 2) then EmptyString
  else m_modelPaths e slot.

Definition unloadModel (e : t) (slot : Z) (rt_samples : nat) : t :=
  if (slot <? 0) || (slot >=? 2) then e
  else
    let slots :=
      <[slot := ModelLoader.unloadModel (m_modelSlots e slot) rt_samples]>
        (m_modelSlots e) in
    set_models e slots (<[slot := EmptyString]> (m_modelPaths e)).

Definition cleanup (e : t) (rt0 rt1 : nat) : t :=
  unloadModel (unloadModel e 0 rt0) 1 rt1.

(** A wake-up of the loader worker thread of slot [slot]. *)
Definition worker_step (e : t) (slot : Z) (rt_samples : nat) : t :=
  set_models e
    (<[slot := ModelLoader.worker_step (m_modelSlots e slot) rt_samples]>
       (m_modelSlots e))
    (m_modelPaths e).

Definition setActiveModel (e : t) (slot : Z) : t :=
  if (slot >=? 0) && (slot <? 2) then
    set_activeSlot
      (set_activeSlot (set_activeSlot e m_activeSlot slot) m_activeSlotL slot)
      m_activeSlotR slot
  else e.

Definition setActiveModelL (e : t) (slot : Z) : t :=
  if (slot >=? 0) && (slot <? 2) then set_activeSlot e m_activeSlotL slot
  else e.

Definition setActiveModelR (e : t) (slot : Z) : t :=
  if (slot >=? 0) && (slot <? 2) then set_activeSlot e m_activeSlotR slot
  else e.

Definition getActiveModel (e : t) : Z := activeSlots e m_activeSlot.
Definition getActiveModelL (e : t) : Z := activeSlots e m_activeSlotL.
Definition getActiveModelR (e : t) : Z := activeSlots e m_activeSlotR.

Definition setBypassModelL (e : t) (b : bool) : t := set_flag e m_bypassModelL b.
Definition setBypassModelR (e : t) (b : bool) : t := set_flag e m_bypassModelR b.

(** *** Stereo mode *)

Definition setStereoMode (e : t) (mode : StereoMode) : t :=
  set_stereoMode e mode.

Definition getStereoMode (e : t) : StereoMode := m_stereoMode e.

Definition setStereo2MonoMixL (e : t) (level : F32.t) : t :=
  let clampedLevel := F32.max F32.zero (F32.min F32.one level) in
  set_level e m_stereo2MonoMixL clampedLevel.

Definition setStereo2MonoMixR (e : t) (level : F32.t) : t :=
  let clampedLevel := F32.max F32.zero (F32.min F32.one level) in
  set_level e m_stereo2MonoMixR clampedLevel.

Definition getStereo2MonoMixL (e : t) : F32.t := levels e m_stereo2MonoMixL.
Definition getStereo2MonoMixR (e : t) : F32.t := levels e m_stereo2MonoMixR.

(** *** Parameters *)

Definition setInputGain (e : t) (gainDB : F32.t) : t :=
  let linear := dbToLinear gainDB in
  set_level
    (set_level (set_level e m_inputGainLinear linear) m_inputGainLinearL linear)
    m_inputGainLinearR linear.

Definition setInputGainL (e : t) (gainDB : F32.t) : t :=
  set_level e m_inputGainLinearL (dbToLinear gainDB).

Definition setInputGainR (e : t) (gainDB : F32.t) : t :=
  set_level e m_inputGainLinearR (dbToLinear gainDB).

Definition setOutputGain (e : t) (gainDB : F32.t) : t :=
  let linear := dbToLinear gainDB in
  set_level
    (set_level (set_level e m_outputGainLinear linear)
       m_outputGainLinearL linear)
    m_outputGainLinearR linear.

Definition setOutputGainL (e : t) (gainDB : F32.t) : t :=
  set_level e m_outputGainLinearL (dbToLinear gainDB).

Definition setOutputGainR (e : t) (gainDB : F32.t) : t :=
  set_level e m_outputGainLinearR (dbToLinear gainDB).

Definition setBypass (e : t) (b : bool) : t := set_flag e m_bypass b.
Definition setBypassModel (e : t) (b : bool) : t := set_flag e m_bypassModel b.
Definition setNormalize (e : t) (b : bool) : t := set_flag e m_normalize b.
Definition setDCBlocker (e : t) (b : bool) : t := set_flag e m_dcBlockerEnabled b.

Definition getBypass (e : t) : bool := flags e m_bypass.

Definition set_gates (e : t) (gates : Chan -> NoiseGate) : t :=
  set_blocks e gates (m_dcBlockers e) (m_eqs e) (m_reverb e).

Definition set_eqs (e : t) (eqs : Chan -> ThreeBandEQ) : t :=
  set_blocks e (m_noiseGates e) (m_dcBlockers e) eqs (m_reverb e).

Definition set_reverb (e : t) (rv : Reverb) : t :=
  set_blocks e (m_noiseGates e) (m_dcBlockers e) (m_eqs e) rv.

Definition setNoiseGate (e : t) (enabled : bool) (thresholdDB : F32.t) : t :=
  let e := set_flag e m_noiseGateEnabled enabled in
  let e := set_flag e m_noiseGateEnabledL enabled in
  let e := set_flag e m_noiseGateEnabledR enabled in
  set_gates e (fun c => NoiseGate_setThreshold (m_noiseGates e c) thresholdDB).

Definition setNoiseGateL (e : t) (enabled : bool) (thresholdDB : F32.t) : t :=
  let e := set_flag e m_noiseGateEnabledL enabled in
  set_gates e
    (<[ChL := NoiseGate_setThreshold (m_noiseGates e ChL) thresholdDB]>
       (m_noiseGates e)).

Definition setNoiseGateR (e : t) (enabled : bool) (thresholdDB : F32.t) : t :=
  let e := set_flag e m_noiseGateEnabledR enabled in
  set_gates e
    (<[ChR := NoiseGate_setThreshold (m_noiseGates e ChR) thresholdDB]>
       (m_noiseGates e)).

(** The twelve EQ setters apply one [ThreeBandEQ] setter [f] either to all
    three equalisers ([setEQEnabled], [setEQBass], ...) or to one of them
    ([setEQBassL], [setEQTrebleR], ...). *)
Definition setEQ_all (e : t) (f : ThreeBandEQ -> ThreeBandEQ) : t :=
  set_eqs e (fun c => f (m_eqs e c)).

Definition setEQ_one (e : t) (c : Chan) (f : ThreeBandEQ -> ThreeBandEQ) : t :=
  set_eqs e (<[c := f (m_eqs e c)]> (m_eqs e)).

(** *** Monitoring *)

Definition getXrunCount (e : t) : Z := m_xrunCount e.
Definition resetXrunCount (e : t) : t := set_xrunCount e 0.

(** *** Recording *)

Definition startRecording (env : AudioRecorder.start_env) (e : t)
    (filename : string) : string * t :=
  let '(path, r) :=
    AudioRecorder.startRecording env (m_recorder e) filename (m_sampleRate e) in
  (path, set_recorder e r).

Definition stopRecording (e : t) : t :=
  set_recorder e (AudioRecorder.stopRecording (m_recorder e)).

Definition isRecording (e : t) : bool := AudioRecorder.isRecording (m_recorder e).

Definition setBackingTrack (e : t) (b : option BackingTrack.t) : t :=
  set_backingTrack e b.

Definition setIncludeBackingTrackInRecording (e : t) (b : bool) : t :=
  set_flag e m_includeBackingTrackInRecording b.

(** *** Reverb *)

Definition setReverbEnabled (e : t) (b : bool) : t :=
  set_reverb e (Reverb_setEnabled (m_reverb e) b).
Definition setReverbRoomSize (e : t) (size : F32.t) : t :=
  set_reverb e (Reverb_setRoomSize (m_reverb e) size).
Definition setReverbDecayTime (e : t) (seconds : F32.t) : t :=
  set_reverb e (Reverb_setDecayTime (m_reverb e) seconds).
Definition setReverbMix (e : t) (dry wet : F32.t) : t :=
  set_reverb e (Reverb_setMix (m_reverb e) dry wet).
Definition clearReverbBuffers (e : t) : t :=
  set_reverb e (Reverb_clearBuffers (m_reverb e)).

(** *** Audio processing *)

Definition smooth (current target : F32.t) : F32.t :=
  F32.add (F32.mul current GAIN_SMOOTH_COEFF)
    (F32.mul target (F32.sub F32.one GAIN_SMOOTH_COEFF)).

Definition smoothGains (e : t) : t :=
  let s0 := smoothed e in
  let s := <[m_currentInputGain :=
               smooth (s0 m_currentInputGain) (levels e m_inputGainLinear)]> s0 in
  let s := <[m_currentOutputGain :=
               smooth (s0 m_currentOutputGain) (levels e m_outputGainLinear)]> s in
  let s := <[m_currentInputGainL :=
               smooth (s0 m_currentInputGainL) (levels e m_inputGainLinearL)]> s in
  let s := <[m_currentOutputGainL :=
               smooth (s0 m_currentOutputGainL) (levels e m_outputGainLinearL)]> s in
  let s := <[m_currentInputGainR :=
               smooth (s0 m_currentInputGainR) (levels e m_inputGainLinearR)]> s in
  let s := <[m_currentOutputGainR :=
               smooth (s0 m_currentOutputGainR) (levels e m_outputGainLinearR)]> s in
  set_smoothed e s.

(** [if (gain != 1.0f) for (i < n) buf[i] *= gain] *)
Definition apply_gain (gain : F32.t) (buf : list F32.t) (n : nat) : list F32.t :=
  if F32.neqb gain F32.one then scale_buffer buf gain n else buf.

Definition stage_gate (e : t) (enabled : Flag) (c : Chan) (buf : list F32.t)
    (n : nat) : t * list F32.t :=
  if flags e enabled then
    let '(g, buf) := NoiseGate_process (m_noiseGates e c) buf n in
    (set_gates e (<[c := g]> (m_noiseGates e)), buf)
  else (e, buf).

Definition stage_model (e : t) (cell : SlotCell) (bypass : Flag)
    (buf : list F32.t) (n : nat) : t * list F32.t :=
  let activeSlot := activeSlots e cell in
  let bypassModel := flags e bypass in
  if negb bypassModel && (0 <=? activeSlot) && (activeSlot <? 2)
     && ModelLoader.isReady (m_modelSlots e activeSlot) then
    let applyNorm := flags e m_normalize in
    let '(l, buf) :=
      ModelLoader.process (m_modelSlots e activeSlot) buf buf n applyNorm in
    (set_models e (<[activeSlot := l]> (m_modelSlots e)) (m_modelPaths e), buf)
  else (e, buf).

Definition stage_eq (e : t) (c : Chan) (buf : list F32.t) (n : nat)
    : t * list F32.t :=
  let '(q, buf) := ThreeBandEQ_process (m_eqs e c) buf n in
  (set_eqs e (<[c := q]> (m_eqs e)), buf).

Definition stage_dc (e : t) (c : Chan) (buf : list F32.t) (n : nat)
    : t * list F32.t :=
  if flags e m_dcBlockerEnabled then
    let '(d, buf) := DCBlocker.process (m_dcBlockers e c) buf n in
    (set_blocks e (m_noiseGates e) (<[c := d]> (m_dcBlockers e)) (m_eqs e)
       (m_reverb e), buf)
  else (e, buf).

(** [numSamples > static_cast<size_t>(m_bufferSize)] *)
Definition exceeds_buffer (e : t) (numSamples : nat) : bool :=
  Z.of_nat numSamples >? wrap 64 (m_bufferSize e).

Definition process (e : t) (input output : list F32.t) (numSamples : nat)
    : t * list F32.t :=
  if exceeds_buffer e numSamples then
    (set_xrunCount e (wrap 32 (m_xrunCount e + 1)),
     memcpy output input numSamples)
  else if flags e m_bypass then
    (e, memcpy output input numSamples)
  else
    let buf := memcpy (m_processBuffers e Legacy) input numSamples in
    let e := smoothGains e in
    let buf := apply_gain (smoothed e m_currentInputGain) buf numSamples in
    let '(e, buf) := stage_gate e m_noiseGateEnabled Legacy buf numSamples in
    let '(e, buf) := stage_model e m_activeSlot m_bypassModel buf numSamples in
    let '(e, buf) := stage_eq e Legacy buf numSamples in
    let '(e, buf) := stage_dc e Legacy buf numSamples in
    let buf := apply_gain (smoothed e m_currentOutputGain) buf numSamples in
    let e :=
      if AudioRecorder.isRecording (m_recorder e) then
        set_recorder e
          (AudioRecorder.pushAudioFrame (m_recorder e) buf buf
             (Z.of_nat numSamples))
      else e in
    (set_processBuffers e (<[Legacy := buf]> (m_processBuffers e)),
     memcpy output buf numSamples).

(** The copies both early returns of [processStereo] make: left to left;
    right to right when both right buffers are given, left to right when
    only the right output is. *)
Definition passthrough_stereo (inputL : list F32.t) (inputR : option (list F32.t))
    (outputL : list F32.t) (outputR : option (list F32.t)) (numSamples : nat)
    : list F32.t * option (list F32.t) :=
  (memcpy outputL inputL numSamples,
   match outputR, inputR with
   | Some outR, Some inR => Some (memcpy outR inR numSamples)
   | Some outR, None => Some (memcpy outR inputL numSamples)
   | None, _ => None
   end).

(** [bufL[i] = inputL[i] * mixL + inputR[i] * mixR] *)
Definition mix_down (bufL inputL inputR : list F32.t) (mixL mixR : F32.t)
    (n : nat) : list F32.t :=
  for_loop 0 n
    (fun i bufL =>
       <[i := F32.add (F32.mul (inputL !!! i) mixL)
                (F32.mul (inputR !!! i) mixR)]> bufL)
    bufL.

(** [buf[i] += track[i]] *)
Definition add_buffer (buf track : list F32.t) (n : nat) : list F32.t :=
  for_loop 0 n (fun i buf => <[i := F32.add (buf !!! i) (track !!! i)]> buf) buf.

Definition processStereo (e : t) (inputL : list F32.t)
    (inputR : option (list F32.t)) (outputL : list F32.t)
    (outputR : option (list F32.t)) (numSamples : nat)
    : t * list F32.t * option (list F32.t) :=
  if exceeds_buffer e numSamples then
    let '(outL, outR) :=
      passthrough_stereo inputL inputR outputL outputR numSamples in
    (set_xrunCount e (wrap 32 (m_xrunCount e + 1)), outL, outR)
  else if flags e m_bypass then
    let '(outL, outR) :=
      passthrough_stereo inputL inputR outputL outputR numSamples in
    (e, outL, outR)
  else
    let mode := m_stereoMode e in
    let e := smoothGains e in
    let selectedInputL := inputL in
    let selectedInputR :=
      match mode, inputR with
      | Stereo2Stereo, Some inR => inR
      | _, _ => inputL
      end in
    let '(selectedInputL, selectedInputR) :=
      match mode, inputR with
      | RightMono2Stereo, Some inR => (inR, inR)
      | _, _ => (selectedInputL, selectedInputR)
      end in
    let bufL :=
      match mode, inputR with
      | Stereo2Mono, Some inR =>
          mix_down (m_processBuffers e ChL) inputL inR
            (levels e m_stereo2MonoMixL) (levels e m_stereo2MonoMixR) numSamples
      | _, _ => memcpy (m_processBuffers e ChL) selectedInputL numSamples
      end in
    let bufL := apply_gain (smoothed e m_currentInputGainL) bufL numSamples in
    let '(e, bufL) := stage_gate e m_noiseGateEnabledL ChL bufL numSamples in
    let '(e, bufL) := stage_model e m_activeSlotL m_bypassModelL bufL numSamples in
    let '(e, bufL) := stage_eq e ChL bufL numSamples in
    let '(e, bufL) := stage_dc e ChL bufL numSamples in
    let bufL := apply_gain (smoothed e m_currentOutputGainL) bufL numSamples in
    let bufR := m_processBuffers e ChR in
    let '(e, bufR) :=
      match mode with
      | Stereo2Stereo =>
          let bufR := memcpy bufR selectedInputR numSamples in
          let bufR := apply_gain (smoothed e m_currentInputGainR) bufR numSamples in
          let '(e, bufR) := stage_gate e m_noiseGateEnabledR ChR bufR numSamples in
          let '(e, bufR) := stage_eq e ChR bufR numSamples in
          let '(e, bufR) := stage_dc e ChR bufR numSamples in
          (e, apply_gain (smoothed e m_currentOutputGainR) bufR numSamples)
      | _ => (e, memcpy bufR bufL numSamples)
      end in
    let '(e, bufL, bufR) :=
      if Reverb_getEnabled (m_reverb e) then
        let '(rv, bufL, bufR) := Reverb_process (m_reverb e) bufL bufR numSamples in
        (set_reverb e rv, bufL, bufR)
      else (e, bufL, bufR) in
    let recording := AudioRecorder.isRecording (m_recorder e) in
    let '(e, bufL, bufR) :=
      match m_backingTrack e with
      | Some track =>
          if recording && flags e m_includeBackingTrackInRecording
             && BackingTrack.isPlaying track then
            let '(track, trackL, trackR) :=
              BackingTrack.fillBuffer track (replicate numSamples F32.zero)
                (replicate numSamples F32.zero) numSamples in
            let bufL := add_buffer bufL trackL numSamples in
            let bufR := add_buffer bufR trackR numSamples in
            let e := set_backingTrack e (Some track) in
            (set_recorder e
               (AudioRecorder.pushAudioFrame (m_recorder e) bufL bufR
                  (Z.of_nat numSamples)), bufL, bufR)
          else if recording then
            (set_recorder e
               (AudioRecorder.pushAudioFrame (m_recorder e) bufL bufR
                  (Z.of_nat numSamples)), bufL, bufR)
          else (e, bufL, bufR)
      | None =>
          if recording then
            (set_recorder e
               (AudioRecorder.pushAudioFrame (m_recorder e) bufL bufR
                  (Z.of_nat numSamples)), bufL, bufR)
          else (e, bufL, bufR)
      end in
    let e :=
      set_processBuffers e
        (<[ChR := bufR]> (<[ChL := bufL]> (m_processBuffers e))) in
    (e, memcpy outputL bufL numSamples,
     match outputR with
     | Some outR => Some (memcpy outR bufR numSamples)
     | None => None
     end).

(** *** The operations on an engine *)

(** Every state-changing entry point of [class Engine], and the steps of the
    background threads that act on its state. *)
Inductive op :=
  | Init
  | Cleanup (rt0 rt1 : nat)
  | ProcessMono (input output : list F32.t) (numSamples : nat)
  | ProcessStereo (inputL : list F32.t) (inputR : option (list F32.t))
      (outputL : list F32.t) (outputR : option (list F32.t)) (numSamples : nat)
  | LoadModelAsync (slot : Z) (modelPath : string)
  | UnloadModel (slot : Z) (rt_samples : nat)
  | WorkerStep (slot : Z) (rt_samples : nat)
  | SetActiveModel (slot : Z)
  | SetActiveModelL (slot : Z)
  | SetActiveModelR (slot : Z)
  | SetBypassModelL (b : bool)
  | SetBypassModelR (b : bool)
  | SetStereoMode (mode : StereoMode)
  | SetStereo2MonoMixL (level : F32.t)
  | SetStereo2MonoMixR (level : F32.t)
  | SetInputGain (gainDB : F32.t)
  | SetInputGainL (gainDB : F32.t)
  | SetInputGainR (gainDB : F32.t)
  | SetOutputGain (gainDB : F32.t)
  | SetOutputGainL (gainDB : F32.t)
  | SetOutputGainR (gainDB : F32.t)
  | SetBypass (b : bool)
  | SetBypassModel (b : bool)
  | SetNormalize (b : bool)
  | SetNoiseGate (enabled : bool) (thresholdDB : F32.t)
  | SetNoiseGateL (enabled : bool) (thresholdDB : F32.t)
  | SetNoiseGateR (enabled : bool) (thresholdDB : F32.t)
  | SetDCBlocker (b : bool)
  | SetEQ (f : ThreeBandEQ -> ThreeBandEQ)
  | SetEQOne (c : Chan) (f : ThreeBandEQ -> ThreeBandEQ)
  | ResetXrunCount
  | StartRecording (env : AudioRecorder.start_env) (filename : string)
  | StopRecording
  | WriterStep (w : WAVWriter.t)
  | SetBackingTrack (b : option BackingTrack.t)
  | SetIncludeBackingTrackInRecording (b : bool)
  | SetReverbEnabled (b : bool)
  | SetReverbRoomSize (size : F32.t)
  | SetReverbDecayTime (seconds : F32.t)
  | SetReverbMix (dry wet : F32.t)
  | ClearReverbBuffers.

Definition apply_op (e : t) (o : op) : t :=
  match o with
  | Init => snd (init e)
  | Cleanup rt0 rt1 => cleanup e rt0 rt1
  | ProcessMono input output n => fst (process e input output n)
  | ProcessStereo inputL inputR outputL outputR n =>
      fst (fst (processStereo e inputL inputR outputL outputR n))
  | LoadModelAsync slot path => loadModelAsync e slot path
  | UnloadModel slot rt => unloadModel e slot rt
  | WorkerStep slot rt => worker_step e slot rt
  | SetActiveModel slot => setActiveModel e slot
  | SetActiveModelL slot => setActiveModelL e slot
  | SetActiveModelR slot => setActiveModelR e slot
  | SetBypassModelL b => setBypassModelL e b
  | SetBypassModelR b => setBypassModelR e b
  | SetStereoMode mode => setStereoMode e mode
  | SetStereo2MonoMixL level => setStereo2MonoMixL e level
  | SetStereo2MonoMixR level => setStereo2MonoMixR e level
  | SetInputGain g => setInputGain e g
  | SetInputGainL g => setInputGainL e g
  | SetInputGainR g => setInputGainR e g
  | SetOutputGain g => setOutputGain e g
  | SetOutputGainL g => setOutputGainL e g
  | SetOutputGainR g => setOutputGainR e g
  | SetBypass b => setBypass e b
  | SetBypassModel b => setBypassModel e b
  | SetNormalize b => setNormalize e b
  | SetNoiseGate en th => setNoiseGate e en th
  | SetNoiseGateL en th => setNoiseGateL e en th
  | SetNoiseGateR en th => setNoiseGateR e en th
  | SetDCBlocker b => setDCBlocker e b
  | SetEQ f => setEQ_all e f
  | SetEQOne c f => setEQ_one e c f
  | ResetXrunCount => resetXrunCount e
  | StartRecording env filename => snd (startRecording env e filename)
  | StopRecording => stopRecording e
  | WriterStep w =>
      set_recorder e (fst (AudioRecorder.writer_step (m_recorder e) w))
  | SetBackingTrack b => setBackingTrack e b
  | SetIncludeBackingTrackInRecording b => setIncludeBackingTrackInRecording e b
  | SetReverbEnabled b => setReverbEnabled e b
  | SetReverbRoomSize s => setReverbRoomSize e s
  | SetReverbDecayTime s => setReverbDecayTime e s
  | SetReverbMix d w => setReverbMix e d w
  | ClearReverbBuffers => clearReverbBuffers e
  end.

Definition run (e : t) (ops : list op) : t := fold_left apply_op ops e.

End WithCollaborators.

Arguments t {NA DSP}.
Arguments op {DSP}.

End Engine.

(** ** Collaborators for concrete runs *)

(** A model library whose models are the identity and which loads exactly
    the file "amp.nam"; DSP blocks without state that pass audio through. *)
Definition identity_audio : NeuralAudio :=
  {| Model := unit;
     CreateFromFile :=
       fun path => if String.eqb path "amp.nam" then Some tt else None;
     SetMaxAudioBufferSize := fun m _ => m;
     GetSampleRate := fun _ => F32.of_Z 48000;
     GetRecommendedOutputDBAdjustment := fun _ => F32.zero;
     Process := fun m input => (m, input);
     powf := fun _ _ => F32.one;
     log10f := fun _ => F32.zero |}.

Definition identity_dsp : DspBlocks :=
  {| NoiseGate := unit;
     NoiseGate_make := fun _ => tt;
     NoiseGate_process := fun g buf _ => (g, buf);
     NoiseGate_setThreshold := fun g _ => g;
     ThreeBandEQ := unit;
     ThreeBandEQ_make := fun _ => tt;
     ThreeBandEQ_process := fun q buf _ => (q, buf);
     ThreeBandEQ_setEnabled := fun q _ => q;
     ThreeBandEQ_setBass := fun q _ => q;
     ThreeBandEQ_setMid := fun q _ => q;
     ThreeBandEQ_setTreble := fun q _ => q;
     Reverb := bool;
     Reverb_make := fun _ _ => false;
     Reverb_getEnabled := fun r => r;
     Reverb_process := fun r bufL bufR _ => (r, bufL, bufR);
     Reverb_setEnabled := fun _ b => b;
     Reverb_setRoomSize := fun r _ => r;
     Reverb_setDecayTime := fun r _ => r;
     Reverb_setMix := fun r _ _ => r;
     Reverb_clearBuffers := fun r => r |}.

(** An engine at 48 kHz with 128-frame blocks and a zeroed ring. *)
Definition engine_48k : @Engine.t identity_audio identity_dsp :=
  @Engine.make identity_audio identity_dsp 48000 128 (fun _ => F32.zero).

(** The closed unit interval of [float], by [float] comparison. *)
Definition in_unit_interval (x : F32.t) : bool :=
  F32.leb F32.zero x && F32.leb x F32.one.

(** The PCM bytes of a list of samples, in order. *)
Definition pcm_stream (xs : list F32.t) : list byte :=
  concat (map WAVWriter.pcm_bytes xs).

(** The RIFF chunk-size field (bytes 4..7) and the data chunk-size field
    (bytes 40..43) of a WAV file. *)
Definition riff_size_field (file : list byte) : Z :=
  le_decode (take 4 (drop 4 file)).

Definition data_size_field (file : list byte) : Z :=
  le_decode (take 4 (drop 40 file)).

(** The state of a writer that has an open file holding a header and the
    PCM bytes of the samples [xs]. *)
Definition WAVWriter_holds (w : WAVWriter.t) (hdr : list byte)
    (xs : list F32.t) : Prop :=
  OFStream.is_open (WAVWriter.m_file w) = true
  /\ OFStream.pos (WAVWriter.m_file w)
     = length (OFStream.content (WAVWriter.m_file w))
  /\ OFStream.content (WAVWriter.m_file w) = hdr ++ pcm_stream xs
  /\ WAVWriter.m_dataSize w = Z.of_nat (length (pcm_stream xs)) mod 2 ^ 32.


(** The samples a looping fill produces from cursor [pos]. *)
Definition looped_samples (b : BackingTrack.t) (data : list F32.t) (pos : Z)
    (count : nat) : list F32.t :=
  map (fun k =>
         F32.mul (data !!! Z.to_nat (BackingTrack.cursor_from b pos k))
           (BackingTrack.volume_ b))
    (seq 0 count).

(** The samples a fill without looping produces from cursor [pos]. *)
Definition straight_samples (b : BackingTrack.t) (data : list F32.t) (pos : Z)
    (count : nat) : list F32.t :=
  map (fun k =>
         F32.mul (data !!! Z.to_nat (pos + Z.of_nat k)) (BackingTrack.volume_ b))
    (seq 0 count).

(** Arithmetic of ring positions modulo [RING_BUFFER_SIZE]. *)
Ltac ring_arith :=
  unfold AudioRecorder.used, AudioRecorder.available_space,
    AudioRecorder.available_data, AudioRecorder.positions_ok,
    AudioRecorder.is_empty, AudioRecorder.is_full,
    AudioRecorder.BATCH_SIZE, AudioRecorder.RING_BUFFER_SIZE, wrap in *;
  repeat case_match;
  Z.div_mod_to_equations; lia.


(** ** A recording, from [startRecording] to the closed file *)

(** [left[0], right[0], left[1], right[1], ...]: the order in which
    [pushAudioFrame] stores the two channels of a block. *)
Fixpoint interleave (left right : list F32.t) : list F32.t :=
  match left, right with
  | l :: ls, r :: rs => l :: r :: interleave ls rs
  | _, _ => []
  end.

(** [s] ends with [suffix]. *)
Definition ends_with (s suffix : string) : Prop :=
  exists prefix, s = String.append prefix suffix.

Module Recording.

(** The samples between the read and the write position of the ring,
    oldest first. *)
Definition pending (r : AudioRecorder.t) : list F32.t :=
  map (fun k =>
         AudioRecorder.m_ringBuffer r
           ((AudioRecorder.m_readPos r + Z.of_nat k)
            mod AudioRecorder.RING_BUFFER_SIZE))
    (seq 0 (Z.to_nat (AudioRecorder.used r))).

(** The samples that [count] iterations of the interleaving loop store,
    starting at frame [i]. *)
Definition block (left right : list F32.t) (i count : nat) : list F32.t :=
  flat_map (fun k => [left !!! k; right !!! k]) (seq i count).

(** Whether the producer finds room for a block of [numSamples] frames. *)
Definition has_room (r : AudioRecorder.t) (numSamples : nat) : bool :=
  2 * Z.of_nat numSamples
  <=? AudioRecorder.RING_BUFFER_SIZE - 1 - AudioRecorder.used r.

(** What the two threads do while a recording runs: the audio thread pushes
    a block, or the writer thread runs one iteration of its loop. *)
Inductive event :=
  | Push (left right : list F32.t) (numSamples : nat)
  | Drain.

Definition step (st : AudioRecorder.t * WAVWriter.t) (ev : event)
    : AudioRecorder.t * WAVWriter.t :=
  match ev with
  | Push bufL bufR numSamples =>
      (AudioRecorder.pushAudioFrame (fst st) bufL bufR (Z.of_nat numSamples),
       snd st)
  | Drain => AudioRecorder.writer_step (fst st) (snd st)
  end.

Definition steps (st : AudioRecorder.t * WAVWriter.t) (events : list event)
    : AudioRecorder.t * WAVWriter.t :=
  fold_left step events st.

(** The head of [writerThreadFunc]: the file is opened for two channels at
    the recorder's sample rate; when that fails the thread clears the
    recording flag and returns. *)
Definition writer_open (ok : bool) (r : AudioRecorder.t)
    : AudioRecorder.t * WAVWriter.t :=
  let '(opened, w) :=
    WAVWriter.open ok WAVWriter.init (AudioRecorder.m_sampleRate r) 2 in
  if negb opened then (AudioRecorder.set_recording r false, w) else (r, w).

(** A whole recording on a recorder on which [startRecording] has
    succeeded: the writer thread opens the file, the two threads run,
    [stopRecording] clears the flag and joins the writer, which has left its
    loop, flushed the ring and closed the file. *)
Definition run (r : AudioRecorder.t) (events : list event)
    : AudioRecorder.t * WAVWriter.t :=
  let '(r, w) := steps (writer_open true r) events in
  (AudioRecorder.stopRecording r, AudioRecorder.writer_flush r w).

(** The audio thread pushing a sequence of blocks. *)
Definition pushes (r : AudioRecorder.t)
    (blocks : list (list F32.t * list F32.t * nat)) : AudioRecorder.t :=
  fold_left
    (fun r b =>
       AudioRecorder.pushAudioFrame r (fst (fst b)) (snd (fst b))
         (Z.of_nat (snd b)))
    blocks r.

(** A recording whose file cannot be opened: the audio thread pushes the
    blocks [before] while the writer thread is starting, the writer thread
    fails to open the file, clears the flag and returns, the audio thread
    pushes the blocks [after], and [stopRecording] is called. *)
Definition run_open_failed (r : AudioRecorder.t)
    (before after : list (list F32.t * list F32.t * nat))
    : AudioRecorder.t * WAVWriter.t :=
  let '(r, w) := writer_open false (pushes r before) in
  (AudioRecorder.stopRecording (pushes r after), w).

(** The samples of the blocks the ring accepts along [events], in push
    order. *)
Fixpoint kept (st : AudioRecorder.t * WAVWriter.t) (events : list event)
    : list F32.t :=
  match events with
  | [] => []
  | ev :: rest =>
      match ev with
      | Push bufL bufR numSamples =>
          if has_room (fst st) numSamples
          then interleave (take numSamples bufL) (take numSamples bufR)
          else []
      | Drain => []
      end ++ kept (step st ev) rest
  end.

(** The frames of the blocks the ring refuses along [events]. *)
Fixpoint refused (st : AudioRecorder.t * WAVWriter.t) (events : list event)
    : Z :=
  match events with
  | [] => 0
  | ev :: rest =>
      match ev with
      | Push _ _ numSamples =>
          if has_room (fst st) numSamples then 0 else Z.of_nat numSamples
      | Drain => 0
      end + refused (step st ev) rest
  end.

(** A pushed block holds the frames it announces, and twice their number
    fits a [size_t]. *)
Definition event_fits (ev : event) : Prop :=
  match ev with
  | Push bufL bufR numSamples =>
      (numSamples <= length bufL)%nat /\ (numSamples <= length bufR)%nat
      /\ Z.of_nat numSamples < 2 ^ 63
  | Drain => True
  end.

(** All the samples pushed along [events], in push order. *)
Definition pushed (events : list event) : list F32.t :=
  flat_map (fun ev =>
              match ev with
              | Push bufL bufR numSamples =>
                  interleave (take numSamples bufL) (take numSamples bufR)
              | Drain => []
              end) events.

(** What holds between the steps of a running recording: the file holds a
    header and the PCM bytes of [written], [written] followed by the
    samples waiting in the ring is [xs], and the dropped-frames counter is
    [d] modulo 2^64. *)
Definition invariant (hdr : list byte) (xs : list F32.t) (d : Z)
    (st : AudioRecorder.t * WAVWriter.t) : Prop :=
  AudioRecorder.m_recording (fst st) = true
  /\ AudioRecorder.positions_ok (fst st)
  /\ AudioRecorder.used (fst st) mod 2 = 0
  /\ AudioRecorder.m_droppedFrames (fst st) = d mod 2 ^ 64
  /\ WAVWriter.m_numChannels (snd st) = 2
  /\ exists written,
       WAVWriter_holds (snd st) hdr written
       /\ written ++ pending (fst st) = xs.

End Recording.

(** ** Values for concrete runs *)

(** A recorder as the engine constructs it, with a zeroed ring. *)
Definition recorder_idle : AudioRecorder.t :=
  AudioRecorder.make "./recordings" (fun _ => F32.zero).

Definition clock_env : AudioRecorder.start_env :=
  AudioRecorder.mk_env "recording-2026-01-01-000000.wav" 7 1.

(** The recorder after [startRecording("take1", 48000)]. *)
Definition recorder_started : AudioRecorder.t :=
  snd (AudioRecorder.startRecording clock_env recorder_idle "take1" 48000).

(** ** Reading a WAV header back *)

(** The four-character tag and the little-endian integer field at a byte
    offset of a file. *)
Definition wav_tag (file : list byte) (offset : nat) : list byte :=
  take 4 (drop offset file).

Definition wav_field (file : list byte) (offset width : nat) : Z :=
  le_decode (take width (drop offset file)).

(** [WAVWriter::isOpen] *)
Definition WAVWriter_isOpen (w : WAVWriter.t) : bool :=
  OFStream.is_open (WAVWriter.m_file w).

(** ** The backing-track player over sequences of calls *)

(** What [fillBuffer(outL, outR, n)] produces, in closed form: the player
    after the call and the [n] samples written to each channel. *)
Definition BackingTrack_output (b : BackingTrack.t) (n : nat)
    : BackingTrack.t * list F32.t * list F32.t :=
  let pos := BackingTrack.playbackPosition_ b in
  let left := BackingTrack.frames_left b in
  if negb (BackingTrack.isPlaying_ b) || (BackingTrack.totalFrames_ b =? 0)
  then (b, replicate n F32.zero, replicate n F32.zero)
  else if BackingTrack.loopEnabled_ b then
    (BackingTrack.set_transport b true (BackingTrack.cursor_after b n),
     looped_samples b (BackingTrack.audioDataL_ b) pos n,
     looped_samples b (BackingTrack.audioDataR_ b) pos n)
  else if decide (n <= left)%nat then
    (BackingTrack.set_transport b true (pos + Z.of_nat n),
     straight_samples b (BackingTrack.audioDataL_ b) pos n,
     straight_samples b (BackingTrack.audioDataR_ b) pos n)
  else
    (BackingTrack.set_transport b false (BackingTrack.startFrame_ b),
     straight_samples b (BackingTrack.audioDataL_ b) pos left
       ++ replicate (n - left) F32.zero,
     straight_samples b (BackingTrack.audioDataR_ b) pos left
       ++ replicate (n - left) F32.zero).







(** ** Decoding in [loadWavFile] *)

(** The de-interleaving loops of [loadWavFile]: [tempL] and [tempR] are
    vectors of [frames] floats; a mono file goes to both channels. *)
Definition deinterleave (channels : Z) (frames : nat)
    (interleavedData : list F32.t) : list F32.t * list F32.t :=
  let tempL := replicate frames F32.zero in
  let tempR := replicate frames F32.zero in
  if channels =? 1 then
    for_loop 0 frames
      (fun i temp =>
         (<[i := interleavedData !!! i]> (fst temp),
          <[i := interleavedData !!! i]> (snd temp)))
      (tempL, tempR)
  else
    for_loop 0 frames
      (fun i temp =>
         (<[i := interleavedData !!! (i * 2)%nat]> (fst temp),
          <[i := interleavedData !!! (i * 2 + 1)%nat]> (snd temp)))
      (tempL, tempR).

(** ** The engine's control parameters *)

Section EngineControls.
Context {NA : NeuralAudio} {DSP : DspBlocks}.

(** The members of [class Engine] that the setters write and the audio
    callbacks read: the configuration, the atomic flags, levels and slot
    indices, and the recorded model paths. *)
Definition Engine_controls (e : Engine.t) :=
  (Engine.m_sampleRate e, Engine.m_bufferSize e, Engine.m_stereoMode e,
   Engine.flags e, Engine.levels e, Engine.activeSlots e,
   Engine.m_modelPaths e).

(** What no processing stage writes: the controls and the xrun counter. *)
Definition Engine_kept (e : Engine.t) :=
  (Engine_controls e, Engine.m_xrunCount e).

(** An audio callback with more samples than [bufferSize]. *)
Definition Engine_oversized (bufferSize : Z) (o : Engine.op) : bool :=
  match o with
  | Engine.ProcessMono _ _ n | Engine.ProcessStereo _ _ _ _ n =>
      bufferSize <? Z.of_nat n
  | _ => false
  end.

(** The operations that store 0 in the xrun counter: [init] and
    [resetXrunCount]. *)
Definition Engine_clears_xruns (o : Engine.op) : bool :=
  match o with
  | Engine.Init | Engine.ResetXrunCount => true
  | _ => false
  end.

(** The number of oversized callbacks among [ops]. *)
Definition Engine_count_oversized (bufferSize : Z) (ops : list Engine.op) : Z :=
  Z.of_nat (length (filter (fun o => Engine_oversized bufferSize o = true) ops)).

End EngineControls.

(** Unfolds the setters of [class Engine]. *)
Ltac unfold_setters :=
  unfold Engine.cleanup, Engine.unloadModel, Engine.loadModelAsync,
    Engine.worker_step, Engine.init,
    Engine.setActiveModel, Engine.setActiveModelL, Engine.setActiveModelR,
    Engine.setBypassModelL, Engine.setBypassModelR, Engine.setStereoMode,
    Engine.setStereo2MonoMixL, Engine.setStereo2MonoMixR,
    Engine.setInputGain, Engine.setInputGainL, Engine.setInputGainR,
    Engine.setOutputGain, Engine.setOutputGainL, Engine.setOutputGainR,
    Engine.setBypass, Engine.setBypassModel, Engine.setNormalize,
    Engine.setNoiseGate, Engine.setNoiseGateL, Engine.setNoiseGateR,
    Engine.setDCBlocker, Engine.setEQ_all, Engine.setEQ_one,
    Engine.resetXrunCount, Engine.startRecording, Engine.stopRecording,
    Engine.setBackingTrack, Engine.setIncludeBackingTrackInRecording,
    Engine.setReverbEnabled, Engine.setReverbRoomSize,
    Engine.setReverbDecayTime, Engine.setReverbMix, Engine.clearReverbBuffers.

(** ** The fade of [ModelLoader::applyFade] in closed form *)

Section ModelLoaderFade.
Context {NA : NeuralAudio}.

(** The gain [applyFade] computes for a sample with [remaining] fade samples
    left: [remaining / FADE_SAMPLES] when fading out and
    [1.0f - remaining / FADE_SAMPLES] when fading in. *)
Definition ModelLoader_ramp (s : ModelLoader.FadeState) (remaining : Z)
    : F32.t :=
  let ratio :=
    F32.div (F32.of_Z remaining) (F32.of_Z ModelLoader.FADE_SAMPLES) in
  match s with
  | ModelLoader.FadingIn => F32.sub F32.one ratio
  | _ => ratio
  end.

(** A block whose first [n] samples went through a fade in state [s] with
    [r] samples left: the ramp on the first [min n r] samples, the rest as
    it was. *)
Definition ModelLoader_faded (s : ModelLoader.FadeState) (r : Z)
    (buffer : list F32.t) (n : nat) : list F32.t :=
  let m := Nat.min n (Z.to_nat r) in
  map (fun k => F32.mul (buffer !!! k) (ModelLoader_ramp s (r - Z.of_nat k)))
    (seq 0 m)
  ++ drop m buffer.

(** The loader after its fade has run over [n] samples. *)
Definition ModelLoader_fade_after (l : ModelLoader.t) (n : nat)
    : ModelLoader.t :=
  let r := ModelLoader.m_fadeSamplesRemaining l in
  let s := ModelLoader.m_fadeState l in
  match s with
  | ModelLoader.Idle => l
  | _ =>
      if (r <=? 0) || (n =? 0)%nat then l
      else if Z.of_nat n <? r then
        ModelLoader.set_fade l (ModelLoader.m_doRampDown l)
          (ModelLoader.m_doRampUp l) s (r - Z.of_nat n)
          (ModelLoader_ramp s (r - Z.of_nat n + 1))
      else
        match s with
        | ModelLoader.FadingOut =>
            ModelLoader.set_fade l false (ModelLoader.m_doRampUp l)
              ModelLoader.Idle 0 F32.zero
        | ModelLoader.FadingIn =>
            ModelLoader.set_fade l (ModelLoader.m_doRampDown l) false
              ModelLoader.Idle 0 F32.one
        | ModelLoader.Idle => l
        end
  end.

End ModelLoaderFade.

(** ** NoiseGate.cpp *)

Module NoiseGateCpp.

Record t := mk {
  m_sampleRate : Z;             (* int *)
  m_thresholdDB : F32.t;
  m_thresholdLinear : F32.t;
  m_envelope : F32.t;
  m_gain : F32.t;
  m_attackCoeff : F32.t;
  m_releaseCoeff : F32.t
}.

(** [ATTACK_MS = 1.0f], [RELEASE_MS = 100.0f], and the literals [-40.0f]
    and [1000.0f]. *)
Definition ATTACK_MS : F32.t := F32.one.
Definition RELEASE_MS : F32.t := S754_finite false 13107200 (-17).
Definition NEG_FORTY : F32.t := S754_finite true 10485760 (-18).
Definition THOUSAND : F32.t := S754_finite false 16384000 (-14).

(** One iteration of the loop of [process]: the envelope follower, the hard
    gate and the gain. *)
Definition process_sample (i : nat) (st : t * list F32.t) : t * list F32.t :=
  let '(g, buffer) := st in
  let input := buffer !!! i in
  let inputAbs := SFabs input in
  let envelope :=
    if F32.ltb (m_envelope g) inputAbs then
      F32.add (F32.mul (m_envelope g) (m_attackCoeff g))
        (F32.mul inputAbs (F32.sub F32.one (m_attackCoeff g)))
    else
      F32.add (F32.mul (m_envelope g) (m_releaseCoeff g))
        (F32.mul inputAbs (F32.sub F32.one (m_releaseCoeff g))) in
  let gain :=
    if F32.ltb (m_thresholdLinear g) envelope then F32.one else F32.zero in
  ({| m_sampleRate := m_sampleRate g; m_thresholdDB := m_thresholdDB g;
      m_thresholdLinear := m_thresholdLinear g; m_envelope := envelope;
      m_gain := gain; m_attackCoeff := m_attackCoeff g;
      m_releaseCoeff := m_releaseCoeff g |},
   <[i := F32.mul input gain]> buffer).

Definition process (g : t) (buffer : list F32.t) (numSamples : nat)
    : t * list F32.t :=
  for_loop 0 numSamples process_sample (g, buffer).

Definition getThreshold (g : t) : F32.t := m_thresholdDB g.

Definition reset (g : t) : t :=
  {| m_sampleRate := m_sampleRate g; m_thresholdDB := m_thresholdDB g;
     m_thresholdLinear := m_thresholdLinear g; m_envelope := F32.zero;
     m_gain := F32.one; m_attackCoeff := m_attackCoeff g;
     m_releaseCoeff := m_releaseCoeff g |}.

(** The gate run over a list of samples, sample by sample: the gate
    afterwards and the outputs. *)
Fixpoint run (g : t) (xs : list F32.t) : t * list F32.t :=
  match xs with
  | [] => (g, [])
  | input :: rest =>
      let '(g1, out) := process_sample 0 (g, [input]) in
      let '(g', ys) := run g1 rest in
      (g', out ++ ys)
  end.

Section WithMath.
(** [std::pow] comes with the model library's math; [expf] is [std::exp]. *)
Context {NA : NeuralAudio} (expf : F32.t -> F32.t).

Definition dbToLinear (db : F32.t) : F32.t :=
  powf ModelLoader.TEN (F32.div db ModelLoader.TWENTY).

(** [exp(-1.0f / (time_ms * m_sampleRate / 1000.0f))] *)
Definition coefficient (time_ms : F32.t) (sampleRate : Z) : F32.t :=
  expf (F32.div F32.neg_one
          (F32.div (F32.mul time_ms (F32.of_Z sampleRate)) THOUSAND)).

Definition updateCoefficients (g : t) : t :=
  {| m_sampleRate := m_sampleRate g; m_thresholdDB := m_thresholdDB g;
     m_thresholdLinear := m_thresholdLinear g; m_envelope := m_envelope g;
     m_gain := m_gain g;
     m_attackCoeff := coefficient ATTACK_MS (m_sampleRate g);
     m_releaseCoeff := coefficient RELEASE_MS (m_sampleRate g) |}.

Definition setThreshold (g : t) (thresholdDB : F32.t) : t :=
  {| m_sampleRate := m_sampleRate g; m_thresholdDB := thresholdDB;
     m_thresholdLinear := dbToLinear thresholdDB; m_envelope := m_envelope g;
     m_gain := m_gain g; m_attackCoeff := m_attackCoeff g;
     m_releaseCoeff := m_releaseCoeff g |}.

(** The constructor: the member initialisers set the sample rate, the
    threshold of -40 dB, the envelope [0.0f] and the gain [1.0f]; the body
    assigns the coefficients and then the linear threshold, neither of which
    is read before. *)
Definition make (sampleRate : Z) : t :=
  let g :=
    updateCoefficients
      {| m_sampleRate := sampleRate; m_thresholdDB := NEG_FORTY;
         m_thresholdLinear := F32.zero; m_envelope := F32.zero;
         m_gain := F32.one; m_attackCoeff := F32.zero;
         m_releaseCoeff := F32.zero |} in
  {| m_sampleRate := m_sampleRate g; m_thresholdDB := m_thresholdDB g;
     m_thresholdLinear := dbToLinear (m_thresholdDB g);
     m_envelope := m_envelope g; m_gain := m_gain g;
     m_attackCoeff := m_attackCoeff g; m_releaseCoeff := m_releaseCoeff g |}.

End WithMath.

End NoiseGateCpp.

(** An input sample that is a finite [float]. *)
Definition F32_finite_sample (x : F32.t) : bool :=
  F32.is_finite x && valid_binary F32.prec F32.emax x.

(** A zero of either sign. *)
Definition F32_is_zero (x : F32.t) : bool :=
  match x with S754_zero _ => true | _ => false end.

(** * Theorems *)

(** ** Loops *)

Lemma for_loop_S {St : Type} (i count : nat) (body : nat -> St -> St) (s : St) :
  for_loop i (S count) body s = body (i + count)%nat (for_loop i count body s).
Proof.
  revert i s. induction count as [|c IH]; intros i s.
  - simpl. by rewrite Nat.add_0_r.
  - change (for_loop i (S (S c)) body s)
      with (for_loop (S i) (S c) body (body i s)).
    rewrite IH. simpl. f_equal. lia.
Qed.

Lemma for_loop_ind {St : Type} (P : nat -> St -> Prop) (body : nat -> St -> St)
    (i count : nat) (s : St) :
  P i s ->
  (forall k st, (i <= k < i + count)%nat -> P k st -> P (S k) (body k st)) ->
  P (i + count)%nat (for_loop i count body s).
Proof.
  revert i s. induction count as [|c IH]; intros i s H0 Hstep.
  - simpl. by rewrite Nat.add_0_r.
  - simpl. replace (i + S c)%nat with (S i + c)%nat by lia.
    apply IH.
    + apply Hstep; [lia | done].
    + intros k st Hk. apply Hstep. lia.
Qed.

(** ** DCBlocker *)

Lemma DCBlocker_process_sample_middle (x : F32.t) (pre rest : list F32.t)
    (d : DCBlocker.t) :
  DCBlocker.process_sample (length pre) (d, pre ++ x :: rest)
  = let output :=
      F32.add (F32.sub x (DCBlocker.m_x1 d))
        (F32.mul (DCBlocker.m_coefficient d) (DCBlocker.m_y1 d)) in
    (DCBlocker.mk x output (DCBlocker.m_coefficient d),
     (pre ++ [output]) ++ rest).
Proof.
  unfold DCBlocker.process_sample.
  rewrite list_lookup_total_middle by done.
  replace (length pre) with (length pre + 0)%nat at 1 by lia.
  rewrite insert_app_r. simpl. by rewrite <- app_assoc.
Qed.

Lemma DCBlocker_process_run (xs pre post : list F32.t) (d : DCBlocker.t) :
  for_loop (length pre) (length xs) DCBlocker.process_sample
    (d, pre ++ xs ++ post)
  = (fst (DCBlocker.run d xs), pre ++ snd (DCBlocker.run d xs) ++ post).
Proof.
  revert pre d. induction xs as [|x xs IH]; intros pre d.
  - reflexivity.
  - change (for_loop (length pre) (length (x :: xs)) DCBlocker.process_sample
              (d, pre ++ (x :: xs) ++ post))
      with (for_loop (S (length pre)) (length xs) DCBlocker.process_sample
              (DCBlocker.process_sample (length pre)
                 (d, pre ++ x :: (xs ++ post)))).
    rewrite DCBlocker_process_sample_middle. cbv zeta.
    set (out := F32.add _ _).
    set (d1 := DCBlocker.mk _ _ _).
    specialize (IH (pre ++ [out]) d1).
    rewrite length_app in IH. simpl in IH.
    replace (length pre + 1)%nat with (S (length pre)) in IH by lia.
    rewrite IH. simpl. fold out. fold d1.
    destruct (DCBlocker.run d1 xs) as [d2 ys]. simpl.
    by rewrite <- app_assoc.
Qed.

Lemma DCBlocker_run_length (xs : list F32.t) (d : DCBlocker.t) :
  length (snd (DCBlocker.run d xs)) = length xs.
Proof.
  revert d. induction xs as [|x xs IH]; intros d; simpl; [done|].
  specialize (IH (DCBlocker.mk x
    (F32.add (F32.sub x (DCBlocker.m_x1 d))
       (F32.mul (DCBlocker.m_coefficient d) (DCBlocker.m_y1 d)))
    (DCBlocker.m_coefficient d))).
  destruct (DCBlocker.run _ xs). simpl in *. by rewrite IH.
Qed.

Lemma DCBlocker_process_take (d : DCBlocker.t) (buffer : list F32.t) (n : nat) :
  (n <= length buffer)%nat ->
  DCBlocker.process d buffer n
  = (fst (DCBlocker.run d (take n buffer)),
     snd (DCBlocker.run d (take n buffer)) ++ drop n buffer).
Proof.
  intros Hn. unfold DCBlocker.process.
  pose proof (DCBlocker_process_run (take n buffer) [] (drop n buffer) d) as H.
  simpl in H. rewrite take_drop, length_take_le in H by done. exact H.
Qed.

Lemma DCBlocker_y_prefix (R : F32.t) (s u : list F32.t) (k : nat) :
  (k < length s)%nat -> DCBlocker.y R (s ++ u) k = DCBlocker.y R s k.
Proof.
  induction k as [|k IH]; intros Hk; simpl.
  - by rewrite lookup_total_app_l by lia.
  - rewrite IH by lia. by rewrite !lookup_total_app_l by lia.
Qed.

Lemma DCBlocker_run_after (R : F32.t) (xs s : list F32.t) :
  DCBlocker.run (DCBlocker.after R s) xs
  = (DCBlocker.after R (s ++ xs),
     map (DCBlocker.y R (s ++ xs)) (seq (length s) (length xs))).
Proof.
  revert s. induction xs as [|x xs IH]; intros s.
  - simpl. by rewrite app_nil_r.
  - simpl DCBlocker.run.
    set (out := F32.add _ _). set (d1 := DCBlocker.mk _ _ _).
    assert (Hout : out = DCBlocker.y R (s ++ [x]) (length s)).
    { unfold out, DCBlocker.after. destruct (length s) as [|k] eqn:Hk; simpl.
      - by rewrite list_lookup_total_middle by done.
      - rewrite list_lookup_total_middle by done.
        rewrite (lookup_total_app_l s) by lia.
        by rewrite DCBlocker_y_prefix by lia. }
    assert (Hd1 : d1 = DCBlocker.after R (s ++ [x])).
    { unfold d1, DCBlocker.after at 2. rewrite length_app. simpl.
      replace (length s + 1)%nat with (S (length s)) by lia.
      rewrite list_lookup_total_middle by done. rewrite <- Hout.
      f_equal. unfold DCBlocker.after. by destruct (length s). }
    rewrite Hd1, IH. rewrite <- app_assoc. simpl. f_equal.
    rewrite length_app. simpl.
    replace (length s + 1)%nat with (S (length s)) by lia.
    f_equal. rewrite Hout.
    change (s ++ x :: xs) with (s ++ [x] ++ xs). rewrite app_assoc.
    symmetry. apply DCBlocker_y_prefix. rewrite length_app. simpl. lia.
Qed.

Lemma DCBlocker_process_after (R : F32.t) (s buffer : list F32.t) (n : nat) :
  (n <= length buffer)%nat ->
  DCBlocker.process (DCBlocker.after R s) buffer n
  = (DCBlocker.after R (s ++ take n buffer),
     map (DCBlocker.y R (s ++ take n buffer)) (seq (length s) n)
     ++ drop n buffer).
Proof.
  intros Hn. rewrite DCBlocker_process_take by done.
  rewrite DCBlocker_run_after. simpl. by rewrite length_take_le by done.
Qed.

Lemma DCBlocker_process_calls_after (R : F32.t)
    (calls : list (list F32.t * nat)) (s : list F32.t) :
  DCBlocker.calls_fit calls ->
  let res := DCBlocker.process_calls (DCBlocker.after R s) calls in
  let x := s ++ DCBlocker.stream calls in
  fst res = DCBlocker.after R x
  /\ concat (zip_with (fun out c => take (snd c) out) (snd res) calls)
     = map (DCBlocker.y R x)
         (seq (length s) (length (DCBlocker.stream calls)))
  /\ Forall2 (fun out c => drop (snd c) out = drop (snd c) (fst c))
       (snd res) calls.
Proof.
  revert s. induction calls as [|[buffer n] calls IH]; intros s Hfit.
  - simpl. rewrite app_nil_r. repeat split; constructor.
  - apply Forall_cons_1 in Hfit. destruct Hfit as [Hn Hfit]. simpl in Hn.
    cbn [DCBlocker.process_calls].
    rewrite DCBlocker_process_after by done.
    specialize (IH (s ++ take n buffer) Hfit). cbv zeta in IH.
    destruct (DCBlocker.process_calls _ calls) as [d2 outs].
    destruct IH as (Hst & Hout & Hrest). simpl in Hst, Hout, Hrest.
    unfold DCBlocker.stream in *. cbn [map concat fst snd].
    rewrite app_assoc. repeat split.
    + exact Hst.
    + cbn [zip_with concat snd].
      rewrite take_app_length'
        by (by rewrite length_map, length_seq).
      rewrite Hout. rewrite !length_app, length_take_le by done.
      rewrite seq_app, map_app. f_equal.
      apply map_ext_in. intros k Hk. apply in_seq in Hk.
      symmetry. apply DCBlocker_y_prefix. rewrite length_app, length_take_le; lia.
    + constructor; [|exact Hrest]. simpl.
      by rewrite drop_app_length' by (by rewrite length_map, length_seq).
Qed.

(** C8. [DCBlocker::process] realises the difference equation
    [y[n] = x[n] - x[n-1] + R * y[n-1]] (in [float] arithmetic, with
    [x[-1] = y[-1] = 0] after a reset) over the whole stream of samples that
    any sequence of calls feeds to it: the produced samples are [y] at every
    index, the samples past [numSamples] of each buffer are untouched, the
    state left behind is exactly the last input and the last output, and
    [reset] zeroes both.  The coefficient of a constructed filter is
    [1 - 2*pi*fc/fs] with [fc = 10], evaluated in [double] and narrowed to
    [float]. *)
Theorem DCBlocker_difference_equation (d0 : DCBlocker.t)
    (calls : list (list F32.t * nat)) :
  DCBlocker.calls_fit calls ->
  let R := DCBlocker.m_coefficient d0 in
  let x := DCBlocker.stream calls in
  let res := DCBlocker.process_calls (DCBlocker.reset d0) calls in
  concat (zip_with (fun out c => take (snd c) out) (snd res) calls)
    = map (DCBlocker.y R x) (seq 0 (length x))
  /\ Forall2 (fun out c => drop (snd c) out = drop (snd c) (fst c))
       (snd res) calls
  /\ fst res = DCBlocker.after R x
  /\ DCBlocker.reset d0 = DCBlocker.mk F32.zero F32.zero R
  /\ (forall sampleRate,
        DCBlocker.make sampleRate
        = DCBlocker.mk F32.zero F32.zero (DCBlocker.coefficient sampleRate)
        /\ DCBlocker.coefficient sampleRate
           = F64.to_f32
               (F64.sub (F64.of_f32 F32.one)
                  (F64.div
                     (F64.mul (F64.mul (F64.of_f32 F32.two) F64.M_PI)
                        (F64.of_f32 DCBlocker.DC_BLOCK_FREQ))
                     (F64.of_f32 (F32.of_Z sampleRate))))).
Proof.
  intros Hfit R x res.
  pose proof (DCBlocker_process_calls_after R calls [] Hfit) as H.
  cbv zeta in H. simpl in H.
  change (DCBlocker.after R []) with (DCBlocker.reset d0) in H.
  destruct H as (Hst & Hout & Hrest).
  repeat split; try done.
Qed.

Lemma DCBlocker_difference_equation_witness :
  let calls :=
    [([F32.half; F32.half; F32.half], 2%nat); ([F32.one], 1%nat)] in
  DCBlocker.calls_fit calls
  /\ fst (DCBlocker.process_calls (DCBlocker.reset (DCBlocker.make 48000)) calls)
     = DCBlocker.after (DCBlocker.coefficient 48000) (DCBlocker.stream calls).
Proof.
  intros calls.
  assert (Hfit : DCBlocker.calls_fit calls).
  { repeat constructor. }
  split; [exact Hfit|].
  exact (proj1 (proj2 (proj2
           (DCBlocker_difference_equation (DCBlocker.make 48000) calls Hfit)))).
Defined.

Example DCBlocker_coefficient_48k :
  DCBlocker.coefficient 48000 = S754_finite false 16755255 (-24).
Proof. vm_compute. reflexivity. Qed.

(** A constant input of 0.5 at 48 kHz: the first output is the input, the
    second is [R * 0.5]. *)
Example DCBlocker_constant_input :
  snd (DCBlocker.process (DCBlocker.make 48000) [F32.half; F32.half] 2)
  = [F32.half; S754_finite false 16755255 (-25)].
Proof. vm_compute. reflexivity. Qed.

(** ** Comparisons and clamping of floats *)

Lemma SFcompare_refl (x : spec_float) :
  F32.is_nan x = false -> SFcompare x x = Some Eq.
Proof.
  destruct x as [s|s|  |s m e]; simpl; try done; intros _.
  - by destruct s.
  - rewrite Z.compare_refl, Pos.compare_cont_refl. by destruct s.
Qed.

Lemma SFcompare_finite_eq (x : spec_float) (q : positive) (k : Z) :
  SFcompare x (S754_finite false q k) = Some Eq -> x = S754_finite false q k.
Proof.
  destruct x as [s|s|  |s m e]; cbn [SFcompare];
    try discriminate; try (destruct s; discriminate).
  destruct s; [discriminate|].
  destruct (Z.compare e k) eqn:He; try discriminate.
  intros H. injection H as H.
  apply Z.compare_eq in He. apply Pos.compare_eq in H. by subst.
Qed.

Lemma SFcompare_one_eq (x : spec_float) :
  SFcompare x F32.one = Some Eq -> x = F32.one.
Proof. apply SFcompare_finite_eq. Qed.

Lemma clamp_unit_range (v : F32.t) :
  in_unit_interval (F32.max F32.zero (F32.min F32.one v)) = true.
Proof.
  unfold in_unit_interval, F32.max, F32.min, F32.ltb, F32.leb, SFltb, SFleb.
  destruct (SFcompare v F32.one) as [[]|] eqn:E1; try reflexivity.
  destruct (SFcompare F32.zero v) as [[]|] eqn:E2; try reflexivity.
  by rewrite E2, E1.
Qed.

Lemma clamp_unit_id (v : F32.t) :
  in_unit_interval v = true ->
  F32.eqb (F32.max F32.zero (F32.min F32.one v)) v = true.
Proof.
  unfold in_unit_interval, F32.max, F32.min, F32.ltb, F32.leb, F32.eqb,
    SFltb, SFleb, SFeqb.
  intros H. apply andb_prop in H as [H0 H1].
  destruct (SFcompare v F32.one) as [[]|] eqn:E1; try done.
  - apply SFcompare_one_eq in E1. by subst.
  - destruct (SFcompare F32.zero v) as [[]|] eqn:E2; try done.
    + by rewrite E2.
    + rewrite SFcompare_refl; [done|]. by destruct v.
Qed.

Lemma clamp_unit_nan :
  F32.max F32.zero (F32.min F32.one S754_nan) = F32.one.
Proof. reflexivity. Qed.

(** ** memcpy *)

Lemma memcpy_lookup_lt (dst src : list F32.t) (n i : nat) :
  (i < n)%nat -> (n <= length src)%nat -> memcpy dst src n !! i = src !! i.
Proof.
  intros Hi Hn. unfold memcpy.
  rewrite lookup_app_l by (rewrite length_take_le; lia).
  by rewrite lookup_take_lt.
Qed.

Lemma memcpy_lookup_ge (dst src : list F32.t) (n i : nat) :
  (n <= i)%nat -> (n <= length src)%nat -> memcpy dst src n !! i = dst !! i.
Proof.
  intros Hi Hn. unfold memcpy.
  rewrite lookup_app_r by (rewrite length_take_le; lia).
  rewrite length_take_le by lia. rewrite lookup_drop. f_equal. lia.
Qed.

Lemma memcpy_length (dst src : list F32.t) (n : nat) :
  (n <= length src)%nat -> (n <= length dst)%nat ->
  length (memcpy dst src n) = length dst.
Proof.
  intros Hs Hd. unfold memcpy.
  rewrite length_app, length_take_le, length_drop by done. lia.
Qed.

(** ** Engine *)

Section EngineFacts.
Context {NA : NeuralAudio} {DSP : DspBlocks}.

Implicit Types e : Engine.t.

Lemma Engine_exceeds_buffer e (n : nat) :
  0 <= Engine.m_bufferSize e < 2 ^ 31 ->
  Engine.exceeds_buffer e n = true <-> Engine.m_bufferSize e < Z.of_nat n.
Proof.
  intros Hb. unfold Engine.exceeds_buffer, wrap.
  rewrite Z.mod_small by lia. lia.
Qed.

Lemma Engine_levels_stage_gate e f c buf n :
  Engine.levels (fst (Engine.stage_gate e f c buf n)) = Engine.levels e.
Proof.
  unfold Engine.stage_gate. destruct (Engine.flags e f); [|done].
  by destruct (NoiseGate_process _ _ _).
Qed.

Lemma Engine_levels_stage_model e cell f buf n :
  Engine.levels (fst (Engine.stage_model e cell f buf n)) = Engine.levels e.
Proof.
  unfold Engine.stage_model.
  destruct (_ && _); [|done]. by destruct (ModelLoader.process _ _ _ _ _).
Qed.

Lemma Engine_levels_stage_eq e c buf n :
  Engine.levels (fst (Engine.stage_eq e c buf n)) = Engine.levels e.
Proof. unfold Engine.stage_eq. by destruct (ThreeBandEQ_process _ _ _). Qed.

Lemma Engine_levels_stage_dc e c buf n :
  Engine.levels (fst (Engine.stage_dc e c buf n)) = Engine.levels e.
Proof.
  unfold Engine.stage_dc. destruct (Engine.flags e _); [|done].
  by destruct (DCBlocker.process _ _ _).
Qed.

Lemma Engine_levels_process e input output n :
  Engine.levels (fst (Engine.process e input output n)) = Engine.levels e.
Proof.
  unfold Engine.process.
  destruct (Engine.exceeds_buffer e n); [done|].
  destruct (Engine.flags e Engine.m_bypass); [done|].
  set (e1 := Engine.smoothGains e).
  set (b1 := Engine.apply_gain _ _ _).
  pose proof (Engine_levels_stage_gate e1 Engine.m_noiseGateEnabled
                Engine.Legacy b1 n) as H1.
  destruct (Engine.stage_gate e1 _ _ b1 n) as [e2 b2]. simpl in H1.
  pose proof (Engine_levels_stage_model e2 Engine.m_activeSlot
                Engine.m_bypassModel b2 n) as H2.
  destruct (Engine.stage_model e2 _ _ b2 n) as [e3 b3]. simpl in H2.
  pose proof (Engine_levels_stage_eq e3 Engine.Legacy b3 n) as H3.
  destruct (Engine.stage_eq e3 _ b3 n) as [e4 b4]. simpl in H3.
  pose proof (Engine_levels_stage_dc e4 Engine.Legacy b4 n) as H4.
  destruct (Engine.stage_dc e4 _ b4 n) as [e5 b5]. simpl in H4.
  simpl. destruct (AudioRecorder.isRecording _); simpl; congruence.
Qed.

Lemma Engine_levels_processStereo e inputL inputR outputL outputR n :
  Engine.levels
    (fst (fst (Engine.processStereo e inputL inputR outputL outputR n)))
  = Engine.levels e.
Proof.
  unfold Engine.processStereo.
  destruct (Engine.exceeds_buffer e n); [done|].
  destruct (Engine.flags e Engine.m_bypass); [done|].
  set (e1 := Engine.smoothGains e).
  destruct (match Engine.m_stereoMode e, inputR with
            | Engine.RightMono2Stereo, Some inR => (inR, inR)
            | _, _ => _ end) as [selL selR].
  set (b1 := Engine.apply_gain _ _ _).
  pose proof (Engine_levels_stage_gate e1 Engine.m_noiseGateEnabledL
                Engine.ChL b1 n) as H1.
  destruct (Engine.stage_gate e1 _ _ b1 n) as [e2 b2]. simpl in H1.
  pose proof (Engine_levels_stage_model e2 Engine.m_activeSlotL
                Engine.m_bypassModelL b2 n) as H2.
  destruct (Engine.stage_model e2 _ _ b2 n) as [e3 b3]. simpl in H2.
  pose proof (Engine_levels_stage_eq e3 Engine.ChL b3 n) as H3.
  destruct (Engine.stage_eq e3 _ b3 n) as [e4 b4]. simpl in H3.
  pose proof (Engine_levels_stage_dc e4 Engine.ChL b4 n) as H4.
  destruct (Engine.stage_dc e4 _ b4 n) as [e5 b5]. simpl in H4.
  set (b6 := Engine.apply_gain _ b5 n).
  assert (HR : forall er br,
             (er, br) =
             (match Engine.m_stereoMode e with
              | Engine.Stereo2Stereo =>
                  let bufR := memcpy (Engine.m_processBuffers e5 Engine.ChR)
                                selR n in
                  let bufR := Engine.apply_gain
                                (Engine.smoothed e5 Engine.m_currentInputGainR)
                                bufR n in
                  let '(e, bufR) :=
                    Engine.stage_gate e5 Engine.m_noiseGateEnabledR Engine.ChR
                      bufR n in
                  let '(e, bufR) := Engine.stage_eq e Engine.ChR bufR n in
                  let '(e, bufR) := Engine.stage_dc e Engine.ChR bufR n in
                  (e, Engine.apply_gain
                        (Engine.smoothed e Engine.m_currentOutputGainR) bufR n)
              | _ => (e5, memcpy (Engine.m_processBuffers e5 Engine.ChR) b6 n)
              end) ->
             Engine.levels er = Engine.levels e5).
  { intros er br. destruct (Engine.m_stereoMode e);
      try (intros [= -> _]; done).
    cbv zeta.
    set (c1 := Engine.apply_gain _ _ _).
    pose proof (Engine_levels_stage_gate e5 Engine.m_noiseGateEnabledR
                  Engine.ChR c1 n) as G1.
    destruct (Engine.stage_gate e5 _ _ c1 n) as [f2 c2]. simpl in G1.
    pose proof (Engine_levels_stage_eq f2 Engine.ChR c2 n) as G2.
    destruct (Engine.stage_eq f2 _ c2 n) as [f3 c3]. simpl in G2.
    pose proof (Engine_levels_stage_dc f3 Engine.ChR c3 n) as G3.
    destruct (Engine.stage_dc f3 _ c3 n) as [f4 c4]. simpl in G3.
    intros [= -> _]. congruence. }
  match goal with
  | |- context [let '(e, bufR) := ?X in _] =>
      destruct X as [er br] eqn:HX
  end.
  specialize (HR er br eq_refl).
  assert (Hlev : Engine.levels er = Engine.levels e) by (simpl in *; congruence).
  clear HX HR.
  destruct (Reverb_getEnabled (Engine.m_reverb er)).
  - destruct (Reverb_process _ _ _ _) as [[rv cL] cR]. cbn.
    destruct (Engine.m_backingTrack er) as [track|]; cbn.
    + destruct (_ && _ && _).
      * destruct (BackingTrack.fillBuffer _ _ _ _) as [[tr tL] tR]. by cbn.
      * destruct (AudioRecorder.isRecording _); by cbn.
    + destruct (AudioRecorder.isRecording _); by cbn.
  - destruct (Engine.m_backingTrack er) as [track|]; cbn.
    + destruct (_ && _ && _).
      * destruct (BackingTrack.fillBuffer _ _ _ _) as [[tr tL] tR]. by cbn.
      * destruct (AudioRecorder.isRecording _); by cbn.
    + destruct (AudioRecorder.isRecording _); by cbn.
Qed.

End EngineFacts.

Section EngineProperties.
Context {NA : NeuralAudio} {DSP : DspBlocks}.

Implicit Types e : Engine.t.

(** No operation other than the two mix setters writes a mix cell. *)
Lemma Engine_mix_cells_apply_op e (o : Engine.op) (l : Engine.Level) :
  l = Engine.m_stereo2MonoMixL \/ l = Engine.m_stereo2MonoMixR ->
  Engine.levels (Engine.apply_op e o) l = Engine.levels e l
  \/ in_unit_interval (Engine.levels (Engine.apply_op e o) l) = true.
Proof.
  intros Hl. destruct o; cbn [Engine.apply_op].
  all: try (left; by rewrite Engine_levels_process).
  all: try (left; by rewrite Engine_levels_processStereo).
  all: try (left; destruct Hl as [-> | ->]; reflexivity).
  all: try (left;
            unfold Engine.cleanup, Engine.unloadModel, Engine.loadModelAsync,
              Engine.setActiveModel, Engine.setActiveModelL,
              Engine.setActiveModelR, Engine.startRecording;
            repeat case_match; destruct Hl as [-> | ->]; reflexivity).
  - destruct Hl as [-> | ->]; [right | left; reflexivity].
    apply clamp_unit_range.
  - destruct Hl as [-> | ->]; [left; reflexivity | right].
    apply clamp_unit_range.
Qed.

Lemma Engine_mix_cells_run (ops : list Engine.op) e (l : Engine.Level) :
  l = Engine.m_stereo2MonoMixL \/ l = Engine.m_stereo2MonoMixR ->
  in_unit_interval (Engine.levels e l) = true ->
  in_unit_interval (Engine.levels (Engine.run e ops) l) = true.
Proof.
  intros Hl. revert e. induction ops as [|o ops IH]; intros e He; [done|].
  simpl. apply IH.
  destruct (Engine_mix_cells_apply_op e o l Hl) as [H | H]; [|done].
  by rewrite H.
Qed.

(** C10. The two Stereo->Mono mix cells start at 0.5, each setter stores its
    argument clamped by [max(0, min(1, v))], which lies in [0, 1] for every
    [float] (a NaN is stored as 1) and compares equal to [v] when [v] is in
    [0, 1]; hence after any sequence of engine operations both getters
    return a value in [0, 1]. *)
Theorem Engine_stereo2mono_mix_in_unit_interval (sampleRate bufferSize : Z)
    (ring : Z -> F32.t) (ops : list Engine.op) e (v : F32.t) :
  let clamp v := F32.max F32.zero (F32.min F32.one v) in
  let e0 := Engine.make sampleRate bufferSize ring in
  Engine.getStereo2MonoMixL e0 = F32.half
  /\ Engine.getStereo2MonoMixR e0 = F32.half
  /\ Engine.getStereo2MonoMixL (Engine.setStereo2MonoMixL e v) = clamp v
  /\ Engine.getStereo2MonoMixR (Engine.setStereo2MonoMixR e v) = clamp v
  /\ in_unit_interval (clamp v) = true
  /\ (in_unit_interval v = true -> F32.eqb (clamp v) v = true)
  /\ in_unit_interval (Engine.getStereo2MonoMixL (Engine.run e0 ops)) = true
  /\ in_unit_interval (Engine.getStereo2MonoMixR (Engine.run e0 ops)) = true.
Proof.
  intros clamp e0. repeat split; try reflexivity.
  - apply clamp_unit_range.
  - apply clamp_unit_id.
  - apply Engine_mix_cells_run; [by left | reflexivity].
  - apply Engine_mix_cells_run; [by right | reflexivity].
Qed.

Lemma Engine_process_exceeds e (input output : list F32.t) (n : nat) :
  Engine.exceeds_buffer e n = true ->
  Engine.process e input output n
  = (Engine.set_xrunCount e ((Engine.m_xrunCount e + 1) mod 2 ^ 32),
     memcpy output input n).
Proof. intros Hex. unfold Engine.process. by rewrite Hex. Qed.

Lemma Engine_processStereo_exceeds e (inputL outputL : list F32.t)
    (inputR outputR : option (list F32.t)) (n : nat) :
  Engine.exceeds_buffer e n = true ->
  Engine.processStereo e inputL inputR outputL outputR n
  = (Engine.set_xrunCount e ((Engine.m_xrunCount e + 1) mod 2 ^ 32),
     memcpy outputL inputL n,
     match outputR, inputR with
     | Some outR, Some inR => Some (memcpy outR inR n)
     | Some outR, None => Some (memcpy outR inputL n)
     | None, _ => None
     end).
Proof.
  intros Hex. unfold Engine.processStereo, Engine.passthrough_stereo.
  by rewrite Hex.
Qed.

(** C6.  A block longer than the maximum block size makes
    [process] and [processStereo] add 1 to the 32-bit xrun counter, wrapping
    at 2^32, and copy the input to the output: left to left, and right to
    right (left to right when no right input is given).  Nothing else of the
    engine changes.  Below 2^32 - 1 the counter grows by exactly 1. *)
Theorem Engine_oversized_block e (input output inputL outputL : list F32.t)
    (inputR outputR : option (list F32.t)) (n : nat) :
  0 <= Engine.m_bufferSize e < 2 ^ 31 ->
  Engine.m_bufferSize e < Z.of_nat n ->
  let e' := Engine.set_xrunCount e ((Engine.m_xrunCount e + 1) mod 2 ^ 32) in
  Engine.process e input output n = (e', memcpy output input n)
  /\ Engine.processStereo e inputL inputR outputL outputR n
     = (e', memcpy outputL inputL n,
        match outputR, inputR with
        | Some outR, Some inR => Some (memcpy outR inR n)
        | Some outR, None => Some (memcpy outR inputL n)
        | None, _ => None
        end)
  /\ (0 <= Engine.m_xrunCount e < 2 ^ 32 - 1 ->
      Engine.getXrunCount e' = Engine.getXrunCount e + 1)
  /\ (forall dst src i, (i < n)%nat -> (n <= length src)%nat ->
        memcpy dst src n !! i = src !! i).
Proof.
  intros Hb Hn e'.
  assert (Hex : Engine.exceeds_buffer e n = true)
    by by apply Engine_exceeds_buffer.
  rewrite Engine_process_exceeds, Engine_processStereo_exceeds by done.
  repeat split.
  - intros Hx. unfold e', Engine.getXrunCount. simpl.
    rewrite Z.mod_small; lia.
  - intros dst src i. apply memcpy_lookup_lt.
Qed.

(** C7. With the bypass cell set and a block within the maximum block size,
    [process] and [processStereo] copy the input to the output sample for
    sample (left to left, right to right; left to right when no right input
    is given) and leave the engine as it was, whatever the other cells
    hold. *)
Theorem Engine_bypass_copies_input e (input output inputL outputL : list F32.t)
    (inputR outputR : option (list F32.t)) (n : nat) :
  0 <= Engine.m_bufferSize e < 2 ^ 31 ->
  Z.of_nat n <= Engine.m_bufferSize e ->
  Engine.getBypass e = true ->
  Engine.process e input output n = (e, memcpy output input n)
  /\ Engine.processStereo e inputL inputR outputL outputR n
     = (e, memcpy outputL inputL n,
        match outputR, inputR with
        | Some outR, Some inR => Some (memcpy outR inR n)
        | Some outR, None => Some (memcpy outR inputL n)
        | None, _ => None
        end)
  /\ (forall dst src i, (i < n)%nat -> (n <= length src)%nat ->
        memcpy dst src n !! i = src !! i).
Proof.
  intros Hb Hn Hby.
  assert (Hex : Engine.exceeds_buffer e n = false).
  { apply not_true_is_false. rewrite Engine_exceeds_buffer by done. lia. }
  unfold Engine.getBypass in Hby.
  unfold Engine.process, Engine.processStereo, Engine.passthrough_stereo.
  rewrite Hex, Hby. repeat split.
  intros dst src i. apply memcpy_lookup_lt.
Qed.

(** After [k] oversized blocks the counter holds [k] more, modulo 2^32. *)
Lemma Engine_xrun_after_oversized (input output : list F32.t) (n k : nat) e :
  0 <= Engine.m_bufferSize e < 2 ^ 31 ->
  Engine.m_bufferSize e < Z.of_nat n ->
  0 <= Engine.m_xrunCount e < 2 ^ 32 ->
  let e' := Engine.run e (replicate k (Engine.ProcessMono input output n)) in
  Engine.m_xrunCount e' = (Engine.m_xrunCount e + Z.of_nat k) mod 2 ^ 32
  /\ Engine.m_bufferSize e' = Engine.m_bufferSize e.
Proof.
  revert e. induction k as [|k IH]; intros e Hb Hn Hx.
  - simpl. rewrite Z.add_0_r, Z.mod_small by lia. done.
  - cbn [replicate Engine.run fold_left Engine.apply_op].
    assert (Hex : Engine.exceeds_buffer e n = true)
      by by apply Engine_exceeds_buffer.
    rewrite Engine_process_exceeds by done. cbn [fst].
    set (e1 := Engine.set_xrunCount e _).
    specialize (IH e1). cbv zeta in IH. unfold Engine.run in IH.
    destruct IH as [IHx IHb]; try done.
    { unfold e1. simpl. apply Z.mod_pos_bound. lia. }
    rewrite IHx, IHb. split; [|done].
    unfold e1. simpl. rewrite Zplus_mod_idemp_l. f_equal. lia.
Qed.

End EngineProperties.

Lemma Engine_oversized_block_witness :
  let e := engine_48k in
  let block := replicate 129 F32.zero in
  (0 <= Engine.m_bufferSize e < 2 ^ 31)
  /\ Engine.m_bufferSize e < Z.of_nat 129
  /\ Engine.process e block block 129
     = (Engine.set_xrunCount e ((Engine.m_xrunCount e + 1) mod 2 ^ 32),
        memcpy block block 129).
Proof.
  intros e block.
  assert (Hb : 0 <= Engine.m_bufferSize e < 2 ^ 31) by (simpl; lia).
  assert (Hn : Engine.m_bufferSize e < Z.of_nat 129) by (simpl; lia).
  split; [exact Hb|]. split; [exact Hn|].
  exact (proj1 (Engine_oversized_block e block block block block None None 129
                  Hb Hn)).
Defined.

(** The counter is a [uint32_t]: after 2^32 - 1 oversized blocks the next
    one takes it from 4294967295 back to 0. *)
Lemma Engine_xrun_counter_wraps :
  let block := replicate 129 F32.zero in
  let e :=
    Engine.run engine_48k
      (replicate (Z.to_nat 4294967295) (Engine.ProcessMono block block 129)) in
  Engine.m_bufferSize e < Z.of_nat 129
  /\ Engine.getXrunCount e = 4294967295
  /\ Engine.getXrunCount (fst (Engine.process e block block 129)) = 0
  /\ Engine.getXrunCount (fst (Engine.process e block block 129))
     <> Engine.getXrunCount e + 1.
Proof.
  intros block e.
  destruct (Engine_xrun_after_oversized block block 129
              (Z.to_nat 4294967295) engine_48k) as [Hx Hb].
  { simpl. lia. }
  { simpl. lia. }
  { simpl. lia. }
  fold e in Hx, Hb.
  rewrite Z2Nat.id in Hx by lia.
  change (Engine.m_xrunCount engine_48k) with 0 in Hx.
  change (Engine.m_bufferSize engine_48k) with 128 in Hb.
  change ((0 + 4294967295) mod 2 ^ 32) with 4294967295 in Hx.
  assert (Hex : Engine.exceeds_buffer e 129 = true).
  { apply Engine_exceeds_buffer; rewrite Hb; lia. }
  rewrite Engine_process_exceeds by done.
  unfold Engine.getXrunCount. cbn [fst Engine.set_xrunCount Engine.m_xrunCount].
  rewrite Hx, Hb. change ((4294967295 + 1) mod 2 ^ 32) with 0.
  repeat split; try lia.
Qed.

Lemma Engine_bypass_copies_input_witness :
  let e := Engine.setBypass engine_48k true in
  let block := [F32.half; F32.one] in
  (0 <= Engine.m_bufferSize e < 2 ^ 31)
  /\ Z.of_nat 2 <= Engine.m_bufferSize e
  /\ Engine.getBypass e = true
  /\ Engine.process e block [F32.zero; F32.zero] 2 = (e, block).
Proof.
  intros e block.
  assert (Hb : 0 <= Engine.m_bufferSize e < 2 ^ 31) by (simpl; lia).
  assert (Hn : Z.of_nat 2 <= Engine.m_bufferSize e) by (simpl; lia).
  assert (Hy : Engine.getBypass e = true) by reflexivity.
  split; [exact Hb|]. split; [exact Hn|]. split; [exact Hy|].
  exact (proj1 (Engine_bypass_copies_input e block [F32.zero; F32.zero]
                  block block None None 2 Hb Hn Hy)).
Defined.

(** ** Model loading *)

Section LoaderProperties.
Context {NA : NeuralAudio} {DSP : DspBlocks}.

Lemma ModelLoader_doLoadModel_failure (l : ModelLoader.t) (path : string)
    (rt_samples : nat) :
  CreateFromFile path = None ->
  ModelLoader.isReady (ModelLoader.doLoadModel l path rt_samples) = false
  /\ ModelLoader.getModelPath (ModelLoader.doLoadModel l path rt_samples)
     = EmptyString.
Proof.
  intros Hfail. unfold ModelLoader.doLoadModel. rewrite Hfail. by split.
Qed.

Lemma ModelLoader_worker_step_failure (l : ModelLoader.t) (path : string)
    (rt_samples : nat) :
  CreateFromFile path = None ->
  ModelLoader.m_workerRunning l = true ->
  let l' :=
    ModelLoader.worker_step (ModelLoader.loadModelAsync l path) rt_samples in
  ModelLoader.isReady l' = false
  /\ ModelLoader.getModelPath l' = EmptyString.
Proof.
  intros Hfail Hrun. unfold ModelLoader.worker_step, ModelLoader.loadModelAsync.
  cbn [ModelLoader.set_request ModelLoader.m_workerRunning
       ModelLoader.m_loadRequested ModelLoader.m_pendingModelPath].
  rewrite Hrun. cbn [andb].
  by apply ModelLoader_doLoadModel_failure.
Qed.

(** C1.  When the model cannot be constructed from [p], the
    loader worker leaves the slot unready and clears the slot's own path,
    but [Engine::getModelPath] reads the engine's [m_modelPaths], which
    [Engine::loadModelAsync] set to [p] and nothing clears: it returns [p].
    The same holds when the worker runs between the two statements of
    [Engine::loadModelAsync]. *)
Theorem Engine_failed_load_reports_requested_path (e : Engine.t) (slot : Z)
    (p : string) (rt_samples : nat) :
  slot = 0 \/ slot = 1 ->
  CreateFromFile p = None ->
  ModelLoader.m_workerRunning (Engine.m_modelSlots e slot) = true ->
  let e' := Engine.worker_step (Engine.loadModelAsync e slot p) slot rt_samples in
  let e1 :=
    Engine.set_models e
      (<[slot := ModelLoader.loadModelAsync (Engine.m_modelSlots e slot) p]>
         (Engine.m_modelSlots e)) (Engine.m_modelPaths e) in
  let e2 := Engine.worker_step e1 slot rt_samples in
  let e'' :=
    Engine.set_models e2 (Engine.m_modelSlots e2)
      (<[slot := p]> (Engine.m_modelPaths e2)) in
  Engine.isModelReady e' slot = false
  /\ ModelLoader.getModelPath (Engine.m_modelSlots e' slot) = EmptyString
  /\ Engine.getModelPath e' slot = p
  /\ Engine.isModelReady e'' slot = false
  /\ Engine.getModelPath e'' slot = p.
Proof.
  intros Hslot Hfail Hrun e' e1 e2 e''.
  assert (Hguard : (slot <? 0) || (slot >=? 2) = false)
    by (destruct Hslot; subst; reflexivity).
  pose proof (ModelLoader_worker_step_failure (Engine.m_modelSlots e slot) p
                rt_samples Hfail Hrun) as (Hready & Hpath).
  unfold e', e'', e2, e1, Engine.isModelReady, Engine.getModelPath,
    Engine.worker_step, Engine.loadModelAsync.
  rewrite Hguard.
  cbn [Engine.set_models Engine.m_modelSlots Engine.m_modelPaths].
  rewrite !fn_lookup_insert. by repeat split.
Qed.

(** C9. [startRecording] on a recorder that is recording returns the empty
    string and the recorder unchanged: file path, ring positions and
    content, dropped-frames counter, start time and writer thread are those
    of the recording in progress.  The engine's [startRecording] forwards to
    it and is unchanged as well. *)
Theorem AudioRecorder_startRecording_while_recording
    (env : AudioRecorder.start_env) (r : AudioRecorder.t) (e : Engine.t)
    (filename : string) (sampleRate : Z) :
  AudioRecorder.isRecording r = true ->
  AudioRecorder.startRecording env r filename sampleRate = (EmptyString, r)
  /\ (Engine.m_recorder e = r ->
      Engine.startRecording env e filename = (EmptyString, e)).
Proof.
  unfold AudioRecorder.isRecording. intros Hrec. split.
  - unfold AudioRecorder.startRecording. by rewrite Hrec.
  - intros He. subst r.
    unfold Engine.startRecording, AudioRecorder.startRecording.
    rewrite Hrec. by destruct e.
Qed.

End LoaderProperties.

Lemma Engine_failed_load_reports_requested_path_witness :
  let e' :=
    Engine.worker_step (Engine.loadModelAsync engine_48k 0 "missing.nam") 0 0 in
  (0 = 0 \/ 0 = 1)
  /\ @CreateFromFile identity_audio "missing.nam" = None
  /\ ModelLoader.m_workerRunning (Engine.m_modelSlots engine_48k 0) = true
  /\ Engine.isModelReady e' 0 = false
  /\ Engine.getModelPath e' 0 = "missing.nam"%string.
Proof.
  intros e'.
  assert (H0 : 0 = 0 \/ 0 = 1) by (left; reflexivity).
  assert (H1 : @CreateFromFile identity_audio "missing.nam" = None)
    by reflexivity.
  assert (H2 : ModelLoader.m_workerRunning (Engine.m_modelSlots engine_48k 0)
               = true) by reflexivity.
  pose proof (Engine_failed_load_reports_requested_path engine_48k 0
                "missing.nam" 0 H0 H1 H2) as H.
  cbv zeta in H.
  exact (conj H0 (conj H1 (conj H2
           (conj (proj1 H) (proj1 (proj2 (proj2 H))))))).
Defined.

(** The path the engine reports for the slot after the failed load is not
    the empty string. *)
Example Engine_failed_load_path_not_cleared :
  Engine.getModelPath
    (Engine.worker_step (Engine.loadModelAsync engine_48k 0 "missing.nam") 0 0)
    0
  <> EmptyString.
Proof. vm_compute. discriminate. Qed.

Lemma AudioRecorder_startRecording_while_recording_witness :
  let env := AudioRecorder.mk_env "recording-2026-01-01-000000.wav" 7 1 in
  let r :=
    snd (AudioRecorder.startRecording env
           (AudioRecorder.make "./recordings" (fun _ => F32.zero)) "take1"
           48000) in
  AudioRecorder.isRecording r = true
  /\ AudioRecorder.getCurrentFilePath r = "./recordings/take1.wav"%string
  /\ AudioRecorder.startRecording env r "take2" 44100 = (EmptyString, r).
Proof.
  intros env r.
  assert (Hrec : AudioRecorder.isRecording r = true) by reflexivity.
  split; [exact Hrec|]. split; [reflexivity|].
  exact (proj1 (AudioRecorder_startRecording_while_recording
                  (NA := identity_audio) (DSP := identity_dsp)
                  env r engine_48k "take2" 44100 Hrec)).
Defined.

(** ** The recording ring *)

Lemma AudioRecorder_push_loop_writePos (left right : list F32.t)
    (count i : nat) (ring : Z -> F32.t) (w : Z) :
  0 <= w < AudioRecorder.RING_BUFFER_SIZE ->
  snd (for_loop i count (AudioRecorder.push_sample left right) (ring, w))
  = (w + 2 * Z.of_nat count) mod AudioRecorder.RING_BUFFER_SIZE.
Proof.
  revert i ring w. induction count as [|c IH]; intros i ring w Hw.
  - simpl. rewrite Z.add_0_r, Z.mod_small; done.
  - cbn [for_loop AudioRecorder.push_sample]. rewrite IH.
    + rewrite Zplus_mod_idemp_l, <- Z.add_assoc, Zplus_mod_idemp_l.
      f_equal. lia.
    + apply Z.mod_pos_bound. done.
Qed.

Lemma AudioRecorder_read_loop_readPos (ring : Z -> F32.t) (count i : nat)
    (batch : list F32.t) (rd : Z) :
  0 <= rd < AudioRecorder.RING_BUFFER_SIZE ->
  snd (for_loop i count (AudioRecorder.read_sample ring) (batch, rd))
  = (rd + Z.of_nat count) mod AudioRecorder.RING_BUFFER_SIZE.
Proof.
  revert i batch rd. induction count as [|c IH]; intros i batch rd Hrd.
  - simpl. rewrite Z.add_0_r, Z.mod_small; done.
  - cbn [for_loop AudioRecorder.read_sample]. rewrite IH.
    + rewrite Zplus_mod_idemp_l. f_equal. lia.
    + apply Z.mod_pos_bound. done.
Qed.

Lemma AudioRecorder_space_used (r : AudioRecorder.t) :
  AudioRecorder.positions_ok r ->
  AudioRecorder.available_space (AudioRecorder.m_writePos r)
    (AudioRecorder.m_readPos r)
  = AudioRecorder.RING_BUFFER_SIZE - 1 - AudioRecorder.used r
  /\ AudioRecorder.available_data (AudioRecorder.m_readPos r)
       (AudioRecorder.m_writePos r) = AudioRecorder.used r
  /\ 0 <= AudioRecorder.used r <= AudioRecorder.RING_BUFFER_SIZE - 1.
Proof. intros Hok. repeat split; ring_arith. Qed.

(** What a push does to a recorder that is recording, by cases on the room
    the producer finds. *)
Lemma AudioRecorder_push_cases (r : AudioRecorder.t) (left right : list F32.t)
    (n : Z) :
  AudioRecorder.m_recording r = true ->
  AudioRecorder.positions_ok r ->
  0 <= n < 2 ^ 63 ->
  let r' := AudioRecorder.pushAudioFrame r left right n in
  let free := AudioRecorder.RING_BUFFER_SIZE - 1 - AudioRecorder.used r in
  (free < 2 * n ->
     r' = AudioRecorder.set_dropped r
            ((AudioRecorder.m_droppedFrames r + n) mod 2 ^ 64))
  /\ (2 * n <= free ->
        AudioRecorder.m_droppedFrames r' = AudioRecorder.m_droppedFrames r
        /\ AudioRecorder.m_readPos r' = AudioRecorder.m_readPos r
        /\ AudioRecorder.m_writePos r'
           = (AudioRecorder.m_writePos r + 2 * n)
             mod AudioRecorder.RING_BUFFER_SIZE).
Proof.
  intros Hrec Hok Hn r' free.
  destruct (AudioRecorder_space_used r Hok) as (Hsp & _ & Hu).
  unfold r', AudioRecorder.pushAudioFrame. rewrite Hrec. cbn [negb].
  rewrite Hsp. fold free.
  assert (Hreq : wrap 64 (n * 2) = 2 * n).
  { unfold wrap. rewrite Z.mod_small; lia. }
  rewrite Hreq. split; intros Hroom.
  - assert (Hlt : (free <? 2 * n) = true) by lia. rewrite Hlt.
    unfold wrap. done.
  - assert (Hlt : (free <? 2 * n) = false) by lia. rewrite Hlt.
    pose proof (AudioRecorder_push_loop_writePos left right (Z.to_nat n) 0
                  (AudioRecorder.m_ringBuffer r) (AudioRecorder.m_writePos r)
                  (proj1 Hok)) as Hw.
    destruct (for_loop _ _ _ _) as [ring w]. simpl in Hw. simpl.
    rewrite Hw, Z2Nat.id by lia. done.
Qed.

Lemma AudioRecorder_push_not_recording (r : AudioRecorder.t)
    (left right : list F32.t) (n : Z) :
  AudioRecorder.m_recording r = false ->
  AudioRecorder.pushAudioFrame r left right n = r.
Proof. intros H. unfold AudioRecorder.pushAudioFrame. by rewrite H. Qed.

Lemma AudioRecorder_push_invariant (r : AudioRecorder.t)
    (left right : list F32.t) (n : Z) :
  AudioRecorder.positions_ok r ->
  0 <= n < 2 ^ 63 ->
  let r' := AudioRecorder.pushAudioFrame r left right n in
  AudioRecorder.positions_ok r'
  /\ AudioRecorder.used r <= AudioRecorder.used r'
     <= AudioRecorder.RING_BUFFER_SIZE - 1
  /\ (AudioRecorder.used r' = AudioRecorder.used r
      \/ AudioRecorder.used r' = AudioRecorder.used r + 2 * n).
Proof.
  intros Hok Hn r'.
  destruct (AudioRecorder_space_used r Hok) as (_ & _ & Hu).
  destruct (AudioRecorder.m_recording r) eqn:Hrec.
  - destruct (AudioRecorder_push_cases r left right n Hrec Hok Hn)
      as [Hdrop Hwrite]. fold r' in Hdrop, Hwrite.
    destruct (Z_lt_le_dec
                (AudioRecorder.RING_BUFFER_SIZE - 1 - AudioRecorder.used r)
                (2 * n)) as [Hroom | Hroom].
    + rewrite (Hdrop Hroom). unfold AudioRecorder.used, AudioRecorder.positions_ok.
      simpl. fold (AudioRecorder.used r). repeat split; try apply Hok; lia.
    + destruct (Hwrite Hroom) as (_ & Hrd & Hw).
      assert (Hu' : AudioRecorder.used r' = AudioRecorder.used r + 2 * n).
      { unfold AudioRecorder.used. rewrite Hrd, Hw.
        rewrite Zminus_mod_idemp_l.
        replace (AudioRecorder.m_writePos r + 2 * n - AudioRecorder.m_readPos r)
          with (2 * n + (AudioRecorder.m_writePos r - AudioRecorder.m_readPos r))
          by lia.
        rewrite <- Zplus_mod_idemp_r. fold (AudioRecorder.used r).
        rewrite Z.mod_small; lia. }
      repeat split; try lia.
      * rewrite Hw. apply Z.mod_pos_bound. done.
      * rewrite Hw. apply Z.mod_pos_bound. done.
      * rewrite Hrd. apply Hok.
      * rewrite Hrd. apply Hok.
  - unfold r'. rewrite AudioRecorder_push_not_recording by done.
    repeat split; try apply Hok; lia.
Qed.

Lemma AudioRecorder_drain_invariant (r : AudioRecorder.t) (w : WAVWriter.t) :
  AudioRecorder.positions_ok r ->
  let r' := fst (AudioRecorder.writer_step r w) in
  AudioRecorder.positions_ok r'
  /\ 0 <= AudioRecorder.used r' <= AudioRecorder.used r
  /\ AudioRecorder.m_writePos r' = AudioRecorder.m_writePos r.
Proof.
  intros Hok r'.
  destruct (AudioRecorder_space_used r Hok) as (_ & Hdata & Hu).
  unfold r', AudioRecorder.writer_step. rewrite Hdata.
  destruct (AudioRecorder.used r =? 0) eqn:Hz.
  - simpl. repeat split; try apply Hok; lia.
  - set (toRead := Z.min (AudioRecorder.used r) AudioRecorder.BATCH_SIZE).
    assert (HtoRead : 0 < toRead <= AudioRecorder.used r).
    { unfold toRead, AudioRecorder.BATCH_SIZE. lia. }
    pose proof (AudioRecorder_read_loop_readPos (AudioRecorder.m_ringBuffer r)
                  (Z.to_nat toRead) 0 [] (AudioRecorder.m_readPos r)
                  (proj2 Hok)) as Hrd.
    destruct (for_loop _ _ _ _) as [batch rd]. simpl in Hrd. simpl.
    rewrite Z2Nat.id in Hrd by lia.
    assert (Hrng : 0 <= rd < AudioRecorder.RING_BUFFER_SIZE).
    { rewrite Hrd. apply Z.mod_pos_bound. done. }
    assert (Hu' : (AudioRecorder.m_writePos r - rd)
                  mod AudioRecorder.RING_BUFFER_SIZE
                  = AudioRecorder.used r - toRead).
    { rewrite Hrd.
      rewrite Zminus_mod_idemp_r.
      replace (AudioRecorder.m_writePos r
               - (AudioRecorder.m_readPos r + toRead))
        with (- toRead
              + (AudioRecorder.m_writePos r - AudioRecorder.m_readPos r))
        by lia.
      rewrite <- Zplus_mod_idemp_r. fold (AudioRecorder.used r).
      rewrite Z.mod_small; lia. }
    unfold AudioRecorder.used, AudioRecorder.positions_ok. simpl.
    fold (AudioRecorder.used r). rewrite Hu'.
    repeat split; try apply Hok; lia.
Qed.

Lemma AudioRecorder_ring_steps_invariant (r r' : AudioRecorder.t) :
  AudioRecorder.positions_ok r ->
  AudioRecorder.ring_steps r r' ->
  AudioRecorder.positions_ok r'
  /\ 0 <= AudioRecorder.used r' <= AudioRecorder.RING_BUFFER_SIZE - 1.
Proof.
  intros Hok Hsteps. induction Hsteps as [r | r1 r2 r3 Hsteps IH Hstep].
  - split; [done|]. apply AudioRecorder_space_used. done.
  - destruct (IH Hok) as [Hok2 _].
    assert (Hok3 : AudioRecorder.positions_ok r3).
    { inversion Hstep; subst.
      - apply AudioRecorder_push_invariant; [done|lia].
      - apply AudioRecorder_drain_invariant. done. }
    split; [done|]. apply AudioRecorder_space_used. done.
Qed.

(** C2.  The ring's backing array has 960000 slots (it is not a
    power of two; positions wrap by [% RING_BUFFER_SIZE]).  One slot is
    always left empty: the room the producer computes is [C - 1] minus the
    unconsumed samples, so it is [C - 1] on an empty ring; a push never
    takes the unconsumed count above [C - 1] and adds either nothing or the
    whole block; the writer's drain only lowers it; and this holds along any
    run of pushes and drains.  Empty ([write == read]) is an unconsumed
    count of 0, full ([(write + 1) % C == read]) is a count of [C - 1], and
    the two never hold together. *)
Theorem AudioRecorder_ring_capacity (r r2 : AudioRecorder.t)
    (left right : list F32.t) (n : Z) (w : WAVWriter.t) :
  AudioRecorder.positions_ok r ->
  0 <= n < 2 ^ 63 ->
  AudioRecorder.ring_steps r r2 ->
  let C := AudioRecorder.RING_BUFFER_SIZE in
  let r' := AudioRecorder.pushAudioFrame r left right n in
  let r'' := fst (AudioRecorder.writer_step r w) in
  C = 960000
  /\ AudioRecorder.available_space (AudioRecorder.m_writePos r)
       (AudioRecorder.m_readPos r) = C - 1 - AudioRecorder.used r
  /\ 0 <= AudioRecorder.used r <= C - 1
  /\ (AudioRecorder.is_empty r = true <-> AudioRecorder.used r = 0)
  /\ (AudioRecorder.is_full r = true <-> AudioRecorder.used r = C - 1)
  /\ AudioRecorder.is_empty r && AudioRecorder.is_full r = false
  /\ AudioRecorder.positions_ok r'
  /\ AudioRecorder.used r <= AudioRecorder.used r' <= C - 1
  /\ (AudioRecorder.used r' = AudioRecorder.used r
      \/ AudioRecorder.used r' = AudioRecorder.used r + 2 * n)
  /\ AudioRecorder.positions_ok r''
  /\ 0 <= AudioRecorder.used r'' <= AudioRecorder.used r
  /\ AudioRecorder.positions_ok r2
  /\ 0 <= AudioRecorder.used r2 <= C - 1.
Proof.
  intros Hok Hn Hsteps C r' r''.
  destruct (AudioRecorder_space_used r Hok) as (Hsp & _ & Hu).
  destruct (AudioRecorder_push_invariant r left right n Hok Hn)
    as (Hok' & Hu' & Hadd).
  destruct (AudioRecorder_drain_invariant r w Hok) as (Hok'' & Hu'' & _).
  destruct (AudioRecorder_ring_steps_invariant r r2 Hok Hsteps) as [Hok2 Hu2].
  split; [reflexivity|]. split; [exact Hsp|]. split; [exact Hu|].
  split; [|split; [|split]].
  - unfold AudioRecorder.is_empty. rewrite Z.eqb_eq. clear -Hok. ring_arith.
  - unfold AudioRecorder.is_full. rewrite Z.eqb_eq. clear -Hok. ring_arith.
  - clear -Hok. unfold AudioRecorder.is_empty, AudioRecorder.is_full.
    destruct (_ =? _) eqn:E1; [|done]. cbn [andb].
    apply Z.eqb_eq in E1. apply Z.eqb_neq. ring_arith.
  - repeat split; try done; try apply Hu'; try apply Hu''; try apply Hu2;
      try apply Hok'; try apply Hok''; try apply Hok2.
Qed.

Lemma AudioRecorder_ring_capacity_witness :
  let env := AudioRecorder.mk_env "recording-2026-01-01-000000.wav" 7 1 in
  let r :=
    snd (AudioRecorder.startRecording env
           (AudioRecorder.make "./recordings" (fun _ => F32.zero)) "take1"
           48000) in
  let r' := AudioRecorder.pushAudioFrame r [F32.half; F32.one]
              [F32.zero; F32.half] 2 in
  AudioRecorder.positions_ok r
  /\ 0 <= 2 < 2 ^ 63
  /\ AudioRecorder.ring_steps r r'
  /\ AudioRecorder.used r' = 4
  /\ 0 <= AudioRecorder.used r' <= AudioRecorder.RING_BUFFER_SIZE - 1.
Proof.
  intros env r r'.
  assert (Hok : AudioRecorder.positions_ok r).
  { unfold AudioRecorder.positions_ok, AudioRecorder.RING_BUFFER_SIZE.
    simpl. lia. }
  assert (Hn : 0 <= 2 < 2 ^ 63) by lia.
  assert (Hsteps : AudioRecorder.ring_steps r r').
  { eapply AudioRecorder.steps_cons; [apply AudioRecorder.steps_refl|].
    apply AudioRecorder.step_push; lia. }
  pose proof (AudioRecorder_ring_capacity r r' [F32.half; F32.one]
                [F32.zero; F32.half] 2 WAVWriter.init Hok Hn Hsteps) as H.
  cbv zeta in H.
  split; [exact Hok|]. split; [exact Hn|]. split; [exact Hsteps|].
  split; [reflexivity|].
  exact (proj2 (proj2 (proj2 (proj2 (proj2 (proj2 (proj2 (proj2 (proj2
           (proj2 (proj2 (proj2 H)))))))))))).
Defined.

(** The size of the backing array is not a power of two. *)
Lemma AudioRecorder_ring_size_not_power_of_two :
  ~ exists k : Z, AudioRecorder.RING_BUFFER_SIZE = 2 ^ k.
Proof.
  intros [k Hk]. unfold AudioRecorder.RING_BUFFER_SIZE in Hk.
  destruct (Z_lt_le_dec k 0) as [Hneg | Hpos].
  - rewrite Z.pow_neg_r in Hk by done. discriminate.
  - destruct (Z_lt_le_dec k 20) as [Hlt | Hge].
    + assert (H : 2 ^ k <= 2 ^ 19) by (apply Z.pow_le_mono_r; lia).
      change (2 ^ 19) with 524288 in H. lia.
    + assert (H : 2 ^ 20 <= 2 ^ k) by (apply Z.pow_le_mono_r; lia).
      change (2 ^ 20) with 1048576 in H. lia.
Qed.

(** C3.  While recording, a push that finds less room than the
    [2 * numSamples] interleaved samples of the block leaves the ring, both
    positions and everything else as they are and sets the 64-bit
    dropped-frames counter to [(old + numSamples) mod 2^64]: it grows by
    exactly the block's frame count unless it wraps.  A push changes the
    counter only in that case, so short of a wrap the counter never
    decreases. *)
Theorem AudioRecorder_push_overflow_drops (r : AudioRecorder.t)
    (left right : list F32.t) (n : Z) :
  AudioRecorder.isRecording r = true ->
  AudioRecorder.positions_ok r ->
  0 <= n < 2 ^ 63 ->
  0 <= AudioRecorder.getDroppedFrames r < 2 ^ 64 ->
  let r' := AudioRecorder.pushAudioFrame r left right n in
  let free := AudioRecorder.RING_BUFFER_SIZE - 1 - AudioRecorder.used r in
  (free < 2 * n ->
     r' = AudioRecorder.set_dropped r
            ((AudioRecorder.getDroppedFrames r + n) mod 2 ^ 64)
     /\ AudioRecorder.m_ringBuffer r' = AudioRecorder.m_ringBuffer r
     /\ AudioRecorder.m_writePos r' = AudioRecorder.m_writePos r
     /\ AudioRecorder.m_readPos r' = AudioRecorder.m_readPos r)
  /\ (free < 2 * n -> AudioRecorder.getDroppedFrames r + n < 2 ^ 64 ->
        AudioRecorder.getDroppedFrames r'
        = AudioRecorder.getDroppedFrames r + n)
  /\ (AudioRecorder.getDroppedFrames r' <> AudioRecorder.getDroppedFrames r ->
        free < 2 * n)
  /\ (AudioRecorder.getDroppedFrames r + n < 2 ^ 64 ->
        AudioRecorder.getDroppedFrames r <= AudioRecorder.getDroppedFrames r')
  /\ 0 <= AudioRecorder.getDroppedFrames r' < 2 ^ 64.
Proof.
  intros Hrec Hok Hn Hd r' free.
  unfold AudioRecorder.isRecording, AudioRecorder.getDroppedFrames in *.
  destruct (AudioRecorder_push_cases r left right n Hrec Hok Hn)
    as [Hdrop Hwrite]. fold r' free in Hdrop, Hwrite.
  assert (Hcases : free < 2 * n \/ 2 * n <= free) by lia.
  split; [|split; [|split; [|split]]].
  - intros Hroom. rewrite (Hdrop Hroom). by repeat split.
  - intros Hroom Hno. rewrite (Hdrop Hroom). simpl. apply Z.mod_small. lia.
  - intros Hne. destruct Hcases as [Hroom | Hroom]; [done|].
    destruct (Hwrite Hroom) as [Heq _]. done.
  - intros Hno. destruct Hcases as [Hroom | Hroom].
    + rewrite (Hdrop Hroom). simpl. rewrite Z.mod_small; lia.
    + destruct (Hwrite Hroom) as [Heq _]. lia.
  - destruct Hcases as [Hroom | Hroom].
    + rewrite (Hdrop Hroom). simpl. apply Z.mod_pos_bound. lia.
    + destruct (Hwrite Hroom) as [Heq _]. lia.
Qed.

Lemma AudioRecorder_push_overflow_drops_witness :
  let r :=
    {| AudioRecorder.m_recordingsDir := "./recordings";
       AudioRecorder.m_currentFilePath := "./recordings/take1.wav";
       AudioRecorder.m_sampleRate := 48000;
       AudioRecorder.m_ringBuffer := fun _ => F32.zero;
       AudioRecorder.m_writePos := 959998;
       AudioRecorder.m_readPos := 0;
       AudioRecorder.m_recording := true;
       AudioRecorder.m_droppedFrames := 0;
       AudioRecorder.m_writerThread := Some 1%nat;
       AudioRecorder.m_recordingStartTime := 7 |} in
  let r' := AudioRecorder.pushAudioFrame r [F32.half] [F32.half] 1 in
  AudioRecorder.isRecording r = true
  /\ AudioRecorder.positions_ok r
  /\ 0 <= 1 < 2 ^ 63
  /\ 0 <= AudioRecorder.getDroppedFrames r < 2 ^ 64
  /\ AudioRecorder.RING_BUFFER_SIZE - 1 - AudioRecorder.used r < 2 * 1
  /\ AudioRecorder.getDroppedFrames r' = 1
  /\ AudioRecorder.m_writePos r' = 959998.
Proof.
  intros r r'.
  assert (Hrec : AudioRecorder.isRecording r = true) by reflexivity.
  assert (Hok : AudioRecorder.positions_ok r).
  { unfold AudioRecorder.positions_ok, AudioRecorder.RING_BUFFER_SIZE.
    simpl. lia. }
  assert (Hn : 0 <= 1 < 2 ^ 63) by lia.
  assert (Hd : 0 <= AudioRecorder.getDroppedFrames r < 2 ^ 64)
    by (simpl; lia).
  assert (Hroom : AudioRecorder.RING_BUFFER_SIZE - 1 - AudioRecorder.used r
                  < 2 * 1) by (vm_compute; reflexivity).
  pose proof (AudioRecorder_push_overflow_drops r [F32.half] [F32.half] 1
                Hrec Hok Hn Hd) as H.
  cbv zeta in H. destruct H as (H1 & H2 & _).
  split; [exact Hrec|]. split; [exact Hok|]. split; [exact Hn|].
  split; [exact Hd|]. split; [exact Hroom|].
  split.
  - exact (H2 Hroom ltac:(simpl; lia)).
  - exact (proj1 (proj2 (proj2 (H1 Hroom)))).
Defined.

(** The counter is a [uint64_t] that [fetch_add] wraps.  From a fresh
    recording, three refused pushes of [2^63 - 1] frames (the refusing path
    reads neither channel) take it from [2^64 - 2] down to [2^63 - 3]; and
    at [2^64 - 1] a refused block of 128 frames takes it to 127. *)
Lemma AudioRecorder_dropped_counter_wraps :
  let env := AudioRecorder.mk_env "recording-2026-01-01-000000.wav" 7 1 in
  let r0 :=
    snd (AudioRecorder.startRecording env
           (AudioRecorder.make "./recordings" (fun _ => F32.zero)) "take1"
           48000) in
  let n := 2 ^ 63 - 1 in
  let r1 := AudioRecorder.pushAudioFrame r0 [] [] n in
  let r2 := AudioRecorder.pushAudioFrame r1 [] [] n in
  let r3 := AudioRecorder.pushAudioFrame r2 [] [] n in
  let full :=
    {| AudioRecorder.m_recordingsDir := "./recordings";
       AudioRecorder.m_currentFilePath := "./recordings/take1.wav";
       AudioRecorder.m_sampleRate := 48000;
       AudioRecorder.m_ringBuffer := fun _ => F32.zero;
       AudioRecorder.m_writePos := 959998;
       AudioRecorder.m_readPos := 0;
       AudioRecorder.m_recording := true;
       AudioRecorder.m_droppedFrames := 2 ^ 64 - 1;
       AudioRecorder.m_writerThread := Some 1%nat;
       AudioRecorder.m_recordingStartTime := 7 |} in
  let block := replicate 128 F32.half in
  AudioRecorder.isRecording r2 = true
  /\ AudioRecorder.getDroppedFrames r2 = 2 ^ 64 - 2
  /\ AudioRecorder.getDroppedFrames r3 = 2 ^ 63 - 3
  /\ ~ (AudioRecorder.getDroppedFrames r2 <= AudioRecorder.getDroppedFrames r3)
  /\ AudioRecorder.getDroppedFrames
       (AudioRecorder.pushAudioFrame full block block 128) = 127
  /\ ~ (AudioRecorder.getDroppedFrames full
        <= AudioRecorder.getDroppedFrames
             (AudioRecorder.pushAudioFrame full block block 128)).
Proof.
  intros env r0 n r1 r2 r3 full block.
  assert (H2 : AudioRecorder.getDroppedFrames r2 = 2 ^ 64 - 2)
    by (vm_compute; reflexivity).
  assert (H3 : AudioRecorder.getDroppedFrames r3 = 2 ^ 63 - 3)
    by (vm_compute; reflexivity).
  assert (H4 : AudioRecorder.getDroppedFrames
                 (AudioRecorder.pushAudioFrame full block block 128) = 127)
    by (vm_compute; reflexivity).
  split; [reflexivity|]. split; [exact H2|]. split; [exact H3|].
  split; [rewrite H2, H3; lia|]. split; [exact H4|].
  rewrite H4. simpl. lia.
Qed.

(** ** Bytes *)

Lemma Z_of_byte_of_Z (n : Z) : Z_of_byte (byte_of_Z n) = n mod 256.
Proof.
  unfold Z_of_byte, byte_of_Z.
  assert (Hb : 0 <= n mod 256 < 256) by (apply Z.mod_pos_bound; lia).
  destruct (Byte.of_N (Z.to_N (n mod 256))) as [b|] eqn:E.
  - apply Byte.to_of_N in E. rewrite E. lia.
  - apply Byte.of_N_None_iff in E. lia.
Qed.

Lemma le_decode_le_bytes (width : nat) (n : Z) :
  le_decode (le_bytes width n) = n mod 256 ^ Z.of_nat width.
Proof.
  revert n. induction width as [|w IH]; intros n.
  - simpl. by rewrite Z.mod_1_r.
  - cbn [le_bytes le_decode]. rewrite IH, Z_of_byte_of_Z.
    rewrite Nat2Z.inj_succ, Z.pow_succ_r by lia.
    rewrite Z.rem_mul_r by lia. lia.
Qed.

Lemma le_bytes_length (width : nat) (n : Z) : length (le_bytes width n) = width.
Proof. revert n. induction width as [|w IH]; intros n; simpl; [done|]. by rewrite IH. Qed.

(** ** The WAV writer *)

Lemma OFStream_write_end (f : OFStream.t) (bs : list byte) :
  OFStream.is_open f = true ->
  OFStream.pos f = length (OFStream.content f) ->
  OFStream.write f bs
  = OFStream.mk true (OFStream.content f ++ bs)
      (length (OFStream.content f ++ bs)).
Proof.
  intros Hopen Hpos. unfold OFStream.write. rewrite Hopen, Hpos.
  rewrite take_ge by lia. rewrite drop_ge by lia.
  by rewrite app_nil_r, length_app.
Qed.

Lemma OFStream_write_write (f : OFStream.t) (a b : list byte) :
  (OFStream.pos f <= length (OFStream.content f))%nat ->
  OFStream.write (OFStream.write f a) b = OFStream.write f (a ++ b).
Proof.
  intros Hp. unfold OFStream.write.
  destruct (OFStream.is_open f) eqn:Hopen; simpl; [|by rewrite Hopen].
  set (p := OFStream.pos f) in *. set (c := OFStream.content f) in *.
  f_equal; [|rewrite length_app; lia].
  assert (Hlen : length (take p c) = p) by (rewrite length_take; lia).
  rewrite (app_assoc (take p c) a).
  rewrite take_app_length' by (rewrite length_app, Hlen; lia).
  rewrite <- !app_assoc. f_equal. f_equal. f_equal.
  rewrite (app_assoc (take p c) a).
  replace (p + length a + length b)%nat
    with (length (take p c ++ a) + length b)%nat
    by (rewrite length_app, Hlen; lia).
  rewrite drop_app_add, drop_drop. f_equal. rewrite length_app. lia.
Qed.

Lemma OFStream_write_pos_ok (f : OFStream.t) (a : list byte) :
  (OFStream.pos f <= length (OFStream.content f))%nat ->
  (OFStream.pos (OFStream.write f a)
   <= length (OFStream.content (OFStream.write f a)))%nat.
Proof.
  intros Hp. unfold OFStream.write.
  destruct (OFStream.is_open f); simpl; [|done].
  rewrite !length_app, length_take. lia.
Qed.

Lemma WAVWriter_header_length (w : WAVWriter.t) :
  length (WAVWriter.header_bytes w) = 44%nat.
Proof. reflexivity. Qed.

Lemma WAVWriter_writeHeader_one_write (w : WAVWriter.t) :
  (OFStream.pos (WAVWriter.m_file w)
   <= length (OFStream.content (WAVWriter.m_file w)))%nat ->
  WAVWriter.writeHeader w
  = WAVWriter.set_file w
      (OFStream.write (WAVWriter.m_file w) (WAVWriter.header_bytes w)).
Proof.
  intros Hp. unfold WAVWriter.writeHeader, WAVWriter.header_bytes. cbv zeta.
  rewrite !OFStream_write_write
    by (repeat apply OFStream_write_pos_ok; exact Hp).
  by rewrite <- ?app_assoc.
Qed.

Lemma pcm_stream_length (xs : list F32.t) :
  length (pcm_stream xs) = (2 * length xs)%nat.
Proof.
  unfold pcm_stream. induction xs as [|x xs IH]; [done|].
  cbn [map concat]. rewrite length_app, IH. cbn [length].
  unfold WAVWriter.pcm_bytes. rewrite le_bytes_length. lia.
Qed.

Lemma pcm_stream_app (xs ys : list F32.t) :
  pcm_stream (xs ++ ys) = pcm_stream xs ++ pcm_stream ys.
Proof. unfold pcm_stream. by rewrite map_app, concat_app. Qed.

Lemma lookup_total_seq_take (data : list F32.t) (n : nat) :
  (n <= length data)%nat -> map (fun k => data !!! k) (seq 0 n) = take n data.
Proof.
  intros Hn. apply list_eq. intros i.
  rewrite list_lookup_fmap.
  destruct (decide (i < n)%nat) as [Hi | Hi].
  - rewrite lookup_seq_lt by done. simpl.
    rewrite lookup_take_lt by done.
    symmetry. apply list_lookup_lookup_total_lt. lia.
  - rewrite lookup_seq_ge by lia. simpl.
    by rewrite lookup_take_ge by lia.
Qed.

Lemma WAVWriter_write_loop (data : list F32.t) (count i : nat)
    (f : OFStream.t) :
  OFStream.is_open f = true ->
  OFStream.pos f = length (OFStream.content f) ->
  let f' := for_loop i count (WAVWriter.write_sample data) f in
  OFStream.is_open f' = true
  /\ OFStream.pos f' = length (OFStream.content f')
  /\ OFStream.content f'
     = OFStream.content f
       ++ pcm_stream (map (fun k => data !!! k) (seq i count)).
Proof.
  revert i f. induction count as [|c IH]; intros i f Hopen Hpos.
  - simpl. unfold pcm_stream. simpl. by rewrite app_nil_r.
  - cbn [for_loop].
    set (f1 := WAVWriter.write_sample data i f).
    assert (Hf1 : f1 = OFStream.mk true
                    (OFStream.content f ++ WAVWriter.pcm_bytes (data !!! i))
                    (length (OFStream.content f
                             ++ WAVWriter.pcm_bytes (data !!! i)))).
    { unfold f1, WAVWriter.write_sample. by rewrite OFStream_write_end. }
    destruct (IH (S i) f1) as (Ho & Hp & Hc); [by rewrite Hf1 .. |].
    split; [done|]. split; [done|].
    rewrite Hc, Hf1. cbn [OFStream.content seq map].
    unfold pcm_stream. cbn [map concat]. by rewrite <- app_assoc.
Qed.

Lemma mod_2_64_mod_2_32 (a : Z) : (a mod 2 ^ 64) mod 2 ^ 32 = a mod 2 ^ 32.
Proof.
  apply Z.mod_mod_divide. exists (2 ^ 32). reflexivity.
Qed.

Lemma WAVWriter_write_holds (w : WAVWriter.t) (hdr : list byte)
    (xs data : list F32.t) (numFrames : Z) :
  WAVWriter_holds w hdr xs ->
  WAVWriter.call_fits (WAVWriter.m_numChannels w) (data, numFrames) ->
  let w' := WAVWriter.write w data numFrames in
  WAVWriter_holds w' hdr
    (xs ++ WAVWriter.written_samples (WAVWriter.m_numChannels w)
             (data, numFrames))
  /\ WAVWriter.m_numChannels w' = WAVWriter.m_numChannels w
  /\ WAVWriter.m_sampleRate w' = WAVWriter.m_sampleRate w.
Proof.
  intros (Hopen & Hpos & Hcontent & Hsize) Hfit w'.
  unfold WAVWriter.call_fits, WAVWriter.written_samples in *.
  cbn [fst snd] in *.
  set (ts := wrap 64 (numFrames * WAVWriter.m_numChannels w)) in *.
  assert (Hts : 0 <= ts < 2 ^ 64) by (apply Z.mod_pos_bound; lia).
  unfold w', WAVWriter.write. rewrite Hopen. cbn [negb]. fold ts.
  destruct (WAVWriter_write_loop data (Z.to_nat ts) 0 (WAVWriter.m_file w)
              Hopen Hpos) as (Ho & Hp & Hc).
  rewrite lookup_total_seq_take in Hc by done.
  unfold WAVWriter_holds. cbn [WAVWriter.m_file WAVWriter.m_dataSize
    WAVWriter.m_numChannels WAVWriter.m_sampleRate].
  repeat split; try done.
  - by rewrite Hc, Hcontent, pcm_stream_app, app_assoc.
  - rewrite Hsize, !pcm_stream_length, length_app, length_take_le by done.
    unfold wrap. rewrite Zplus_mod_idemp_l.
    rewrite <- Zplus_mod_idemp_r, mod_2_64_mod_2_32, Zplus_mod_idemp_r.
    f_equal. lia.
Qed.

Lemma WAVWriter_write_all_holds (calls : list (list F32.t * Z))
    (w : WAVWriter.t) (hdr : list byte) (xs : list F32.t) :
  WAVWriter_holds w hdr xs ->
  Forall (WAVWriter.call_fits (WAVWriter.m_numChannels w)) calls ->
  let w' := WAVWriter.write_all w calls in
  WAVWriter_holds w' hdr
    (xs ++ concat (map (WAVWriter.written_samples (WAVWriter.m_numChannels w))
                     calls))
  /\ WAVWriter.m_numChannels w' = WAVWriter.m_numChannels w
  /\ WAVWriter.m_sampleRate w' = WAVWriter.m_sampleRate w.
Proof.
  revert w xs. induction calls as [|[data nf] calls IH]; intros w xs Hw Hfit.
  - simpl. by rewrite app_nil_r.
  - apply Forall_cons_1 in Hfit. destruct Hfit as [Hfit1 Hfit].
    destruct (WAVWriter_write_holds w hdr xs data nf Hw Hfit1)
      as (Hw1 & Hch & Hsr).
    unfold WAVWriter.write_all. cbn [fold_left fst snd].
    rewrite <- Hch in Hfit.
    destruct (IH _ _ Hw1 Hfit) as (Hw2 & Hch2 & Hsr2).
    unfold WAVWriter.write_all in *. cbv zeta in *.
    rewrite Hch in *. cbn [map concat]. rewrite app_assoc.
    split; [exact Hw2|]. split; congruence.
Qed.

Lemma WAVWriter_header_fields (w : WAVWriter.t) (rest : list byte) :
  riff_size_field (WAVWriter.header_bytes w ++ rest)
    = (36 + WAVWriter.m_dataSize w) mod 2 ^ 32
  /\ data_size_field (WAVWriter.header_bytes w ++ rest)
     = WAVWriter.m_dataSize w mod 2 ^ 32
  /\ take 44 (WAVWriter.header_bytes w ++ rest) = WAVWriter.header_bytes w
  /\ drop 44 (WAVWriter.header_bytes w ++ rest) = rest.
Proof.
  split; [|split; [|split]].
  - unfold riff_size_field.
    change (take 4 (drop 4 (WAVWriter.header_bytes w ++ rest)))
      with (le_bytes 4 (wrap 32 (36 + WAVWriter.m_dataSize w))).
    rewrite le_decode_le_bytes. unfold wrap.
    change (256 ^ Z.of_nat 4) with (2 ^ 32). apply Z.mod_mod. lia.
  - unfold data_size_field.
    change (take 4 (drop 40 (WAVWriter.header_bytes w ++ rest)))
      with (le_bytes 4 (WAVWriter.m_dataSize w)).
    by rewrite le_decode_le_bytes.
  - reflexivity.
  - reflexivity.
Qed.

Lemma WAVWriter_open_holds (sampleRate numChannels : Z) :
  let w := snd (WAVWriter.open true WAVWriter.init sampleRate numChannels) in
  fst (WAVWriter.open true WAVWriter.init sampleRate numChannels) = true
  /\ WAVWriter_holds w (WAVWriter.header_bytes w) []
  /\ WAVWriter.m_numChannels w = numChannels
  /\ WAVWriter.m_sampleRate w = sampleRate.
Proof.
  unfold WAVWriter.open, WAVWriter.init. cbn [OFStream.is_open OFStream.closed
    WAVWriter.m_file WAVWriter.set_file OFStream.open negb fst snd].
  rewrite WAVWriter_writeHeader_one_write by (simpl; lia).
  unfold WAVWriter_holds. cbn. repeat split.
Qed.

Lemma WAVWriter_close_holds (w : WAVWriter.t) (hdr : list byte)
    (xs : list F32.t) :
  WAVWriter_holds w hdr xs ->
  length hdr = 44%nat ->
  let w' := WAVWriter.close w in
  OFStream.is_open (WAVWriter.m_file w') = false
  /\ OFStream.content (WAVWriter.m_file w')
     = WAVWriter.header_bytes w ++ pcm_stream xs
  /\ WAVWriter.m_dataSize w' = 0.
Proof.
  intros (Hopen & Hpos & Hcontent & Hsize) Hhdr w'.
  unfold w', WAVWriter.close. rewrite Hopen. cbn [negb].
  rewrite WAVWriter_writeHeader_one_write by (simpl; lia).
  cbn [WAVWriter.set_file WAVWriter.m_file OFStream.seekp OFStream.close
       OFStream.is_open OFStream.content WAVWriter.m_dataSize].
  unfold OFStream.write, OFStream.seekp.
  cbn [OFStream.is_open OFStream.pos OFStream.content].
  rewrite Hopen. cbn [OFStream.is_open OFStream.content].
  split; [done|]. split; [|done].
  rewrite take_0, Hcontent. cbn [app].
  change (WAVWriter.header_bytes (WAVWriter.set_file w _))
    with (WAVWriter.header_bytes w).
  f_equal. rewrite WAVWriter_header_length. cbn [Nat.add].
  by rewrite drop_app_length' by done.
Qed.

(** The file a recording session leaves behind. *)
Lemma WAVWriter_session_file (sampleRate numChannels : Z)
    (calls : list (list F32.t * Z)) :
  Forall (WAVWriter.call_fits numChannels) calls ->
  let w := WAVWriter.session true sampleRate numChannels calls in
  let samples := concat (map (WAVWriter.written_samples numChannels) calls) in
  let file := OFStream.content (WAVWriter.m_file w) in
  let n := Z.of_nat (length (pcm_stream samples)) in
  OFStream.is_open (WAVWriter.m_file w) = false
  /\ length (take 44 file) = 44%nat
  /\ drop 44 file = pcm_stream samples
  /\ riff_size_field file = (36 + n) mod 2 ^ 32
  /\ data_size_field file = n mod 2 ^ 32.
Proof.
  intros Hfit w samples file n.
  destruct (WAVWriter_open_holds sampleRate numChannels)
    as (_ & Hw0 & Hch & Hsr).
  set (w0 := snd (WAVWriter.open true WAVWriter.init sampleRate numChannels))
    in *.
  rewrite <- Hch in Hfit.
  destruct (WAVWriter_write_all_holds calls w0 _ [] Hw0 Hfit) as (Hw1 & _ & _).
  cbv zeta in Hw1. rewrite Hch in Hw1. cbn [app] in Hw1. fold samples in Hw1.
  destruct (WAVWriter_close_holds _ _ _ Hw1 (WAVWriter_header_length w0))
    as (Hclosed & Hfile & _).
  set (w1 := WAVWriter.write_all w0 calls) in *.
  assert (Hw : w = WAVWriter.close w1) by reflexivity.
  assert (Hf : file = WAVWriter.header_bytes w1 ++ pcm_stream samples)
    by exact Hfile.
  clearbody file w. subst file w.
  destruct (WAVWriter_header_fields w1 (pcm_stream samples))
    as (Hriff & Hdata & Htake & Hdrop).
  destruct Hw1 as (_ & _ & _ & Hsize). fold n in Hsize.
  split; [done|]. split; [by rewrite Htake|]. split; [done|].
  rewrite Hriff, Hdata, Hsize. split.
  - by rewrite Zplus_mod_idemp_r.
  - apply Z.mod_mod. lia.
Qed.

Lemma clamp_sample_range (x : F32.t) :
  F32.leb F32.neg_one (WAVWriter.clamp_sample x) = true
  /\ F32.leb (WAVWriter.clamp_sample x) F32.one = true.
Proof.
  unfold WAVWriter.clamp_sample, F32.max, F32.min, F32.ltb, F32.leb,
    SFltb, SFleb.
  destruct (SFcompare x F32.one) as [[]|] eqn:E1; try (split; reflexivity).
  destruct (SFcompare F32.neg_one x) as [[]|] eqn:E2;
    try (split; reflexivity).
  by rewrite E2, E1.
Qed.

(** *** Range of the converted samples

    [binary_round_aux] aligns the exact product to 24 bits by shifting it
    right and rounds to nearest; the lemmas below bound its result. *)

Lemma digits2_pos_bounds (p : positive) :
  2 ^ (Zpos (digits2_pos p) - 1) <= Zpos p < 2 ^ Zpos (digits2_pos p).
Proof.
  induction p as [p IH | p IH |]; cbn [digits2_pos].
  - rewrite Pos2Z.inj_succ.
    replace (Z.succ (Zpos (digits2_pos p)) - 1)
      with (Z.succ (Zpos (digits2_pos p) - 1)) by lia.
    rewrite !Z.pow_succ_r by lia. lia.
  - rewrite Pos2Z.inj_succ.
    replace (Z.succ (Zpos (digits2_pos p)) - 1)
      with (Z.succ (Zpos (digits2_pos p) - 1)) by lia.
    rewrite !Z.pow_succ_r by lia. lia.
  - simpl. lia.
Qed.

Lemma iter_pos_nat {A : Type} (f : A -> A) (p : positive) (x : A) :
  SpecFloat.iter_pos f p x = Nat.iter (Pos.to_nat p) f x.
Proof.
  revert x. induction p as [p IH | p IH |]; intros x;
    cbn [SpecFloat.iter_pos].
  - rewrite !IH, Pos2Nat.inj_xI, Nat.iter_succ_r.
    replace (2 * Pos.to_nat p)%nat with (Pos.to_nat p + Pos.to_nat p)%nat
      by lia.
    by rewrite Nat.iter_add.
  - rewrite !IH, Pos2Nat.inj_xO.
    replace (2 * Pos.to_nat p)%nat with (Pos.to_nat p + Pos.to_nat p)%nat
      by lia.
    by rewrite Nat.iter_add.
  - reflexivity.
Qed.

Lemma shr_1_spec (m : Z) (r s : bool) :
  0 <= m ->
  shr_m (shr_1 (Build_shr_record m r s)) = m / 2
  /\ shr_r (shr_1 (Build_shr_record m r s)) = Z.odd m
  /\ shr_s (shr_1 (Build_shr_record m r s)) = r || s.
Proof.
  intros Hm. rewrite <- Z.div2_div.
  destruct m as [|[p|p|]|]; try lia; repeat split.
Qed.

Lemma shr_iter_spec (P : Z) (k : nat) :
  0 <= P ->
  let rec := Nat.iter k shr_1 (Build_shr_record P false false) in
  shr_m rec = P / 2 ^ Z.of_nat k
  /\ (P mod 2 ^ Z.of_nat k = 0 -> shr_r rec = false /\ shr_s rec = false).
Proof.
  intros HP. cbv zeta. induction k as [|k IH].
  - simpl. rewrite Z.div_1_r. done.
  - rewrite Nat.iter_succ. destruct IH as [IHm IHrs].
    set (rec := Nat.iter k shr_1 _) in *.
    assert (Hm : 0 <= shr_m rec).
    { rewrite IHm. apply Z.div_pos; [done|]. apply Z.pow_pos_nonneg; lia. }
    destruct rec as [m r s]. cbn [shr_m shr_r shr_s] in IHm, IHrs, Hm.
    destruct (shr_1_spec m r s Hm) as (H1 & H2 & H3).
    rewrite H1, H2, H3, IHm.
    rewrite Nat2Z.inj_succ, Z.pow_succ_r by lia.
    assert (Hpow : 0 < 2 ^ Z.of_nat k) by (apply Z.pow_pos_nonneg; lia).
    split.
    + rewrite Z.div_div by lia. f_equal. lia.
    + intros Hmod.
      assert (Hk : P mod 2 ^ Z.of_nat k = 0).
      { apply Z.mod_divide in Hmod; [|lia]. apply Z.mod_divide; [lia|].
        destruct Hmod as [q Hq]. exists (q * 2). lia. }
      destruct (IHrs Hk) as [-> ->]. split; [|done].
      apply Z.mod_divide in Hmod; [|lia]. destruct Hmod as [q Hq].
      subst m. rewrite Hq.
      replace (q * (2 * 2 ^ Z.of_nat k)) with ((q * 2) * 2 ^ Z.of_nat k) by lia.
      rewrite Z.div_mul by lia. rewrite Z.mul_comm, Z.odd_mul. done.
Qed.

Lemma shr_spec (P E n : Z) :
  0 <= P ->
  let res := shr (Build_shr_record P false false) E n in
  let k := Z.max 0 n in
  snd res = E + k
  /\ shr_m (fst res) = P / 2 ^ k
  /\ (P mod 2 ^ k = 0 -> loc_of_shr_record (fst res) = loc_Exact).
Proof.
  intros HP. unfold shr. destruct n as [|p|p]; cbn [fst snd].
  - rewrite Z.add_0_r, Z.div_1_r. done.
  - rewrite iter_pos_nat.
    destruct (shr_iter_spec P (Pos.to_nat p) HP) as [Hm Hrs].
    rewrite positive_nat_Z in Hm, Hrs.
    replace (Z.max 0 (Z.pos p)) with (Z.pos p) by lia.
    split; [done|]. split; [done|].
    intros Hmod. destruct (Hrs Hmod) as [Hr Hs].
    destruct (Nat.iter _ _ _) as [m r s]. cbn in *. by subst.
  - replace (Z.max 0 (Z.neg p)) with 0 by lia.
    rewrite Z.add_0_r, Z.div_1_r. done.
Qed.

Lemma round_nearest_even_bound (m : Z) (l : location) :
  m <= round_nearest_even m l <= m + 1
  /\ (l = loc_Exact -> round_nearest_even m l = m).
Proof.
  split; [|by intros ->].
  destruct l as [|[]]; cbn; try lia. destruct (Z.even m); lia.
Qed.

Lemma Zdigits2_upper (M b : Z) :
  0 <= M -> 0 <= b -> M < 2 ^ b -> Zdigits2 M <= b.
Proof.
  intros HM Hb Hlt. destruct M as [|p|p]; [simpl; lia| |lia].
  cbn [Zdigits2]. pose proof (digits2_pos_bounds p) as [Hlo _].
  assert (H : 2 ^ (Z.pos (digits2_pos p) - 1) < 2 ^ b) by lia.
  apply Z.pow_lt_mono_r_iff in H; lia.
Qed.

(** One alignment step of the rounding: a magnitude [M * 2^E] that is at
    most the integer [K < 2^15] stays at most [K], also after rounding to
    nearest. *)
Lemma shr_fexp_bound (M E K : Z) :
  0 <= M -> 0 < K < 2 ^ 15 -> E <= 0 -> M <= K * 2 ^ (- E) ->
  let res := shr_fexp F32.prec F32.emax M E loc_Exact in
  let m' := shr_m (fst res) in
  let e' := snd res in
  e' <= 0 /\ 0 <= m'
  /\ m' <= round_nearest_even m' (loc_of_shr_record (fst res)) <= K * 2 ^ (- e').
Proof.
  intros HM HK HE Hle res m' e'.
  unfold shr_fexp in res. cbn [shr_record_of_loc] in res.
  set (n := fexp F32.prec F32.emax (Zdigits2 M + E) - E) in res.
  destruct (shr_spec M E n HM) as (He & Hm & Hex).
  fold res in He, Hm, Hex. fold m' in Hm. fold e' in He.
  set (k := Z.max 0 n) in *.
  assert (Hk : 0 <= k) by lia.
  assert (Hpk : 0 < 2 ^ k) by (apply Z.pow_pos_nonneg; lia).
  assert (HpE : 0 < 2 ^ (- E)) by (apply Z.pow_pos_nonneg; lia).
  assert (Hdig : Zdigits2 M <= 15 - E).
  { apply Zdigits2_upper; [done|lia|].
    replace (15 - E) with (15 + - E) by lia.
    rewrite Z.pow_add_r by lia.
    assert (K * 2 ^ (- E) < 2 ^ 15 * 2 ^ (- E))
      by (apply Z.mul_lt_mono_pos_r; lia).
    lia. }
  assert (He0 : e' <= 0).
  { rewrite He. unfold k, n, fexp, emin, F32.prec, F32.emax. lia. }
  assert (Hsplit : 2 ^ (- E) = 2 ^ (- e') * 2 ^ k).
  { rewrite <- Z.pow_add_r by lia. f_equal. lia. }
  assert (Hpe : 0 < 2 ^ (- e')) by (apply Z.pow_pos_nonneg; lia).
  assert (Hm0 : 0 <= m') by (rewrite Hm; apply Z.div_pos; lia).
  split; [done|]. split; [done|].
  destruct (round_nearest_even_bound m' (loc_of_shr_record (fst res)))
    as [[Hlo Hhi] Hexact].
  split; [done|].
  destruct (Z.eq_dec (M mod 2 ^ k) 0) as [Hz | Hnz].
  - rewrite Hexact by auto. rewrite Hm.
    apply Z.div_le_upper_bound; [done|]. rewrite Hsplit in Hle. lia.
  - assert (Hlt : M < 2 ^ k * (K * 2 ^ (- e'))).
    { assert (M <> 2 ^ k * (K * 2 ^ (- e'))).
      { intros Heq. apply Hnz. rewrite Heq, Z.mul_comm. apply Z.mod_mul. lia. }
      rewrite Hsplit in Hle. lia. }
    assert (m' < K * 2 ^ (- e')).
    { rewrite Hm. apply Z.div_lt_upper_bound; done. }
    lia.
Qed.

(** Rounding a positive magnitude of at most [K < 2^15] to [float] gives a
    zero or a finite number of magnitude at most [K]. *)
Lemma binary_round_aux_bound (s : bool) (P : positive) (E K : Z) :
  0 < K < 2 ^ 15 -> E <= 0 -> Z.pos P <= K * 2 ^ (- E) ->
  match binary_round_aux F32.prec F32.emax s (Z.pos P) E loc_Exact with
  | S754_zero s' => s' = s
  | S754_finite s' m e => s' = s /\ e <= 0 /\ Z.pos m <= K * 2 ^ (- e)
  | _ => False
  end.
Proof.
  intros HK HE Hle. unfold binary_round_aux.
  pose proof (shr_fexp_bound (Z.pos P) E K ltac:(lia) HK HE Hle) as H1.
  cbv zeta in H1.
  destruct (shr_fexp F32.prec F32.emax (Z.pos P) E loc_Exact) as [mrs1 e1].
  cbn [fst snd] in H1. destruct H1 as (He1 & Hm1 & Hlo1 & Hhi1).
  set (M2 := round_nearest_even (shr_m mrs1) (loc_of_shr_record mrs1)) in *.
  pose proof (shr_fexp_bound M2 e1 K ltac:(lia) HK He1 Hhi1) as H2.
  cbv zeta in H2.
  destruct (shr_fexp F32.prec F32.emax M2 e1 loc_Exact) as [mrs2 e2].
  cbn [fst snd] in H2. destruct H2 as (He2 & Hm2 & Hlo2 & Hhi2).
  destruct (shr_m mrs2) as [|m|m] eqn:Em; [done| |lia].
  replace (e2 <=? F32.emax - F32.prec) with true
    by (symmetry; apply Z.leb_le; unfold F32.emax, F32.prec; lia).
  split; [done|]. split; [done|]. lia.
Qed.

(** Truncation of a finite number of magnitude at most the integer [K]. *)
Lemma F32_trunc_bound (s : bool) (m : positive) (e K : Z) :
  e <= 0 -> Z.pos m <= K * 2 ^ (- e) ->
  - K <= F32.trunc (S754_finite s m e) <= K.
Proof.
  intros He Hle. unfold F32.trunc.
  assert (Ha : 0 <= match e with
                    | Z.neg p => Z.shiftr (Z.pos m) (Z.pos p)
                    | _ => Z.shiftl (Z.pos m) e
                    end <= K).
  { destruct e as [|p|p]; [|lia|].
    - rewrite Z.shiftl_0_r. cbn in Hle. lia.
    - rewrite Z.shiftr_div_pow2 by lia.
      change (- Z.neg p) with (Z.pos p) in Hle.
      assert (0 < 2 ^ Z.pos p) by (apply Z.pow_pos_nonneg; lia).
      split; [apply Z.div_pos; lia|].
      apply Z.div_le_upper_bound; lia. }
  destruct s; lia.
Qed.

Lemma SFleb_finite_pos (m q : positive) (e k : Z) :
  SFleb (S754_finite false m e) (S754_finite false q k) = true ->
  e < k \/ (e = k /\ (m <= q)%positive).
Proof.
  unfold SFleb. cbn [SFcompare].
  destruct (Z.compare_spec e k) as [Heq | Hlt | Hgt]; intros H;
    [|by left|discriminate].
  right. split; [done|].
  unfold Pos.le, Pos.compare. intros Hc. rewrite Hc in H. discriminate.
Qed.

Lemma SFleb_finite_neg (m q : positive) (e k : Z) :
  SFleb (S754_finite true q k) (S754_finite true m e) = true ->
  e < k \/ (e = k /\ (m <= q)%positive).
Proof.
  unfold SFleb. cbn [SFcompare].
  destruct (Z.compare_spec k e) as [Heq | Hlt | Hgt]; intros H;
    [|discriminate|left; lia].
  right. split; [done|].
  apply Pos.ge_le. unfold Pos.ge, Pos.compare. intros Hc.
  rewrite Hc in H. discriminate.
Qed.

(** A valid [float] between -1 and 1 is a zero or has a mantissa [m] and an
    exponent [e <= -23] with [m <= 2^(-e)]. *)
Lemma F32_unit_range_mantissa (s : bool) (m : positive) (e : Z) :
  valid_binary F32.prec F32.emax (S754_finite s m e) = true ->
  F32.leb F32.neg_one (S754_finite s m e) = true ->
  F32.leb (S754_finite s m e) F32.one = true ->
  e <= -23 /\ Z.pos m <= 2 ^ (- e).
Proof.
  intros Hv Hlo Hhi.
  assert (Hcase : e < -23 \/ (e = -23 /\ (m <= 8388608)%positive)).
  { destruct s.
    - by apply SFleb_finite_neg.
    - by apply SFleb_finite_pos. }
  clear Hlo Hhi.
  cbn [valid_binary] in Hv. unfold bounded, canonical_mantissa in Hv.
  apply andb_prop in Hv. destruct Hv as [Hc _]. apply Z.eqb_eq in Hc.
  pose proof (digits2_pos_bounds m) as [_ Hd].
  destruct Hcase as [Hlt | [-> Hm]].
  - split; [lia|].
    assert (Hdig : Z.pos (digits2_pos m) <= 24)
      by (unfold fexp, emin, F32.prec, F32.emax in Hc; lia).
    assert (H1 : 2 ^ Z.pos (digits2_pos m) <= 2 ^ 24)
      by (apply Z.pow_le_mono_r; lia).
    assert (H2 : 2 ^ 24 <= 2 ^ (- e)) by (apply Z.pow_le_mono_r; lia).
    lia.
  - clear Hc Hd. split; [reflexivity|]. apply Pos2Z.pos_le_pos in Hm. exact Hm.
Qed.

Lemma int16_of_bits_id (v : Z) :
  -32768 <= v < 32768 -> int16_of_bits v = v.
Proof.
  intros Hv. unfold int16_of_bits.
  destruct (Z.ltb_spec (v mod 65536) 32768); Z.div_mod_to_equations; lia.
Qed.

Lemma clamp_sample_valid (x : F32.t) :
  valid_binary F32.prec F32.emax x = true ->
  valid_binary F32.prec F32.emax (WAVWriter.clamp_sample x) = true.
Proof.
  intros Hv. unfold WAVWriter.clamp_sample, F32.max, F32.min.
  destruct (F32.ltb x F32.one);
    destruct (F32.ltb F32.neg_one _); (exact Hv || reflexivity).
Qed.

(** The product [clamp(x) * 32767.0f] truncates to an integer between
    -32767 and 32767 for every [float] [x], so the conversion to [int16_t]
    is always defined and keeps the value. *)
Lemma WAVWriter_pcm_in_range (x : F32.t) :
  valid_binary F32.prec F32.emax x = true ->
  let v :=
    F32.trunc (F32.mul (WAVWriter.clamp_sample x) WAVWriter.PCM_SCALE) in
  -32767 <= v <= 32767 /\ WAVWriter.pcm_of_sample x = v.
Proof.
  intros Hv v.
  assert (Hrange : -32767 <= v <= 32767).
  { subst v.
    pose proof (clamp_sample_valid x Hv) as Hc.
    destruct (clamp_sample_range x) as [Hlo Hhi].
    destruct (WAVWriter.clamp_sample x) as [s|s| |s m e].
    - simpl. lia.
    - destruct s; discriminate.
    - discriminate.
    - destruct (F32_unit_range_mantissa s m e Hc Hlo Hhi) as [He Hm].
      unfold F32.mul, WAVWriter.PCM_SCALE. cbn [SFmul].
      pose proof (binary_round_aux_bound (xorb s false) (m * 16776704)
                    (e + -9) 32767) as Hb.
      destruct (binary_round_aux F32.prec F32.emax (xorb s false)
                  (Z.pos (m * 16776704)) (e + -9) loc_Exact)
        as [s'|s'| |s' m' e'].
      + simpl. lia.
      + exfalso. apply Hb; [lia|lia|].
        rewrite Pos2Z.inj_mul. replace (- (e + -9)) with (9 + - e) by lia.
        rewrite Z.pow_add_r by lia. change (2 ^ 9) with 512. lia.
      + exfalso. apply Hb; [lia|lia|].
        rewrite Pos2Z.inj_mul. replace (- (e + -9)) with (9 + - e) by lia.
        rewrite Z.pow_add_r by lia. change (2 ^ 9) with 512. lia.
      + destruct Hb as (_ & He' & Hm'); [lia|lia| |].
        * rewrite Pos2Z.inj_mul. replace (- (e + -9)) with (9 + - e) by lia.
          rewrite Z.pow_add_r by lia. change (2 ^ 9) with 512. lia.
        * exact (F32_trunc_bound s' m' e' 32767 He' Hm'). }
  split; [exact Hrange|].
  unfold WAVWriter.pcm_of_sample. fold v. apply int16_of_bits_id. lia.
Qed.

(** Four samples 0.5, -1, 2 and 0 become 16383, -32767, 32767 and 0, stored
    low byte first after the 44-byte header. *)
Example WAVWriter_session_bytes :
  let file :=
    OFStream.content
      (WAVWriter.m_file
         (WAVWriter.session true 48000 2
            [([F32.half; F32.neg_one; F32.two; F32.zero], 2)])) in
  drop 44 file
  = [Byte.xff; Byte.x3f; Byte.x01; Byte.x80; Byte.xff; Byte.x7f;
     Byte.x00; Byte.x00]
  /\ take 8 file
     = [Byte.x52; Byte.x49; Byte.x46; Byte.x46; Byte.x2c; Byte.x00;
        Byte.x00; Byte.x00]
  /\ drop 36 (take 44 file)
     = [Byte.x64; Byte.x61; Byte.x74; Byte.x61; Byte.x08; Byte.x00;
        Byte.x00; Byte.x00].
Proof. vm_compute. repeat split. Qed.

Lemma concat_replicate_length {A : Type} (k : nat) (l : list A) :
  length (concat (replicate k l)) = (k * length l)%nat.
Proof.
  induction k as [|k IH]; [done|].
  cbn [replicate concat]. rewrite length_app, IH. lia.
Qed.

(** The length fields are 32 bits wide.  65536 writes of 16384 stereo frames
    (6.2 hours at 48 kHz) put 2^32 PCM bytes into the file; the header then
    says 0 data bytes and a RIFF chunk of 36 bytes. *)
Lemma WAVWriter_header_lengths_wrap :
  let batch := replicate (Z.to_nat 32768) F32.zero in
  let calls := replicate (Z.to_nat 65536) (batch, 16384) in
  let file :=
    OFStream.content (WAVWriter.m_file (WAVWriter.session true 48000 2 calls)) in
  Forall (WAVWriter.call_fits 2) calls
  /\ Z.of_nat (length (drop 44 file)) = 4294967296
  /\ data_size_field file = 0
  /\ riff_size_field file = 36
  /\ data_size_field file <> Z.of_nat (length (drop 44 file))
  /\ riff_size_field file <> 36 + Z.of_nat (length (drop 44 file)).
Proof.
  intros batch calls file.
  assert (Hlen : length batch = Z.to_nat 32768)
    by apply length_replicate.
  assert (Hfit : Forall (WAVWriter.call_fits 2) calls).
  { apply Forall_replicate. unfold WAVWriter.call_fits. cbn [fst snd].
    change (wrap 64 (16384 * 2)) with 32768. by rewrite Hlen. }
  destruct (WAVWriter_session_file 48000 2 calls Hfit)
    as (_ & _ & Hpcm & Hriff & Hdata).
  fold file in Hpcm, Hriff, Hdata.
  assert (Hn : Z.of_nat
                 (length
                    (pcm_stream
                       (concat (map (WAVWriter.written_samples 2) calls))))
               = 4294967296).
  { rewrite pcm_stream_length. unfold calls. rewrite fmap_replicate.
    rewrite concat_replicate_length.
    unfold WAVWriter.written_samples. cbn [fst snd].
    change (wrap 64 (16384 * 2)) with 32768.
    rewrite length_take, Hlen, Nat.min_id.
    rewrite !Nat2Z.inj_mul, !Z2Nat.id by lia. reflexivity. }
  rewrite Hn in Hriff, Hdata. rewrite Hpcm, Hn, Hriff, Hdata.
  change ((36 + 4294967296) mod 2 ^ 32) with 36.
  change (4294967296 mod 2 ^ 32) with 0.
  repeat split; try done; lia.
Qed.

(** ** The backing-track player *)

Lemma insert_take_drop_step (out : list F32.t) (i : nat) (v : F32.t)
    (mid : list F32.t) (c : nat) :
  (i < length out)%nat ->
  take (S i) (<[i := v]> out) ++ mid ++ drop (S i + c) (<[i := v]> out)
  = take i out ++ (v :: mid) ++ drop (i + S c) out.
Proof.
  intros Hi.
  rewrite (take_S_r _ i v) by (by apply list_lookup_insert_eq).
  rewrite take_insert_ge by lia. rewrite drop_insert_lt by lia.
  replace (i + S c)%nat with (S i + c)%nat by lia. by rewrite <- app_assoc.
Qed.

Lemma memset_zero_spec (count from : nat) (out : list F32.t) :
  (from + count <= length out)%nat ->
  memset_zero out from count
  = take from out ++ replicate count F32.zero ++ drop (from + count) out.
Proof.
  unfold memset_zero. revert from out.
  induction count as [|c IH]; intros from out Hlen.
  - simpl. by rewrite Nat.add_0_r, take_drop.
  - cbn [for_loop]. rewrite IH by (rewrite length_insert; lia).
    rewrite insert_take_drop_step by lia. done.
Qed.

Lemma BackingTrack_endFrame_bound (b : BackingTrack.t) :
  BackingTrack.wf b -> 0 <= BackingTrack.endFrame b <= BackingTrack.totalFrames_ b.
Proof.
  intros (_ & _ & Ht & _). unfold BackingTrack.endFrame.
  destruct (_ && _) eqn:E; lia.
Qed.

Lemma BackingTrack_wrap_cursor_bound (b : BackingTrack.t) (pos : Z) :
  BackingTrack.wf b -> 0 < BackingTrack.totalFrames_ b -> 0 <= pos ->
  0 <= BackingTrack.wrap_cursor b pos < BackingTrack.totalFrames_ b.
Proof.
  intros Hwf Hload Hpos. pose proof (BackingTrack_endFrame_bound b Hwf) as He.
  destruct Hwf as (_ & _ & _ & _ & Hs0 & Hs). specialize (Hs Hload).
  unfold BackingTrack.wrap_cursor. destruct (pos >=? _) eqn:E; lia.
Qed.

Lemma BackingTrack_cursor_from_bound (b : BackingTrack.t) (pos : Z) (k : nat) :
  BackingTrack.wf b -> 0 < BackingTrack.totalFrames_ b -> 0 <= pos ->
  0 <= BackingTrack.cursor_from b pos k < BackingTrack.totalFrames_ b.
Proof.
  intros Hwf Hload Hpos. induction k as [|k IH]; simpl.
  - by apply BackingTrack_wrap_cursor_bound.
  - apply BackingTrack_wrap_cursor_bound; [done..|lia].
Qed.

Lemma BackingTrack_cursor_from_shift (b : BackingTrack.t) (pos : Z) (k : nat) :
  BackingTrack.cursor_from b pos (S k)
  = BackingTrack.cursor_from b (BackingTrack.wrap_cursor b pos + 1) k.
Proof.
  induction k as [|k IH]; [done|].
  change (BackingTrack.cursor_from b pos (S (S k)))
    with (BackingTrack.wrap_cursor b (BackingTrack.cursor_from b pos (S k) + 1)).
  by rewrite IH.
Qed.


Lemma looped_samples_S (b : BackingTrack.t) (data : list F32.t) (pos : Z)
    (c : nat) :
  looped_samples b data pos (S c)
  = F32.mul (data !!! Z.to_nat (BackingTrack.wrap_cursor b pos))
      (BackingTrack.volume_ b)
    :: looped_samples b data (BackingTrack.wrap_cursor b pos + 1) c.
Proof.
  unfold looped_samples. cbn [seq map BackingTrack.cursor_from]. f_equal.
  rewrite <- fmap_S_seq, <- list_fmap_compose. apply list_fmap_ext.
  intros k x _. cbn [compose]. by rewrite BackingTrack_cursor_from_shift.
Qed.

Lemma straight_samples_S (b : BackingTrack.t) (data : list F32.t) (pos : Z)
    (c : nat) :
  straight_samples b data pos (S c)
  = F32.mul (data !!! Z.to_nat pos) (BackingTrack.volume_ b)
    :: straight_samples b data (pos + 1) c.
Proof.
  unfold straight_samples. cbn [seq map]. f_equal.
  - by rewrite Z.add_0_r.
  - rewrite <- fmap_S_seq, <- list_fmap_compose. apply list_fmap_ext.
    intros k x _. cbn [compose]. do 3 f_equal. lia.
Qed.

Lemma BackingTrack_fill_loop_looping (b : BackingTrack.t) (count i : nat)
    (pos : Z) (outL outR : list F32.t) :
  BackingTrack.wf b -> 0 < BackingTrack.totalFrames_ b -> 0 <= pos ->
  (i + count <= length outL)%nat -> (i + count <= length outR)%nat ->
  BackingTrack.fill_loop b (BackingTrack.volume_ b) true
    (BackingTrack.startFrame_ b) (BackingTrack.endFrame b) i count pos outL outR
  = (BackingTrack.set_transport b (BackingTrack.isPlaying_ b)
       (match count with
        | O => pos
        | S j => BackingTrack.cursor_from b pos j + 1
        end),
     take i outL ++ looped_samples b (BackingTrack.audioDataL_ b) pos count
       ++ drop (i + count) outL,
     take i outR ++ looped_samples b (BackingTrack.audioDataR_ b) pos count
       ++ drop (i + count) outR).
Proof.
  intros Hwf Hload. revert i pos outL outR.
  induction count as [|c IH]; intros i pos outL outR Hpos HL HR.
  - cbn [BackingTrack.fill_loop]. unfold looped_samples. cbn [seq map app].
    by rewrite Nat.add_0_r, !take_drop.
  - cbn [BackingTrack.fill_loop]. rewrite andb_false_r.
    fold (BackingTrack.wrap_cursor b pos).
    pose proof (BackingTrack_wrap_cursor_bound b pos Hwf Hload Hpos) as Hp1.
    set (p1 := BackingTrack.wrap_cursor b pos) in *.
    assert (Hw : wrap 64 (p1 + 1) = p1 + 1).
    { unfold wrap. apply Z.mod_small. destruct Hwf as (_ & _ & Ht & _). lia. }
    rewrite Hw.
    rewrite IH by (rewrite ?length_insert; lia).
    rewrite !insert_take_drop_step by lia.
    rewrite !looped_samples_S. fold p1. f_equal. f_equal. f_equal.
    destruct c as [|j]; [done|].
    by rewrite BackingTrack_cursor_from_shift.
Qed.

Lemma BackingTrack_fill_loop_straight (b : BackingTrack.t) (count i : nat)
    (pos : Z) (left : nat) (outL outR : list F32.t) :
  BackingTrack.wf b -> 0 <= pos ->
  Z.of_nat left = Z.max 0 (BackingTrack.endFrame b - pos) ->
  (i + count <= length outL)%nat -> (i + count <= length outR)%nat ->
  BackingTrack.fill_loop b (BackingTrack.volume_ b) false
    (BackingTrack.startFrame_ b) (BackingTrack.endFrame b) i count pos outL outR
  = if decide (count <= left)%nat then
      (BackingTrack.set_transport b (BackingTrack.isPlaying_ b)
         (pos + Z.of_nat count),
       take i outL ++ straight_samples b (BackingTrack.audioDataL_ b) pos count
         ++ drop (i + count) outL,
       take i outR ++ straight_samples b (BackingTrack.audioDataR_ b) pos count
         ++ drop (i + count) outR)
    else
      (BackingTrack.set_transport b false (BackingTrack.startFrame_ b),
       take i outL
         ++ (straight_samples b (BackingTrack.audioDataL_ b) pos left
             ++ replicate (count - left) F32.zero)
         ++ drop (i + count) outL,
       take i outR
         ++ (straight_samples b (BackingTrack.audioDataR_ b) pos left
             ++ replicate (count - left) F32.zero)
         ++ drop (i + count) outR).
Proof.
  intros Hwf. pose proof (BackingTrack_endFrame_bound b Hwf) as He.
  assert (Ht : BackingTrack.totalFrames_ b < 2 ^ 64)
    by (destruct Hwf as (_ & _ & Ht & _); lia).
  revert i pos left outL outR.
  induction count as [|c IH]; intros i pos left outL outR Hpos Hleft HL HR.
  - cbn [BackingTrack.fill_loop]. rewrite decide_True by lia.
    unfold straight_samples. cbn [seq map app].
    by rewrite Nat.add_0_r, Z.add_0_r, !take_drop.
  - cbn [BackingTrack.fill_loop]. cbn [negb]. rewrite andb_true_r.
    destruct (pos >=? BackingTrack.endFrame b) eqn:E.
    + assert (left = O) by lia. subst left.
      rewrite decide_False by lia.
      rewrite !memset_zero_spec by lia.
      unfold straight_samples. cbn [seq map app]. by rewrite Nat.sub_0_r.
    + destruct left as [|left']; [lia|].
      assert (Hw : wrap 64 (pos + 1) = pos + 1).
      { unfold wrap. apply Z.mod_small. lia. }
      rewrite Hw.
      rewrite (IH (S i) (pos + 1) left') by (rewrite ?length_insert; lia).
      destruct (decide (c <= left')%nat) as [Hc | Hc].
      * rewrite decide_True by lia.
        rewrite !insert_take_drop_step by lia.
        rewrite !straight_samples_S. do 3 f_equal. lia.
      * rewrite decide_False by lia.
        rewrite !insert_take_drop_step by lia.
        rewrite !straight_samples_S. cbn [app Nat.sub]. done.
Qed.

Lemma produced_lookup (out mid : list F32.t) (n i : nat) :
  length mid = n ->
  (take 0 out ++ mid ++ drop (0 + n) out) !! i
  = if decide (i < n)%nat then mid !! i else out !! i.
Proof.
  intros Hmid. rewrite take_0. cbn [app Nat.add]. case_decide as Hi.
  - by rewrite lookup_app_l by lia.
  - rewrite lookup_app_r by lia. rewrite lookup_drop. f_equal. lia.
Qed.

Lemma looped_samples_lookup (b : BackingTrack.t) (data : list F32.t) (pos : Z)
    (n i : nat) :
  (i < n)%nat ->
  looped_samples b data pos n !! i
  = Some (F32.mul (data !!! Z.to_nat (BackingTrack.cursor_from b pos i))
            (BackingTrack.volume_ b)).
Proof.
  intros Hi. unfold looped_samples.
  by rewrite list_lookup_fmap, lookup_seq_lt by done.
Qed.

Lemma straight_samples_lookup (b : BackingTrack.t) (data : list F32.t)
    (pos : Z) (n i : nat) :
  (i < n)%nat ->
  straight_samples b data pos n !! i
  = Some (F32.mul (data !!! Z.to_nat (pos + Z.of_nat i))
            (BackingTrack.volume_ b)).
Proof.
  intros Hi. unfold straight_samples.
  by rewrite list_lookup_fmap, lookup_seq_lt by done.
Qed.

Lemma looped_samples_length (b : BackingTrack.t) (data : list F32.t) (pos : Z)
    (n : nat) : length (looped_samples b data pos n) = n.
Proof. unfold looped_samples. by rewrite length_map, length_seq. Qed.

Lemma straight_samples_length (b : BackingTrack.t) (data : list F32.t)
    (pos : Z) (n : nat) : length (straight_samples b data pos n) = n.
Proof. unfold straight_samples. by rewrite length_map, length_seq. Qed.

(** [fillBuffer] in closed form, by cases on the transport cells. *)
Lemma BackingTrack_fillBuffer_cases (b : BackingTrack.t)
    (outL outR : list F32.t) (n : nat) :
  BackingTrack.wf b ->
  (n <= length outL)%nat -> (n <= length outR)%nat ->
  let res := BackingTrack.fillBuffer b outL outR n in
  let pos := BackingTrack.playbackPosition_ b in
  let total := BackingTrack.totalFrames_ b in
  let left := BackingTrack.frames_left b in
  (negb (BackingTrack.isPlaying_ b) || (total =? 0) = true ->
   res = (b, take 0 outL ++ replicate n F32.zero ++ drop (0 + n) outL,
          take 0 outR ++ replicate n F32.zero ++ drop (0 + n) outR))
  /\ (BackingTrack.isPlaying_ b = true -> 0 < total ->
      BackingTrack.loopEnabled_ b = true ->
      res = (BackingTrack.set_transport b true
               (BackingTrack.cursor_after b n),
             take 0 outL
               ++ looped_samples b (BackingTrack.audioDataL_ b) pos n
               ++ drop (0 + n) outL,
             take 0 outR
               ++ looped_samples b (BackingTrack.audioDataR_ b) pos n
               ++ drop (0 + n) outR))
  /\ (BackingTrack.isPlaying_ b = true -> 0 < total ->
      BackingTrack.loopEnabled_ b = false ->
      res = if decide (n <= left)%nat then
              (BackingTrack.set_transport b true (pos + Z.of_nat n),
               take 0 outL
                 ++ straight_samples b (BackingTrack.audioDataL_ b) pos n
                 ++ drop (0 + n) outL,
               take 0 outR
                 ++ straight_samples b (BackingTrack.audioDataR_ b) pos n
                 ++ drop (0 + n) outR)
            else
              (BackingTrack.set_transport b false
                 (BackingTrack.startFrame_ b),
               take 0 outL
                 ++ (straight_samples b (BackingTrack.audioDataL_ b)
                       pos left
                     ++ replicate (n - left) F32.zero)
                 ++ drop (0 + n) outL,
               take 0 outR
                 ++ (straight_samples b (BackingTrack.audioDataR_ b)
                       pos left
                     ++ replicate (n - left) F32.zero)
                 ++ drop (0 + n) outR)).
Proof.
  intros Hwf HL HR res pos total left.
  assert (Hpos : 0 <= pos) by (destruct Hwf as (_ & _ & _ & Hp & _); lia).
  split; [|split].
  - intros Hs. unfold res, BackingTrack.fillBuffer. fold total. rewrite Hs.
    by rewrite !memset_zero_spec by lia.
  - intros Hplay Hload Hlp. unfold res, BackingTrack.fillBuffer. fold total.
    rewrite Hplay, Hlp. replace (total =? 0) with false by lia. cbn [negb orb].
    rewrite BackingTrack_fill_loop_looping by (done || lia).
    by rewrite Hplay.
  - intros Hplay Hload Hlp. unfold res, BackingTrack.fillBuffer. fold total.
    rewrite Hplay, Hlp. replace (total =? 0) with false by lia. cbn [negb orb].
    rewrite (BackingTrack_fill_loop_straight b n 0 _ left)
      by (done || unfold left, BackingTrack.frames_left; lia).
    by rewrite Hplay.
Qed.

(** The samples [fillBuffer] writes and the player it leaves, case by case. *)
Lemma BackingTrack_fillBuffer_samples (b : BackingTrack.t)
    (outL outR : list F32.t) (n : nat) :
  BackingTrack.wf b ->
  (n <= length outL)%nat -> (n <= length outR)%nat ->
  let res := BackingTrack.fillBuffer b outL outR n in
  let b' := fst (fst res) in
  let outL' := snd (fst res) in
  let outR' := snd res in
  let vol := BackingTrack.volume_ b in
  let pos := BackingTrack.playbackPosition_ b in
  let total := BackingTrack.totalFrames_ b in
  let left := BackingTrack.frames_left b in
  let sampleL k := F32.mul (BackingTrack.audioDataL_ b !!! Z.to_nat k) vol in
  let sampleR k := F32.mul (BackingTrack.audioDataR_ b !!! Z.to_nat k) vol in
  (BackingTrack.isPlaying_ b = false \/ total = 0 ->
     b' = b
     /\ forall i, (i < n)%nat ->
          outL' !! i = Some F32.zero /\ outR' !! i = Some F32.zero)
  /\ (BackingTrack.isPlaying_ b = true -> 0 < total ->
      BackingTrack.loopEnabled_ b = true ->
        b' = BackingTrack.set_transport b true (BackingTrack.cursor_after b n)
        /\ forall i, (i < n)%nat ->
             0 <= BackingTrack.cursor b i < total
             /\ outL' !! i = Some (sampleL (BackingTrack.cursor b i))
             /\ outR' !! i = Some (sampleR (BackingTrack.cursor b i)))
  /\ (BackingTrack.isPlaying_ b = true -> 0 < total ->
      BackingTrack.loopEnabled_ b = false ->
        (forall i, (i < n)%nat -> (i < left)%nat ->
           0 <= pos + Z.of_nat i < total
           /\ outL' !! i = Some (sampleL (pos + Z.of_nat i))
           /\ outR' !! i = Some (sampleR (pos + Z.of_nat i)))
        /\ ((n <= left)%nat ->
              b' = BackingTrack.set_transport b true (pos + Z.of_nat n))
        /\ ((left < n)%nat ->
              b' = BackingTrack.set_transport b false
                     (BackingTrack.startFrame_ b)
              /\ forall i, (left <= i < n)%nat ->
                   outL' !! i = Some F32.zero /\ outR' !! i = Some F32.zero))
  /\ (forall i, (n <= i)%nat ->
        outL' !! i = outL !! i /\ outR' !! i = outR !! i)
  /\ BackingTrack.endFrame b
     = (if (0 <? BackingTrack.stopFrame_ b)
           && (BackingTrack.stopFrame_ b <? total)
        then BackingTrack.stopFrame_ b else total)
  /\ (BackingTrack.stopFrame_ b = 0 -> BackingTrack.endFrame b = total)
  /\ (forall p, BackingTrack.wrap_cursor b p
                = if p >=? BackingTrack.endFrame b
                  then BackingTrack.startFrame_ b else p).
Proof.
  intros Hwf HL HR res b' outL' outR' vol pos total left sampleL sampleR.
  pose proof (BackingTrack_endFrame_bound b Hwf) as He.
  assert (Hpos : 0 <= pos) by (destruct Hwf as (_ & _ & _ & Hp & _); lia).
  destruct (BackingTrack_fillBuffer_cases b outL outR n Hwf HL HR)
    as (Hsilent & Hloop & Hstraight).
  fold res pos total left in Hsilent, Hloop, Hstraight.
  split; [|split; [|split; [|split; [|split; [|split]]]]].
  - intros Hs. unfold b', outL', outR'. rewrite Hsilent.
    2:{ destruct Hs as [-> | Hs]; [done|]. replace (total =? 0) with true by lia.
        apply orb_true_r. }
    cbn [fst snd]. split; [done|]. intros i Hi.
    rewrite !produced_lookup by apply length_replicate.
    rewrite !decide_True by done. by rewrite lookup_replicate_2.
  - intros Hplay Hload Hlp. unfold b', outL', outR'.
    rewrite (Hloop Hplay Hload Hlp). cbn [fst snd]. split; [done|].
    intros i Hi.
    rewrite !produced_lookup by apply looped_samples_length.
    rewrite !decide_True by done. rewrite !looped_samples_lookup by done.
    split; [|done]. by apply BackingTrack_cursor_from_bound.
  - intros Hplay Hload Hlp. unfold b', outL', outR'.
    rewrite (Hstraight Hplay Hload Hlp).
    assert (Hleft : Z.of_nat left = Z.max 0 (BackingTrack.endFrame b - pos))
      by (unfold left, BackingTrack.frames_left; lia).
    split; [|split].
    + intros i Hi Hil. split; [lia|].
      case_decide; cbn [fst snd].
      * rewrite !produced_lookup by apply straight_samples_length.
        rewrite !decide_True by done.
        by rewrite !straight_samples_lookup by done.
      * rewrite !produced_lookup
          by (rewrite length_app, straight_samples_length, length_replicate;
              lia).
        rewrite !decide_True by done.
        rewrite !lookup_app_l by (rewrite straight_samples_length; lia).
        by rewrite !straight_samples_lookup by done.
    + intros Hn. by rewrite decide_True by done.
    + intros Hn. rewrite decide_False by lia. cbn [fst snd].
      split; [done|]. intros i Hi.
      rewrite !produced_lookup
        by (rewrite length_app, straight_samples_length, length_replicate;
            lia).
      rewrite !decide_True by lia.
      rewrite !lookup_app_r by (rewrite straight_samples_length; lia).
      rewrite !straight_samples_length.
      by rewrite !lookup_replicate_2 by lia.
  - intros i Hi. unfold outL', outR'.
    destruct (BackingTrack.isPlaying_ b) eqn:Hplay.
    + destruct (decide (total = 0)) as [Hz | Hnz].
      * rewrite Hsilent by (replace (total =? 0) with true by lia;
                            apply orb_true_r).
        cbn [fst snd]. rewrite !produced_lookup by apply length_replicate.
        by rewrite !decide_False by lia.
      * assert (Hload : 0 < total)
          by (destruct Hwf as (_ & _ & Ht & _); unfold total in *; lia).
        destruct (BackingTrack.loopEnabled_ b) eqn:Hlp.
        -- rewrite (Hloop eq_refl Hload eq_refl). cbn [fst snd].
           rewrite !produced_lookup by apply looped_samples_length.
           by rewrite !decide_False by lia.
        -- rewrite (Hstraight eq_refl Hload eq_refl).
           case_decide; cbn [fst snd].
           ++ rewrite !produced_lookup by apply straight_samples_length.
              by rewrite !decide_False by lia.
           ++ rewrite !produced_lookup
                by (rewrite length_app, straight_samples_length,
                      length_replicate; lia).
              by rewrite !decide_False by lia.
    + rewrite Hsilent by done. cbn [fst snd].
      rewrite !produced_lookup by apply length_replicate.
      by rewrite !decide_False by lia.
  - reflexivity.
  - intros Hstop. unfold BackingTrack.endFrame. by rewrite Hstop.
  - reflexivity.
Qed.

(** The transport operations and [fillBuffer] keep a player well formed, so
    the hypothesis of the theorem above holds for every call the program
    makes. *)
Lemma BackingTrack_wf_preserved (b : BackingTrack.t) :
  BackingTrack.wf b ->
  BackingTrack.wf BackingTrack.make
  /\ BackingTrack.wf (BackingTrack.play b)
  /\ BackingTrack.wf (BackingTrack.stop b)
  /\ BackingTrack.wf (BackingTrack.pause b)
  /\ BackingTrack.wf (BackingTrack.unload b)
  /\ (forall enabled, BackingTrack.wf (BackingTrack.setLoop b enabled))
  /\ (forall volume, BackingTrack.wf (BackingTrack.setVolume b volume))
  /\ (forall frame, 0 <= frame < 2 ^ 64 ->
        BackingTrack.wf (BackingTrack.setStartFrame b frame))
  /\ (forall positive frame,
        BackingTrack.wf (BackingTrack.setStopFrame b positive frame))
  /\ (forall dataL dataR channels sampleRate filepath,
        length dataR = length dataL -> Z.of_nat (length dataL) < 2 ^ 64 ->
        BackingTrack.wf
          (BackingTrack.install b dataL dataR channels sampleRate filepath))
  /\ (forall outL outR n,
        (n <= length outL)%nat -> (n <= length outR)%nat ->
        BackingTrack.wf (fst (fst (BackingTrack.fillBuffer b outL outR n)))).
Proof.
  intros Hwf.
  pose proof (BackingTrack_endFrame_bound b Hwf) as He.
  pose proof Hwf as (HL & HR & Ht & Hp & Hs & Hsl).
  split; [|split; [|split; [|split; [|split; [|split; [|split;
    [|split; [|split; [|split]]]]]]]]].
  - unfold BackingTrack.wf. simpl. repeat split; try done; lia.
  - unfold BackingTrack.play, BackingTrack.isLoaded.
    destruct (0 <? _) eqn:E; [|done].
    unfold BackingTrack.wf. simpl. repeat split; try done; lia.
  - unfold BackingTrack.wf. simpl. repeat split; try done; lia.
  - unfold BackingTrack.wf. simpl. repeat split; try done; lia.
  - unfold BackingTrack.wf. simpl. repeat split; try done; lia.
  - intros enabled. exact Hwf.
  - intros volume. exact Hwf.
  - intros frame Hf. unfold BackingTrack.setStartFrame.
    destruct (_ <=? 0); [done|].
    unfold BackingTrack.wf. simpl. repeat split; try done;
      repeat case_match; lia.
  - intros positive frame. unfold BackingTrack.setStopFrame.
    destruct (_ <=? 0); [done|]. exact Hwf.
  - intros dataL dataR channels sampleRate filepath Hlen Hsize.
    unfold BackingTrack.wf. simpl. rewrite Nat2Z.id.
    repeat split; try done; lia.
  - intros outL outR n HoL HoR.
    destruct (BackingTrack_fillBuffer_cases b outL outR n Hwf HoL HoR)
      as (Hsilent & Hloop & Hstraight).
    destruct (negb (BackingTrack.isPlaying_ b)
              || (BackingTrack.totalFrames_ b =? 0)) eqn:Hs0.
    + by rewrite Hsilent.
    + apply orb_false_elim in Hs0 as [Hplay Hz].
      apply negb_false_iff in Hplay.
      assert (Hload : 0 < BackingTrack.totalFrames_ b) by lia.
      destruct (BackingTrack.loopEnabled_ b) eqn:Hlp.
      * rewrite (Hloop Hplay Hload eq_refl). cbn [fst].
        unfold BackingTrack.wf. simpl. repeat split; try done; try lia.
        -- unfold BackingTrack.cursor_after. destruct n; [lia|].
           pose proof (BackingTrack_cursor_from_bound b
                         (BackingTrack.playbackPosition_ b) n Hwf Hload
                         ltac:(lia)) as Hc.
           unfold BackingTrack.cursor. lia.
        -- unfold BackingTrack.cursor_after. destruct n; [lia|].
           pose proof (BackingTrack_cursor_from_bound b
                         (BackingTrack.playbackPosition_ b) n Hwf Hload
                         ltac:(lia)) as Hc.
           unfold BackingTrack.cursor. lia.
      * rewrite (Hstraight Hplay Hload eq_refl).
        clear Hsilent Hloop Hstraight.
        case_decide as Hn; unfold BackingTrack.frames_left in Hn; cbn [fst];
          unfold BackingTrack.wf, BackingTrack.set_transport;
          cbn [BackingTrack.audioDataL_ BackingTrack.audioDataR_
               BackingTrack.totalFrames_ BackingTrack.playbackPosition_
               BackingTrack.startFrame_];
          repeat split; try done; lia.
Qed.

(** C4. [fillBuffer(outL, outR, n)]:
    - not playing, or nothing loaded (on any player, well formed or not):
      the [n] samples of both channels are zero and the player is
      unchanged;
    - playing with loop enabled: sample [i] is the stored frame at the
      cursor times the volume cell, where the cursor advances by one per
      sample and is moved to the start frame whenever it has reached the end
      frame; afterwards the position cell holds the advanced cursor and the
      playing flag is still set;
    - playing with loop disabled: the frames from the cursor up to the end
      frame are output times the volume; if the block ends before the end
      frame the position cell holds the cursor advanced by [n] and the flag
      stays set; if the block is longer, the playing flag is cleared, the
      position cell holds the start frame and the rest of the block is
      zero.
    In every case nothing but the position cell and the playing flag
    changes.  The end frame is the stop cell when it lies strictly inside
    the track and the end of the track otherwise (in particular when it is
    0).  Every frame that is read lies inside the track, and samples past
    [n] are not written. *)
Theorem BackingTrack_fillBuffer_spec (b : BackingTrack.t)
    (outL outR : list F32.t) (n : nat) :
  BackingTrack.wf b ->
  (n <= length outL)%nat -> (n <= length outR)%nat ->
  let res := BackingTrack.fillBuffer b outL outR n in
  let b' := fst (fst res) in
  let outL' := snd (fst res) in
  let outR' := snd res in
  let vol := BackingTrack.volume_ b in
  let pos := BackingTrack.playbackPosition_ b in
  let total := BackingTrack.totalFrames_ b in
  let left := BackingTrack.frames_left b in
  let sampleL k := F32.mul (BackingTrack.audioDataL_ b !!! Z.to_nat k) vol in
  let sampleR k := F32.mul (BackingTrack.audioDataR_ b !!! Z.to_nat k) vol in
  let stored (playing : bool) (position : Z) :=
    b' = BackingTrack.set_transport b playing position
    /\ BackingTrack.playbackPosition_ b' = position
    /\ BackingTrack.isPlaying_ b' = playing in
  (BackingTrack.isPlaying_ b = false \/ total = 0 ->
     b' = b
     /\ forall i, (i < n)%nat ->
          outL' !! i = Some F32.zero /\ outR' !! i = Some F32.zero)
  /\ (BackingTrack.isPlaying_ b = true -> 0 < total ->
      BackingTrack.loopEnabled_ b = true ->
        stored true (BackingTrack.cursor_after b n)
        /\ forall i, (i < n)%nat ->
             0 <= BackingTrack.cursor b i < total
             /\ outL' !! i = Some (sampleL (BackingTrack.cursor b i))
             /\ outR' !! i = Some (sampleR (BackingTrack.cursor b i)))
  /\ (BackingTrack.isPlaying_ b = true -> 0 < total ->
      BackingTrack.loopEnabled_ b = false ->
        (forall i, (i < n)%nat -> (i < left)%nat ->
           0 <= pos + Z.of_nat i < total
           /\ outL' !! i = Some (sampleL (pos + Z.of_nat i))
           /\ outR' !! i = Some (sampleR (pos + Z.of_nat i)))
        /\ ((n <= left)%nat -> stored true (pos + Z.of_nat n))
        /\ ((left < n)%nat ->
              stored false (BackingTrack.startFrame_ b)
              /\ forall i, (left <= i < n)%nat ->
                   outL' !! i = Some F32.zero /\ outR' !! i = Some F32.zero))
  /\ (forall i, (n <= i)%nat ->
        outL' !! i = outL !! i /\ outR' !! i = outR !! i)
  /\ (BackingTrack.audioDataL_ b' = BackingTrack.audioDataL_ b
      /\ BackingTrack.audioDataR_ b' = BackingTrack.audioDataR_ b
      /\ BackingTrack.totalFrames_ b' = total
      /\ BackingTrack.channels_ b' = BackingTrack.channels_ b
      /\ BackingTrack.sampleRate_ b' = BackingTrack.sampleRate_ b
      /\ BackingTrack.loopEnabled_ b' = BackingTrack.loopEnabled_ b
      /\ BackingTrack.volume_ b' = vol
      /\ BackingTrack.startFrame_ b' = BackingTrack.startFrame_ b
      /\ BackingTrack.stopFrame_ b' = BackingTrack.stopFrame_ b
      /\ BackingTrack.filename_ b' = BackingTrack.filename_ b)
  /\ (forall b0 : BackingTrack.t,
        BackingTrack.isPlaying_ b0 = false
        \/ BackingTrack.totalFrames_ b0 = 0 ->
        fst (fst (BackingTrack.fillBuffer b0 outL outR n)) = b0
        /\ forall i, (i < n)%nat ->
             snd (fst (BackingTrack.fillBuffer b0 outL outR n)) !! i
             = Some F32.zero
             /\ snd (BackingTrack.fillBuffer b0 outL outR n) !! i
                = Some F32.zero)
  /\ BackingTrack.endFrame b
     = (if (0 <? BackingTrack.stopFrame_ b)
           && (BackingTrack.stopFrame_ b <? total)
        then BackingTrack.stopFrame_ b else total)
  /\ (BackingTrack.stopFrame_ b = 0 -> BackingTrack.endFrame b = total)
  /\ (forall p, BackingTrack.wrap_cursor b p
                = if p >=? BackingTrack.endFrame b
                  then BackingTrack.startFrame_ b else p)
  /\ BackingTrack.cursor b 0 = BackingTrack.wrap_cursor b pos
  /\ (forall k, BackingTrack.cursor b (S k)
                = BackingTrack.wrap_cursor b (BackingTrack.cursor b k + 1))
  /\ BackingTrack.cursor_after b 0 = pos
  /\ (forall k, BackingTrack.cursor_after b (S k)
                = BackingTrack.cursor b k + 1)
  /\ left = Z.to_nat (BackingTrack.endFrame b - pos).
Proof.
  intros Hwf HL HR res b' outL' outR' vol pos total left sampleL sampleR stored.
  pose proof (BackingTrack_fillBuffer_samples b outL outR n Hwf HL HR) as H.
  cbv zeta in H. fold res b' outL' outR' vol pos total left in H.
  destruct H as (Hsilent & Hloop & Hstraight & Hrest & Hend & Hstop & Hwrap).
  assert (Hstored : forall playing position,
            b' = BackingTrack.set_transport b playing position ->
            stored playing position).
  { intros playing position Hb. unfold stored. by rewrite Hb. }
  split; [exact Hsilent|]. split.
  { intros Hplay Hload Hlp. destruct (Hloop Hplay Hload Hlp) as [Hb Hs].
    split; [by apply Hstored | exact Hs]. }
  split.
  { intros Hplay Hload Hlp.
    destruct (Hstraight Hplay Hload Hlp) as (Hs & Hin & Hout).
    split; [exact Hs|]. split.
    - intros Hn. apply Hstored. by apply Hin.
    - intros Hn. destruct (Hout Hn) as [Hb Hz].
      split; [by apply Hstored | exact Hz]. }
  split; [exact Hrest|]. split.
  { destruct (BackingTrack.isPlaying_ b) eqn:Hplay.
    - destruct (Z.eq_dec total 0) as [Hz | Hnz].
      + destruct (Hsilent (or_intror Hz)) as [-> _]. by repeat split.
      + assert (Hload : 0 < total)
          by (destruct Hwf as (_ & _ & Ht & _); unfold total in *; lia).
        destruct (BackingTrack.loopEnabled_ b) eqn:Hlp.
        * destruct (Hloop eq_refl Hload eq_refl) as [-> _]. by repeat split.
        * destruct (Hstraight eq_refl Hload eq_refl) as (_ & Hin & Hout).
          destruct (le_lt_dec n left) as [Hn | Hn].
          -- rewrite (Hin Hn). by repeat split.
          -- destruct (Hout Hn) as [-> _]. by repeat split.
    - destruct (Hsilent (or_introl eq_refl)) as [-> _]. by repeat split. }
  split.
  { intros b0 Hs.
    assert (Hc : negb (BackingTrack.isPlaying_ b0)
                 || (BackingTrack.totalFrames_ b0 =? 0) = true).
    { destruct Hs as [-> | ->]; [done | apply orb_true_r]. }
    unfold BackingTrack.fillBuffer. rewrite Hc. cbn [fst snd].
    split; [done|]. intros i Hi.
    rewrite !memset_zero_spec by done. rewrite !take_0. cbn [app].
    rewrite !lookup_app_l by (rewrite length_replicate; lia).
    by rewrite !lookup_replicate_2 by done. }
  split; [exact Hend|]. split; [exact Hstop|]. split; [exact Hwrap|].
  repeat split.
Qed.

Lemma BackingTrack_fillBuffer_spec_witness :
  let data := [F32.half; F32.one; F32.two; F32.neg_one] in
  let b :=
    BackingTrack.play
      (BackingTrack.setStopFrame
         (BackingTrack.setStartFrame
            (BackingTrack.setVolume
               (BackingTrack.install BackingTrack.make data data 2 48000
                  "loop.wav") F32.one) 1) true 3) in
  let out := replicate 5 F32.neg_one in
  BackingTrack.wf b
  /\ (5 <= length out)%nat
  /\ BackingTrack.isPlaying_ b = true
  /\ 0 < BackingTrack.totalFrames_ b
  /\ BackingTrack.loopEnabled_ b = true
  /\ BackingTrack.playbackPosition_ (fst (fst (BackingTrack.fillBuffer b out out 5)))
     = 2
  /\ BackingTrack.isPlaying_ (fst (fst (BackingTrack.fillBuffer b out out 5)))
     = true
  /\ snd (fst (BackingTrack.fillBuffer b out out 5)) !! 2%nat = Some F32.one.
Proof.
  intros data b out.
  assert (Hwf : BackingTrack.wf b).
  { unfold BackingTrack.wf. simpl. repeat split; try done; lia. }
  assert (Hlen : (5 <= length out)%nat) by (simpl; lia).
  assert (Hplay : BackingTrack.isPlaying_ b = true) by reflexivity.
  assert (Hload : 0 < BackingTrack.totalFrames_ b) by (simpl; lia).
  assert (Hloop : BackingTrack.loopEnabled_ b = true) by reflexivity.
  pose proof (BackingTrack_fillBuffer_spec b out out 5 Hwf Hlen Hlen) as H.
  cbv zeta in H. destruct H as (_ & H & _).
  destruct (H Hplay Hload Hloop) as ((_ & Hpos & Hflag) & Hsamples).
  split; [exact Hwf|]. split; [exact Hlen|]. split; [exact Hplay|].
  split; [exact Hload|]. split; [exact Hloop|]. split.
  - etransitivity; [exact Hpos|]. vm_compute. reflexivity.
  - split; [exact Hflag|].
    etransitivity; [exact (proj1 (proj2 (Hsamples 2%nat ltac:(lia))))|].
    vm_compute. reflexivity.
Defined.

(** Four frames 0.5, 1, 2, -1 at volume 1 with start frame 1 and stop frame
    3.  Looping, five samples are frames 1, 2, 1, 2, 1 and the cursor ends
    at 2; without looping they are frames 1, 2 and then silence, playback
    stops and the cursor returns to the start frame. *)
Example BackingTrack_fillBuffer_run :
  let data := [F32.half; F32.one; F32.two; F32.neg_one] in
  let b :=
    BackingTrack.play
      (BackingTrack.setStopFrame
         (BackingTrack.setStartFrame
            (BackingTrack.setVolume
               (BackingTrack.install BackingTrack.make data data 2 48000
                  "loop.wav") F32.one) 1) true 3) in
  let out := replicate 6 F32.neg_one in
  let looped := BackingTrack.fillBuffer b out out 5 in
  let once := BackingTrack.fillBuffer (BackingTrack.setLoop b false) out out 5 in
  snd (fst looped)
    = [F32.one; F32.two; F32.one; F32.two; F32.one; F32.neg_one]
  /\ BackingTrack.playbackPosition_ (fst (fst looped)) = 2
  /\ BackingTrack.isPlaying_ (fst (fst looped)) = true
  /\ snd once
     = [F32.one; F32.two; F32.zero; F32.zero; F32.zero; F32.neg_one]
  /\ BackingTrack.playbackPosition_ (fst (fst once)) = 1
  /\ BackingTrack.isPlaying_ (fst (fst once)) = false.
Proof. vm_compute. repeat split. Qed.

(** * Further properties of the code *)

(** ** The recording ring as a queue *)

Lemma Recording_block_interleave (left right : list F32.t) (count i : nat) :
  (i + count <= length left)%nat -> (i + count <= length right)%nat ->
  Recording.block left right i count
  = interleave (take count (drop i left)) (take count (drop i right)).
Proof.
  unfold Recording.block. revert i.
  induction count as [|c IH]; intros i Hl Hr; [done|].
  cbn [seq flat_map app].
  destruct (lookup_lt_is_Some_2 left i ltac:(lia)) as [x Hx].
  destruct (lookup_lt_is_Some_2 right i ltac:(lia)) as [y Hy].
  rewrite (drop_S left x i Hx), (drop_S right y i Hy).
  cbn [take interleave].
  rewrite (list_lookup_total_correct _ _ _ Hx).
  rewrite (list_lookup_total_correct _ _ _ Hy).
  do 2 f_equal. apply IH; lia.
Qed.

Lemma Recording_block_length (left right : list F32.t) (count i : nat) :
  length (Recording.block left right i count) = (2 * count)%nat.
Proof.
  unfold Recording.block. revert i.
  induction count as [|c IH]; intros i; [done|].
  cbn [seq flat_map app length]. rewrite IH. lia.
Qed.

(** The interleaving loop writes the block at the write position and the
    positions after it, modulo the ring size, and nothing else. *)
Lemma AudioRecorder_push_loop_ring (left right : list F32.t) (count i : nat)
    (ring : Z -> F32.t) (w : Z) :
  0 <= w < AudioRecorder.RING_BUFFER_SIZE ->
  2 * Z.of_nat count < AudioRecorder.RING_BUFFER_SIZE ->
  let ring' :=
    fst (for_loop i count (AudioRecorder.push_sample left right) (ring, w)) in
  (forall k, (k < 2 * count)%nat ->
     ring' ((w + Z.of_nat k) mod AudioRecorder.RING_BUFFER_SIZE)
     = Recording.block left right i count !!! k)
  /\ (forall j,
        (forall k, (k < 2 * count)%nat ->
           j <> (w + Z.of_nat k) mod AudioRecorder.RING_BUFFER_SIZE) ->
        ring' j = ring j).
Proof.
  revert i ring w. induction count as [|c IH]; intros i ring w Hw Hc ring'.
  - split; [intros k Hk; lia|done].
  - subst ring'. cbn [for_loop AudioRecorder.push_sample].
    set (w1 := (w + 1) mod AudioRecorder.RING_BUFFER_SIZE).
    set (w2 := (w1 + 1) mod AudioRecorder.RING_BUFFER_SIZE).
    set (ring1 := AudioRecorder.store ring w (left !!! i)).
    set (ring2 := AudioRecorder.store ring1 w1 (right !!! i)).
    assert (Hw2 : 0 <= w2 < AudioRecorder.RING_BUFFER_SIZE)
      by (apply Z.mod_pos_bound; done).
    destruct (IH (S i) ring2 w2 Hw2 ltac:(lia)) as [IH1 IH2].
    assert (Hshift : forall k : nat,
              (w2 + Z.of_nat k) mod AudioRecorder.RING_BUFFER_SIZE
              = (w + Z.of_nat (S (S k))) mod AudioRecorder.RING_BUFFER_SIZE).
    { intros k. unfold w2, w1.
      rewrite Zplus_mod_idemp_l, <- Z.add_assoc, Zplus_mod_idemp_l.
      f_equal. lia. }
    assert (Hw1 : w1 <> w).
    { unfold w1, AudioRecorder.RING_BUFFER_SIZE in *.
      Z.div_mod_to_equations. lia. }
    assert (Hfar : forall k : nat, (k < 2 * c)%nat ->
              (w + Z.of_nat (S (S k))) mod AudioRecorder.RING_BUFFER_SIZE <> w
              /\ (w + Z.of_nat (S (S k))) mod AudioRecorder.RING_BUFFER_SIZE
                 <> w1).
    { intros k Hk. unfold w1, AudioRecorder.RING_BUFFER_SIZE in *.
      Z.div_mod_to_equations. lia. }
    assert (Hat_w : fst (for_loop (S i) c
                           (AudioRecorder.push_sample left right) (ring2, w2)) w
                    = left !!! i).
    { rewrite IH2.
      - unfold ring2, ring1, AudioRecorder.store.
        rewrite (proj2 (Z.eqb_neq w w1)) by done. by rewrite Z.eqb_refl.
      - intros k Hk. rewrite Hshift. intros Heq.
        by destruct (Hfar k Hk) as [H _]. }
    assert (Hat_w1 : fst (for_loop (S i) c
                            (AudioRecorder.push_sample left right) (ring2, w2))
                       w1 = right !!! i).
    { rewrite IH2.
      - unfold ring2, AudioRecorder.store. by rewrite Z.eqb_refl.
      - intros k Hk. rewrite Hshift. intros Heq.
        by destruct (Hfar k Hk) as [_ H]. }
    split.
    + intros k Hk. unfold Recording.block. cbn [seq flat_map app].
      destruct k as [|[|k]].
      * rewrite Z.add_0_r, Z.mod_small by done. exact Hat_w.
      * exact Hat_w1.
      * rewrite <- Hshift, IH1 by lia. reflexivity.
    + intros j Hj. rewrite IH2.
      * unfold ring2, ring1, AudioRecorder.store.
        assert (j <> w1) by (apply (Hj 1%nat); lia).
        assert (j <> w).
        { specialize (Hj 0%nat ltac:(lia)).
          rewrite Z.add_0_r, Z.mod_small in Hj; done. }
        rewrite (proj2 (Z.eqb_neq j w1)), (proj2 (Z.eqb_neq j w)); done.
      * intros k Hk. rewrite Hshift. apply Hj. lia.
Qed.

Lemma mod_add_distinct (C x a b : Z) :
  0 <= a < C -> 0 <= b < C -> a <> b -> (x + a) mod C <> (x + b) mod C.
Proof.
  intros Ha Hb Hab Heq.
  assert (HC : 0 < C) by lia.
  assert (H0 : ((x + a) - (x + b)) mod C = 0).
  { rewrite Zminus_mod, Heq, Z.sub_diag. apply Z.mod_0_l. lia. }
  replace (x + a - (x + b)) with (a - b) in H0 by lia.
  destruct (Z_lt_le_dec a b) as [Hlt | Hge].
  - assert (H1 : (b - a) mod C = 0).
    { replace (b - a) with (- (a - b)) by lia. apply Z.mod_opp_l_z; lia. }
    rewrite Z.mod_small in H1; lia.
  - rewrite Z.mod_small in H0; lia.
Qed.

Lemma map_seq_shift {A : Type} (f : nat -> A) (a len : nat) :
  map f (seq a len) = map (fun k => f (a + k)%nat) (seq 0 len).
Proof.
  revert f. induction a as [|a IH]; intros f; [done|].
  rewrite <- seq_shift, map_map, IH. done.
Qed.

Lemma map_lookup_total_seq (l : list F32.t) :
  map (fun k => l !!! k) (seq 0 (length l)) = l.
Proof.
  apply list_eq. intros i. rewrite list_lookup_fmap.
  destruct (decide (i < length l)%nat) as [Hi | Hi].
  - rewrite lookup_seq_lt by done. cbn.
    destruct (lookup_lt_is_Some_2 l i Hi) as [x Hx].
    by rewrite (list_lookup_total_correct _ _ _ Hx), Hx.
  - rewrite lookup_seq_ge by lia. cbn. symmetry.
    apply lookup_ge_None_2. lia.
Qed.

(** A push that finds room appends its block, interleaved, to the samples
    waiting in the ring. *)
Lemma Recording_push_pending (r : AudioRecorder.t) (left right : list F32.t)
    (n : nat) :
  AudioRecorder.m_recording r = true ->
  AudioRecorder.positions_ok r ->
  (n <= length left)%nat -> (n <= length right)%nat ->
  Recording.has_room r n = true ->
  let r' := AudioRecorder.pushAudioFrame r left right (Z.of_nat n) in
  Recording.pending r'
  = Recording.pending r ++ interleave (take n left) (take n right)
  /\ AudioRecorder.used r' = AudioRecorder.used r + 2 * Z.of_nat n
  /\ AudioRecorder.positions_ok r'
  /\ AudioRecorder.m_readPos r' = AudioRecorder.m_readPos r
  /\ AudioRecorder.m_droppedFrames r' = AudioRecorder.m_droppedFrames r
  /\ AudioRecorder.m_recording r' = true
  /\ AudioRecorder.m_sampleRate r' = AudioRecorder.m_sampleRate r.
Proof.
  intros Hrec Hok Hl Hr Hroom r'.
  unfold Recording.has_room in Hroom. apply Z.leb_le in Hroom.
  destruct (AudioRecorder_space_used r Hok) as (Hsp & _ & Hu).
  set (u := AudioRecorder.used r) in *.
  set (C := AudioRecorder.RING_BUFFER_SIZE) in *.
  assert (HC : C = 960000) by reflexivity.
  destruct Hok as [Hw Hrd].
  set (w := AudioRecorder.m_writePos r) in *.
  set (rd := AudioRecorder.m_readPos r) in *.
  assert (Hwu : w = (rd + u) mod C).
  { unfold u, AudioRecorder.used. fold w rd C.
    rewrite Zplus_mod_idemp_r. replace (rd + (w - rd)) with w by lia.
    by rewrite Z.mod_small. }
  pose proof (AudioRecorder_push_loop_ring left right n 0
                (AudioRecorder.m_ringBuffer r) w Hw ltac:(fold C; lia))
    as [Hin Hout].
  pose proof (AudioRecorder_push_loop_writePos left right n 0
                (AudioRecorder.m_ringBuffer r) w Hw) as Hwp.
  fold C in Hin, Hout, Hwp.
  assert (Hr' : r' = AudioRecorder.set_ring r
                  (fst (for_loop 0 n (AudioRecorder.push_sample left right)
                          (AudioRecorder.m_ringBuffer r, w)))
                  ((w + 2 * Z.of_nat n) mod C)).
  { unfold r', AudioRecorder.pushAudioFrame. rewrite Hrec. cbn [negb].
    fold w rd. rewrite Hsp. unfold wrap.
    rewrite (Z.mod_small (Z.of_nat n * 2)) by lia.
    replace (C - 1 - u <? Z.of_nat n * 2) with false by lia.
    rewrite Nat2Z.id. rewrite <- Hwp.
    by destruct (for_loop _ _ _ _). }
  set (ring' := fst (for_loop 0 n (AudioRecorder.push_sample left right)
                       (AudioRecorder.m_ringBuffer r, w))) in *.
  assert (Hu' : AudioRecorder.used r' = u + 2 * Z.of_nat n).
  { rewrite Hr'. unfold AudioRecorder.used. cbn. fold rd C.
    rewrite Zminus_mod_idemp_l.
    replace (w + 2 * Z.of_nat n - rd) with (2 * Z.of_nat n + (w - rd)) by lia.
    rewrite <- Zplus_mod_idemp_r.
    change ((w - rd) mod C) with u. rewrite Z.mod_small; lia. }
  assert (Hring : AudioRecorder.m_ringBuffer r' = ring') by by rewrite Hr'.
  assert (Hrd' : AudioRecorder.m_readPos r' = rd) by by rewrite Hr'.
  clearbody r'.
  split; [|split; [done|]].
  - unfold Recording.pending. rewrite Hu', Hring, Hrd'. fold rd C u.
    replace (Z.to_nat (u + 2 * Z.of_nat n))
      with (Z.to_nat u + 2 * n)%nat by lia.
    rewrite seq_app, map_app. f_equal.
    + apply map_ext_in. intros k Hk. apply in_seq in Hk.
      apply Hout. intros k' Hk'.
      rewrite Hwu, Zplus_mod_idemp_l, <- Z.add_assoc.
      apply mod_add_distinct; lia.
    + pose proof (Recording_block_interleave left right n 0
                    ltac:(simpl; lia) ltac:(simpl; lia)) as Hb.
      rewrite !drop_0 in Hb. rewrite <- Hb.
      transitivity (map (fun k => Recording.block left right 0 n !!! k)
                      (seq 0 (2 * n))).
      * rewrite map_seq_shift. apply map_ext_in. intros k Hk. apply in_seq in Hk.
        cbn. rewrite <- Hin by lia. f_equal.
        rewrite Hwu, Zplus_mod_idemp_l. f_equal. lia.
      * rewrite <- (Recording_block_length left right n 0).
        apply map_lookup_total_seq.
  - rewrite Hr'. unfold AudioRecorder.positions_ok. cbn. fold rd C.
    pose proof (Z.mod_pos_bound (w + 2 * Z.of_nat n) C ltac:(lia)).
    repeat split; try done; lia.
Qed.

(** A push that finds no room leaves the waiting samples alone. *)
Lemma Recording_push_refused (r : AudioRecorder.t) (left right : list F32.t)
    (n : nat) :
  AudioRecorder.m_recording r = true ->
  AudioRecorder.positions_ok r ->
  Z.of_nat n < 2 ^ 63 ->
  Recording.has_room r n = false ->
  AudioRecorder.pushAudioFrame r left right (Z.of_nat n)
  = AudioRecorder.set_dropped r
      ((AudioRecorder.m_droppedFrames r + Z.of_nat n) mod 2 ^ 64).
Proof.
  intros Hrec Hok Hn Hroom.
  unfold Recording.has_room in Hroom. apply Z.leb_gt in Hroom.
  destruct (AudioRecorder_space_used r Hok) as (Hsp & _ & Hu).
  unfold AudioRecorder.pushAudioFrame. rewrite Hrec. cbn [negb].
  rewrite Hsp. unfold wrap.
  rewrite (Z.mod_small (Z.of_nat n * 2)) by lia.
  replace (_ <? _) with true by lia. done.
Qed.

(** The writer's copy loop takes the samples at the read position and the
    positions after it, in order. *)
Lemma AudioRecorder_read_loop_batch (ring : Z -> F32.t) (count i : nat)
    (batch : list F32.t) (rd : Z) :
  0 <= rd < AudioRecorder.RING_BUFFER_SIZE ->
  fst (for_loop i count (AudioRecorder.read_sample ring) (batch, rd))
  = batch
    ++ map (fun k => ring ((rd + Z.of_nat k) mod AudioRecorder.RING_BUFFER_SIZE))
         (seq 0 count).
Proof.
  revert i batch rd. induction count as [|c IH]; intros i batch rd Hrd.
  - simpl. by rewrite app_nil_r.
  - cbn [for_loop AudioRecorder.read_sample].
    rewrite IH by (apply Z.mod_pos_bound; done).
    rewrite <- app_assoc. f_equal. cbn [seq map app]. f_equal.
    + by rewrite Z.add_0_r, Z.mod_small.
    + rewrite <- seq_shift, map_map. apply map_ext. intros k.
      rewrite Zplus_mod_idemp_l. do 2 f_equal. lia.
Qed.

(** One iteration of the writer loop removes the oldest
    [min(available, BATCH_SIZE)] waiting samples and hands them, in order,
    to [WAVWriter::write] as [toRead / 2] frames. *)
Lemma Recording_writer_step (r : AudioRecorder.t) (w : WAVWriter.t) :
  AudioRecorder.positions_ok r ->
  let toRead := Z.min (AudioRecorder.used r) AudioRecorder.BATCH_SIZE in
  let res := AudioRecorder.writer_step r w in
  Recording.pending (fst res) = drop (Z.to_nat toRead) (Recording.pending r)
  /\ snd res
     = (if AudioRecorder.used r =? 0 then w
        else WAVWriter.write w (take (Z.to_nat toRead) (Recording.pending r))
               (toRead / 2))
  /\ AudioRecorder.used (fst res) = AudioRecorder.used r - toRead
  /\ AudioRecorder.positions_ok (fst res)
  /\ AudioRecorder.m_writePos (fst res) = AudioRecorder.m_writePos r
  /\ AudioRecorder.m_droppedFrames (fst res) = AudioRecorder.m_droppedFrames r
  /\ AudioRecorder.m_recording (fst res) = AudioRecorder.m_recording r
  /\ AudioRecorder.m_sampleRate (fst res) = AudioRecorder.m_sampleRate r
  /\ AudioRecorder.m_ringBuffer (fst res) = AudioRecorder.m_ringBuffer r.
Proof.
  intros Hok toRead res.
  destruct (AudioRecorder_space_used r Hok) as (_ & Hdata & Hu).
  set (C := AudioRecorder.RING_BUFFER_SIZE) in *.
  assert (HC : C = 960000) by reflexivity.
  set (u := AudioRecorder.used r) in *.
  set (rd := AudioRecorder.m_readPos r) in *.
  set (wp := AudioRecorder.m_writePos r) in *.
  assert (HtoRead : 0 <= toRead <= u)
    by (unfold toRead, AudioRecorder.BATCH_SIZE; lia).
  unfold res, AudioRecorder.writer_step. fold rd wp. rewrite Hdata.
  destruct (u =? 0) eqn:Hz.
  - apply Z.eqb_eq in Hz. cbn [fst snd].
    replace (Z.to_nat toRead) with 0%nat by lia. rewrite drop_0.
    fold u. rewrite Hz. repeat split; try done; try apply Hok.
    lia.
  - apply Z.eqb_neq in Hz. fold toRead.
    pose proof (AudioRecorder_read_loop_readPos (AudioRecorder.m_ringBuffer r)
                  (Z.to_nat toRead) 0 [] rd (proj2 Hok)) as Hpos.
    pose proof (AudioRecorder_read_loop_batch (AudioRecorder.m_ringBuffer r)
                  (Z.to_nat toRead) 0 [] rd (proj2 Hok)) as Hbatch.
    destruct (for_loop _ _ _ _) as [batch rd']. cbn [fst snd] in *.
    rewrite Z2Nat.id in Hpos by lia. fold C in Hpos, Hbatch.
    assert (Hrd' : 0 <= rd' < C).
    { rewrite Hpos. apply Z.mod_pos_bound. lia. }
    assert (Hu' : (wp - rd') mod C = u - toRead).
    { rewrite Hpos, Zminus_mod_idemp_r.
      replace (wp - (rd + toRead)) with (- toRead + (wp - rd)) by lia.
      rewrite <- Zplus_mod_idemp_r. change ((wp - rd) mod C) with u.
      rewrite Z.mod_small; lia. }
    assert (Htake : batch = take (Z.to_nat toRead) (Recording.pending r)).
    { rewrite Hbatch. unfold Recording.pending. fold rd C u.
      cbn [app]. rewrite firstn_map, take_seq. do 2 f_equal. lia. }
    split; [|split; [by rewrite Htake|]].
    + unfold Recording.pending at 1. unfold AudioRecorder.used. cbn.
      fold wp C. rewrite Hu'.
      unfold Recording.pending. fold rd C u.
      rewrite skipn_map, drop_seq.
      replace (Z.to_nat u - Z.to_nat toRead)%nat
        with (Z.to_nat (u - toRead)) by lia.
      rewrite (map_seq_shift _ (0 + Z.to_nat toRead)).
      apply map_ext. intros k.
      rewrite Hpos, Zplus_mod_idemp_l. do 2 f_equal. lia.
    + unfold AudioRecorder.used, AudioRecorder.positions_ok. cbn.
      fold wp C. rewrite Hu'. repeat split; try done; try apply Hok; lia.
Qed.

Lemma Recording_pending_length (r : AudioRecorder.t) :
  length (Recording.pending r) = Z.to_nat (AudioRecorder.used r).
Proof. unfold Recording.pending. by rewrite length_map, length_seq. Qed.

Lemma interleave_length (left right : list F32.t) :
  length left = length right ->
  length (interleave left right) = (2 * length left)%nat.
Proof.
  revert right. induction left as [|l ls IH]; intros [|r rs] H; try done.
  cbn [interleave length]. rewrite IH by (simpl in H; lia). simpl. lia.
Qed.

(** A step of either thread keeps every accepted sample, in order, either in
    the file or in the ring, and counts the refused frames. *)
Lemma Recording_step_invariant (hdr : list byte) (xs : list F32.t) (d : Z)
    (st : AudioRecorder.t * WAVWriter.t) (ev : Recording.event) :
  Recording.invariant hdr xs d st ->
  Recording.event_fits ev ->
  Recording.invariant hdr (xs ++ Recording.kept st [ev])
    (d + Recording.refused st [ev]) (Recording.step st ev).
Proof.
  destruct st as [r w].
  intros (Hrec & Hok & Heven & Hd & Hch & written & Hw & Hxs) Hfit.
  cbn [fst snd] in *.
  destruct ev as [bufL bufR n|];
    cbn [Recording.kept Recording.refused Recording.step fst snd];
    rewrite app_nil_r, Z.add_0_r.
  - destruct Hfit as (HL & HR & Hn).
    destruct (Recording.has_room r n) eqn:Hroom.
    + destruct (Recording_push_pending r bufL bufR n Hrec Hok HL HR Hroom)
        as (Hp & Hu & Hok' & _ & Hd' & Hrec' & _).
      unfold Recording.invariant. cbn [fst snd].
      split; [done|]. split; [done|]. split.
      { rewrite Hu. Z.div_mod_to_equations. lia. }
      split; [by rewrite Hd', Z.add_0_r|]. split; [done|].
      exists written. split; [done|].
      by rewrite Hp, app_assoc, Hxs.
    + rewrite (Recording_push_refused r bufL bufR n Hrec Hok Hn Hroom).
      unfold Recording.invariant. cbn [fst snd].
      split; [done|]. split; [done|]. split; [done|].
      split.
      { cbn. rewrite Hd, Zplus_mod_idemp_l. done. }
      split; [done|]. exists written. split; [done|].
      by rewrite app_nil_r.
  - destruct (Recording_writer_step r w Hok)
      as (Hp & Hres & Hu & Hok' & _ & Hd' & Hrec' & _).
    cbv zeta in Hp, Hres, Hu.
    set (toRead := Z.min (AudioRecorder.used r) AudioRecorder.BATCH_SIZE) in *.
    pose proof (Recording_pending_length r) as Hlen.
    destruct (AudioRecorder_space_used r Hok) as (_ & _ & Hur).
    assert (HtoRead : 0 <= toRead <= AudioRecorder.used r
                      /\ toRead mod 2 = 0).
    { unfold toRead, AudioRecorder.BATCH_SIZE.
      destruct (Z.min_spec (AudioRecorder.used r) 32768) as [[? ->]|[? ->]];
        (split; [lia | first [exact Heven | reflexivity]]). }
    unfold Recording.invariant.
    split; [by rewrite Hrec'|]. split; [done|]. split.
    { rewrite Hu. Z.div_mod_to_equations. lia. }
    split; [by rewrite Hd'|].
    rewrite Hres. destruct (AudioRecorder.used r =? 0) eqn:Hz.
    + split; [done|]. exists written. split; [done|].
      rewrite Hp. replace (Z.to_nat toRead) with 0%nat by lia.
      by rewrite drop_0.
    + destruct HtoRead as [HtoRead Hpar].
      assert (Hhalf : (toRead / 2 * 2) mod 2 ^ 64 = toRead).
      { replace (toRead / 2 * 2) with toRead
          by (Z.div_mod_to_equations; lia).
        apply Z.mod_small. unfold AudioRecorder.RING_BUFFER_SIZE in Hur. lia. }
      assert (Hfits : WAVWriter.call_fits (WAVWriter.m_numChannels w)
                        (take (Z.to_nat toRead) (Recording.pending r),
                         toRead / 2)).
      { unfold WAVWriter.call_fits, wrap. cbn [fst snd]. rewrite Hch, Hhalf.
        rewrite length_take, Hlen. lia. }
      destruct (WAVWriter_write_holds w hdr written _ _ Hw Hfits)
        as (Hw' & Hch' & _).
      split; [by rewrite Hch'|].
      eexists. split; [exact Hw'|].
      unfold WAVWriter.written_samples, wrap. cbn [fst snd]. rewrite Hch.
      rewrite Hhalf.
      rewrite take_take, Nat.min_id, Hp, <- app_assoc, take_drop. done.
Qed.

Lemma Recording_kept_cons (st : AudioRecorder.t * WAVWriter.t)
    (ev : Recording.event) (rest : list Recording.event) :
  Recording.kept st (ev :: rest)
  = Recording.kept st [ev] ++ Recording.kept (Recording.step st ev) rest
  /\ Recording.refused st (ev :: rest)
     = Recording.refused st [ev] + Recording.refused (Recording.step st ev) rest.
Proof.
  cbn [Recording.kept Recording.refused]. by rewrite app_nil_r, Z.add_0_r.
Qed.

Lemma Recording_steps_invariant (hdr : list byte)
    (events : list Recording.event) (xs : list F32.t) (d : Z)
    (st : AudioRecorder.t * WAVWriter.t) :
  Recording.invariant hdr xs d st ->
  Forall Recording.event_fits events ->
  Recording.invariant hdr (xs ++ Recording.kept st events)
    (d + Recording.refused st events) (Recording.steps st events).
Proof.
  revert xs d st. induction events as [|ev rest IH]; intros xs d st Hinv Hfit.
  - cbn. by rewrite app_nil_r, Z.add_0_r.
  - apply Forall_cons_1 in Hfit. destruct Hfit as [Hev Hrest].
    destruct (Recording_kept_cons st ev rest) as [-> ->].
    rewrite app_assoc, Z.add_assoc.
    apply (IH _ _ (Recording.step st ev)); [|done].
    by apply Recording_step_invariant.
Qed.

(** The flush after the loop writes what is left in the ring, provided it
    fits the local batch array, and closes the file. *)
Lemma Recording_flush (hdr : list byte) (xs : list F32.t) (d : Z)
    (r : AudioRecorder.t) (w : WAVWriter.t) :
  Recording.invariant hdr xs d (r, w) ->
  length hdr = 44%nat ->
  AudioRecorder.used r <= AudioRecorder.BATCH_SIZE ->
  let w' := AudioRecorder.writer_flush r w in
  OFStream.is_open (WAVWriter.m_file w') = false
  /\ WAVWriter.getDataSize w' = 0
  /\ exists w1,
       WAVWriter_holds w1 hdr xs
       /\ OFStream.content (WAVWriter.m_file w')
          = WAVWriter.header_bytes w1 ++ pcm_stream xs.
Proof.
  intros (Hrec & Hok & Heven & Hd & Hch & written & Hw & Hxs) Hhdr Hfit w'.
  cbn [fst snd] in *.
  destruct (AudioRecorder_space_used r Hok) as (_ & Hdata & Hu).
  pose proof (Recording_pending_length r) as Hlen.
  unfold w', AudioRecorder.writer_flush. rewrite Hdata.
  set (u := AudioRecorder.used r) in *.
  destruct (0 <? u) eqn:Hpos.
  - apply Z.ltb_lt in Hpos.
    pose proof (AudioRecorder_read_loop_batch (AudioRecorder.m_ringBuffer r)
                  (Z.to_nat u) 0 [] (AudioRecorder.m_readPos r) (proj2 Hok))
      as Hbatch.
    destruct (for_loop _ _ _ _) as [batch rd']. cbn [fst app] in Hbatch.
    change (map _ _) with (Recording.pending r) in Hbatch. subst batch.
    assert (Hhalf : (u / 2 * 2) mod 2 ^ 64 = u).
    { replace (u / 2 * 2) with u by (Z.div_mod_to_equations; lia).
      apply Z.mod_small. unfold AudioRecorder.RING_BUFFER_SIZE in Hu. lia. }
    assert (Hfits : WAVWriter.call_fits (WAVWriter.m_numChannels w)
                      (Recording.pending r, u / 2)).
    { unfold WAVWriter.call_fits, wrap. cbn [fst snd].
      rewrite Hch, Hhalf, Hlen. lia. }
    destruct (WAVWriter_write_holds w hdr written _ _ Hw Hfits)
      as (Hw' & _ & _).
    unfold WAVWriter.written_samples, wrap in Hw'. cbn [fst snd] in Hw'.
    rewrite Hch, Hhalf, <- Hlen, firstn_all, Hxs in Hw'.
    destruct (WAVWriter_close_holds _ _ _ Hw' Hhdr) as (Hc1 & Hc2 & Hc3).
    split; [done|]. split; [done|]. eexists. split; [exact Hw'|done].
  - apply Z.ltb_ge in Hpos.
    assert (Hnil : Recording.pending r = []).
    { apply length_zero_iff_nil. rewrite Hlen. lia. }
    rewrite Hnil, app_nil_r in Hxs. subst written.
    destruct (WAVWriter_close_holds _ _ _ Hw Hhdr) as (Hc1 & Hc2 & Hc3).
    split; [done|]. split; [done|]. exists w. done.
Qed.

Lemma Recording_refused_nonneg (events : list Recording.event)
    (st : AudioRecorder.t * WAVWriter.t) :
  0 <= Recording.refused st events.
Proof.
  revert st. induction events as [|ev rest IH]; intros st; [done|].
  cbn [Recording.refused]. specialize (IH (Recording.step st ev)).
  destruct ev; [destruct (Recording.has_room _ _)|]; lia.
Qed.

Lemma Recording_kept_all (events : list Recording.event)
    (st : AudioRecorder.t * WAVWriter.t) :
  Recording.refused st events = 0 ->
  Recording.kept st events = Recording.pushed events.
Proof.
  revert st. induction events as [|ev rest IH]; intros st H0; [done|].
  cbn [Recording.kept Recording.refused Recording.pushed flat_map] in *.
  pose proof (Recording_refused_nonneg rest (Recording.step st ev)) as Hnn.
  rewrite (IH (Recording.step st ev)).
  - f_equal. destruct ev as [bufL bufR n|]; [|done].
    destruct (Recording.has_room _ _); [done|].
    assert (n = 0%nat) as -> by lia. done.
  - destruct ev; [destruct (Recording.has_room _ _)|]; lia.
Qed.

(** The file a recording leaves and the recorder after [stopRecording]. *)
Lemma Recording_run_file (env : AudioRecorder.start_env)
    (r : AudioRecorder.t) (filename : string) (sampleRate : Z)
    (events : list Recording.event) :
  AudioRecorder.isRecording r = false ->
  Forall Recording.event_fits events ->
  let r0 := snd (AudioRecorder.startRecording env r filename sampleRate) in
  let st0 := Recording.writer_open true r0 in
  AudioRecorder.used (fst (Recording.steps st0 events))
    <= AudioRecorder.BATCH_SIZE ->
  let res := Recording.run r0 events in
  let file := OFStream.content (WAVWriter.m_file (snd res)) in
  let kept := Recording.kept st0 events in
  OFStream.is_open (WAVWriter.m_file (snd res)) = false
  /\ length file = (44 + 2 * length kept)%nat
  /\ drop 44 file = pcm_stream kept
  /\ riff_size_field file = (36 + 2 * Z.of_nat (length kept)) mod 2 ^ 32
  /\ data_size_field file = (2 * Z.of_nat (length kept)) mod 2 ^ 32
  /\ AudioRecorder.isRecording (fst res) = false
  /\ AudioRecorder.getDroppedFrames (fst res)
     = Recording.refused st0 events mod 2 ^ 64.
Proof.
  intros Hidle Hfit r0 st0 Hrem res file kept.
  unfold AudioRecorder.isRecording in Hidle.
  destruct (WAVWriter_open_holds sampleRate 2) as (Hopen & Hw0 & Hch0 & _).
  set (w0 := snd (WAVWriter.open true WAVWriter.init sampleRate 2)) in *.
  assert (Hr0 : AudioRecorder.m_recording r0 = true
                /\ AudioRecorder.m_writePos r0 = 0
                /\ AudioRecorder.m_readPos r0 = 0
                /\ AudioRecorder.m_droppedFrames r0 = 0
                /\ AudioRecorder.m_sampleRate r0 = sampleRate).
  { unfold r0, AudioRecorder.startRecording. rewrite Hidle. done. }
  destruct Hr0 as (Hrec0 & Hwp0 & Hrd0 & Hd0 & Hsr0).
  assert (Hst0 : st0 = (r0, w0)).
  { unfold st0, Recording.writer_open. rewrite Hsr0.
    destruct (WAVWriter.open true WAVWriter.init sampleRate 2) as [o w] eqn:E.
    cbn [fst snd] in *. subst o. done. }
  assert (Hu0 : AudioRecorder.used r0 = 0).
  { unfold AudioRecorder.used. by rewrite Hwp0, Hrd0. }
  assert (Hinv0 : Recording.invariant (WAVWriter.header_bytes w0) [] 0 st0).
  { rewrite Hst0. unfold Recording.invariant. cbn [fst snd].
    split; [done|]. split.
    { unfold AudioRecorder.positions_ok, AudioRecorder.RING_BUFFER_SIZE.
      rewrite Hwp0, Hrd0. lia. }
    split; [by rewrite Hu0|]. split; [by rewrite Hd0|]. split; [done|].
    exists []. split; [done|].
    unfold Recording.pending. by rewrite Hu0. }
  pose proof (Recording_steps_invariant _ events _ _ _ Hinv0 Hfit) as Hinv.
  cbn [app] in Hinv. rewrite Z.add_0_l in Hinv. fold kept in Hinv.
  subst file res. unfold Recording.run. fold st0.
  destruct (Recording.steps st0 events) as [r1 w1] eqn:Esteps.
  cbn [fst snd] in Hrem |- *.
  pose proof Hinv as (Hrec1 & _ & _ & Hd1 & _). cbn [fst snd] in Hrec1, Hd1.
  destruct (Recording_flush _ _ _ _ _ Hinv (WAVWriter_header_length w0) Hrem)
    as (Hclosed & _ & w2 & Hw2 & Hcontent).
  cbn [fst snd]. rewrite Hcontent.
  destruct (WAVWriter_header_fields w2 (pcm_stream kept))
    as (Hriff & Hdata & _ & Hdrop).
  destruct Hw2 as (_ & _ & _ & Hsize).
  split; [done|]. split.
  { rewrite length_app, WAVWriter_header_length, pcm_stream_length. done. }
  split; [done|]. split.
  { rewrite Hriff, Hsize, pcm_stream_length, Zplus_mod_idemp_r.
    f_equal. lia. }
  split.
  { rewrite Hdata, Hsize, pcm_stream_length, Z.mod_mod by lia.
    f_equal. lia. }
  split.
  { unfold AudioRecorder.isRecording, AudioRecorder.stopRecording.
    by rewrite Hrec1. }
  unfold AudioRecorder.getDroppedFrames, AudioRecorder.stopRecording.
  by rewrite Hrec1.
Qed.

(** A recording from [startRecording] to the joined writer thread, on a
    recorder that is idle and holds no writer thread (one left unjoined by
    a failed open would end the process in [startRecording]): the file
    is a 44-byte header followed by the PCM conversion of exactly the
    samples of the blocks the ring accepted, interleaved left/right, in the
    order they were pushed; the dropped-frames counter holds the frames of
    the refused blocks; and when no frame was refused the file holds every
    pushed sample.  The remainder flushed after the loop must fit the
    writer's local array of [BATCH_SIZE] floats. *)
Theorem Recording_file_holds_accepted_samples (env : AudioRecorder.start_env)
    (r : AudioRecorder.t) (filename : string) (sampleRate : Z)
    (events : list Recording.event) :
  AudioRecorder.isRecording r = false ->
  AudioRecorder.startRecording_returns r = true ->
  Forall Recording.event_fits events ->
  let r0 := snd (AudioRecorder.startRecording env r filename sampleRate) in
  let st0 := Recording.writer_open true r0 in
  AudioRecorder.used (fst (Recording.steps st0 events))
    <= AudioRecorder.BATCH_SIZE ->
  let res := Recording.run r0 events in
  let file := OFStream.content (WAVWriter.m_file (snd res)) in
  let kept := Recording.kept st0 events in
  OFStream.is_open (WAVWriter.m_file (snd res)) = false
  /\ length file = (44 + 2 * length kept)%nat
  /\ drop 44 file = pcm_stream kept
  /\ data_size_field file = (2 * Z.of_nat (length kept)) mod 2 ^ 32
  /\ AudioRecorder.isRecording (fst res) = false
  /\ AudioRecorder.getDroppedFrames (fst res)
     = Recording.refused st0 events mod 2 ^ 64
  /\ (Recording.refused st0 events = 0 -> kept = Recording.pushed events).
Proof.
  intros Hidle _ Hfit r0 st0 Hrem res file kept.
  destruct (Recording_run_file env r filename sampleRate events Hidle Hfit
              Hrem)
    as (Hclosed & Hlen & Hdrop & _ & Hdata & Hrec & Hdropped).
  split; [exact Hclosed|]. split; [exact Hlen|]. split; [exact Hdrop|].
  split; [exact Hdata|]. split; [exact Hrec|]. split; [exact Hdropped|].
  apply Recording_kept_all.
Qed.

Lemma Recording_file_holds_accepted_samples_witness :
  let events :=
    [Recording.Push [F32.half; F32.one] [F32.zero; F32.half] 2;
     Recording.Drain;
     Recording.Push [F32.neg_one] [F32.one] 1] in
  let res := Recording.run recorder_started events in
  AudioRecorder.isRecording recorder_idle = false
  /\ AudioRecorder.startRecording_returns recorder_idle = true
  /\ Forall Recording.event_fits events
  /\ drop 44 (OFStream.content (WAVWriter.m_file (snd res)))
     = pcm_stream [F32.half; F32.zero; F32.one; F32.half; F32.neg_one; F32.one]
  /\ AudioRecorder.getDroppedFrames (fst res) = 0.
Proof.
  intros events res.
  assert (Hidle : AudioRecorder.isRecording recorder_idle = false)
    by reflexivity.
  assert (Hret : AudioRecorder.startRecording_returns recorder_idle = true)
    by reflexivity.
  assert (Hfit : Forall Recording.event_fits events).
  { repeat constructor; simpl; lia. }
  assert (Hrem : AudioRecorder.used
                   (fst (Recording.steps
                           (Recording.writer_open true recorder_started)
                           events))
                 <= AudioRecorder.BATCH_SIZE).
  { apply Z.leb_le. vm_compute. reflexivity. }
  pose proof (Recording_file_holds_accepted_samples clock_env recorder_idle
                "take1" 48000 events Hidle Hret Hfit Hrem) as H.
  cbv zeta in H. destruct H as (_ & _ & Hdrop & _ & _ & Hdropped & _).
  split; [exact Hidle|]. split; [exact Hret|]. split; [exact Hfit|]. split.
  - etransitivity; [exact Hdrop|]. vm_compute. reflexivity.
  - etransitivity; [exact Hdropped|]. vm_compute. reflexivity.
Defined.

(** [pushAudioFrame] as a queue operation: on a recording recorder a block
    that finds room is appended, interleaved left/right, behind the samples
    waiting in the ring; a block that finds no room leaves them as they
    are.  The read position is never touched, and at most
    [RING_BUFFER_SIZE - 1] samples wait. *)
Theorem AudioRecorder_pushAudioFrame_queue (r : AudioRecorder.t)
    (left right : list F32.t) (n : nat) :
  AudioRecorder.isRecording r = true ->
  AudioRecorder.positions_ok r ->
  (n <= length left)%nat -> (n <= length right)%nat ->
  Z.of_nat n < 2 ^ 63 ->
  let r' := AudioRecorder.pushAudioFrame r left right (Z.of_nat n) in
  Recording.pending r'
  = Recording.pending r
    ++ (if Recording.has_room r n
        then interleave (take n left) (take n right) else [])
  /\ AudioRecorder.m_readPos r' = AudioRecorder.m_readPos r
  /\ Z.of_nat (length (Recording.pending r'))
     <= AudioRecorder.RING_BUFFER_SIZE - 1.
Proof.
  intros Hrec Hok Hl Hr Hn r'. unfold AudioRecorder.isRecording in Hrec.
  assert (Hlen : Z.of_nat (length (Recording.pending r'))
                 <= AudioRecorder.RING_BUFFER_SIZE - 1).
  { rewrite Recording_pending_length.
    destruct (AudioRecorder_push_invariant r left right (Z.of_nat n) Hok
                ltac:(lia)) as (_ & Hu & _).
    destruct (AudioRecorder_space_used r Hok) as (_ & _ & Hu0).
    unfold r'. lia. }
  destruct (Recording.has_room r n) eqn:Hroom.
  - destruct (Recording_push_pending r left right n Hrec Hok Hl Hr Hroom)
      as (Hp & _ & _ & Hrd & _).
    done.
  - unfold r' in *.
    rewrite (Recording_push_refused r left right n Hrec Hok Hn Hroom) in *.
    rewrite app_nil_r. done.
Qed.

Lemma AudioRecorder_pushAudioFrame_queue_witness :
  let r' :=
    AudioRecorder.pushAudioFrame recorder_started [F32.half; F32.one]
      [F32.zero; F32.neg_one] (Z.of_nat 2) in
  AudioRecorder.isRecording recorder_started = true
  /\ AudioRecorder.positions_ok recorder_started
  /\ Recording.pending r' = [F32.half; F32.zero; F32.one; F32.neg_one].
Proof.
  intros r'.
  assert (Hrec : AudioRecorder.isRecording recorder_started = true)
    by reflexivity.
  assert (Hok : AudioRecorder.positions_ok recorder_started).
  { unfold AudioRecorder.positions_ok, AudioRecorder.RING_BUFFER_SIZE.
    simpl. lia. }
  pose proof (AudioRecorder_pushAudioFrame_queue recorder_started
                [F32.half; F32.one] [F32.zero; F32.neg_one] 2 Hrec Hok
                ltac:(simpl; lia) ltac:(simpl; lia) ltac:(lia)) as H.
  cbv zeta in H. destruct H as (Hp & _).
  split; [exact Hrec|]. split; [exact Hok|].
  etransitivity; [exact Hp|]. vm_compute. reflexivity.
Defined.

(** One iteration of the writer thread's loop as a queue operation: it
    removes the oldest [min(available, BATCH_SIZE)] waiting samples and
    passes exactly those, in order, to [WAVWriter::write]; on an empty ring
    it does nothing.  It never touches the write position, the ring's
    content, the recording flag or the dropped-frames counter. *)
Theorem AudioRecorder_writer_step_queue (r : AudioRecorder.t)
    (w : WAVWriter.t) :
  AudioRecorder.positions_ok r ->
  let k :=
    Nat.min (length (Recording.pending r))
      (Z.to_nat AudioRecorder.BATCH_SIZE) in
  let res := AudioRecorder.writer_step r w in
  Recording.pending (fst res) = drop k (Recording.pending r)
  /\ snd res
     = (if (k =? 0)%nat then w
        else WAVWriter.write w (take k (Recording.pending r))
               (Z.of_nat k / 2))
  /\ AudioRecorder.m_writePos (fst res) = AudioRecorder.m_writePos r
  /\ AudioRecorder.m_ringBuffer (fst res) = AudioRecorder.m_ringBuffer r
  /\ AudioRecorder.m_recording (fst res) = AudioRecorder.m_recording r
  /\ AudioRecorder.m_droppedFrames (fst res) = AudioRecorder.m_droppedFrames r.
Proof.
  intros Hok k res.
  destruct (Recording_writer_step r w Hok)
    as (Hp & Hres & _ & _ & Hwp & Hd & Hrec & _ & Hring).
  cbv zeta in Hp, Hres. fold res in Hp, Hres, Hwp, Hd, Hrec, Hring.
  destruct (AudioRecorder_space_used r Hok) as (_ & _ & Hu).
  assert (Hk : Z.to_nat (Z.min (AudioRecorder.used r) AudioRecorder.BATCH_SIZE)
               = k).
  { unfold k. rewrite Recording_pending_length.
    unfold AudioRecorder.BATCH_SIZE. lia. }
  rewrite Hk in Hp, Hres.
  assert (Hk2 : Z.min (AudioRecorder.used r) AudioRecorder.BATCH_SIZE
                = Z.of_nat k).
  { rewrite <- Hk. unfold AudioRecorder.BATCH_SIZE. lia. }
  rewrite Hk2 in Hres.
  assert (Hz : (AudioRecorder.used r =? 0) = (k =? 0)%nat).
  { unfold AudioRecorder.BATCH_SIZE in Hk2.
    destruct (Z.eqb_spec (AudioRecorder.used r) 0);
      destruct (Nat.eqb_spec k 0); try done; lia. }
  rewrite Hz in Hres. done.
Qed.

Lemma AudioRecorder_writer_step_queue_witness :
  let r :=
    AudioRecorder.pushAudioFrame recorder_started [F32.half; F32.one]
      [F32.zero; F32.neg_one] (Z.of_nat 2) in
  let w := snd (WAVWriter.open true WAVWriter.init 48000 2) in
  let res := AudioRecorder.writer_step r w in
  AudioRecorder.positions_ok r
  /\ Recording.pending (fst res) = []
  /\ snd res
     = WAVWriter.write w [F32.half; F32.zero; F32.one; F32.neg_one] 2.
Proof.
  intros r w res.
  assert (Hok : AudioRecorder.positions_ok r).
  { unfold AudioRecorder.positions_ok, AudioRecorder.RING_BUFFER_SIZE.
    vm_compute. repeat split; discriminate. }
  pose proof (AudioRecorder_writer_step_queue r w Hok) as H.
  cbv zeta in H. destruct H as (Hp & Hres & _).
  split; [exact Hok|]. split.
  - etransitivity; [exact Hp|]. vm_compute. reflexivity.
  - etransitivity; [exact Hres|]. vm_compute. reflexivity.
Defined.

(** ** Starting and stopping a recording *)

Lemma string_length_append (p s : string) :
  String.length (String.append p s)
  = (String.length p + String.length s)%nat.
Proof. induction p as [|c p IH]; [done|]. simpl. by rewrite IH. Qed.

Lemma substring_all (s : string) : substring 0 (String.length s) s = s.
Proof. induction s as [|c s IH]; [done|]. simpl. by rewrite IH. Qed.

Lemma substring_append_suffix (p s : string) :
  substring (String.length p) (String.length s) (String.append p s) = s.
Proof. induction p as [|c p IH]; [apply substring_all|]. simpl. exact IH. Qed.

Lemma substring_split (s : string) (k : nat) :
  (k <= String.length s)%nat ->
  s = String.append (substring 0 k s) (substring k (String.length s - k) s).
Proof.
  revert k. induction s as [|c s IH]; intros k Hk.
  - simpl in Hk. assert (k = 0%nat) as -> by lia. done.
  - destruct k as [|k].
    + simpl. by rewrite substring_all.
    + simpl in *. f_equal. apply IH. lia.
Qed.

Lemma lacks_wav_extension_spec (s : string) :
  AudioRecorder.lacks_wav_extension s = false <-> ends_with s ".wav".
Proof.
  unfold AudioRecorder.lacks_wav_extension, ends_with. split.
  - intros H. apply orb_false_elim in H. destruct H as [Hlen Hsub].
    apply Nat.ltb_ge in Hlen. apply negb_false_iff, String.eqb_eq in Hsub.
    exists (substring 0 (String.length s - 4) s).
    pose proof (substring_split s (String.length s - 4) ltac:(lia)) as Hsplit.
    replace (String.length s - (String.length s - 4))%nat with 4%nat
      in Hsplit by lia.
    by rewrite Hsub in Hsplit.
  - intros [p ->]. rewrite string_length_append. cbn [String.length].
    apply orb_false_intro; [apply Nat.ltb_ge; lia|].
    apply negb_false_iff, String.eqb_eq.
    replace (String.length p + 4 - 4)%nat with (String.length p) by lia.
    apply (substring_append_suffix p ".wav").
Qed.

(** [startRecording] on an idle recorder that holds no writer thread (with
    one left unjoined by a failed open the call ends the process instead
    of returning): the returned path is the
    recordings directory, a slash and the file name, where an empty
    [filename] gives the clock-generated name and any other [filename] is
    used as it is when it ends in ".wav" and with ".wav" appended when it
    does not.  The path is never empty, it is what [getCurrentFilePath]
    reports, the recorder is recording, the ring is empty and the
    dropped-frames counter is 0 and it holds the new writer thread, so that
    a second [startRecording] returns only while the flag is still set. *)
Theorem AudioRecorder_startRecording_path (env : AudioRecorder.start_env)
    (r : AudioRecorder.t) (filename : string) (sampleRate : Z) :
  AudioRecorder.isRecording r = false ->
  AudioRecorder.startRecording_returns r = true ->
  let res := AudioRecorder.startRecording env r filename sampleRate in
  exists name,
    fst res
    = String.append (AudioRecorder.m_recordingsDir r) (String.append "/" name)
    /\ (filename = EmptyString -> name = AudioRecorder.env_autoName env)
    /\ (filename <> EmptyString ->
        ends_with name ".wav"
        /\ (ends_with filename ".wav" -> name = filename)
        /\ (~ ends_with filename ".wav" ->
            name = String.append filename ".wav"))
    /\ fst res <> EmptyString
    /\ AudioRecorder.getCurrentFilePath (snd res) = fst res
    /\ AudioRecorder.isRecording (snd res) = true
    /\ AudioRecorder.getDroppedFrames (snd res) = 0
    /\ Recording.pending (snd res) = []
    /\ AudioRecorder.m_sampleRate (snd res) = sampleRate
    /\ AudioRecorder.m_ringBuffer (snd res) = AudioRecorder.m_ringBuffer r
    /\ AudioRecorder.m_writerThread r = None
    /\ AudioRecorder.m_writerThread (snd res)
       = Some (AudioRecorder.env_thread env)
    /\ AudioRecorder.startRecording_returns (snd res) = true
    /\ AudioRecorder.startRecording_returns
         (AudioRecorder.set_recording (snd res) false) = false.
Proof.
  intros Hidle Hret res. unfold AudioRecorder.isRecording in Hidle.
  assert (Hthread : AudioRecorder.m_writerThread r = None).
  { unfold AudioRecorder.startRecording_returns in Hret.
    rewrite Hidle in Hret. by destruct (AudioRecorder.m_writerThread r). }
  unfold res, AudioRecorder.startRecording. rewrite Hidle. cbn [fst snd].
  eexists. split; [reflexivity|].
  split; [by intros ->|]. split.
  { intros Hne. apply String.eqb_neq in Hne. rewrite Hne.
    destruct (AudioRecorder.lacks_wav_extension filename) eqn:Hlacks.
    - split; [by exists filename|]. split.
      + intros Hends. apply lacks_wav_extension_spec in Hends. congruence.
      + done.
    - apply lacks_wav_extension_spec in Hlacks. split; [done|].
      split; [done|]. intros Hn. by destruct Hn. }
  split.
  { destruct (AudioRecorder.m_recordingsDir r); discriminate. }
  repeat split. exact Hthread.
Qed.

Lemma AudioRecorder_startRecording_path_witness :
  AudioRecorder.isRecording recorder_idle = false
  /\ AudioRecorder.startRecording_returns recorder_idle = true
  /\ fst (AudioRecorder.startRecording clock_env recorder_idle "take1" 48000)
     = "./recordings/take1.wav"%string
  /\ fst (AudioRecorder.startRecording clock_env recorder_idle "a.wav" 48000)
     = "./recordings/a.wav"%string
  /\ exists name,
       fst (AudioRecorder.startRecording clock_env recorder_idle "wav" 44100)
       = String.append "./recordings" (String.append "/" name)
       /\ ends_with name ".wav".
Proof.
  assert (Hidle : AudioRecorder.isRecording recorder_idle = false)
    by reflexivity.
  assert (Hret : AudioRecorder.startRecording_returns recorder_idle = true)
    by reflexivity.
  split; [exact Hidle|]. split; [exact Hret|].
  split; [reflexivity|]. split; [reflexivity|].
  destruct (AudioRecorder_startRecording_path clock_env recorder_idle "wav"
              44100 Hidle Hret) as (name & Hpath & _ & Hext & _).
  exists name. split; [exact Hpath|].
  exact (proj1 (Hext ltac:(discriminate))).
Defined.


Lemma Recording_pushes_idle (blocks : list (list F32.t * list F32.t * nat))
    (r : AudioRecorder.t) :
  AudioRecorder.m_recording r = false -> Recording.pushes r blocks = r.
Proof.
  intros H. unfold Recording.pushes.
  induction blocks as [|b blocks IH]; [done|].
  cbn [fold_left]. by rewrite AudioRecorder_push_not_recording.
Qed.

Lemma Recording_pushes_fields (blocks : list (list F32.t * list F32.t * nat))
    (r : AudioRecorder.t) :
  let r' := Recording.pushes r blocks in
  AudioRecorder.m_currentFilePath r' = AudioRecorder.m_currentFilePath r
  /\ AudioRecorder.m_writerThread r' = AudioRecorder.m_writerThread r
  /\ AudioRecorder.m_recording r' = AudioRecorder.m_recording r
  /\ AudioRecorder.m_sampleRate r' = AudioRecorder.m_sampleRate r
  /\ AudioRecorder.m_readPos r' = AudioRecorder.m_readPos r.
Proof.
  unfold Recording.pushes. revert r.
  induction blocks as [|b blocks IH]; intros r; [done|].
  cbn [fold_left]. destruct (IH (AudioRecorder.pushAudioFrame r (fst (fst b))
                                   (snd (fst b)) (Z.of_nat (snd b))))
    as (-> & -> & -> & -> & ->).
  unfold AudioRecorder.pushAudioFrame.
  destruct (AudioRecorder.m_recording r) eqn:E; [|done]. cbn [negb].
  destruct (_ <? _); [by rewrite <- E|].
  destruct (for_loop _ _ _ _). by rewrite <- E.
Qed.

(** When the writer thread cannot open the file, [startRecording] (called
    on an idle recorder that holds no thread) has
    already returned the path as for a recording that started.  The thread
    clears the recording flag and returns; after that pushes are ignored,
    [stopRecording] does nothing, the recorder still reports the path of
    the recording that never started and still holds the handle of the
    thread that was never joined, and no file has been written.  On the
    recorder so left, before and after [stopRecording], the next
    [startRecording] does not return. *)
Theorem Recording_open_failure_keeps_path (env : AudioRecorder.start_env)
    (r : AudioRecorder.t) (filename : string) (sampleRate : Z)
    (before after : list (list F32.t * list F32.t * nat)) :
  AudioRecorder.isRecording r = false ->
  AudioRecorder.startRecording_returns r = true ->
  let started := AudioRecorder.startRecording env r filename sampleRate in
  let res := Recording.run_open_failed (snd started) before after in
  fst started <> EmptyString
  /\ AudioRecorder.isRecording (fst res) = false
  /\ AudioRecorder.getCurrentFilePath (fst res) = fst started
  /\ AudioRecorder.m_writerThread (fst res)
     = Some (AudioRecorder.env_thread env)
  /\ AudioRecorder.stopRecording (fst res) = fst res
  /\ OFStream.is_open (WAVWriter.m_file (snd res)) = false
  /\ OFStream.content (WAVWriter.m_file (snd res)) = []
  /\ fst res
     = AudioRecorder.set_recording (Recording.pushes (snd started) before)
         false
  /\ AudioRecorder.startRecording_returns (fst res) = false
  /\ AudioRecorder.startRecording_returns
       (AudioRecorder.stopRecording (fst res)) = false.
Proof.
  intros Hidle _ started res. unfold AudioRecorder.isRecording in *.
  assert (Hs : AudioRecorder.m_currentFilePath (snd started) = fst started
               /\ AudioRecorder.m_writerThread (snd started)
                  = Some (AudioRecorder.env_thread env)
               /\ fst started <> EmptyString).
  { unfold started, AudioRecorder.startRecording. rewrite Hidle.
    cbn [fst snd AudioRecorder.m_currentFilePath
         AudioRecorder.m_writerThread].
    split; [done|]. split; [done|].
    destruct (AudioRecorder.m_recordingsDir r); discriminate. }
  destruct Hs as (Hpath & Hthread & Hne).
  destruct (Recording_pushes_fields before (snd started))
    as (Hp1 & Hp2 & _).
  set (r1 := Recording.pushes (snd started) before) in *.
  assert (Hres : res = (AudioRecorder.set_recording r1 false, WAVWriter.init)).
  { unfold res, Recording.run_open_failed. fold r1.
    unfold Recording.writer_open, WAVWriter.open.
    cbn [WAVWriter.init WAVWriter.m_file OFStream.is_open OFStream.closed
         OFStream.open WAVWriter.set_file negb].
    rewrite Recording_pushes_idle by done.
    unfold AudioRecorder.stopRecording. done. }
  rewrite Hres. cbn [fst snd].
  split; [done|]. split; [done|]. split; [by rewrite <- Hpath, <- Hp1|].
  split; [by rewrite <- Hthread, <- Hp2|].
  assert (Hnot : AudioRecorder.startRecording_returns
                   (AudioRecorder.set_recording r1 false) = false).
  { unfold AudioRecorder.startRecording_returns. cbn. by rewrite Hp2, Hthread. }
  repeat split; exact Hnot.
Qed.

Lemma Recording_open_failure_keeps_path_witness :
  let res :=
    Recording.run_open_failed recorder_started
      [([F32.half], [F32.half], 1%nat)] [([F32.one], [F32.one], 1%nat)] in
  AudioRecorder.isRecording recorder_idle = false
  /\ AudioRecorder.startRecording_returns recorder_idle = true
  /\ AudioRecorder.isRecording (fst res) = false
  /\ AudioRecorder.getCurrentFilePath (fst res)
     = "./recordings/take1.wav"%string
  /\ AudioRecorder.startRecording_returns (fst res) = false.
Proof.
  intros res.
  assert (Hidle : AudioRecorder.isRecording recorder_idle = false)
    by reflexivity.
  assert (Hret : AudioRecorder.startRecording_returns recorder_idle = true)
    by reflexivity.
  pose proof (Recording_open_failure_keeps_path clock_env recorder_idle
                "take1" 48000 [([F32.half], [F32.half], 1%nat)]
                [([F32.one], [F32.one], 1%nat)] Hidle Hret) as H.
  cbv zeta in H.
  destruct H as (_ & Hrec & Hpath & _ & _ & _ & _ & _ & Hnot & _).
  split; [exact Hidle|]. split; [exact Hret|]. split; [exact Hrec|].
  split; [exact Hpath | exact Hnot].
Defined.

(** C5.  [write] appends, for every sample, the two
    little-endian bytes of the [int16_t] obtained by clamping to [-1, 1],
    multiplying by 32767 and truncating toward zero; the truncated value
    lies between -32767 and 32767, so the conversion never leaves the range
    of [int16_t].  After [close] the
    file is a 44-byte header followed by exactly those bytes, and the two
    32-bit length fields of the header hold the byte count modulo 2^32:
    RIFF chunk size [(36 + n) mod 2^32], data chunk size [n mod 2^32].  They
    equal [36 + n] and [n] as long as [n < 2^32 - 36].  The same holds of
    the file a recording produces, with [m] the number of bytes that follow
    its header: the recording is started on an idle recorder that holds no
    writer thread, the writer thread opens the file, the audio thread
    pushes blocks and the writer loop runs in any order, and when
    [stopRecording] is called at most [BATCH_SIZE] samples wait in the ring
    (the flush copies them into an array of that size). *)
Theorem WAVWriter_header_lengths (sampleRate numChannels : Z)
    (calls : list (list F32.t * Z)) :
  Forall (WAVWriter.call_fits numChannels) calls ->
  let w := WAVWriter.session true sampleRate numChannels calls in
  let samples := concat (map (WAVWriter.written_samples numChannels) calls) in
  let file := OFStream.content (WAVWriter.m_file w) in
  let n := Z.of_nat (length (pcm_stream samples)) in
  OFStream.is_open (WAVWriter.m_file w) = false
  /\ length (take 44 file) = 44%nat
  /\ drop 44 file = pcm_stream samples
  /\ n = 2 * Z.of_nat (length samples)
  /\ riff_size_field file = (36 + n) mod 2 ^ 32
  /\ data_size_field file = n mod 2 ^ 32
  /\ (n < 2 ^ 32 - 36 ->
      riff_size_field file = 36 + n /\ data_size_field file = n)
  /\ (forall x,
        WAVWriter.pcm_bytes x
        = le_bytes 2
            (int16_of_bits
               (F32.trunc
                  (F32.mul (F32.max F32.neg_one (F32.min F32.one x))
                     WAVWriter.PCM_SCALE)))
        /\ F32.leb F32.neg_one (F32.max F32.neg_one (F32.min F32.one x)) = true
        /\ F32.leb (F32.max F32.neg_one (F32.min F32.one x)) F32.one = true
        /\ (valid_binary F32.prec F32.emax x = true ->
            -32767
            <= F32.trunc
                 (F32.mul (F32.max F32.neg_one (F32.min F32.one x))
                    WAVWriter.PCM_SCALE)
            <= 32767))
  /\ (forall (env : AudioRecorder.start_env) (r : AudioRecorder.t)
        (filename : string) (events : list Recording.event),
        AudioRecorder.isRecording r = false ->
        AudioRecorder.startRecording_returns r = true ->
        Forall Recording.event_fits events ->
        let r0 :=
          snd (AudioRecorder.startRecording env r filename sampleRate) in
        let st0 := Recording.writer_open true r0 in
        AudioRecorder.used (fst (Recording.steps st0 events))
          <= AudioRecorder.BATCH_SIZE ->
        let recorded :=
          OFStream.content
            (WAVWriter.m_file (snd (Recording.run r0 events))) in
        let m := Z.of_nat (length (drop 44 recorded)) in
        OFStream.is_open (WAVWriter.m_file (snd (Recording.run r0 events)))
        = false
        /\ length (take 44 recorded) = 44%nat
        /\ drop 44 recorded = pcm_stream (Recording.kept st0 events)
        /\ riff_size_field recorded = (36 + m) mod 2 ^ 32
        /\ data_size_field recorded = m mod 2 ^ 32
        /\ (m < 2 ^ 32 - 36 ->
            riff_size_field recorded = 36 + m
            /\ data_size_field recorded = m)).
Proof.
  intros Hfit w samples file n.
  destruct (WAVWriter_session_file sampleRate numChannels calls Hfit)
    as (Hclosed & Hhdr & Hpcm & Hriff & Hdata).
  fold w samples file n in Hclosed, Hhdr, Hpcm, Hriff, Hdata.
  assert (Hn : 0 <= n) by (unfold n; lia).
  split; [exact Hclosed|]. split; [exact Hhdr|]. split; [exact Hpcm|].
  split; [unfold n; rewrite pcm_stream_length; lia|].
  split; [exact Hriff|]. split; [exact Hdata|]. split.
  { intros Hsmall. split.
    - rewrite Hriff. apply Z.mod_small. lia.
    - rewrite Hdata. apply Z.mod_small. lia. }
  split.
  { intros x. split; [done|]. split; [apply clamp_sample_range|].
    split; [apply clamp_sample_range|]. by apply WAVWriter_pcm_in_range. }
  intros env r filename events Hidle _ Hev r0 st0 Hrem recorded m.
  pose proof (Recording_run_file env r filename sampleRate events Hidle Hev
                Hrem) as Hrun.
  cbv zeta in Hrun. subst m recorded st0 r0.
  destruct Hrun as (Hrclosed & Hrlen & Hrdrop & Hrriff & Hrdata & _).
  split; [exact Hrclosed|]. split.
  { rewrite length_take. lia. }
  split; [exact Hrdrop|]. rewrite Hrdrop, pcm_stream_length.
  rewrite Nat2Z.inj_mul. change (Z.of_nat 2) with 2.
  split; [exact Hrriff|]. split; [exact Hrdata|].
  intros Hsmall. split.
  - rewrite Hrriff. apply Z.mod_small. lia.
  - rewrite Hrdata. apply Z.mod_small. lia.
Qed.

Lemma WAVWriter_header_lengths_witness :
  let calls := [([F32.half; F32.neg_one; F32.two; F32.zero], 2)] in
  let file :=
    OFStream.content (WAVWriter.m_file (WAVWriter.session true 48000 2 calls)) in
  let events :=
    [Recording.Push [F32.half; F32.one] [F32.zero; F32.half] 2;
     Recording.Drain;
     Recording.Push [F32.neg_one] [F32.one] 1] in
  let recorded :=
    OFStream.content
      (WAVWriter.m_file (snd (Recording.run recorder_started events))) in
  Forall (WAVWriter.call_fits 2) calls
  /\ riff_size_field file = 36 + 8
  /\ data_size_field file = 8
  /\ riff_size_field recorded = 36 + 12
  /\ data_size_field recorded = 12
  /\ Z.of_nat (length (drop 44 recorded)) = 12.
Proof.
  intros calls file events recorded.
  assert (Hfit : Forall (WAVWriter.call_fits 2) calls).
  { repeat constructor. }
  assert (Hev : Forall Recording.event_fits events).
  { repeat constructor; simpl; lia. }
  assert (Hrem : AudioRecorder.used
                   (fst (Recording.steps
                           (Recording.writer_open true recorder_started)
                           events))
                 <= AudioRecorder.BATCH_SIZE).
  { apply Z.leb_le. vm_compute. reflexivity. }
  assert (Hm : Z.of_nat (length (drop 44 recorded)) = 12).
  { vm_compute. reflexivity. }
  pose proof (WAVWriter_header_lengths 48000 2 calls Hfit) as H.
  cbv zeta in H.
  destruct H as (_ & _ & _ & _ & _ & _ & Hsession & _ & Hrecording).
  destruct (Hsession ltac:(vm_compute; reflexivity)) as [Hriff Hdata].
  destruct (Hrecording clock_env recorder_idle "take1"%string events
              ltac:(reflexivity) ltac:(reflexivity) Hev Hrem)
    as (_ & _ & _ & _ & _ & Hexact).
  change (Z.of_nat (length (drop 44 recorded)) < 2 ^ 32 - 36 ->
          riff_size_field recorded
          = 36 + Z.of_nat (length (drop 44 recorded))
          /\ data_size_field recorded
             = Z.of_nat (length (drop 44 recorded))) in Hexact.
  rewrite Hm in Hexact.
  destruct (Hexact ltac:(lia)) as [Hrriff Hrdata].
  split; [exact Hfit|]. split; [exact Hriff|]. split; [exact Hdata|].
  split; [exact Hrriff|]. split; [exact Hrdata | exact Hm].
Defined.

(** ** The WAV file format *)

Lemma WAVWriter_session_content (sampleRate numChannels : Z)
    (calls : list (list F32.t * Z)) :
  Forall (WAVWriter.call_fits numChannels) calls ->
  exists w1,
    OFStream.content
      (WAVWriter.m_file (WAVWriter.session true sampleRate numChannels calls))
    = WAVWriter.header_bytes w1
      ++ pcm_stream
           (concat (map (WAVWriter.written_samples numChannels) calls))
    /\ WAVWriter.m_sampleRate w1 = sampleRate
    /\ WAVWriter.m_numChannels w1 = numChannels.
Proof.
  intros Hfit.
  destruct (WAVWriter_open_holds sampleRate numChannels)
    as (_ & Hw0 & Hch & Hsr).
  set (w0 := snd (WAVWriter.open true WAVWriter.init sampleRate numChannels))
    in *.
  rewrite <- Hch in Hfit.
  destruct (WAVWriter_write_all_holds calls w0 _ [] Hw0 Hfit)
    as (Hw1 & Hch1 & Hsr1).
  cbv zeta in Hw1, Hch1, Hsr1. rewrite Hch in Hw1. cbn [app] in Hw1.
  destruct (WAVWriter_close_holds _ _ _ Hw1 (WAVWriter_header_length w0))
    as (_ & Hfile & _).
  exists (WAVWriter.write_all w0 calls).
  split; [exact Hfile|]. split; congruence.
Qed.

(** The header of a finished file reads back as a canonical PCM WAV
    header: the tags RIFF, WAVE, fmt and data at offsets 0, 8, 12 and 36, a
    16-byte format chunk of type 1 (PCM), the channel count and sample rate
    given to [open], 16 bits per sample, block align [2 * channels] (a
    [uint16_t]) and byte rate [sampleRate * blockAlign] (a [uint32_t]). *)
Theorem WAVWriter_header_reads_back (sampleRate numChannels : Z)
    (calls : list (list F32.t * Z)) :
  0 <= sampleRate < 2 ^ 32 ->
  0 <= numChannels < 2 ^ 16 ->
  Forall (WAVWriter.call_fits numChannels) calls ->
  let file :=
    OFStream.content
      (WAVWriter.m_file (WAVWriter.session true sampleRate numChannels calls)) in
  let blockAlign := (numChannels * 2) mod 2 ^ 16 in
  wav_tag file 0 = list_byte_of_string "RIFF"
  /\ wav_tag file 8 = list_byte_of_string "WAVE"
  /\ wav_tag file 12 = list_byte_of_string "fmt "
  /\ wav_field file 16 4 = 16
  /\ wav_field file 20 2 = 1
  /\ wav_field file 22 2 = numChannels
  /\ wav_field file 24 4 = sampleRate
  /\ wav_field file 28 4 = (sampleRate * blockAlign) mod 2 ^ 32
  /\ wav_field file 32 2 = blockAlign
  /\ wav_field file 34 2 = 16
  /\ wav_tag file 36 = list_byte_of_string "data"
  /\ (numChannels < 2 ^ 15 -> sampleRate * (numChannels * 2) < 2 ^ 32 ->
      wav_field file 32 2 = numChannels * 2
      /\ wav_field file 28 4 = sampleRate * (numChannels * 2)).
Proof.
  intros Hsr Hch Hfit file blockAlign.
  destruct (WAVWriter_session_content sampleRate numChannels calls Hfit)
    as (w1 & Hfile & Hsr1 & Hch1).
  fold file in Hfile. clearbody file. subst file.
  set (rest := pcm_stream _). clearbody rest.
  assert (H16 : wav_field (WAVWriter.header_bytes w1 ++ rest) 32 2
                = blockAlign).
  { unfold wav_field.
    change (take 2 (drop 32 (WAVWriter.header_bytes w1 ++ rest)))
      with (le_bytes 2 (wrap 16 (WAVWriter.m_numChannels w1 * (16 / 8)))).
    rewrite le_decode_le_bytes, Hch1. unfold wrap, blockAlign.
    change (16 / 8) with 2. change (256 ^ Z.of_nat 2) with (2 ^ 16).
    apply Z.mod_mod. lia. }
  assert (H32 : wav_field (WAVWriter.header_bytes w1 ++ rest) 28 4
                = (sampleRate * blockAlign) mod 2 ^ 32).
  { unfold wav_field.
    change (take 4 (drop 28 (WAVWriter.header_bytes w1 ++ rest)))
      with (le_bytes 4
              (wrap 32 (WAVWriter.m_sampleRate w1
                        * wrap 16 (WAVWriter.m_numChannels w1 * (16 / 8))))).
    rewrite le_decode_le_bytes, Hch1, Hsr1. unfold wrap, blockAlign.
    change (16 / 8) with 2. change (256 ^ Z.of_nat 4) with (2 ^ 32).
    apply Z.mod_mod. lia. }
  split; [reflexivity|]. split; [reflexivity|]. split; [reflexivity|].
  split; [reflexivity|]. split; [reflexivity|].
  split.
  { unfold wav_field.
    change (take 2 (drop 22 (WAVWriter.header_bytes w1 ++ rest)))
      with (le_bytes 2 (WAVWriter.m_numChannels w1)).
    rewrite le_decode_le_bytes, Hch1.
    change (256 ^ Z.of_nat 2) with (2 ^ 16). apply Z.mod_small. lia. }
  split.
  { unfold wav_field.
    change (take 4 (drop 24 (WAVWriter.header_bytes w1 ++ rest)))
      with (le_bytes 4 (WAVWriter.m_sampleRate w1)).
    rewrite le_decode_le_bytes, Hsr1.
    change (256 ^ Z.of_nat 4) with (2 ^ 32). apply Z.mod_small. lia. }
  split; [exact H32|]. split; [exact H16|].
  split; [reflexivity|]. split; [reflexivity|].
  intros Hsmall Hrate. rewrite H16, H32. unfold blockAlign.
  rewrite (Z.mod_small (numChannels * 2)) by lia.
  split; [done|]. apply Z.mod_small. lia.
Qed.

Lemma WAVWriter_header_reads_back_witness :
  let calls := [([F32.half; F32.neg_one; F32.two; F32.zero], 2)] in
  let file :=
    OFStream.content (WAVWriter.m_file (WAVWriter.session true 48000 2 calls)) in
  0 <= 48000 < 2 ^ 32
  /\ 0 <= 2 < 2 ^ 16
  /\ Forall (WAVWriter.call_fits 2) calls
  /\ wav_field file 24 4 = 48000
  /\ wav_field file 32 2 = 4
  /\ wav_field file 28 4 = 192000.
Proof.
  intros calls file.
  assert (Hsr : 0 <= 48000 < 2 ^ 32) by lia.
  assert (Hch : 0 <= 2 < 2 ^ 16) by lia.
  assert (Hfit : Forall (WAVWriter.call_fits 2) calls)
    by repeat constructor.
  pose proof (WAVWriter_header_reads_back 48000 2 calls Hsr Hch Hfit) as H.
  cbv zeta in H.
  destruct H as (_ & _ & _ & _ & _ & _ & H24 & _ & _ & _ & _ & Hexact).
  destruct (Hexact ltac:(lia) ltac:(lia)) as [H32 H28].
  split; [exact Hsr|]. split; [exact Hch|]. split; [exact Hfit|].
  split; [exact H24|]. split; [exact H32|exact H28].
Defined.

(** A writer that is not open ignores [write] and [close], and an [open]
    that fails leaves it closed and unchanged and returns false.  [close]
    always leaves the writer closed with its byte count reset to 0, so
    [getDataSize] read after [close], as the writer thread does for its
    final report, is 0 whatever was written. *)
Theorem WAVWriter_closed_writer_ignores_calls (w : WAVWriter.t)
    (data : list F32.t) (numFrames sampleRate numChannels : Z) :
  let closed := WAVWriter.close w in
  WAVWriter_isOpen closed = false
  /\ WAVWriter.close closed = closed
  /\ WAVWriter.write closed data numFrames = closed
  /\ WAVWriter.open false closed sampleRate numChannels = (false, closed)
  /\ (WAVWriter_isOpen w = true -> WAVWriter.getDataSize closed = 0)
  /\ (WAVWriter_isOpen w = false -> closed = w)
  /\ OFStream.content (WAVWriter.m_file (WAVWriter.write closed data numFrames))
     = OFStream.content (WAVWriter.m_file closed).
Proof.
  intros closed. unfold WAVWriter_isOpen.
  assert (Hc : OFStream.is_open (WAVWriter.m_file closed) = false).
  { unfold closed, WAVWriter.close.
    destruct (OFStream.is_open (WAVWriter.m_file w)) eqn:E; [done|].
    cbn [negb]. exact E. }
  assert (Hw : WAVWriter.write closed data numFrames = closed).
  { unfold WAVWriter.write. by rewrite Hc. }
  split; [exact Hc|]. split.
  { unfold WAVWriter.close at 1. by rewrite Hc. }
  split; [exact Hw|]. split.
  { unfold WAVWriter.open. rewrite Hc. cbn [OFStream.open].
    destruct closed as [f sr ch ds]. cbn in *. by rewrite Hc. }
  split.
  { intros Ho. unfold closed, WAVWriter.close. by rewrite Ho. }
  split.
  { intros Ho. unfold closed, WAVWriter.close. by rewrite Ho. }
  by rewrite Hw.
Qed.

(** ** The backing-track player across calls *)

Lemma BackingTrack_fillBuffer_output (b : BackingTrack.t)
    (outL outR : list F32.t) (n : nat) :
  BackingTrack.wf b ->
  (n <= length outL)%nat -> (n <= length outR)%nat ->
  let out := BackingTrack_output b n in
  BackingTrack.fillBuffer b outL outR n
  = (fst (fst out), snd (fst out) ++ drop n outL, snd out ++ drop n outR)
  /\ length (snd (fst out)) = n /\ length (snd out) = n.
Proof.
  intros Hwf HL HR out.
  destruct (BackingTrack_fillBuffer_cases b outL outR n Hwf HL HR)
    as (Hsilent & Hloop & Hstraight).
  cbv zeta in Hsilent, Hloop, Hstraight.
  pose proof Hwf as (_ & _ & Ht & _).
  unfold out, BackingTrack_output.
  destruct (negb (BackingTrack.isPlaying_ b)
            || (BackingTrack.totalFrames_ b =? 0)) eqn:Hs.
  - rewrite (Hsilent eq_refl). cbn [fst snd take app Nat.add].
    by rewrite length_replicate.
  - apply orb_false_elim in Hs. destruct Hs as [Hplay Htot].
    apply negb_false_iff in Hplay. apply Z.eqb_neq in Htot.
    assert (Hpos : 0 < BackingTrack.totalFrames_ b) by lia.
    destruct (BackingTrack.loopEnabled_ b) eqn:Hl.
    + rewrite (Hloop Hplay Hpos eq_refl). cbn [fst snd take app Nat.add].
      by rewrite !looped_samples_length.
    + rewrite (Hstraight Hplay Hpos eq_refl).
      case_decide as Hn; cbn [fst snd take app Nat.add].
      * by rewrite !straight_samples_length.
      * rewrite !length_app, !straight_samples_length, !length_replicate.
        repeat split; lia.
Qed.

Lemma BackingTrack_cursor_from_transport (b : BackingTrack.t) (playing : bool)
    (position pos : Z) (k : nat) :
  BackingTrack.cursor_from (BackingTrack.set_transport b playing position) pos k
  = BackingTrack.cursor_from b pos k.
Proof. induction k as [|k IH]; [done|]. cbn. by rewrite IH. Qed.

Lemma looped_samples_transport (b : BackingTrack.t) (playing : bool)
    (position : Z) (data : list F32.t) (pos : Z) (n : nat) :
  looped_samples (BackingTrack.set_transport b playing position) data pos n
  = looped_samples b data pos n.
Proof.
  unfold looped_samples. apply map_ext. intros k.
  by rewrite BackingTrack_cursor_from_transport.
Qed.

Lemma looped_samples_app (b : BackingTrack.t) (data : list F32.t) (n1 n2 : nat)
    (pos : Z) :
  looped_samples b data pos (n1 + n2)
  = looped_samples b data pos n1
    ++ looped_samples b data
         (match n1 with
          | O => pos
          | S j => BackingTrack.cursor_from b pos j + 1
          end) n2.
Proof.
  revert pos. induction n1 as [|n1 IH]; intros pos; [done|].
  cbn [Nat.add]. rewrite !looped_samples_S, IH. cbn [app]. do 3 f_equal.
  destruct n1 as [|j]; [done|]. by rewrite BackingTrack_cursor_from_shift.
Qed.

Lemma straight_samples_app (b : BackingTrack.t) (data : list F32.t)
    (n1 n2 : nat) (pos : Z) :
  straight_samples b data pos (n1 + n2)
  = straight_samples b data pos n1
    ++ straight_samples b data (pos + Z.of_nat n1) n2.
Proof.
  revert pos. induction n1 as [|n1 IH]; intros pos.
  - by rewrite Z.add_0_r.
  - cbn [Nat.add]. rewrite !straight_samples_S, IH. cbn [app]. do 3 f_equal.
    lia.
Qed.

Lemma BackingTrack_cursor_from_add (b : BackingTrack.t) (pos : Z) (i j : nat) :
  BackingTrack.cursor_from b pos (S i + j)
  = BackingTrack.cursor_from b (BackingTrack.cursor_from b pos i + 1) j.
Proof.
  induction j as [|j IH].
  - by rewrite Nat.add_0_r.
  - rewrite Nat.add_succ_r. cbn [BackingTrack.cursor_from]. by rewrite IH.
Qed.

Lemma BackingTrack_output_silent (b : BackingTrack.t) (n : nat) :
  negb (BackingTrack.isPlaying_ b) || (BackingTrack.totalFrames_ b =? 0) = true ->
  BackingTrack_output b n = (b, replicate n F32.zero, replicate n F32.zero).
Proof. intros H. unfold BackingTrack_output. by rewrite H. Qed.

Lemma BackingTrack_output_loop (b : BackingTrack.t) (n : nat) :
  BackingTrack.isPlaying_ b = true ->
  (BackingTrack.totalFrames_ b =? 0) = false ->
  BackingTrack.loopEnabled_ b = true ->
  BackingTrack_output b n
  = (BackingTrack.set_transport b true (BackingTrack.cursor_after b n),
     looped_samples b (BackingTrack.audioDataL_ b)
       (BackingTrack.playbackPosition_ b) n,
     looped_samples b (BackingTrack.audioDataR_ b)
       (BackingTrack.playbackPosition_ b) n).
Proof.
  intros Hp Ht Hl. unfold BackingTrack_output. by rewrite Hp, Ht, Hl.
Qed.

Lemma BackingTrack_output_straight (b : BackingTrack.t) (n : nat) :
  BackingTrack.isPlaying_ b = true ->
  (BackingTrack.totalFrames_ b =? 0) = false ->
  BackingTrack.loopEnabled_ b = false ->
  let pos := BackingTrack.playbackPosition_ b in
  let left := BackingTrack.frames_left b in
  BackingTrack_output b n
  = if decide (n <= left)%nat then
      (BackingTrack.set_transport b true (pos + Z.of_nat n),
       straight_samples b (BackingTrack.audioDataL_ b) pos n,
       straight_samples b (BackingTrack.audioDataR_ b) pos n)
    else
      (BackingTrack.set_transport b false (BackingTrack.startFrame_ b),
       straight_samples b (BackingTrack.audioDataL_ b) pos left
         ++ replicate (n - left) F32.zero,
       straight_samples b (BackingTrack.audioDataR_ b) pos left
         ++ replicate (n - left) F32.zero).
Proof.
  intros Hp Ht Hl pos left. unfold BackingTrack_output.
  by rewrite Hp, Ht, Hl.
Qed.

Lemma BackingTrack_cursor_after_split (b : BackingTrack.t) (n1 n2 : nat) :
  BackingTrack.cursor_after b (n1 + n2)
  = BackingTrack.cursor_after
      (BackingTrack.set_transport b true (BackingTrack.cursor_after b n1)) n2.
Proof.
  destruct n2 as [|j].
  - by rewrite Nat.add_0_r.
  - rewrite Nat.add_succ_r. unfold BackingTrack.cursor_after at 1 2.
    unfold BackingTrack.cursor.
    rewrite BackingTrack_cursor_from_transport.
    change (BackingTrack.playbackPosition_
              (BackingTrack.set_transport b true
                 (BackingTrack.cursor_after b n1)))
      with (BackingTrack.cursor_after b n1).
    f_equal. destruct n1 as [|i]; [done|].
    apply BackingTrack_cursor_from_add.
Qed.

Lemma BackingTrack_output_split (b : BackingTrack.t) (n1 n2 : nat) :
  let out12 := BackingTrack_output b (n1 + n2) in
  let out1 := BackingTrack_output b n1 in
  let out2 := BackingTrack_output (fst (fst out1)) n2 in
  fst (fst out12) = fst (fst out2)
  /\ snd (fst out12) = snd (fst out1) ++ snd (fst out2)
  /\ snd out12 = snd out1 ++ snd out2.
Proof.
  intros out12 out1 out2. subst out12 out1 out2.
  destruct (negb (BackingTrack.isPlaying_ b)
            || (BackingTrack.totalFrames_ b =? 0)) eqn:Hs.
  - rewrite !(BackingTrack_output_silent b) by done. cbn [fst snd].
    rewrite ?BackingTrack_output_silent by done. cbn [fst snd].
    by rewrite replicate_add.
  - apply orb_false_elim in Hs.
    destruct Hs as [Hplay Htot]. apply negb_false_iff in Hplay.
    destruct (BackingTrack.loopEnabled_ b) eqn:Hl.
    + rewrite !(BackingTrack_output_loop b) by done. cbn [fst snd].
      rewrite BackingTrack_output_loop by done. cbn [fst snd].
      cbn [BackingTrack.set_transport BackingTrack.audioDataL_
           BackingTrack.audioDataR_ BackingTrack.playbackPosition_].
      fold (BackingTrack.set_transport b true (BackingTrack.cursor_after b n1)).
      rewrite !looped_samples_transport, !looped_samples_app.
      split; [|done].
      rewrite (BackingTrack_cursor_after_split b n1 n2). done.
    + rewrite !(BackingTrack_output_straight b) by done. cbv zeta.
      set (left := BackingTrack.frames_left b).
      set (pos := BackingTrack.playbackPosition_ b).
      destruct (decide (n1 <= left)%nat) as [H1 | H1].
      * cbn [fst snd].
        set (b1 := BackingTrack.set_transport b true (pos + Z.of_nat n1)).
        assert (Hleft1 : BackingTrack.frames_left b1 = (left - n1)%nat).
        { unfold b1, left, BackingTrack.frames_left, BackingTrack.endFrame.
          cbn. fold pos. lia. }
        rewrite (BackingTrack_output_straight b1) by done. cbv zeta.
        rewrite Hleft1.
        change (BackingTrack.playbackPosition_ b1) with (pos + Z.of_nat n1).
        change (BackingTrack.audioDataL_ b1) with (BackingTrack.audioDataL_ b).
        change (BackingTrack.audioDataR_ b1) with (BackingTrack.audioDataR_ b).
        change (BackingTrack.startFrame_ b1) with (BackingTrack.startFrame_ b).
        assert (Hss : forall data p k,
                  straight_samples b1 data p k = straight_samples b data p k)
          by done.
        rewrite !Hss.
        destruct (decide (n1 + n2 <= left)%nat) as [H12 | H12].
        -- rewrite (decide_True (P := (n2 <= left - n1)%nat)) by lia.
           cbn [fst snd]. rewrite !straight_samples_app. split; [|done].
           unfold b1, BackingTrack.set_transport. cbn. f_equal. lia.
        -- rewrite (decide_False (P := (n2 <= left - n1)%nat)) by lia.
           cbn [fst snd].
           assert (Hsp : forall data,
                     straight_samples b data pos left
                     = straight_samples b data pos n1
                       ++ straight_samples b data (pos + Z.of_nat n1)
                            (left - n1)).
           { intros data. rewrite <- straight_samples_app. f_equal. lia. }
           rewrite !Hsp, <- !app_assoc.
           replace (n1 + n2 - left)%nat with (n2 - (left - n1))%nat by lia.
           done.
      * rewrite (decide_False (P := (n1 + n2 <= left)%nat)) by lia.
        cbn [fst snd].
        rewrite BackingTrack_output_silent by done. cbn [fst snd].
        rewrite <- !app_assoc, <- !replicate_add.
        replace (n1 - left + n2)%nat with (n1 + n2 - left)%nat by lia.
        done.
Qed.

(** [fillBuffer] does not depend on how the audio callback cuts time into
    blocks: filling [n1 + n2] frames in one call leaves the same player and
    the same samples as filling [n1] frames and then [n2] frames into the
    rest of the buffers, whether the track plays, loops, stops inside either
    block or is silent. *)
Theorem BackingTrack_fillBuffer_block_size_independent (b : BackingTrack.t)
    (outL outR : list F32.t) (n1 n2 : nat) :
  BackingTrack.wf b ->
  (n1 + n2 <= length outL)%nat -> (n1 + n2 <= length outR)%nat ->
  let whole := BackingTrack.fillBuffer b outL outR (n1 + n2) in
  let first := BackingTrack.fillBuffer b outL outR n1 in
  let second :=
    BackingTrack.fillBuffer (fst (fst first)) (drop n1 (snd (fst first)))
      (drop n1 (snd first)) n2 in
  fst (fst whole) = fst (fst second)
  /\ snd (fst whole) = take n1 (snd (fst first)) ++ snd (fst second)
  /\ snd whole = take n1 (snd first) ++ snd second.
Proof.
  intros Hwf HL HR whole first second.
  destruct (BackingTrack_fillBuffer_output b outL outR (n1 + n2) Hwf HL HR)
    as (Hwhole & _ & _).
  destruct (BackingTrack_fillBuffer_output b outL outR n1 Hwf
              ltac:(lia) ltac:(lia)) as (Hfirst & HlenL & HlenR).
  cbv zeta in Hwhole, Hfirst, HlenL, HlenR.
  fold whole in Hwhole. fold first in Hfirst.
  set (out1 := BackingTrack_output b n1) in *.
  assert (Hwf1 : BackingTrack.wf (fst (fst first))).
  { apply (BackingTrack_wf_preserved b Hwf); lia. }
  assert (HdL : drop n1 (snd (fst first)) = drop n1 outL).
  { rewrite Hfirst. cbn [fst snd]. by rewrite drop_app_length'. }
  assert (HdR : drop n1 (snd first) = drop n1 outR).
  { rewrite Hfirst. cbn [fst snd]. by rewrite drop_app_length'. }
  assert (HtL : take n1 (snd (fst first)) = snd (fst out1)).
  { rewrite Hfirst. cbn [fst snd]. by rewrite take_app_length'. }
  assert (HtR : take n1 (snd first) = snd out1).
  { rewrite Hfirst. cbn [fst snd]. by rewrite take_app_length'. }
  destruct (BackingTrack_fillBuffer_output (fst (fst first))
              (drop n1 (snd (fst first))) (drop n1 (snd first)) n2 Hwf1)
    as (Hsecond & _ & _).
  { rewrite HdL, length_drop. lia. }
  { rewrite HdR, length_drop. lia. }
  cbv zeta in Hsecond. fold second in Hsecond.
  assert (Hst1 : fst (fst first) = fst (fst out1)) by by rewrite Hfirst.
  rewrite Hst1, HdL, HdR in Hsecond.
  destruct (BackingTrack_output_split b n1 n2) as (Hs & HsL & HsR).
  cbv zeta in Hs, HsL, HsR. fold out1 in Hs, HsL, HsR.
  rewrite Hwhole, Hsecond, HtL, HtR. cbn [fst snd].
  rewrite Hs, HsL, HsR, !drop_drop, <- !app_assoc. done.
Qed.

Lemma BackingTrack_fillBuffer_block_size_independent_witness :
  let data := [F32.half; F32.one; F32.two; F32.neg_one] in
  let b :=
    BackingTrack.setLoop
      (BackingTrack.play
         (BackingTrack.setVolume
            (BackingTrack.install BackingTrack.make data data 2 48000
               "loop.wav") F32.one)) false in
  let out := replicate 6 F32.neg_one in
  BackingTrack.wf b
  /\ (3 + 3 <= length out)%nat
  /\ snd (BackingTrack.fillBuffer b out out (3 + 3))
     = take 3 (snd (BackingTrack.fillBuffer b out out 3))
       ++ snd (BackingTrack.fillBuffer
                 (fst (fst (BackingTrack.fillBuffer b out out 3)))
                 (drop 3 (snd (fst (BackingTrack.fillBuffer b out out 3))))
                 (drop 3 (snd (BackingTrack.fillBuffer b out out 3))) 3)
  /\ snd (BackingTrack.fillBuffer b out out (3 + 3))
     = [F32.half; F32.one; F32.two; F32.neg_one; F32.zero; F32.zero].
Proof.
  intros data b out.
  assert (Hwf : BackingTrack.wf b).
  { unfold BackingTrack.wf. simpl. repeat split; try done; lia. }
  assert (Hlen : (3 + 3 <= length out)%nat) by (simpl; lia).
  pose proof (BackingTrack_fillBuffer_block_size_independent b out out 3 3
                Hwf Hlen Hlen) as H.
  cbv zeta in H. destruct H as (_ & _ & HR).
  split; [exact Hwf|]. split; [exact Hlen|]. split; [exact HR|].
  vm_compute. reflexivity.
Defined.

Lemma BackingTrack_fillBuffer_not_playing (b : BackingTrack.t)
    (outL outR : list F32.t) (n : nat) :
  BackingTrack.isPlaying_ b = false ->
  (n <= length outL)%nat -> (n <= length outR)%nat ->
  BackingTrack.fillBuffer b outL outR n
  = (b, replicate n F32.zero ++ drop n outL,
     replicate n F32.zero ++ drop n outR).
Proof.
  intros Hp HL HR. unfold BackingTrack.fillBuffer. rewrite Hp. cbn [negb orb].
  by rewrite !memset_zero_spec by done.
Qed.








(** The transport calls compose as follows.  After [stop], [pause] or
    [unload] every [fillBuffer] writes silence and leaves the player as it
    is; [stop] moves the cursor to the start frame and [pause] keeps it, but
    [play] always restarts from the start frame, so [pause] followed by
    [play] does not resume; [play] without a loaded track does nothing; and
    once a track played without looping has run past its end frame inside a
    block, the player is stopped at the start frame and stays silent. *)
Theorem BackingTrack_transport_composition (b : BackingTrack.t)
    (outL outR out2L out2R : list F32.t) (n m : nat) :
  BackingTrack.wf b ->
  (n <= length outL)%nat -> (n <= length outR)%nat ->
  (m <= length out2L)%nat -> (m <= length out2R)%nat ->
  let silence x :=
    BackingTrack.fillBuffer x outL outR n
    = (x, replicate n F32.zero ++ drop n outL,
       replicate n F32.zero ++ drop n outR) in
  silence (BackingTrack.stop b)
  /\ silence (BackingTrack.pause b)
  /\ silence (BackingTrack.unload b)
  /\ BackingTrack.playbackPosition_ (BackingTrack.stop b)
     = BackingTrack.startFrame_ b
  /\ BackingTrack.playbackPosition_ (BackingTrack.pause b)
     = BackingTrack.playbackPosition_ b
  /\ (BackingTrack.isLoaded b = false -> BackingTrack.play b = b)
  /\ (BackingTrack.isLoaded b = true ->
      BackingTrack.isPlaying (BackingTrack.play b) = true
      /\ BackingTrack.playbackPosition_ (BackingTrack.play b)
         = BackingTrack.startFrame_ b
      /\ BackingTrack.play (BackingTrack.pause b) = BackingTrack.play b)
  /\ (BackingTrack.isPlaying_ b = true -> 0 < BackingTrack.totalFrames_ b ->
      BackingTrack.loopEnabled_ b = false ->
      (BackingTrack.frames_left b < m)%nat ->
      let ended := fst (fst (BackingTrack.fillBuffer b out2L out2R m)) in
      ended = BackingTrack.stop b /\ silence ended).
Proof.
  intros Hwf HL HR H2L H2R silence. unfold silence.
  split; [by apply BackingTrack_fillBuffer_not_playing|].
  split; [by apply BackingTrack_fillBuffer_not_playing|].
  split; [by apply BackingTrack_fillBuffer_not_playing|].
  split; [done|]. split; [done|].
  split.
  { intros H. unfold BackingTrack.play. by rewrite H. }
  split.
  { intros H. unfold BackingTrack.play at 1 2. rewrite H.
    split; [done|]. split; [done|].
    unfold BackingTrack.play, BackingTrack.pause, BackingTrack.isLoaded in *.
    cbn. by rewrite H. }
  intros Hp Ht Hl Hleft.
  set (ended := fst (fst (BackingTrack.fillBuffer b out2L out2R m))).
  destruct (BackingTrack_fillBuffer_output b out2L out2R m Hwf H2L H2R)
    as (Hout & _).
  assert (He : ended = BackingTrack.stop b).
  { unfold ended. rewrite Hout. cbn [fst].
    rewrite BackingTrack_output_straight by (done || lia). cbv zeta.
    by rewrite decide_False by lia. }
  split; [exact He|]. rewrite He.
  by apply BackingTrack_fillBuffer_not_playing.
Qed.

Lemma BackingTrack_transport_composition_witness :
  let data := [F32.half; F32.one; F32.two; F32.neg_one] in
  let b :=
    BackingTrack.setLoop
      (BackingTrack.play
         (BackingTrack.install BackingTrack.make data data 2 48000 "loop.wav"))
      false in
  let out := replicate 6 F32.neg_one in
  BackingTrack.wf b
  /\ (6 <= length out)%nat
  /\ fst (fst (BackingTrack.fillBuffer b out out 6)) = BackingTrack.stop b
  /\ snd (BackingTrack.fillBuffer (BackingTrack.pause b) out out 6)
     = replicate 6 F32.zero.
Proof.
  intros data b out.
  assert (Hwf : BackingTrack.wf b).
  { unfold BackingTrack.wf. simpl. repeat split; try done; lia. }
  assert (Hlen : (6 <= length out)%nat) by (simpl; lia).
  pose proof (BackingTrack_transport_composition b out out out out 6 6
                Hwf Hlen Hlen Hlen Hlen) as H.
  cbv zeta in H.
  destruct H as (_ & Hpause & _ & _ & _ & _ & _ & Hend).
  split; [exact Hwf|]. split; [exact Hlen|]. split.
  - exact (proj1 (Hend eq_refl ltac:(simpl; lia) eq_refl
                    ltac:(vm_compute; lia))).
  - rewrite Hpause. reflexivity.
Defined.

(** ** Decoding a backing track *)

Lemma deinterleave_loop (f g : nat -> F32.t) (count i : nat)
    (tempL tempR : list F32.t) :
  (i + count <= length tempL)%nat -> (i + count <= length tempR)%nat ->
  for_loop i count
    (fun k temp => (<[k := f k]> (fst temp), <[k := g k]> (snd temp)))
    (tempL, tempR)
  = (take i tempL ++ map f (seq i count) ++ drop (i + count) tempL,
     take i tempR ++ map g (seq i count) ++ drop (i + count) tempR).
Proof.
  revert i tempL tempR.
  induction count as [|c IH]; intros i tempL tempR HL HR.
  - cbn. by rewrite Nat.add_0_r, !take_drop.
  - cbn [for_loop fst snd]. rewrite IH by (rewrite length_insert; lia).
    cbn [seq map]. by rewrite !insert_take_drop_step by lia.
Qed.

Lemma interleave_lookup (left right : list F32.t) (i : nat) :
  length left = length right -> (i < length left)%nat ->
  interleave left right !!! (i * 2)%nat = left !!! i
  /\ interleave left right !!! (i * 2 + 1)%nat = right !!! i.
Proof.
  revert right i. induction left as [|l ls IH]; intros [|r rs] i Hlen Hi;
    simpl in *; try lia.
  destruct i as [|i]; [done|].
  destruct (IH rs i ltac:(lia) ltac:(lia)) as [H1 H2].
  split; [exact H1|exact H2].
Qed.

(** De-interleaving in [loadWavFile] inverts the interleaving of
    [pushAudioFrame]: a stereo stream built from two channels of [frames]
    samples comes back as those two channels, left as left and right as
    right; a mono stream is copied to both channels; and both channels
    always have [frames] samples. *)
Theorem deinterleave_inverts_interleave (left right data : list F32.t)
    (channels : Z) (frames : nat) :
  (length left = frames -> length right = frames -> channels <> 1 ->
   deinterleave channels frames (interleave left right) = (left, right))
  /\ ((frames <= length data)%nat ->
      deinterleave 1 frames data = (take frames data, take frames data))
  /\ length (fst (deinterleave channels frames data)) = frames
  /\ length (snd (deinterleave channels frames data)) = frames.
Proof.
  assert (Hloop : forall f g,
            for_loop 0 frames
              (fun k temp => (<[k := f k]> (fst temp), <[k := g k]> (snd temp)))
              (replicate frames F32.zero, replicate frames F32.zero)
            = (map f (seq 0 frames), map g (seq 0 frames))).
  { intros f g. rewrite deinterleave_loop by (rewrite length_replicate; lia).
    rewrite !take_0, !drop_ge, !app_nil_r by (rewrite length_replicate; lia).
    done. }
  split; [|split].
  - intros HL HR Hch. unfold deinterleave.
    rewrite (proj2 (Z.eqb_neq channels 1)) by done.
    rewrite (Hloop (fun i => interleave left right !!! (i * 2)%nat)
               (fun i => interleave left right !!! (i * 2 + 1)%nat)).
    f_equal.
    + etransitivity; [|apply (map_lookup_total_seq left)]. rewrite HL.
      apply map_ext_in. intros i Hi. apply in_seq in Hi.
      apply interleave_lookup; lia.
    + etransitivity; [|apply (map_lookup_total_seq right)]. rewrite HR.
      apply map_ext_in. intros i Hi. apply in_seq in Hi.
      apply interleave_lookup; lia.
  - intros Hlen. unfold deinterleave. cbn [Z.eqb Pos.eqb].
    rewrite (Hloop (fun i => data !!! i) (fun i => data !!! i)).
    by rewrite lookup_total_seq_take.
  - unfold deinterleave. destruct (channels =? 1).
    + rewrite (Hloop (fun i => data !!! i) (fun i => data !!! i)).
      cbn [fst snd]. by rewrite !length_map, !length_seq.
    + rewrite (Hloop (fun i => data !!! (i * 2)%nat)
                 (fun i => data !!! (i * 2 + 1)%nat)).
      cbn [fst snd]. by rewrite !length_map, !length_seq.
Qed.

(** ** Engine: what the audio callbacks leave alone *)

Section EngineControlProperties.
Context {NA : NeuralAudio} {DSP : DspBlocks}.

Implicit Types e : Engine.t.

Lemma Engine_kept_stage_gate e f c buf n :
  Engine_kept (fst (Engine.stage_gate e f c buf n)) = Engine_kept e.
Proof.
  unfold Engine.stage_gate. destruct (Engine.flags e f); [|done].
  by destruct (NoiseGate_process _ _ _).
Qed.

Lemma Engine_kept_stage_model e cell f buf n :
  Engine_kept (fst (Engine.stage_model e cell f buf n)) = Engine_kept e.
Proof.
  unfold Engine.stage_model.
  destruct (_ && _); [|done]. by destruct (ModelLoader.process _ _ _ _ _).
Qed.

Lemma Engine_kept_stage_eq e c buf n :
  Engine_kept (fst (Engine.stage_eq e c buf n)) = Engine_kept e.
Proof. unfold Engine.stage_eq. by destruct (ThreeBandEQ_process _ _ _). Qed.

Lemma Engine_kept_stage_dc e c buf n :
  Engine_kept (fst (Engine.stage_dc e c buf n)) = Engine_kept e.
Proof.
  unfold Engine.stage_dc. destruct (Engine.flags e _); [|done].
  by destruct (DCBlocker.process _ _ _).
Qed.

Lemma Engine_kept_process e input output n :
  Engine.exceeds_buffer e n = false ->
  Engine_kept (fst (Engine.process e input output n)) = Engine_kept e.
Proof.
  intros Hex. unfold Engine.process. rewrite Hex.
  destruct (Engine.flags e Engine.m_bypass); [done|].
  assert (H0 : Engine_kept (Engine.smoothGains e) = Engine_kept e) by done.
  set (e1 := Engine.smoothGains e) in *.
  set (b1 := Engine.apply_gain _ _ _).
  pose proof (Engine_kept_stage_gate e1 Engine.m_noiseGateEnabled
                Engine.Legacy b1 n) as H1.
  destruct (Engine.stage_gate e1 _ _ b1 n) as [e2 b2]. cbn [fst] in H1.
  pose proof (Engine_kept_stage_model e2 Engine.m_activeSlot
                Engine.m_bypassModel b2 n) as H2.
  destruct (Engine.stage_model e2 _ _ b2 n) as [e3 b3]. cbn [fst] in H2.
  pose proof (Engine_kept_stage_eq e3 Engine.Legacy b3 n) as H3.
  destruct (Engine.stage_eq e3 _ b3 n) as [e4 b4]. cbn [fst] in H3.
  pose proof (Engine_kept_stage_dc e4 Engine.Legacy b4 n) as H4.
  destruct (Engine.stage_dc e4 _ b4 n) as [e5 b5]. cbn [fst] in H4.
  cbn [fst].
  transitivity (Engine_kept e5); [|congruence].
  by destruct (AudioRecorder.isRecording _).
Qed.

Lemma Engine_kept_processStereo e inputL inputR outputL outputR n :
  Engine.exceeds_buffer e n = false ->
  Engine_kept
    (fst (fst (Engine.processStereo e inputL inputR outputL outputR n)))
  = Engine_kept e.
Proof.
  intros Hex. unfold Engine.processStereo. rewrite Hex.
  destruct (Engine.flags e Engine.m_bypass); [done|].
  assert (H0 : Engine_kept (Engine.smoothGains e) = Engine_kept e) by done.
  set (e1 := Engine.smoothGains e) in *.
  destruct (match Engine.m_stereoMode e, inputR with
            | Engine.RightMono2Stereo, Some inR => (inR, inR)
            | _, _ => _ end) as [selL selR].
  set (b1 := Engine.apply_gain _ _ _).
  pose proof (Engine_kept_stage_gate e1 Engine.m_noiseGateEnabledL
                Engine.ChL b1 n) as H1.
  destruct (Engine.stage_gate e1 _ _ b1 n) as [e2 b2]. cbn [fst] in H1.
  pose proof (Engine_kept_stage_model e2 Engine.m_activeSlotL
                Engine.m_bypassModelL b2 n) as H2.
  destruct (Engine.stage_model e2 _ _ b2 n) as [e3 b3]. cbn [fst] in H2.
  pose proof (Engine_kept_stage_eq e3 Engine.ChL b3 n) as H3.
  destruct (Engine.stage_eq e3 _ b3 n) as [e4 b4]. cbn [fst] in H3.
  pose proof (Engine_kept_stage_dc e4 Engine.ChL b4 n) as H4.
  destruct (Engine.stage_dc e4 _ b4 n) as [e5 b5]. cbn [fst] in H4.
  set (b6 := Engine.apply_gain _ b5 n).
  assert (HR : forall er br,
             (er, br) =
             (match Engine.m_stereoMode e with
              | Engine.Stereo2Stereo =>
                  let bufR := memcpy (Engine.m_processBuffers e5 Engine.ChR)
                                selR n in
                  let bufR := Engine.apply_gain
                                (Engine.smoothed e5 Engine.m_currentInputGainR)
                                bufR n in
                  let '(e, bufR) :=
                    Engine.stage_gate e5 Engine.m_noiseGateEnabledR Engine.ChR
                      bufR n in
                  let '(e, bufR) := Engine.stage_eq e Engine.ChR bufR n in
                  let '(e, bufR) := Engine.stage_dc e Engine.ChR bufR n in
                  (e, Engine.apply_gain
                        (Engine.smoothed e Engine.m_currentOutputGainR) bufR n)
              | _ => (e5, memcpy (Engine.m_processBuffers e5 Engine.ChR) b6 n)
              end) ->
             Engine_kept er = Engine_kept e5).
  { intros er br. destruct (Engine.m_stereoMode e);
      try (intros [= -> _]; done).
    cbv zeta.
    set (c1 := Engine.apply_gain _ _ _).
    pose proof (Engine_kept_stage_gate e5 Engine.m_noiseGateEnabledR
                  Engine.ChR c1 n) as G1.
    destruct (Engine.stage_gate e5 _ _ c1 n) as [f2 c2]. cbn [fst] in G1.
    pose proof (Engine_kept_stage_eq f2 Engine.ChR c2 n) as G2.
    destruct (Engine.stage_eq f2 _ c2 n) as [f3 c3]. cbn [fst] in G2.
    pose proof (Engine_kept_stage_dc f3 Engine.ChR c3 n) as G3.
    destruct (Engine.stage_dc f3 _ c3 n) as [f4 c4]. cbn [fst] in G3.
    intros [= -> _]. congruence. }
  match goal with
  | |- context [let '(e, bufR) := ?X in _] =>
      destruct X as [er br] eqn:HX
  end.
  specialize (HR er br eq_refl).
  assert (Hk : Engine_kept er = Engine_kept e) by congruence.
  clear HX HR.
  rewrite <- Hk.
  destruct (Reverb_getEnabled (Engine.m_reverb er)).
  - destruct (Reverb_process _ _ _ _) as [[rv cL] cR]. cbn.
    destruct (Engine.m_backingTrack er) as [track|]; cbn.
    + destruct (_ && _ && _).
      * destruct (BackingTrack.fillBuffer _ _ _ _) as [[tr tL] tR]. by cbn.
      * destruct (AudioRecorder.isRecording _); by cbn.
    + destruct (AudioRecorder.isRecording _); by cbn.
  - destruct (Engine.m_backingTrack er) as [track|]; cbn.
    + destruct (_ && _ && _).
      * destruct (BackingTrack.fillBuffer _ _ _ _) as [[tr tL] tR]. by cbn.
      * destruct (AudioRecorder.isRecording _); by cbn.
    + destruct (AudioRecorder.isRecording _); by cbn.
Qed.

Lemma Engine_controls_process e input output n :
  Engine_controls (fst (Engine.process e input output n)) = Engine_controls e.
Proof.
  destruct (Engine.exceeds_buffer e n) eqn:Hex.
  - by rewrite Engine_process_exceeds.
  - exact (f_equal fst (Engine_kept_process e input output n Hex)).
Qed.

Lemma Engine_controls_processStereo e inputL inputR outputL outputR n :
  Engine_controls
    (fst (fst (Engine.processStereo e inputL inputR outputL outputR n)))
  = Engine_controls e.
Proof.
  destruct (Engine.exceeds_buffer e n) eqn:Hex.
  - by rewrite Engine_processStereo_exceeds.
  - exact (f_equal fst
             (Engine_kept_processStereo e inputL inputR outputL outputR n Hex)).
Qed.

(** The audio callbacks [process] and [processStereo] never write a control
    parameter: sample rate, maximum block size, stereo mode, every flag,
    every level (gains and mix levels), the active-slot indices and the
    recorded model paths are the same after a callback as before it,
    whatever the block and its size. *)
Theorem Engine_callbacks_keep_controls e (input output inputL outputL : list F32.t)
    (inputR outputR : option (list F32.t)) (n : nat) :
  Engine_controls (fst (Engine.process e input output n)) = Engine_controls e
  /\ Engine_controls
       (fst (fst (Engine.processStereo e inputL inputR outputL outputR n)))
     = Engine_controls e.
Proof.
  split; [apply Engine_controls_process | apply Engine_controls_processStereo].
Qed.

(** *** The xrun counter *)

Lemma Engine_apply_op_xrun e (o : Engine.op) :
  0 <= Engine.m_bufferSize e < 2 ^ 31 ->
  Engine.m_bufferSize (Engine.apply_op e o) = Engine.m_bufferSize e
  /\ Engine.m_xrunCount (Engine.apply_op e o)
     = if Engine_clears_xruns o then 0
       else if Engine_oversized (Engine.m_bufferSize e) o
            then (Engine.m_xrunCount e + 1) mod 2 ^ 32
            else Engine.m_xrunCount e.
Proof.
  intros Hb.
  destruct o; cbn [Engine.apply_op Engine_clears_xruns Engine_oversized].
  3: { destruct (Engine.m_bufferSize e <? Z.of_nat numSamples) eqn:Hn.
       - rewrite Engine_process_exceeds
           by (apply Engine_exceeds_buffer; [done|lia]). done.
       - assert (Hex : Engine.exceeds_buffer e numSamples = false).
         { apply not_true_is_false. rewrite Engine_exceeds_buffer by done. lia. }
         pose proof (Engine_kept_process e input output numSamples Hex) as Hk.
         unfold Engine_kept, Engine_controls in Hk.
         injection Hk as _ Hbs _ _ _ _ _ Hx. done. }
  3: { destruct (Engine.m_bufferSize e <? Z.of_nat numSamples) eqn:Hn.
       - rewrite Engine_processStereo_exceeds
           by (apply Engine_exceeds_buffer; [done|lia]). done.
       - assert (Hex : Engine.exceeds_buffer e numSamples = false).
         { apply not_true_is_false. rewrite Engine_exceeds_buffer by done. lia. }
         pose proof (Engine_kept_processStereo e inputL inputR outputL outputR
                       numSamples Hex) as Hk.
         unfold Engine_kept, Engine_controls in Hk.
         injection Hk as _ Hbs _ _ _ _ _ Hx. done. }
  all: unfold_setters; repeat case_match; done.
Qed.

Lemma Engine_count_oversized_cons bs (o : Engine.op) (ops : list Engine.op) :
  Engine_count_oversized bs (o :: ops)
  = (if Engine_oversized bs o then 1 else 0) + Engine_count_oversized bs ops.
Proof.
  unfold Engine_count_oversized. rewrite filter_cons.
  destruct (decide (Engine_oversized bs o = true)) as [H | H].
  - rewrite H. simpl. lia.
  - apply not_true_is_false in H. rewrite H. lia.
Qed.

Lemma Engine_run_xrun (ops : list Engine.op) e :
  0 <= Engine.m_bufferSize e < 2 ^ 31 ->
  0 <= Engine.m_xrunCount e < 2 ^ 32 ->
  Forall (fun o => Engine_clears_xruns o = false) ops ->
  Engine.m_bufferSize (Engine.run e ops) = Engine.m_bufferSize e
  /\ Engine.m_xrunCount (Engine.run e ops)
     = (Engine.m_xrunCount e
        + Engine_count_oversized (Engine.m_bufferSize e) ops) mod 2 ^ 32.
Proof.
  intros Hb Hx Hops. revert e Hb Hx.
  induction Hops as [|o ops Ho Hops IH]; intros e Hb Hx.
  - unfold Engine_count_oversized. simpl.
    rewrite Z.add_0_r, Z.mod_small by lia. done.
  - destruct (Engine_apply_op_xrun e o Hb) as [Hbs Hxr].
    rewrite Ho in Hxr.
    change (Engine.run e (o :: ops)) with (Engine.run (Engine.apply_op e o) ops).
    destruct (IH (Engine.apply_op e o)) as [IHb IHx].
    { by rewrite Hbs. }
    { rewrite Hxr. destruct (Engine_oversized _ o); [|done].
      apply Z.mod_pos_bound. lia. }
    rewrite IHb, IHx, Hbs, Hxr, Engine_count_oversized_cons.
    split; [done|].
    destruct (Engine_oversized _ o).
    + rewrite Zplus_mod_idemp_l. f_equal; lia.
    + f_equal; lia.
Qed.

Lemma Engine_run_bufferSize (ops : list Engine.op) e :
  0 <= Engine.m_bufferSize e < 2 ^ 31 ->
  Engine.m_bufferSize (Engine.run e ops) = Engine.m_bufferSize e.
Proof.
  revert e. induction ops as [|o ops IH]; intros e Hb; [done|].
  change (Engine.run e (o :: ops)) with (Engine.run (Engine.apply_op e o) ops).
  destruct (Engine_apply_op_xrun e o Hb) as [Hbs _].
  rewrite IH by (by rewrite Hbs). exact Hbs.
Qed.

(** The xrun counter counts the oversized callbacks since it was last
    cleared.  Over any sequence of engine operations the maximum block size
    stays what it was; without an [init] or [resetXrunCount] among them the
    counter ends at its old value plus the number of callbacks whose block
    exceeded the maximum block size, modulo 2^32; and after an [init] or
    [resetXrunCount] it holds the number of oversized callbacks that
    followed, whatever happened before. *)
Theorem Engine_xrun_counts_oversized_callbacks e (o : Engine.op)
    (before ops : list Engine.op) :
  0 <= Engine.m_bufferSize e < 2 ^ 31 ->
  0 <= Engine.m_xrunCount e < 2 ^ 32 ->
  Forall (fun o => Engine_clears_xruns o = false) ops ->
  let bs := Engine.m_bufferSize e in
  Engine.m_bufferSize (Engine.run e (before ++ o :: ops)) = bs
  /\ Engine.getXrunCount (Engine.run e ops)
     = (Engine.getXrunCount e + Engine_count_oversized bs ops) mod 2 ^ 32
  /\ (Engine_clears_xruns o = true ->
      Engine.getXrunCount (Engine.run e (before ++ o :: ops))
      = Engine_count_oversized bs ops mod 2 ^ 32).
Proof.
  intros Hb Hx Hops bs.
  destruct (Engine_run_xrun ops e Hb Hx Hops) as [H1 H2].
  split; [by apply Engine_run_bufferSize|]. split; [exact H2|].
  intros Ho. unfold Engine.getXrunCount, Engine.run.
  rewrite fold_left_app. cbn [fold_left].
  fold (Engine.run e before).
  pose proof (Engine_run_bufferSize before e Hb) as B1.
  set (e1 := Engine.run e before) in *.
  assert (Hb1 : 0 <= Engine.m_bufferSize e1 < 2 ^ 31) by (rewrite B1; done).
  destruct (Engine_apply_op_xrun e1 o Hb1) as [C1 C2].
  rewrite Ho in C2.
  fold (Engine.run (Engine.apply_op e1 o) ops).
  destruct (Engine_run_xrun ops (Engine.apply_op e1 o)) as [D1 D2].
  - by rewrite C1.
  - rewrite C2. lia.
  - done.
  - rewrite D2, C2, C1, B1. done.
Qed.

(** *** The active-slot indices *)

Lemma Engine_slots_apply_op e (o : Engine.op) :
  (forall c, 0 <= Engine.activeSlots e c < 2) ->
  forall c, 0 <= Engine.activeSlots (Engine.apply_op e o) c < 2.
Proof.
  intros H c.
  destruct o; cbn [Engine.apply_op].
  3: { pose proof (Engine_controls_process e input output numSamples) as Hk.
       unfold Engine_controls in Hk. injection Hk as _ _ _ _ _ Ha _.
       rewrite Ha. apply H. }
  3: { pose proof (Engine_controls_processStereo e inputL inputR outputL outputR
                     numSamples) as Hk.
       unfold Engine_controls in Hk. injection Hk as _ _ _ _ _ Ha _.
       rewrite Ha. apply H. }
  all: unfold_setters; repeat case_match; simpl; try apply H.
  all: unfold insert, fn_insert; repeat case_decide; try apply H; lia.
Qed.

Lemma Engine_slots_run (ops : list Engine.op) e :
  (forall c, 0 <= Engine.activeSlots e c < 2) ->
  forall c, 0 <= Engine.activeSlots (Engine.run e ops) c < 2.
Proof.
  revert e. induction ops as [|o ops IH]; intros e H; [done|].
  apply (IH (Engine.apply_op e o)). by apply Engine_slots_apply_op.
Qed.

(** The active-slot indices always name one of the two model slots.  They
    start at 0; [setActiveModel] with a slot of 0 or 1 stores it in all
    three cells, [setActiveModelL] and [setActiveModelR] in their own cell;
    with any other slot the three setters leave the engine as it was; so
    after any sequence of engine operations each getter returns 0 or 1. *)
Theorem Engine_active_slot_always_valid (sampleRate bufferSize : Z)
    (ring : Z -> F32.t) (ops : list Engine.op) e (slot : Z) :
  let e' := Engine.run (Engine.make sampleRate bufferSize ring) ops in
  (0 <= Engine.getActiveModel e' < 2)
  /\ (0 <= Engine.getActiveModelL e' < 2)
  /\ (0 <= Engine.getActiveModelR e' < 2)
  /\ (0 <= slot < 2 ->
      Engine.getActiveModel (Engine.setActiveModel e slot) = slot
      /\ Engine.getActiveModelL (Engine.setActiveModel e slot) = slot
      /\ Engine.getActiveModelR (Engine.setActiveModel e slot) = slot
      /\ Engine.getActiveModelL (Engine.setActiveModelL e slot) = slot
      /\ Engine.getActiveModelR (Engine.setActiveModelR e slot) = slot)
  /\ (~ 0 <= slot < 2 ->
      Engine.setActiveModel e slot = e
      /\ Engine.setActiveModelL e slot = e
      /\ Engine.setActiveModelR e slot = e).
Proof.
  intros e'.
  assert (H0 : forall c,
             0 <= Engine.activeSlots (Engine.make sampleRate bufferSize ring) c
             < 2) by (intros c; simpl; lia).
  pose proof (Engine_slots_run ops _ H0) as H. fold e' in H.
  split; [apply H|]. split; [apply H|]. split; [apply H|]. split.
  - intros Hs.
    unfold Engine.setActiveModel, Engine.setActiveModelL, Engine.setActiveModelR.
    replace ((slot >=? 0) && (slot <? 2)) with true by lia. done.
  - intros Hs.
    unfold Engine.setActiveModel, Engine.setActiveModelL, Engine.setActiveModelR.
    replace ((slot >=? 0) && (slot <? 2)) with false by lia. done.
Qed.

(** *** Routing of the two inputs *)

(** In the two mono-in modes [processStereo] uses one input only, unless it
    is bypassed or the block is oversized (both copy each input to its own
    output).  With [LeftMono2Stereo] nothing of its result, neither the
    outputs nor the engine afterwards, depends on the right input, given
    or not; with [RightMono2Stereo] and a right input given, nothing
    depends on the left input. *)
Theorem Engine_mono_modes_use_one_input e (inputL inputL' inR outputL : list F32.t)
    (inputR inputR' outputR : option (list F32.t)) (n : nat) :
  Engine.exceeds_buffer e n = false ->
  Engine.getBypass e = false ->
  (Engine.getStereoMode e = Engine.LeftMono2Stereo ->
   Engine.processStereo e inputL inputR outputL outputR n
   = Engine.processStereo e inputL inputR' outputL outputR n)
  /\ (Engine.getStereoMode e = Engine.RightMono2Stereo ->
      Engine.processStereo e inputL (Some inR) outputL outputR n
      = Engine.processStereo e inputL' (Some inR) outputL outputR n).
Proof.
  unfold Engine.getBypass, Engine.getStereoMode. intros Hex Hby.
  split; intros Hmode; unfold Engine.processStereo; rewrite Hex, Hby, Hmode.
  - by destruct inputR, inputR'.
  - done.
Qed.

(** *** Model slots *)

(** Slot numbers other than 0 and 1 are ignored: [loadModelAsync] and
    [unloadModel] leave the engine as it was, [isModelReady] is false and
    [getModelPath] is the empty string.  For slot 0 or 1, [loadModelAsync]
    records the path at once, before any loading is done, and leaves the
    readiness and the recorded path of the other slot as they were. *)
Theorem Engine_model_slot_bounds e (slot other : Z) (path : string) (rt : nat) :
  (~ 0 <= slot < 2 ->
   Engine.loadModelAsync e slot path = e
   /\ Engine.unloadModel e slot rt = e
   /\ Engine.isModelReady e slot = false
   /\ Engine.getModelPath e slot = EmptyString)
  /\ (0 <= slot < 2 ->
      let e' := Engine.loadModelAsync e slot path in
      Engine.getModelPath e' slot = path
      /\ Engine.isModelReady e' slot = Engine.isModelReady e slot
      /\ (other <> slot ->
          Engine.getModelPath e' other = Engine.getModelPath e other
          /\ Engine.isModelReady e' other = Engine.isModelReady e other)).
Proof.
  unfold Engine.loadModelAsync, Engine.unloadModel, Engine.isModelReady,
    Engine.getModelPath.
  split; intros Hs.
  - replace ((slot <? 0) || (slot >=? 2)) with true by lia. done.
  - replace ((slot <? 0) || (slot >=? 2)) with false by lia.
    cbn [Engine.m_modelPaths Engine.m_modelSlots Engine.set_models].
    rewrite !fn_lookup_insert. split; [done|]. split; [done|].
    intros Ho. rewrite !fn_lookup_insert_ne by done. done.
Qed.

End EngineControlProperties.

Lemma Engine_xrun_counts_oversized_callbacks_witness :
  let block := replicate 129 F32.zero in
  let ops :=
    [Engine.ProcessMono block block 129; Engine.SetBypass true;
     Engine.ProcessStereo block None block None 129;
     Engine.ProcessMono block block 128] in
  (0 <= Engine.m_bufferSize engine_48k < 2 ^ 31)
  /\ Forall (fun o => Engine_clears_xruns o = false) ops
  /\ Engine.getXrunCount (Engine.run engine_48k ops) = 2
  /\ Engine.getXrunCount
       (Engine.run engine_48k
          ([Engine.ProcessMono block block 129]
           ++ Engine.ResetXrunCount :: ops)) = 2.
Proof.
  intros block ops.
  assert (Hb : 0 <= Engine.m_bufferSize engine_48k < 2 ^ 31) by (simpl; lia).
  assert (Hx : 0 <= Engine.m_xrunCount engine_48k < 2 ^ 32) by (simpl; lia).
  assert (Hops : Forall (fun o => Engine_clears_xruns o = false) ops)
    by (repeat constructor).
  pose proof (Engine_xrun_counts_oversized_callbacks engine_48k
                Engine.ResetXrunCount [Engine.ProcessMono block block 129]
                ops Hb Hx Hops) as H.
  cbv zeta in H. destruct H as (_ & H2 & H3).
  split; [exact Hb|]. split; [exact Hops|]. split.
  - etransitivity; [exact H2|]. vm_compute. reflexivity.
  - etransitivity; [exact (H3 eq_refl)|]. vm_compute. reflexivity.
Defined.

Lemma Engine_mono_modes_use_one_input_witness :
  let inputL := [F32.one; F32.half] in
  let out := [F32.zero; F32.zero] in
  Engine.exceeds_buffer engine_48k 2 = false
  /\ Engine.getBypass engine_48k = false
  /\ Engine.getStereoMode engine_48k = Engine.LeftMono2Stereo
  /\ Engine.processStereo engine_48k inputL (Some [F32.neg_one; F32.neg_one])
       out (Some out) 2
     = Engine.processStereo engine_48k inputL None out (Some out) 2.
Proof.
  intros inputL out.
  assert (Hex : Engine.exceeds_buffer engine_48k 2 = false) by reflexivity.
  assert (Hby : Engine.getBypass engine_48k = false) by reflexivity.
  assert (Hmode : Engine.getStereoMode engine_48k = Engine.LeftMono2Stereo)
    by reflexivity.
  split; [exact Hex|]. split; [exact Hby|]. split; [exact Hmode|].
  exact (proj1 (Engine_mono_modes_use_one_input engine_48k inputL inputL
                  [] out (Some [F32.neg_one; F32.neg_one]) None (Some out) 2
                  Hex Hby) Hmode).
Defined.

(** ** ModelLoader: the fade *)

Section ModelLoaderFadeProperties.
Context {NA : NeuralAudio}.

Implicit Types l : ModelLoader.t.

Lemma ModelLoader_fade_loop_done (c i : nat) l (buffer : list F32.t) :
  ModelLoader.m_fadeSamplesRemaining l <= 0 ->
  for_loop i c ModelLoader.fade_sample (l, buffer) = (l, buffer).
Proof.
  intros Hr. revert i. induction c as [|c IH]; intros i; [done|].
  cbn [for_loop]. unfold ModelLoader.fade_sample at 2.
  replace (0 <? ModelLoader.m_fadeSamplesRemaining l) with false by lia.
  apply IH.
Qed.

Lemma ModelLoader_fade_sample_middle l (x : F32.t) (pre rest : list F32.t) :
  ModelLoader.m_fadeState l <> ModelLoader.Idle ->
  0 < ModelLoader.m_fadeSamplesRemaining l ->
  ModelLoader.fade_sample (length pre) (l, pre ++ x :: rest)
  = (ModelLoader_fade_after l 1,
     (pre ++ [F32.mul x (ModelLoader_ramp (ModelLoader.m_fadeState l)
                           (ModelLoader.m_fadeSamplesRemaining l))]) ++ rest).
Proof.
  intros Hs Hr.
  assert (Hins : forall g,
             <[length pre := g]> (pre ++ x :: rest) = (pre ++ [g]) ++ rest).
  { intros g. replace (length pre) with (length pre + 0)%nat by lia.
    rewrite insert_app_r. by rewrite <- app_assoc. }
  unfold ModelLoader.fade_sample, ModelLoader_fade_after, ModelLoader_ramp.
  replace (0 <? ModelLoader.m_fadeSamplesRemaining l) with true by lia.
  replace (ModelLoader.m_fadeSamplesRemaining l <=? 0) with false by lia.
  rewrite list_lookup_total_middle by done.
  cbv zeta. cbn [orb Nat.eqb]. change (Z.of_nat 1) with 1. rewrite !Hins.
  destruct (ModelLoader.m_fadeSamplesRemaining l - 1 =? 0) eqn:Hz.
  - replace (1 <? ModelLoader.m_fadeSamplesRemaining l) with false by lia.
    apply Z.eqb_eq in Hz. rewrite Hz.
    destruct (ModelLoader.m_fadeState l); done.
  - replace (1 <? ModelLoader.m_fadeSamplesRemaining l) with true by lia.
    replace (ModelLoader.m_fadeSamplesRemaining l - 1 + 1)
      with (ModelLoader.m_fadeSamplesRemaining l) by lia.
    destruct (ModelLoader.m_fadeState l); done.
Qed.

Lemma ModelLoader_fade_after_one l :
  ModelLoader.m_fadeState l <> ModelLoader.Idle ->
  0 < ModelLoader.m_fadeSamplesRemaining l ->
  ModelLoader.m_fadeSamplesRemaining (ModelLoader_fade_after l 1)
  = ModelLoader.m_fadeSamplesRemaining l - 1
  /\ ModelLoader.m_fadeState (ModelLoader_fade_after l 1)
     = (if ModelLoader.m_fadeSamplesRemaining l =? 1 then ModelLoader.Idle
        else ModelLoader.m_fadeState l).
Proof.
  intros Hs Hr. unfold ModelLoader_fade_after.
  replace (ModelLoader.m_fadeSamplesRemaining l <=? 0) with false by lia.
  cbn [orb Nat.eqb]. change (Z.of_nat 1) with 1.
  destruct (ModelLoader.m_fadeSamplesRemaining l =? 1) eqn:H1.
  - replace (1 <? ModelLoader.m_fadeSamplesRemaining l) with false by lia.
    apply Z.eqb_eq in H1.
    destruct (ModelLoader.m_fadeState l); [done| |]; cbn; (split; [lia|done]).
  - replace (1 <? ModelLoader.m_fadeSamplesRemaining l) with true by lia.
    destruct (ModelLoader.m_fadeState l); cbn; done.
Qed.

Lemma ModelLoader_fade_after_S l (c : nat) :
  ModelLoader.m_fadeState l <> ModelLoader.Idle ->
  0 < ModelLoader.m_fadeSamplesRemaining l ->
  ModelLoader_fade_after (ModelLoader_fade_after l 1) c
  = ModelLoader_fade_after l (S c).
Proof.
  intros Hs Hr.
  destruct (ModelLoader_fade_after_one l Hs Hr) as [Hr1 Hs1].
  unfold ModelLoader_fade_after at 1. rewrite Hr1, Hs1.
  unfold ModelLoader_fade_after.
  replace (ModelLoader.m_fadeSamplesRemaining l <=? 0) with false by lia.
  cbn [orb Nat.eqb]. change (Z.of_nat 1) with 1.
  destruct (ModelLoader.m_fadeSamplesRemaining l =? 1) eqn:H1;
    [apply Z.eqb_eq in H1 | apply Z.eqb_neq in H1].
  - replace (1 <? ModelLoader.m_fadeSamplesRemaining l) with false by lia.
    rewrite (proj2 (Z.ltb_ge (Z.of_nat (S c))
                       (ModelLoader.m_fadeSamplesRemaining l))) by lia.
    destruct (ModelLoader.m_fadeState l); done.
  - replace (1 <? ModelLoader.m_fadeSamplesRemaining l) with true by lia.
    replace (ModelLoader.m_fadeSamplesRemaining l - 1 <=? 0) with false by lia.
    destruct c as [|c].
    + cbn [orb Nat.eqb]. change (Z.of_nat 1) with 1.
      replace (1 <? ModelLoader.m_fadeSamplesRemaining l) with true by lia.
      destruct (ModelLoader.m_fadeState l); done.
    + cbn [orb Nat.eqb].
      destruct (Z.of_nat (S c) <? ModelLoader.m_fadeSamplesRemaining l - 1)
        eqn:Hc; [apply Z.ltb_lt in Hc | apply Z.ltb_ge in Hc].
      * rewrite (proj2 (Z.ltb_lt (Z.of_nat (S (S c)))
                         (ModelLoader.m_fadeSamplesRemaining l))) by lia.
        replace (ModelLoader.m_fadeSamplesRemaining l - 1 - Z.of_nat (S c))
          with (ModelLoader.m_fadeSamplesRemaining l - Z.of_nat (S (S c)))
          by lia.
        destruct (ModelLoader.m_fadeState l); done.
      * rewrite (proj2 (Z.ltb_ge (Z.of_nat (S (S c)))
                         (ModelLoader.m_fadeSamplesRemaining l))) by lia.
        destruct (ModelLoader.m_fadeState l); done.
Qed.

Lemma ModelLoader_faded_cons (s : ModelLoader.FadeState) (r : Z) (x : F32.t)
    (xs : list F32.t) (c : nat) :
  0 < r ->
  ModelLoader_faded s r (x :: xs) (S c)
  = F32.mul x (ModelLoader_ramp s r) :: ModelLoader_faded s (r - 1) xs c.
Proof.
  intros Hr. unfold ModelLoader_faded. cbv zeta.
  replace (Nat.min (S c) (Z.to_nat r))
    with (S (Nat.min c (Z.to_nat (r - 1)))) by lia.
  cbn [seq map drop app]. rewrite <- seq_shift, map_map.
  change ((x :: xs) !!! 0%nat) with x.
  rewrite Z.sub_0_r. f_equal. f_equal.
  apply map_ext. intros k. change ((x :: xs) !!! S k) with (xs !!! k).
  do 2 f_equal. lia.
Qed.

Lemma ModelLoader_fade_loop (c : nat) l (pre xs : list F32.t) :
  ModelLoader.m_fadeState l <> ModelLoader.Idle ->
  (c <= length xs)%nat ->
  for_loop (length pre) c ModelLoader.fade_sample (l, pre ++ xs)
  = (ModelLoader_fade_after l c,
     pre ++ ModelLoader_faded (ModelLoader.m_fadeState l)
              (ModelLoader.m_fadeSamplesRemaining l) xs c).
Proof.
  revert l pre xs. induction c as [|c IH]; intros l pre xs Hs Hc.
  - cbn [for_loop]. unfold ModelLoader_fade_after, ModelLoader_faded.
    cbn [Nat.min seq map drop app Nat.eqb]. rewrite orb_true_r.
    by destruct (ModelLoader.m_fadeState l).
  - destruct xs as [|x xs]; [simpl in Hc; lia|]. simpl in Hc.
    destruct (Z_le_gt_dec (ModelLoader.m_fadeSamplesRemaining l) 0) as [Hr|Hr].
    + rewrite ModelLoader_fade_loop_done by done.
      unfold ModelLoader_fade_after, ModelLoader_faded.
      replace (ModelLoader.m_fadeSamplesRemaining l <=? 0) with true by lia.
      replace (Z.to_nat (ModelLoader.m_fadeSamplesRemaining l)) with 0%nat
        by lia.
      rewrite Nat.min_0_r. cbn [orb seq map drop app].
      by destruct (ModelLoader.m_fadeState l).
    + cbn [for_loop]. rewrite ModelLoader_fade_sample_middle by (done || lia).
      destruct (ModelLoader_fade_after_one l Hs ltac:(lia)) as [Hr1 Hs1].
      rewrite ModelLoader_faded_cons by lia.
      rewrite <- (ModelLoader_fade_after_S l c) by (done || lia).
      set (g := F32.mul x _).
      set (l1 := ModelLoader_fade_after l 1) in *.
      replace (S (length pre)) with (length (pre ++ [g]))
        by (rewrite length_app; simpl; lia).
      destruct (ModelLoader.m_fadeSamplesRemaining l =? 1) eqn:H1;
        [apply Z.eqb_eq in H1 | apply Z.eqb_neq in H1].
      * rewrite ModelLoader_fade_loop_done by lia.
        unfold ModelLoader_fade_after at 1. rewrite Hs1.
        unfold ModelLoader_faded.
        replace (Z.to_nat (ModelLoader.m_fadeSamplesRemaining l - 1))
          with 0%nat by lia.
        rewrite Nat.min_0_r. cbn [seq map drop app].
        by rewrite <- app_assoc.
      * rewrite IH by (rewrite ?Hs1; done || lia).
        rewrite Hs1, Hr1. by rewrite <- app_assoc.
Qed.

Lemma for_loop_add {St : Type} (i a b : nat) (body : nat -> St -> St) (s : St) :
  for_loop i (a + b) body s = for_loop (i + a) b body (for_loop i a body s).
Proof.
  revert i s. induction a as [|a IH]; intros i s.
  - cbn [for_loop Nat.add]. by rewrite Nat.add_0_r.
  - cbn [for_loop Nat.add]. rewrite IH. f_equal. lia.
Qed.

Lemma ModelLoader_faded_length (s : ModelLoader.FadeState) (r : Z)
    (buffer : list F32.t) (n : nat) :
  (n <= length buffer)%nat ->
  length (ModelLoader_faded s r buffer n) = length buffer.
Proof.
  intros Hn. unfold ModelLoader_faded. cbv zeta.
  rewrite length_app, length_map, length_seq, length_drop. lia.
Qed.

Lemma ModelLoader_faded_lookup (s : ModelLoader.FadeState) (r : Z)
    (buffer : list F32.t) (n k : nat) :
  (n <= length buffer)%nat ->
  ModelLoader_faded s r buffer n !!! k
  = if decide ((k < n)%nat /\ Z.of_nat k < r)
    then F32.mul (buffer !!! k) (ModelLoader_ramp s (r - Z.of_nat k))
    else buffer !!! k.
Proof.
  intros Hn. unfold ModelLoader_faded. cbv zeta.
  set (m := Nat.min n (Z.to_nat r)).
  destruct (decide ((k < n)%nat /\ Z.of_nat k < r)) as [Hk | Hk].
  - rewrite lookup_total_app_l by (rewrite length_map, length_seq; lia).
    apply list_lookup_total_correct. rewrite list_lookup_fmap.
    by rewrite lookup_seq_lt by lia.
  - rewrite lookup_total_app_r by (rewrite length_map, length_seq; lia).
    rewrite length_map, length_seq, lookup_total_drop. f_equal. lia.
Qed.

Lemma ModelLoader_faded_app (s : ModelLoader.FadeState) (r : Z)
    (b1 b2 : list F32.t) :
  ModelLoader_faded s r (b1 ++ b2) (length b1)
  = ModelLoader_faded s r b1 (length b1) ++ b2.
Proof.
  unfold ModelLoader_faded. cbv zeta.
  set (m := Nat.min (length b1) (Z.to_nat r)).
  rewrite drop_app_le by lia. rewrite app_assoc. f_equal. f_equal.
  apply map_ext_in. intros k Hk. apply in_seq in Hk.
  by rewrite lookup_total_app_l by lia.
Qed.

Lemma ModelLoader_fade_after_0 l : ModelLoader_fade_after l 0 = l.
Proof.
  unfold ModelLoader_fade_after. cbn [Nat.eqb]. rewrite orb_true_r.
  by destruct (ModelLoader.m_fadeState l).
Qed.

Lemma ModelLoader_fade_after_stopped l (n : nat) :
  ModelLoader.m_fadeState l = ModelLoader.Idle
  \/ ModelLoader.m_fadeSamplesRemaining l <= 0 ->
  ModelLoader_fade_after l n = l.
Proof.
  intros [Hs | Hr]; unfold ModelLoader_fade_after.
  - by rewrite Hs.
  - replace (ModelLoader.m_fadeSamplesRemaining l <=? 0) with true by lia.
    by destruct (ModelLoader.m_fadeState l).
Qed.

Lemma ModelLoader_fade_after_add l (a b : nat) :
  ModelLoader_fade_after (ModelLoader_fade_after l a) b
  = ModelLoader_fade_after l (a + b).
Proof.
  revert l. induction a as [|a IH]; intros l.
  - by rewrite ModelLoader_fade_after_0.
  - assert (Hs : ModelLoader.m_fadeState l = ModelLoader.Idle
                 \/ ModelLoader.m_fadeState l <> ModelLoader.Idle)
      by (destruct (ModelLoader.m_fadeState l); [by left | by right ..]).
    destruct Hs as [Hs | Hs].
    { rewrite (ModelLoader_fade_after_stopped l (S a)) by (by left).
      rewrite (ModelLoader_fade_after_stopped l b) by (by left).
      by rewrite (ModelLoader_fade_after_stopped l (S a + b)) by (by left). }
    destruct (Z_le_gt_dec (ModelLoader.m_fadeSamplesRemaining l) 0) as [Hr|Hr].
    { rewrite (ModelLoader_fade_after_stopped l (S a)) by (by right).
      rewrite (ModelLoader_fade_after_stopped l b) by (by right).
      by rewrite (ModelLoader_fade_after_stopped l (S a + b)) by (by right). }
    cbn [Nat.add].
    rewrite <- (ModelLoader_fade_after_S l a) by (done || lia).
    rewrite <- (ModelLoader_fade_after_S l (a + b)) by (done || lia).
    apply IH.
Qed.

Lemma ModelLoader_fade_after_fields l (n : nat) :
  ModelLoader.m_fadeState l <> ModelLoader.Idle ->
  0 < ModelLoader.m_fadeSamplesRemaining l ->
  let r := ModelLoader.m_fadeSamplesRemaining l in
  let l' := ModelLoader_fade_after l n in
  ModelLoader.m_fadeSamplesRemaining l' = Z.max 0 (r - Z.of_nat n)
  /\ ModelLoader.m_fadeState l'
     = (if r <=? Z.of_nat n then ModelLoader.Idle else ModelLoader.m_fadeState l)
  /\ (r <= Z.of_nat n ->
      ModelLoader.m_fadeGain l'
      = match ModelLoader.m_fadeState l with
        | ModelLoader.FadingIn => F32.one
        | _ => F32.zero
        end)
  /\ ModelLoader.m_ready l' = ModelLoader.m_ready l
  /\ ModelLoader.m_model l' = ModelLoader.m_model l
  /\ ModelLoader.m_modelPath l' = ModelLoader.m_modelPath l
  /\ ModelLoader.m_normalizationGain l' = ModelLoader.m_normalizationGain l
  /\ ModelLoader.m_loadRequested l' = ModelLoader.m_loadRequested l
  /\ ModelLoader.m_pendingModelPath l' = ModelLoader.m_pendingModelPath l
  /\ ModelLoader.m_workerRunning l' = ModelLoader.m_workerRunning l
  /\ ModelLoader.m_maxBufferSize l' = ModelLoader.m_maxBufferSize l.
Proof.
  intros Hs Hr r l'. subst l'. destruct n as [|n].
  - rewrite ModelLoader_fade_after_0. change (Z.of_nat 0) with 0.
    replace (r <=? 0) with false by lia.
    repeat split; try done; lia.
  - unfold ModelLoader_fade_after. fold r.
    replace (r <=? 0) with false by lia. cbn [orb Nat.eqb].
    destruct (Z.of_nat (S n) <? r) eqn:Hn;
      [apply Z.ltb_lt in Hn | apply Z.ltb_ge in Hn].
    + rewrite (proj2 (Z.leb_gt r (Z.of_nat (S n)))) by lia.
      destruct (ModelLoader.m_fadeState l); try done;
        (repeat split; try done; cbn; lia).
    + rewrite (proj2 (Z.leb_le r (Z.of_nat (S n)))) by lia.
      destruct (ModelLoader.m_fadeState l); try done;
        (repeat split; try done; cbn; lia).
Qed.

Lemma ModelLoader_applyFade_closed l (buffer : list F32.t) (n : nat) :
  (n <= length buffer)%nat ->
  ModelLoader.applyFade l buffer n
  = (ModelLoader_fade_after l n,
     match ModelLoader.m_fadeState l with
     | ModelLoader.Idle => buffer
     | s => ModelLoader_faded s (ModelLoader.m_fadeSamplesRemaining l) buffer n
     end).
Proof.
  intros Hn. unfold ModelLoader.applyFade.
  destruct (ModelLoader.m_fadeState l) eqn:Hs.
  - by rewrite ModelLoader_fade_after_stopped by (by left).
  - pose proof (ModelLoader_fade_loop n l [] buffer) as H.
    rewrite Hs in H. apply H; done.
  - pose proof (ModelLoader_fade_loop n l [] buffer) as H.
    rewrite Hs in H. apply H; done.
Qed.

(** The envelope of a fade.  A fade that is under way with [r] samples left
    multiplies sample [k] of a block of [n] samples by the ramp value for
    [r - k] remaining samples ([ (r-k)/256 ] when fading out,
    [1 - (r-k)/256] when fading in) as long as [k < n] and [k < r], and
    leaves every other sample of the buffer as it was.  Afterwards
    [max 0 (r - n)] samples are left; the state is idle exactly when the
    fade ran out within the block, and then the stored gain is 1 after a
    fade-in and 0 after a fade-out.  The readiness flag and the model path
    are not touched. *)
Theorem ModelLoader_fade_envelope l (buffer : list F32.t) (n k : nat) :
  ModelLoader.m_fadeState l <> ModelLoader.Idle ->
  0 < ModelLoader.m_fadeSamplesRemaining l ->
  (n <= length buffer)%nat ->
  let s := ModelLoader.m_fadeState l in
  let r := ModelLoader.m_fadeSamplesRemaining l in
  let l' := fst (ModelLoader.applyFade l buffer n) in
  let out := snd (ModelLoader.applyFade l buffer n) in
  ModelLoader.applyFade l buffer n
  = (ModelLoader_fade_after l n, ModelLoader_faded s r buffer n)
  /\ length out = length buffer
  /\ ((k < n)%nat -> Z.of_nat k < r ->
      out !!! k = F32.mul (buffer !!! k) (ModelLoader_ramp s (r - Z.of_nat k)))
  /\ ((n <= k)%nat \/ r <= Z.of_nat k -> out !!! k = buffer !!! k)
  /\ ModelLoader.m_fadeSamplesRemaining l' = Z.max 0 (r - Z.of_nat n)
  /\ ModelLoader.m_fadeState l'
     = (if r <=? Z.of_nat n then ModelLoader.Idle else s)
  /\ (r <= Z.of_nat n ->
      ModelLoader.m_fadeGain l'
      = match s with ModelLoader.FadingIn => F32.one | _ => F32.zero end)
  /\ ModelLoader.isReady l' = ModelLoader.isReady l
  /\ ModelLoader.getModelPath l' = ModelLoader.getModelPath l.
Proof.
  intros Hs Hr Hn s r l' out. subst l' out.
  assert (Hc : ModelLoader.applyFade l buffer n
               = (ModelLoader_fade_after l n, ModelLoader_faded s r buffer n)).
  { rewrite ModelLoader_applyFade_closed by done. fold s r.
    by destruct s eqn:Es. }
  rewrite Hc. cbn [fst snd].
  destruct (ModelLoader_fade_after_fields l n Hs Hr)
    as (F1 & F2 & F3 & F4 & _ & F6 & _).
  split; [done|]. split; [by apply ModelLoader_faded_length|].
  split; [|split].
  - intros H1 H2. rewrite ModelLoader_faded_lookup by done.
    by rewrite decide_True by done.
  - intros H1. rewrite ModelLoader_faded_lookup by done.
    rewrite decide_False by lia. done.
  - done.
Qed.

Lemma ModelLoader_fade_loop_split l (b1 b2 : list F32.t) (n2 : nat) :
  ModelLoader.m_fadeState l <> ModelLoader.Idle ->
  (n2 <= length b2)%nat ->
  let l1 := ModelLoader_fade_after l (length b1) in
  for_loop 0 (length b1 + n2) ModelLoader.fade_sample (l, b1 ++ b2)
  = (ModelLoader_fade_after l1 n2,
     ModelLoader_faded (ModelLoader.m_fadeState l)
       (ModelLoader.m_fadeSamplesRemaining l) b1 (length b1)
     ++ match ModelLoader.m_fadeState l1 with
        | ModelLoader.Idle => b2
        | s => ModelLoader_faded s (ModelLoader.m_fadeSamplesRemaining l1) b2 n2
        end).
Proof.
  intros Hs Hn l1. rewrite for_loop_add. cbn [Nat.add].
  pose proof (ModelLoader_fade_loop (length b1) l [] (b1 ++ b2)) as H1.
  cbn [length app] in H1.
  rewrite H1 by (rewrite ?length_app; done || lia).
  rewrite ModelLoader_faded_app. fold l1.
  set (o1 := ModelLoader_faded _ _ b1 _).
  assert (Ho1 : length o1 = length b1) by (by apply ModelLoader_faded_length).
  rewrite <- Ho1.
  destruct (ModelLoader.m_fadeState l1) eqn:Hs1.
  - rewrite ModelLoader_fade_loop_done.
    + by rewrite ModelLoader_fade_after_stopped by (by left).
    + destruct (Z_le_gt_dec (ModelLoader.m_fadeSamplesRemaining l) 0)
        as [Hr | Hr].
      { unfold l1. by rewrite ModelLoader_fade_after_stopped by (by right). }
      destruct (ModelLoader_fade_after_fields l (length b1) Hs ltac:(lia))
        as (F1 & F2 & _).
      fold l1 in F1, F2. rewrite Hs1 in F2.
      destruct (_ <=? _) eqn:Hle in F2; [|done].
      apply Z.leb_le in Hle. lia.
  - rewrite ModelLoader_fade_loop by (rewrite ?Hs1; done).
    by rewrite Hs1.
  - rewrite ModelLoader_fade_loop by (rewrite ?Hs1; done).
    by rewrite Hs1.
Qed.

(** The fade does not depend on how the audio is cut into blocks: running
    it over a block and then over the next one gives the same samples and
    the same loader as running it once over the two blocks joined. *)
Theorem ModelLoader_fade_block_size_independent l (b1 b2 : list F32.t)
    (n2 : nat) :
  (n2 <= length b2)%nat ->
  let first := ModelLoader.applyFade l b1 (length b1) in
  let second := ModelLoader.applyFade (fst first) b2 n2 in
  ModelLoader.applyFade l (b1 ++ b2) (length b1 + n2)
  = (fst second, snd first ++ snd second).
Proof.
  intros Hn first second. subst second first.
  rewrite (ModelLoader_applyFade_closed l b1) by done. cbn [fst snd].
  rewrite (ModelLoader_applyFade_closed _ b2) by done. cbn [fst snd].
  pose proof (ModelLoader_fade_loop_split l b1 b2 n2) as H.
  unfold ModelLoader.applyFade.
  destruct (ModelLoader.m_fadeState l) eqn:Hs.
  - rewrite (ModelLoader_fade_after_stopped l (length b1)) by (by left).
    rewrite (ModelLoader_fade_after_stopped l) by (by left).
    by rewrite Hs.
  - by apply H.
  - by apply H.
Qed.

(** *** Loading and unloading *)

Lemma ModelLoader_await_fade l (rt_samples : nat) :
  ModelLoader.await_fade l rt_samples = ModelLoader_fade_after l rt_samples.
Proof.
  unfold ModelLoader.await_fade.
  by rewrite ModelLoader_applyFade_closed by (by rewrite length_replicate).
Qed.

(** What the wait for the fade-out leaves of the loader. *)
Lemma ModelLoader_fade_out_fields l (rt_samples : nat) :
  let l' := ModelLoader.await_fade (ModelLoader.startFadeOut l) rt_samples in
  ModelLoader.m_loadRequested l' = ModelLoader.m_loadRequested l
  /\ ModelLoader.m_pendingModelPath l' = ModelLoader.m_pendingModelPath l
  /\ ModelLoader.m_workerRunning l' = ModelLoader.m_workerRunning l
  /\ ModelLoader.m_maxBufferSize l' = ModelLoader.m_maxBufferSize l.
Proof.
  intros l'. subst l'. rewrite ModelLoader_await_fade.
  destruct (ModelLoader_fade_after_fields (ModelLoader.startFadeOut l)
              rt_samples)
    as (_ & _ & _ & _ & _ & _ & _ & F1 & F2 & F3 & F4); done.
Qed.

Lemma ModelLoader_doLoadModel_request l (path : string) (rt_samples : nat) :
  let l' := ModelLoader.doLoadModel l path rt_samples in
  ModelLoader.m_loadRequested l' = ModelLoader.m_loadRequested l
  /\ ModelLoader.m_pendingModelPath l' = ModelLoader.m_pendingModelPath l
  /\ ModelLoader.m_workerRunning l' = ModelLoader.m_workerRunning l.
Proof.
  intros l'. subst l'. unfold ModelLoader.doLoadModel.
  destruct (ModelLoader_fade_out_fields l rt_samples) as (F1 & F2 & F3 & _).
  set (l0 := if ModelLoader.m_ready l then _ else l).
  assert (H0 : ModelLoader.m_loadRequested l0 = ModelLoader.m_loadRequested l
               /\ ModelLoader.m_pendingModelPath l0
                  = ModelLoader.m_pendingModelPath l
               /\ ModelLoader.m_workerRunning l0
                  = ModelLoader.m_workerRunning l)
    by (unfold l0; by destruct (ModelLoader.m_ready l)).
  clearbody l0. destruct (CreateFromFile path) as [model|]; [|done].
  cbv zeta. by destruct (Process _ _).
Qed.

Lemma ModelLoader_doLoadModel_success l (path : string) (rt_samples : nat)
    (model : Model) :
  CreateFromFile path = Some model ->
  let l' := ModelLoader.doLoadModel l path rt_samples in
  let sized := SetMaxAudioBufferSize model (ModelLoader.m_maxBufferSize l) in
  ModelLoader.isReady l' = true
  /\ ModelLoader.getModelPath l' = path
  /\ ModelLoader.m_model l'
     = Some (fst (Process sized (replicate ModelLoader.PREWARM_SAMPLES F32.zero)))
  /\ ModelLoader.m_modelSampleRate l' = F32.trunc (GetSampleRate sized)
  /\ ModelLoader.m_normalizationGain l'
     = powf ModelLoader.TEN
         (F32.div
            (F32.add ModelLoader.NEG_SIX
               (GetRecommendedOutputDBAdjustment sized))
            ModelLoader.TWENTY)
  /\ ModelLoader.m_fadeState l' = ModelLoader.FadingIn
  /\ ModelLoader.m_fadeSamplesRemaining l' = ModelLoader.FADE_SAMPLES.
Proof.
  intros Hok l' sized. subst l' sized. unfold ModelLoader.doLoadModel.
  destruct (ModelLoader_fade_out_fields l rt_samples) as (_ & _ & _ & F4).
  set (l0 := if ModelLoader.m_ready l then _ else l).
  assert (H0 : ModelLoader.m_maxBufferSize l0 = ModelLoader.m_maxBufferSize l)
    by (unfold l0; by destruct (ModelLoader.m_ready l)).
  clearbody l0. rewrite Hok. cbv zeta.
  cbn [ModelLoader.set_ready ModelLoader.set_model ModelLoader.m_maxBufferSize].
  rewrite H0.
  by destruct (Process _ _).
Qed.

(** A load that succeeds.  When the library builds a model from the
    requested file, the worker leaves the loader ready, with the requested
    path as its path, the model sized to the maximum block size and
    pre-warmed with 256 zero samples, the normalisation gain
    [10^((-6 + loudness)/20)], the request flag cleared, and a fade-in of
    [FADE_SAMPLES] samples started, whose first sample has gain 0; this
    holds whether or not a model was loaded before and however far its
    fade-out got. *)
Theorem ModelLoader_load_success l (path : string) (rt_samples : nat)
    (model : Model) :
  CreateFromFile path = Some model ->
  ModelLoader.m_workerRunning l = true ->
  let l' :=
    ModelLoader.worker_step (ModelLoader.loadModelAsync l path) rt_samples in
  let sized := SetMaxAudioBufferSize model (ModelLoader.m_maxBufferSize l) in
  ModelLoader.isReady l' = true
  /\ ModelLoader.getModelPath l' = path
  /\ ModelLoader.m_model l'
     = Some (fst (Process sized (replicate ModelLoader.PREWARM_SAMPLES F32.zero)))
  /\ ModelLoader.m_modelSampleRate l' = F32.trunc (GetSampleRate sized)
  /\ ModelLoader.m_normalizationGain l'
     = powf ModelLoader.TEN
         (F32.div
            (F32.add ModelLoader.NEG_SIX
               (GetRecommendedOutputDBAdjustment sized))
            ModelLoader.TWENTY)
  /\ ModelLoader.m_fadeState l' = ModelLoader.FadingIn
  /\ ModelLoader.m_fadeSamplesRemaining l' = ModelLoader.FADE_SAMPLES
  /\ ModelLoader.m_loadRequested l' = false
  /\ ModelLoader_ramp ModelLoader.FadingIn ModelLoader.FADE_SAMPLES = F32.zero.
Proof.
  intros Hok Hrun l' sized. subst l' sized.
  unfold ModelLoader.worker_step.
  change (ModelLoader.m_workerRunning (ModelLoader.loadModelAsync l path))
    with (ModelLoader.m_workerRunning l).
  change (ModelLoader.m_loadRequested (ModelLoader.loadModelAsync l path))
    with true.
  change (ModelLoader.m_pendingModelPath (ModelLoader.loadModelAsync l path))
    with path.
  rewrite Hrun. cbn [andb].
  set (l1 := ModelLoader.set_request _ _ _).
  destruct (ModelLoader_doLoadModel_success l1 path rt_samples model Hok)
    as (H1 & H2 & H3 & H4 & H5 & H6 & H7).
  destruct (ModelLoader_doLoadModel_request l1 path rt_samples)
    as (R1 & _ & _).
  repeat split; try done.
Qed.

(** Requests are not queued.  Of two requests made before the worker wakes
    up only the later one is loaded; the worker clears the request flag, so
    that its next wake-up does nothing; and without a request a wake-up
    leaves the loader as it is. *)
Theorem ModelLoader_latest_request_wins l (p1 p2 : string) (rt rt' : nat) :
  ModelLoader.worker_step
    (ModelLoader.loadModelAsync (ModelLoader.loadModelAsync l p1) p2) rt
  = ModelLoader.worker_step (ModelLoader.loadModelAsync l p2) rt
  /\ (ModelLoader.m_workerRunning l = true ->
      ModelLoader.m_loadRequested (ModelLoader.worker_step l rt) = false
      /\ ModelLoader.worker_step (ModelLoader.worker_step l rt) rt'
         = ModelLoader.worker_step l rt)
  /\ (ModelLoader.m_loadRequested l = false ->
      ModelLoader.worker_step l rt = l).
Proof.
  split; [done|]. split.
  - intros Hrun.
    assert (Hreq : ModelLoader.m_loadRequested (ModelLoader.worker_step l rt)
                   = false).
    { unfold ModelLoader.worker_step. rewrite Hrun. cbn [andb].
      destruct (ModelLoader.m_loadRequested l) eqn:Hq; [|done].
      by destruct (ModelLoader_doLoadModel_request
                     (ModelLoader.set_request l false
                        (ModelLoader.m_pendingModelPath l))
                     (ModelLoader.m_pendingModelPath l) rt) as (-> & _). }
    split; [done|].
    unfold ModelLoader.worker_step at 1. rewrite Hreq.
    by rewrite andb_false_r.
  - intros Hq. unfold ModelLoader.worker_step. rewrite Hq.
    by rewrite andb_false_r.
Qed.

Lemma ModelLoader_unloadModel_fields l (rt_samples : nat) :
  let l' := ModelLoader.unloadModel l rt_samples in
  ModelLoader.isReady l' = false
  /\ ModelLoader.getModelPath l' = EmptyString
  /\ ModelLoader.m_model l' = None.
Proof. done. Qed.

End ModelLoaderFadeProperties.

Lemma ModelLoader_fade_envelope_witness :
  let l := ModelLoader.startFadeIn (@ModelLoader.make identity_audio 48000 128) in
  let buffer := [F32.one; F32.one; F32.one] in
  ModelLoader.m_fadeState l <> ModelLoader.Idle
  /\ 0 < ModelLoader.m_fadeSamplesRemaining l
  /\ snd (ModelLoader.applyFade l buffer 3) !!! 1%nat
     = S754_finite false 8388608 (-31)
  /\ ModelLoader.m_fadeSamplesRemaining (fst (ModelLoader.applyFade l buffer 3))
     = 253.
Proof.
  intros l buffer.
  assert (Hs : ModelLoader.m_fadeState l <> ModelLoader.Idle) by done.
  assert (Hr : 0 < ModelLoader.m_fadeSamplesRemaining l) by reflexivity.
  pose proof (ModelLoader_fade_envelope l buffer 3 1 Hs Hr
                ltac:(simpl; lia)) as H.
  cbv zeta in H. destruct H as (_ & _ & H3 & _ & H5 & _).
  split; [exact Hs|]. split; [exact Hr|]. split.
  - etransitivity; [apply H3; [lia | reflexivity]|]. vm_compute. reflexivity.
  - etransitivity; [exact H5|]. reflexivity.
Defined.

Lemma ModelLoader_fade_block_size_independent_witness :
  let l := ModelLoader.startFadeOut (@ModelLoader.make identity_audio 48000 128) in
  let first := ModelLoader.applyFade l [F32.one; F32.one] 2 in
  let second := ModelLoader.applyFade (fst first) [F32.one] 1 in
  ModelLoader.applyFade l [F32.one; F32.one; F32.one] 3
  = (fst second, snd first ++ snd second).
Proof.
  exact (ModelLoader_fade_block_size_independent
           (ModelLoader.startFadeOut (@ModelLoader.make identity_audio 48000 128))
           [F32.one; F32.one] [F32.one] 1 ltac:(simpl; lia)).
Defined.

Lemma ModelLoader_load_success_witness :
  let l := @ModelLoader.make identity_audio 48000 128 in
  let l' :=
    ModelLoader.worker_step (ModelLoader.loadModelAsync l "amp.nam") 0 in
  @CreateFromFile identity_audio "amp.nam" = Some tt
  /\ ModelLoader.isReady l' = true
  /\ ModelLoader.getModelPath l' = "amp.nam"%string.
Proof.
  intros l l'.
  assert (Hok : @CreateFromFile identity_audio "amp.nam" = Some tt)
    by reflexivity.
  pose proof (@ModelLoader_load_success identity_audio l "amp.nam" 0 tt Hok
                eq_refl) as H.
  cbv zeta in H. destruct H as (H1 & H2 & _).
  split; [exact Hok|]. split; [exact H1 | exact H2].
Defined.

(** ** Engine: unloaded model slots *)

Section EngineUnloadProperties.
Context {NA : NeuralAudio} {DSP : DspBlocks}.

Implicit Types e : Engine.t.

Lemma Engine_stage_model_not_ready e (cell : Engine.SlotCell)
    (bypass : Engine.Flag) (buf : list F32.t) (n : nat) :
  (forall slot, 0 <= slot < 2 -> Engine.isModelReady e slot = false) ->
  Engine.stage_model e cell bypass buf n = (e, buf).
Proof.
  intros Hnr. unfold Engine.stage_model. cbv zeta.
  set (a := Engine.activeSlots e cell).
  destruct (negb (Engine.flags e bypass)); [|done]. cbn [andb].
  destruct (0 <=? a) eqn:H0; [|done].
  destruct (a <? 2) eqn:H2; [|done]. cbn [andb].
  specialize (Hnr a ltac:(lia)). unfold Engine.isModelReady in Hnr.
  replace ((a <? 0) || (a >=? 2)) with false in Hnr by lia.
  by rewrite Hnr.
Qed.

(** Unloading leaves the dry signal.  After [unloadModel] of slot 0 or 1,
    however far the fade-out got before the wait ended, that slot is not
    ready, has no model, both the engine's and the loader's path for it are
    empty, and its loader copies an input block to the output and stays as
    it is.  After [cleanup] both slots are unready with empty paths, and
    the model stage of the audio callbacks leaves the block and the engine
    as they are, whichever slot is active. *)
Theorem Engine_unloaded_model_passes_dry e (slot : Z) (rt rt' : nat)
    (cell : Engine.SlotCell) (bypass : Engine.Flag) (buf input output : list F32.t)
    (n : nat) (applyNormalization : bool) :
  (0 <= slot < 2 ->
   let e' := Engine.unloadModel e slot rt in
   let l' := Engine.m_modelSlots e' slot in
   Engine.isModelReady e' slot = false
   /\ Engine.getModelPath e' slot = EmptyString
   /\ ModelLoader.getModelPath l' = EmptyString
   /\ ModelLoader.m_model l' = None
   /\ ModelLoader.process l' input output n applyNormalization
      = (l', memcpy output input n))
  /\ (let e' := Engine.cleanup e rt rt' in
      (0 <= slot < 2 ->
       Engine.isModelReady e' slot = false
       /\ Engine.getModelPath e' slot = EmptyString)
      /\ Engine.stage_model e' cell bypass buf n = (e', buf)).
Proof.
  split.
  - intros Hs e' l'. subst l' e'.
    unfold Engine.unloadModel, Engine.isModelReady, Engine.getModelPath.
    replace ((slot <? 0) || (slot >=? 2)) with false by lia.
    cbn [Engine.set_models Engine.m_modelSlots Engine.m_modelPaths].
    rewrite !fn_lookup_insert.
    destruct (ModelLoader_unloadModel_fields (Engine.m_modelSlots e slot) rt)
      as (H1 & H2 & H3).
    repeat split; done.
  - intros e'.
    assert (Hnr : forall s, 0 <= s < 2 ->
              Engine.isModelReady e' s = false
              /\ Engine.getModelPath e' s = EmptyString).
    { intros s Hs. subst e'.
      unfold Engine.cleanup, Engine.unloadModel, Engine.isModelReady,
        Engine.getModelPath.
      cbn [Z.ltb Z.geb Z.compare orb Pos.compare Pos.compare_cont].
      replace ((s <? 0) || (s >=? 2)) with false by lia.
      cbn [Engine.set_models Engine.m_modelSlots Engine.m_modelPaths].
      assert (Hcase : s = 0 \/ s = 1) by lia.
      destruct Hcase as [-> | ->].
      - rewrite !fn_lookup_insert_ne, !fn_lookup_insert by done. done.
      - rewrite !fn_lookup_insert. done. }
    split; [apply Hnr|].
    apply Engine_stage_model_not_ready. intros s Hs. by apply Hnr.
Qed.

End EngineUnloadProperties.

(** ** DCBlocker: silence and NaN *)

Lemma DCBlocker_run_silence (R : F32.t) (n : nat) :
  F32.is_finite R = true ->
  DCBlocker.run (DCBlocker.mk F32.zero F32.zero R) (replicate n F32.zero)
  = (DCBlocker.mk F32.zero F32.zero R, replicate n F32.zero).
Proof.
  intros HR. induction n as [|n IH]; [done|].
  cbn [replicate DCBlocker.run DCBlocker.m_x1 DCBlocker.m_y1
       DCBlocker.m_coefficient].
  assert (Hout : F32.add (F32.sub F32.zero F32.zero) (F32.mul R F32.zero)
                 = F32.zero)
    by (destruct R as [[|]|[|]| |[|] m e]; done).
  rewrite Hout, IH. done.
Qed.

(** Digital silence stays silent.  A blocker in its reset state whose
    coefficient is finite turns a block of [+0.0] samples into itself and
    stays in the reset state: it produces no noise, NaN or negative zero of
    its own. *)
Theorem DCBlocker_silence_stays_silent (d : DCBlocker.t) (buffer : list F32.t)
    (n : nat) :
  F32.is_finite (DCBlocker.m_coefficient d) = true ->
  (n <= length buffer)%nat ->
  take n buffer = replicate n F32.zero ->
  DCBlocker.process (DCBlocker.reset d) buffer n = (DCBlocker.reset d, buffer).
Proof.
  intros HR Hn Hz. rewrite DCBlocker_process_take by done.
  rewrite Hz. unfold DCBlocker.reset.
  rewrite DCBlocker_run_silence by done. cbn [fst snd].
  by rewrite <- Hz, take_drop.
Qed.

Lemma DCBlocker_run_nan (xs : list F32.t) (d : DCBlocker.t) :
  F32.is_nan (DCBlocker.m_x1 d) || F32.is_nan (DCBlocker.m_y1 d) = true ->
  Forall (fun y => F32.is_nan y = true) (snd (DCBlocker.run d xs))
  /\ F32.is_nan (DCBlocker.m_x1 (fst (DCBlocker.run d xs)))
     || F32.is_nan (DCBlocker.m_y1 (fst (DCBlocker.run d xs))) = true.
Proof.
  revert d. induction xs as [|x xs IH]; intros d Hd; [done|].
  cbn [DCBlocker.run].
  set (out := F32.add _ _).
  assert (Hout : F32.is_nan out = true).
  { unfold out. apply orb_true_iff in Hd as [Hd | Hd].
    - destruct (DCBlocker.m_x1 d); try done.
      by destruct x, (F32.mul _ _).
    - destruct (DCBlocker.m_y1 d); try done.
      assert (Hm : F32.mul (DCBlocker.m_coefficient d) S754_nan = S754_nan)
        by (by destruct (DCBlocker.m_coefficient d)).
      rewrite Hm. by destruct (F32.sub _ _). }
  specialize (IH (DCBlocker.mk x out (DCBlocker.m_coefficient d))).
  destruct (DCBlocker.run _ xs) as [d' ys]. cbn [fst snd] in *.
  destruct IH as [IH1 IH2].
  { cbn. rewrite Hout. apply orb_true_r. }
  split; [by constructor | done].
Qed.

Lemma DCBlocker_run_app (xs ys : list F32.t) (d : DCBlocker.t) :
  DCBlocker.run d (xs ++ ys)
  = (fst (DCBlocker.run (fst (DCBlocker.run d xs)) ys),
     snd (DCBlocker.run d xs) ++ snd (DCBlocker.run (fst (DCBlocker.run d xs)) ys)).
Proof.
  revert d. induction xs as [|x xs IH]; intros d.
  - cbn. by destruct (DCBlocker.run d ys).
  - cbn [app DCBlocker.run]. rewrite IH.
    set (d1 := DCBlocker.mk _ _ _).
    destruct (DCBlocker.run d1 xs) as [d2 o2]. cbn [fst snd].
    by destruct (DCBlocker.run d2 ys).
Qed.

Lemma DCBlocker_silence_stays_silent_witness :
  let d := DCBlocker.make 48000 in
  F32.is_finite (DCBlocker.m_coefficient d) = true
  /\ DCBlocker.process d (replicate 4 F32.zero) 4
     = (d, replicate 4 F32.zero).
Proof.
  intros d.
  assert (HR : F32.is_finite (DCBlocker.m_coefficient d) = true)
    by (vm_compute; reflexivity).
  split; [exact HR|].
  exact (DCBlocker_silence_stays_silent d (replicate 4 F32.zero) 4 HR
           ltac:(simpl; lia) eq_refl).
Defined.

(** A NaN is never flushed out.  From the first NaN input sample on, every
    output sample of the block is NaN, and the blocker is left with a NaN in
    its state; a blocker with a NaN in its state turns every sample of every
    later block into NaN and keeps a NaN in its state.  Only [reset] ends
    this. *)
Theorem DCBlocker_nan_persists (d : DCBlocker.t) (buffer : list F32.t)
    (n k j : nat) :
  (n <= length buffer)%nat ->
  let poisoned d :=
    F32.is_nan (DCBlocker.m_x1 d) || F32.is_nan (DCBlocker.m_y1 d) in
  let d' := fst (DCBlocker.process d buffer n) in
  let out := snd (DCBlocker.process d buffer n) in
  ((k < n)%nat -> F32.is_nan (buffer !!! k) = true ->
   poisoned d' = true
   /\ ((k <= j < n)%nat -> F32.is_nan (out !!! j) = true))
  /\ (poisoned d = true ->
      poisoned d' = true /\ ((j < n)%nat -> F32.is_nan (out !!! j) = true))
  /\ poisoned (DCBlocker.reset d) = false.
Proof.
  intros Hn poisoned d' out. subst d' out.
  rewrite DCBlocker_process_take by done. cbn [fst snd].
  split; [|split; [|done]].
  - intros Hk Hnan.
    assert (Hsplit : take n buffer
                     = take k buffer ++ [buffer !!! k]
                       ++ drop (S k) (take n buffer)).
    { rewrite <- (take_drop k (take n buffer)) at 1.
      rewrite take_take, Nat.min_l by lia. f_equal.
      rewrite (drop_S _ (buffer !!! k) k); [done|].
      rewrite lookup_take_lt by done.
      apply list_lookup_lookup_total_lt. lia. }
    rewrite Hsplit, DCBlocker_run_app.
    set (d1 := fst (DCBlocker.run d (take k buffer))).
    set (o1 := snd (DCBlocker.run d (take k buffer))).
    assert (Ho1 : length o1 = k).
    { unfold o1. rewrite DCBlocker_run_length, length_take. lia. }
    cbn [app DCBlocker.run].
    set (out := F32.add _ _).
    assert (Hout : F32.is_nan out = true).
    { unfold out. by destruct (buffer !!! k). }
    set (d2 := DCBlocker.mk _ out _).
    destruct (DCBlocker_run_nan (drop (S k) (take n buffer)) d2) as [H1 H2].
    { cbn. rewrite Hout. apply orb_true_r. }
    destruct (DCBlocker.run d2 _) as [d3 o3] eqn:Hrun. cbn [fst snd] in *.
    split; [done|]. intros Hj.
    rewrite lookup_total_app_l.
    2: { rewrite length_app, Ho1. simpl.
         pose proof (DCBlocker_run_length (drop (S k) (take n buffer)) d2) as Hl.
         rewrite Hrun in Hl. cbn in Hl.
         rewrite Hl, length_drop, length_take. lia. }
    rewrite lookup_total_app_r by lia. rewrite Ho1.
    destruct (j - k)%nat as [|i] eqn:Hi; [done|].
    cbn. apply (Forall_lookup_total_1 _ _ i H1).
    pose proof (DCBlocker_run_length (drop (S k) (take n buffer)) d2) as Hl.
    rewrite Hrun in Hl. cbn in Hl.
    rewrite Hl, length_drop, length_take. lia.
  - intros Hp.
    destruct (DCBlocker_run_nan (take n buffer) d Hp) as [H1 H2].
    split; [done|]. intros Hj.
    pose proof (DCBlocker_run_length (take n buffer) d) as Hl.
    rewrite length_take in Hl.
    rewrite lookup_total_app_l by lia.
    apply (Forall_lookup_total_1 _ _ j H1). lia.
Qed.

Lemma DCBlocker_nan_persists_witness :
  let d := DCBlocker.make 48000 in
  let buffer := [F32.one; S754_nan; F32.one] in
  F32.is_nan (buffer !!! 1%nat) = true
  /\ F32.is_nan (snd (DCBlocker.process d buffer 3) !!! 2%nat) = true.
Proof.
  intros d buffer.
  assert (Hnan : F32.is_nan (buffer !!! 1%nat) = true) by reflexivity.
  pose proof (DCBlocker_nan_persists d buffer 3 1 2 ltac:(simpl; lia)) as H.
  cbv zeta in H. destruct H as (H1 & _).
  split; [exact Hnan|].
  exact (proj2 (H1 ltac:(lia) Hnan) ltac:(lia)).
Defined.

(** ** NoiseGate *)

Lemma Zdigits2_shift (m : positive) (k : Z) :
  0 <= k -> Zdigits2 (Z.pos m * 2 ^ k) = Z.pos (digits2_pos m) + k.
Proof.
  intros Hk.
  assert (Hp : 0 < 2 ^ k) by (apply Z.pow_pos_nonneg; lia).
  destruct (Z.pos m * 2 ^ k) as [|p|p] eqn:HM; try lia.
  cbn [Zdigits2].
  pose proof (digits2_pos_bounds p) as [Hlo Hhi].
  pose proof (digits2_pos_bounds m) as [Hlo0 Hhi0].
  set (d := Z.pos (digits2_pos p)) in *.
  set (d0 := Z.pos (digits2_pos m)) in *.
  assert (Hd : 0 < d) by (unfold d; lia).
  assert (Hd0 : 0 < d0) by (unfold d0; lia).
  assert (H1 : 2 ^ (d - 1) < 2 ^ (d0 + k)).
  { rewrite Z.pow_add_r by lia. rewrite <- HM in Hlo. nia. }
  assert (H2 : 2 ^ (d0 - 1 + k) < 2 ^ d).
  { rewrite Z.pow_add_r by lia. rewrite <- HM in Hhi. nia. }
  apply Z.pow_lt_mono_r_iff in H1; [|lia|lia].
  apply Z.pow_lt_mono_r_iff in H2; [|lia|lia].
  lia.
Qed.

(** Rounding an exact multiple [m * 2^k] of a canonical mantissa gives the
    mantissa back. *)
Lemma binary_round_aux_canonical (s : bool) (m : positive) (e k : Z) :
  0 <= k -> bounded F32.prec F32.emax m e = true ->
  binary_round_aux F32.prec F32.emax s (Z.pos m * 2 ^ k) (e - k) loc_Exact
  = S754_finite s m e.
Proof.
  intros Hk Hb. unfold bounded, canonical_mantissa in Hb.
  apply andb_true_iff in Hb as [Hc He]. apply Z.eqb_eq in Hc.
  assert (Hp : 0 < 2 ^ k) by (apply Z.pow_pos_nonneg; lia).
  unfold binary_round_aux, shr_fexp. cbn [shr_record_of_loc].
  rewrite Zdigits2_shift by done.
  replace (Z.pos (digits2_pos m) + k + (e - k))
    with (Z.pos (digits2_pos m) + e) by lia.
  rewrite Hc. replace (e - (e - k)) with k by lia.
  destruct (shr_spec (Z.pos m * 2 ^ k) (e - k) k ltac:(lia)) as (H1 & H2 & H3).
  replace (Z.max 0 k) with k in * by lia.
  destruct (shr _ (e - k) k) as [mrs1 e1]. cbn [fst snd] in *.
  rewrite H2, H3 by (by apply Z.mod_mul; lia).
  rewrite Z.div_mul by lia. cbn [round_nearest_even].
  subst e1. replace (e - k + k) with e by lia.
  cbn [Zdigits2]. rewrite Hc, Z.sub_diag. cbn [shr fst snd shr_m].
  by rewrite He.
Qed.

Lemma F32_mul_one (x : F32.t) :
  valid_binary F32.prec F32.emax x = true -> F32.mul x F32.one = x.
Proof.
  destruct x as [s|s| |s m e]; intros Hv;
    [by destruct s | by destruct s | done |].
  unfold F32.mul, F32.one. cbn [SFmul valid_binary] in *.
  rewrite xorb_false_r.
  replace (Z.pos (m * 8388608)) with (Z.pos m * 2 ^ 23)
    by (by rewrite Pos2Z.inj_mul).
  replace (e + -23) with (e - 23) by lia.
  by apply binary_round_aux_canonical.
Qed.

Lemma F32_mul_zero (x : F32.t) :
  F32.is_finite x = true -> F32_is_zero (F32.mul x F32.zero) = true.
Proof. by destruct x as [s|s| |s m e]. Qed.

Lemma NoiseGate_process_sample_middle (g : NoiseGateCpp.t) (x : F32.t)
    (pre rest : list F32.t) :
  NoiseGateCpp.process_sample (length pre) (g, pre ++ x :: rest)
  = (fst (NoiseGateCpp.process_sample 0 (g, [x])),
     (pre ++ snd (NoiseGateCpp.process_sample 0 (g, [x]))) ++ rest).
Proof.
  unfold NoiseGateCpp.process_sample.
  rewrite list_lookup_total_middle by done.
  replace (length pre) with (length pre + 0)%nat at 1 by lia.
  rewrite insert_app_r. cbn. by rewrite <- app_assoc.
Qed.

Lemma NoiseGate_process_run (xs pre post : list F32.t) (g : NoiseGateCpp.t) :
  for_loop (length pre) (length xs) NoiseGateCpp.process_sample
    (g, pre ++ xs ++ post)
  = (fst (NoiseGateCpp.run g xs), pre ++ snd (NoiseGateCpp.run g xs) ++ post).
Proof.
  revert pre g. induction xs as [|x xs IH]; intros pre g.
  - reflexivity.
  - change (for_loop (length pre) (length (x :: xs))
              NoiseGateCpp.process_sample (g, pre ++ (x :: xs) ++ post))
      with (for_loop (S (length pre)) (length xs) NoiseGateCpp.process_sample
              (NoiseGateCpp.process_sample (length pre)
                 (g, pre ++ x :: (xs ++ post)))).
    rewrite NoiseGate_process_sample_middle. cbn [NoiseGateCpp.run].
    destruct (NoiseGateCpp.process_sample 0 (g, [x])) as [g1 o1] eqn:H1.
    assert (Ho1 : length o1 = 1%nat).
    { unfold NoiseGateCpp.process_sample in H1. injection H1 as _ <-. done. }
    cbn [fst snd].
    specialize (IH (pre ++ o1) g1).
    rewrite length_app, Ho1 in IH.
    replace (length pre + 1)%nat with (S (length pre)) in IH by lia.
    rewrite IH.
    destruct (NoiseGateCpp.run g1 xs) as [g2 ys]. cbn [fst snd].
    by rewrite <- !app_assoc.
Qed.

Lemma NoiseGate_process_take (g : NoiseGateCpp.t) (buffer : list F32.t)
    (n : nat) :
  (n <= length buffer)%nat ->
  NoiseGateCpp.process g buffer n
  = (fst (NoiseGateCpp.run g (take n buffer)),
     snd (NoiseGateCpp.run g (take n buffer)) ++ drop n buffer).
Proof.
  intros Hn. unfold NoiseGateCpp.process.
  pose proof (NoiseGate_process_run (take n buffer) [] (drop n buffer) g) as H.
  simpl in H. rewrite take_drop, length_take_le in H by done. exact H.
Qed.

Lemma NoiseGate_run_app (xs ys : list F32.t) (g : NoiseGateCpp.t) :
  NoiseGateCpp.run g (xs ++ ys)
  = (fst (NoiseGateCpp.run (fst (NoiseGateCpp.run g xs)) ys),
     snd (NoiseGateCpp.run g xs)
     ++ snd (NoiseGateCpp.run (fst (NoiseGateCpp.run g xs)) ys)).
Proof.
  revert g. induction xs as [|x xs IH]; intros g.
  - cbn. by destruct (NoiseGateCpp.run g ys).
  - cbn [app NoiseGateCpp.run].
    destruct (NoiseGateCpp.process_sample 0 (g, [x])) as [g1 o1].
    rewrite IH.
    destruct (NoiseGateCpp.run g1 xs) as [g2 o2]. cbn [fst snd].
    destruct (NoiseGateCpp.run g2 ys). by rewrite <- app_assoc.
Qed.

(** What one sample does to the gate and what it puts out. *)
Lemma NoiseGate_run_cons (g : NoiseGateCpp.t) (x : F32.t) (xs : list F32.t) :
  exists g1 gain,
    NoiseGateCpp.run g (x :: xs)
    = (fst (NoiseGateCpp.run g1 xs),
       F32.mul x gain :: snd (NoiseGateCpp.run g1 xs))
    /\ (gain = F32.one \/ gain = F32.zero)
    /\ NoiseGateCpp.m_gain g1 = gain
    /\ (F32.is_nan (NoiseGateCpp.m_envelope g) = true \/ F32.is_nan x = true ->
        F32.is_nan (NoiseGateCpp.m_envelope g1) = true /\ gain = F32.zero)
    /\ NoiseGateCpp.m_sampleRate g1 = NoiseGateCpp.m_sampleRate g
    /\ NoiseGateCpp.m_thresholdDB g1 = NoiseGateCpp.m_thresholdDB g
    /\ NoiseGateCpp.m_thresholdLinear g1 = NoiseGateCpp.m_thresholdLinear g
    /\ NoiseGateCpp.m_attackCoeff g1 = NoiseGateCpp.m_attackCoeff g
    /\ NoiseGateCpp.m_releaseCoeff g1 = NoiseGateCpp.m_releaseCoeff g.
Proof.
  cbn [NoiseGateCpp.run NoiseGateCpp.process_sample].
  change ([x] !!! 0%nat) with x.
  set (env := if F32.ltb _ _ then _ else _).
  set (gain := if F32.ltb _ env then F32.one else F32.zero).
  set (g1 := NoiseGateCpp.mk _ _ _ _ _ _ _).
  exists g1, gain.
  split; [by destruct (NoiseGateCpp.run g1 xs)|].
  split; [unfold gain; destruct (F32.ltb _ env); [by left | by right]|].
  split; [done|]. split; [|done].
  intros Hnan.
  assert (Henv : F32.is_nan env = true).
  { unfold env. destruct Hnan as [Hn | Hn].
    - by destruct (NoiseGateCpp.m_envelope g).
    - destruct x; try done. cbn.
      replace (F32.ltb (NoiseGateCpp.m_envelope g) S754_nan) with false
        by (by destruct (NoiseGateCpp.m_envelope g)).
      by destruct (F32.mul _ (NoiseGateCpp.m_releaseCoeff g)). }
  split; [done|]. unfold gain.
  destruct env; try done.
  by destruct (NoiseGateCpp.m_thresholdLinear g).
Qed.

Lemma NoiseGate_run_spec (xs : list F32.t) (g : NoiseGateCpp.t) :
  let g' := fst (NoiseGateCpp.run g xs) in
  let out := snd (NoiseGateCpp.run g xs) in
  length out = length xs
  /\ (forall k, (k < length xs)%nat ->
        out !!! k = F32.mul (xs !!! k) F32.one
        \/ out !!! k = F32.mul (xs !!! k) F32.zero)
  /\ (xs <> [] ->
      NoiseGateCpp.m_gain g' = F32.one \/ NoiseGateCpp.m_gain g' = F32.zero)
  /\ NoiseGateCpp.m_sampleRate g' = NoiseGateCpp.m_sampleRate g
  /\ NoiseGateCpp.m_thresholdDB g' = NoiseGateCpp.m_thresholdDB g
  /\ NoiseGateCpp.m_thresholdLinear g' = NoiseGateCpp.m_thresholdLinear g
  /\ NoiseGateCpp.m_attackCoeff g' = NoiseGateCpp.m_attackCoeff g
  /\ NoiseGateCpp.m_releaseCoeff g' = NoiseGateCpp.m_releaseCoeff g.
Proof.
  revert g. induction xs as [|x xs IH]; intros g.
  - cbn. repeat split; try done. intros k Hk. lia.
  - destruct (NoiseGate_run_cons g x xs)
      as (g1 & gain & Hrun & Hgain & Hg1 & _ & C1 & C2 & C3 & C4 & C5).
    cbv zeta. rewrite Hrun. cbn [fst snd].
    destruct (IH g1) as (L & O & G & D1 & D2 & D3 & D4 & D5).
    split; [cbn; by rewrite L|]. split.
    { intros [|k] Hk.
      - cbn. destruct Hgain as [-> | ->]; [by left | by right].
      - cbn. apply O. simpl in Hk. lia. }
    split; [|repeat split; congruence].
    intros _. destruct xs as [|x' xs'].
    + cbn. by rewrite Hg1.
    + by apply G.
Qed.

Lemma NoiseGate_run_nan (xs : list F32.t) (g : NoiseGateCpp.t) :
  F32.is_nan (NoiseGateCpp.m_envelope g) = true ->
  (forall k, (k < length xs)%nat ->
     snd (NoiseGateCpp.run g xs) !!! k = F32.mul (xs !!! k) F32.zero)
  /\ F32.is_nan (NoiseGateCpp.m_envelope (fst (NoiseGateCpp.run g xs))) = true.
Proof.
  revert g. induction xs as [|x xs IH]; intros g Hg.
  - split; [|done]. intros k Hk. simpl in Hk. lia.
  - destruct (NoiseGate_run_cons g x xs)
      as (g1 & gain & Hrun & _ & _ & Hnan & _).
    destruct (Hnan (or_introl Hg)) as [Hg1 ->].
    rewrite Hrun. cbn [fst snd].
    destruct (IH g1 Hg1) as [O E]. split; [|done].
    intros [|k] Hk; [done|]. cbn. apply O. simpl in Hk. lia.
Qed.

(** The gate is a hard gate.  Each of the first [numSamples] output samples
    is the input sample times 1.0 or times 0.0, which for a finite input
    is the input itself, bit for bit, or a zero; the rest of the buffer is
    left as it was.  After a block the stored gain is 1.0 or 0.0, and the
    threshold and the two coefficients are what they were. *)
Theorem NoiseGate_output_is_input_or_zero (g : NoiseGateCpp.t)
    (buffer : list F32.t) (n k : nat) :
  (n <= length buffer)%nat ->
  let g' := fst (NoiseGateCpp.process g buffer n) in
  let out := snd (NoiseGateCpp.process g buffer n) in
  length out = length buffer
  /\ ((k < n)%nat ->
      out !!! k = F32.mul (buffer !!! k) F32.one
      \/ out !!! k = F32.mul (buffer !!! k) F32.zero)
  /\ ((k < n)%nat -> F32_finite_sample (buffer !!! k) = true ->
      out !!! k = buffer !!! k \/ F32_is_zero (out !!! k) = true)
  /\ ((n <= k)%nat -> out !!! k = buffer !!! k)
  /\ ((0 < n)%nat ->
      NoiseGateCpp.m_gain g' = F32.one \/ NoiseGateCpp.m_gain g' = F32.zero)
  /\ NoiseGateCpp.getThreshold g' = NoiseGateCpp.getThreshold g
  /\ NoiseGateCpp.m_thresholdLinear g' = NoiseGateCpp.m_thresholdLinear g
  /\ NoiseGateCpp.m_attackCoeff g' = NoiseGateCpp.m_attackCoeff g
  /\ NoiseGateCpp.m_releaseCoeff g' = NoiseGateCpp.m_releaseCoeff g.
Proof.
  intros Hn g' out. subst g' out.
  rewrite NoiseGate_process_take by done. cbn [fst snd].
  destruct (NoiseGate_run_spec (take n buffer) g)
    as (L & O & G & _ & D2 & D3 & D4 & D5).
  rewrite length_take in L, O.
  replace (n `min` length buffer)%nat with n in L, O by lia.
  assert (Hk : (k < n)%nat ->
               (snd (NoiseGateCpp.run g (take n buffer)) ++ drop n buffer) !!! k
               = F32.mul (buffer !!! k) F32.one
               \/ (snd (NoiseGateCpp.run g (take n buffer)) ++ drop n buffer)
                  !!! k
                  = F32.mul (buffer !!! k) F32.zero).
  { intros Hlt. rewrite lookup_total_app_l by lia.
    rewrite <- (lookup_total_take_lt buffer n k) by lia. by apply O. }
  split; [rewrite length_app, L, length_drop; lia|].
  split; [exact Hk|]. split.
  { intros Hlt Hfin. apply andb_true_iff in Hfin as [Hf Hv].
    destruct (Hk Hlt) as [-> | ->].
    - left. by apply F32_mul_one.
    - right. by apply F32_mul_zero. }
  split.
  { intros Hge. rewrite lookup_total_app_r by lia.
    rewrite L, lookup_total_drop. f_equal. lia. }
  split; [|done].
  intros Hpos. apply G. destruct buffer; [simpl in Hn; lia|].
  destruct n; [lia|done].
Qed.

Lemma NoiseGate_output_is_input_or_zero_witness :
  let g := @NoiseGateCpp.make identity_audio (fun _ => F32.half) 48000 in
  let buffer := [F32.one; F32.half] in
  let out := snd (NoiseGateCpp.process g buffer 2) in
  F32_finite_sample (buffer !!! 0%nat) = true
  /\ (out !!! 0%nat = buffer !!! 0%nat \/ F32_is_zero (out !!! 0%nat) = true).
Proof.
  intros g buffer out.
  assert (Hfin : F32_finite_sample (buffer !!! 0%nat) = true) by reflexivity.
  pose proof (NoiseGate_output_is_input_or_zero g buffer 2 0
                ltac:(simpl; lia)) as H.
  cbv zeta in H. destruct H as (_ & _ & H3 & _).
  split; [exact Hfin|]. exact (H3 ltac:(lia) Hfin).
Defined.

Section NoiseGateProperties.
Context {NA : NeuralAudio} (expf : F32.t -> F32.t).

(** A NaN shuts the gate for good.  A NaN input sample makes the envelope
    NaN, and with a NaN envelope the gate is closed for every sample: from
    the NaN sample on, each output of this block and of every later block
    is the input times 0.0, and the envelope stays NaN.  [setThreshold]
    leaves the envelope as it is; only [reset], or a new gate, starts from
    an envelope of 0. *)
Theorem NoiseGate_nan_closes_gate (g : NoiseGateCpp.t) (buffer : list F32.t)
    (n k j : nat) (thresholdDB : F32.t) (sampleRate : Z) :
  (n <= length buffer)%nat ->
  let g' := fst (NoiseGateCpp.process g buffer n) in
  let out := snd (NoiseGateCpp.process g buffer n) in
  ((k < n)%nat -> F32.is_nan (buffer !!! k) = true ->
   F32.is_nan (NoiseGateCpp.m_envelope g') = true
   /\ ((k <= j < n)%nat -> out !!! j = F32.mul (buffer !!! j) F32.zero))
  /\ (F32.is_nan (NoiseGateCpp.m_envelope g) = true ->
      F32.is_nan (NoiseGateCpp.m_envelope g') = true
      /\ ((j < n)%nat -> out !!! j = F32.mul (buffer !!! j) F32.zero))
  /\ NoiseGateCpp.m_envelope (NoiseGateCpp.setThreshold g thresholdDB)
     = NoiseGateCpp.m_envelope g
  /\ NoiseGateCpp.m_envelope (NoiseGateCpp.reset g) = F32.zero
  /\ NoiseGateCpp.m_envelope (NoiseGateCpp.make expf sampleRate) = F32.zero.
Proof.
  intros Hn g' out. subst g' out.
  rewrite NoiseGate_process_take by done. cbn [fst snd].
  split; [|split; [|done]].
  - intros Hk Hnan.
    assert (Hsplit : take n buffer
                     = take k buffer ++ buffer !!! k
                       :: drop (S k) (take n buffer)).
    { rewrite <- (take_drop k (take n buffer)) at 1.
      rewrite take_take, Nat.min_l by lia. f_equal.
      rewrite (drop_S _ (buffer !!! k) k); [done|].
      rewrite lookup_take_lt by done.
      apply list_lookup_lookup_total_lt. lia. }
    rewrite Hsplit, NoiseGate_run_app.
    set (g1 := fst (NoiseGateCpp.run g (take k buffer))).
    set (o1 := snd (NoiseGateCpp.run g (take k buffer))).
    assert (Ho1 : length o1 = k).
    { unfold o1.
      destruct (NoiseGate_run_spec (take k buffer) g) as (L & _).
      rewrite L, length_take. lia. }
    set (rest := drop (S k) (take n buffer)).
    assert (Hrest : length rest = (n - S k)%nat)
      by (unfold rest; rewrite length_drop, length_take; lia).
    destruct (NoiseGate_run_cons g1 (buffer !!! k) rest)
      as (g2 & gain & Hrun & _ & _ & Hn2 & _).
    destruct (Hn2 (or_intror Hnan)) as [Hg2 ->].
    rewrite Hrun. cbn [fst snd].
    destruct (NoiseGate_run_nan rest g2 Hg2) as [O E].
    split; [done|]. intros Hj.
    rewrite lookup_total_app_l.
    2: { rewrite length_app, Ho1. cbn.
         destruct (NoiseGate_run_spec rest g2) as (L & _).
         rewrite L, Hrest. lia. }
    rewrite lookup_total_app_r by lia. rewrite Ho1.
    destruct (j - k)%nat as [|i] eqn:Hi.
    + replace j with k by lia. done.
    + cbn. rewrite O by lia. f_equal. unfold rest.
      rewrite lookup_total_drop, lookup_total_take_lt by lia. f_equal. lia.
  - intros Hp.
    destruct (NoiseGate_run_nan (take n buffer) g Hp) as [O E].
    split; [done|]. intros Hj.
    destruct (NoiseGate_run_spec (take n buffer) g) as (L & _).
    rewrite length_take in L, O.
    rewrite lookup_total_app_l by lia.
    rewrite O by lia. by rewrite lookup_total_take_lt by lia.
Qed.

End NoiseGateProperties.

Lemma NoiseGate_nan_closes_gate_witness :
  let g := @NoiseGateCpp.make identity_audio (fun _ => F32.half) 48000 in
  let buffer := [F32.one; S754_nan; F32.one] in
  F32.is_nan (buffer !!! 1%nat) = true
  /\ snd (NoiseGateCpp.process g buffer 3) !!! 2%nat = F32.zero.
Proof.
  intros g buffer.
  assert (Hnan : F32.is_nan (buffer !!! 1%nat) = true) by reflexivity.
  pose proof (@NoiseGate_nan_closes_gate identity_audio (fun _ => F32.half)
                g buffer 3 1 2 F32.zero 48000 ltac:(simpl; lia)) as H.
  cbv zeta in H. destruct H as (H1 & _).
  split; [exact Hnan|].
  etransitivity; [exact (proj2 (H1 ltac:(lia) Hnan) ltac:(lia))|].
  reflexivity.
Defined.

(** The gate does not depend on how the audio is cut into blocks:
    processing a block and then the next one gives the same samples and the
    same gate as processing the two blocks joined. *)
Theorem NoiseGate_block_size_independent (g : NoiseGateCpp.t)
    (b1 b2 : list F32.t) (n2 : nat) :
  (n2 <= length b2)%nat ->
  let first := NoiseGateCpp.process g b1 (length b1) in
  let second := NoiseGateCpp.process (fst first) b2 n2 in
  NoiseGateCpp.process g (b1 ++ b2) (length b1 + n2)
  = (fst second, snd first ++ snd second).
Proof.
  intros Hn first second. subst second first.
  rewrite !NoiseGate_process_take by (rewrite ?length_app; lia).
  cbn [fst snd].
  rewrite take_app_add, drop_app_add.
  rewrite (take_ge b1 (length b1)), (drop_ge b1 (length b1)), app_nil_r by lia.
  rewrite NoiseGate_run_app. cbn [fst snd]. by rewrite <- app_assoc.
Qed.

Lemma NoiseGate_block_size_independent_witness :
  let g := @NoiseGateCpp.make identity_audio (fun _ => F32.half) 48000 in
  let first := NoiseGateCpp.process g [F32.one; F32.half] 2 in
  let second := NoiseGateCpp.process (fst first) [F32.one; F32.one] 1 in
  NoiseGateCpp.process g [F32.one; F32.half; F32.one; F32.one] 3
  = (fst second, snd first ++ snd second).
Proof.
  exact (NoiseGate_block_size_independent
           (@NoiseGateCpp.make identity_audio (fun _ => F32.half) 48000)
           [F32.one; F32.half] [F32.one; F32.one] 1 ltac:(simpl; lia)).
Defined.
